(** * Inventory back end: transactional ledger and costing engine

    A shallow embedding of the sale service ([createSale],
    [validateAndCompute]), the purchase service ([createPurchase]), their
    controllers ([postSale], [postPurchase]) and the reports controller:
    its FIFO aging helpers ([applyFifo], [daysBetween], [getAgingBucket],
    [getBucketDiscountPercent], [getDiscountSuggestion]) and its handlers
    ([getDailySales], [getSalesSummary], [getSalesList], [getSalesProfit],
    [getInventoryValuation], [getInventoryAging]), followed by the
    properties proved about them.

    Conventions of the embedding.
    - A number that a request or the store supplies is the rational it
      denotes, or the single value [NonFin] that stands for [NaN] and the
      two infinities; every place where the source could meet a
      non-finite value guards it with [Number.isFinite] or
      [Number.isInteger] before comparing, so one such value is enough.
    - Double-precision arithmetic is [Binary64]: an operation yields the
      double nearest to its exact result, a tie going to the even
      significand, with subnormals, the two infinities and [NaN]; the
      sign of zero is not tracked.  The discount check of the sale
      service ([checkDiscountRules]), the discount suggestion of the
      aging report ([getDiscountSuggestion]), the purchase service of
      [Machine] and the sale service of [MachineSale] compute with it.
    - [SaleService], [PurchaseService] and the report handlers add and
      multiply amounts as rationals.  What is proved about them concerns
      counts, stock, rows, the order of the checks and the errors, and
      amounts at the resolution of a cent.  [Machine] and [MachineSale]
      are the purchase service and the sale service with the arithmetic
      of the engine and the rounding of the columns; what is proved of
      the amounts that are stored is proved about them.
    - Integer columns and counters are [Z]; text columns are [string];
      instants are milliseconds since the epoch.
    - The entity store is a record of tables (lists of rows, oldest
      first), with the columns the services read or write.  Row ids come
      from a counter.  Of the constraints of the schema, the unique index
      on [Sale.billNumber] and the foreign key of
      [PurchaseItem.productVariantId] are enforced.  A [DECIMAL(12,2)]
      column of [Machine] and [MachineSale] rounds the numeral it
      receives to two decimals, a half going away from zero, and refuses
      what does not fit; elsewhere it keeps the value it is given.
    - A Prisma interactive transaction is a state-and-error computation
      whose writes are dropped when the callback throws.  Requests are
      handled one at a time.
    - A request body is taken after JSON parsing and after the coercions
      [Number(...)] that the services apply to its numeric fields; the
      records that describe it say how a missing or ill-typed field is
      represented.  A dictionary built from rows is the list of its own
      properties; where a property depends on it, the key looked up is
      required not to be the name of a member of [Object.prototype].
    - [orderBy: { billNumber: 'desc' }] compares strings by code point.
    - A handler of the reports controller is a function of its query
      parameters and the store to what it answers.  A query parameter is
      absent or a string; [getInventoryAging_request] also takes a
      [categoryId] that is an array or an object.  What [Date] gives that
      depends on the host (the clock, the time zone, the date parser) is
      a parameter of the handler.  A report row has the fields computed
      from the columns of the store; the names and attributes that are
      only passed through are left out. *)

From Stdlib Require Import ZArith QArith Qround Qminmax Qabs Qpower Qreduction Qcanon.
From Stdlib Require Import List String Ascii Bool Lia Lqa.
From Stdlib Require Import NArith DecimalString DecimalN OrderedTypeEx.
From Stdlib Require Import Permutation Sorted.
From Stdlib Require SpecFloat.
Import ListNotations.

Local Open Scope Z_scope.

(** ** JavaScript numbers *)

Module Js.

Inductive number : Type :=
| Fin (q : Q)
| NonFin.

(** [Number.isFinite] *)
Definition isFinite (n : number) : bool :=
  match n with Fin _ => true | NonFin => false end.

(** [Number.isInteger] on a finite value *)
Definition isIntegerQ (q : Q) : bool :=
  (Qnum q mod Zpos (Qden q) =? 0)%Z.

Definition isInteger (n : number) : bool :=
  match n with Fin q => isIntegerQ q | NonFin => false end.

(** Strict comparison [x < y] of finite numbers. *)
Definition Qltb (x y : Q) : bool := negb (Qle_bool y x).

(** [Math.round]: nearest integer, halves towards plus infinity. *)
Definition MathRound (x : Q) : Z := Qfloor (x + (1 # 2))%Q.

(** [Math.round(x * 100) / 100], the rounding to cents used throughout. *)
Definition round2 (x : Q) : Q := (inject_Z (MathRound (x * 100)) / 100)%Q.

(** An integral number as an integer column receives it. *)
Definition toInt (q : Q) : Z := Qfloor q.

(** An amount with at most two decimals, as a [DECIMAL(12,2)] column
    holds it. *)
Definition isCents (q : Q) : Prop := isIntegerQ (q * 100) = true.

(** [n] is the finite number [q]. *)
Definition sameNumber (n : number) (q : Q) : Prop :=
  match n with Fin p => (p == q)%Q | NonFin => False end.

(** [Math.abs] *)
Definition MathAbs (x : Q) : Q := Qabs x.

(** [Math.min] *)
Definition MathMin (x y : Q) : Q := Qmin x y.


End Js.

(** ** Double-precision arithmetic *)

Module Binary64.
Import Js.

(** A Number value: a finite double, taken as the rational that it is,
    an infinity or [NaN].  The sign of a zero is not kept; no operation
    of the source divides by a zero that it computed. *)
Inductive double : Type :=
| Finite (q : Q)
| PosInf
| NegInf
| NaN.

(** The exponent [e] of the binade of a positive rational:
    [2^e <= a < 2^(e+1)]. *)
Definition binade (a : Q) : Z :=
  let k := Z.log2 (Qnum a) - Z.log2 (Zpos (Qden a)) in
  if Qle_bool (2 ^ k) a then k else k - 1.

(** The exponent of the last place of the doubles around [a]: 53
    significant bits, and no finer than the subnormal numbers. *)
Definition lastPlace (a : Q) : Z := Z.max (binade a - 52) (-1074).

(** The nearest integer, a half going to the even one. *)
Definition roundHalfEven (x : Q) : Z :=
  let f := Qfloor x in
  match (x - inject_Z f ?= 1 # 2)%Q with
  | Lt => f
  | Gt => f + 1
  | Eq => if Z.even f then f else f + 1
  end.

(** The Number value for the real number [x], as IEEE 754 rounds to
    nearest: the double nearest to [x], a tie going to the one with an
    even significand, and an infinity from [2^1024]. *)
Definition nearest (x : Q) : double :=
  if Qeq_bool x 0 then Finite 0
  else
    let e := lastPlace (Qabs x) in
    let y := (inject_Z (roundHalfEven (x / 2 ^ e)) * 2 ^ e)%Q in
    if Qle_bool (2 ^ 1024) (Qabs y)
    then if Qle_bool 0 x then PosInf else NegInf
    else Finite (Qred y).

Definition opp (x : double) : double :=
  match x with
  | Finite a => Finite (- a)
  | PosInf => NegInf
  | NegInf => PosInf
  | NaN => NaN
  end.

(** [x + y] *)
Definition add (x y : double) : double :=
  match x, y with
  | Finite a, Finite b => nearest (a + b)
  | NaN, _ | _, NaN => NaN
  | PosInf, NegInf | NegInf, PosInf => NaN
  | PosInf, _ | _, PosInf => PosInf
  | NegInf, _ | _, NegInf => NegInf
  end.

(** [x - y] *)
Definition sub (x y : double) : double := add x (opp y).

(** An infinity of the sign of [a * inf], [NaN] for [a = 0]. *)
Definition scaled (a : Q) (inf : double) : double :=
  if Qeq_bool a 0 then NaN else if Qle_bool 0 a then inf else opp inf.

(** [x * y] *)
Definition mul (x y : double) : double :=
  match x, y with
  | Finite a, Finite b => nearest (a * b)
  | NaN, _ | _, NaN => NaN
  | Finite a, inf | inf, Finite a => scaled a inf
  | PosInf, PosInf | NegInf, NegInf => PosInf
  | PosInf, NegInf | NegInf, PosInf => NegInf
  end.

(** [x / y] *)
Definition div (x y : double) : double :=
  match x, y with
  | Finite a, Finite b =>
      if Qeq_bool b 0 then scaled a PosInf else nearest (a / b)
  | NaN, _ | _, NaN => NaN
  | Finite _, _ => Finite 0
  | inf, Finite b => if Qle_bool 0 b then inf else opp inf
  | _, _ => NaN
  end.

(** [Math.abs(x)] *)
Definition abs (x : double) : double :=
  match x with
  | Finite a => Finite (Qabs a)
  | PosInf | NegInf => PosInf
  | NaN => NaN
  end.

(** [x < y] *)
Definition ltb (x y : double) : bool :=
  match x, y with
  | Finite a, Finite b => Qltb a b
  | NegInf, Finite _ | NegInf, PosInf | Finite _, PosInf => true
  | _, _ => false
  end.

(** [x <= y] *)
Definition leb (x y : double) : bool :=
  match x, y with
  | Finite a, Finite b => Qle_bool a b
  | NegInf, Finite _ | NegInf, PosInf | Finite _, PosInf => true
  | NegInf, NegInf | PosInf, PosInf => true
  | _, _ => false
  end.

(** [Math.round(x)]; the integer nearest to a double is a double. *)
Definition round (x : double) : double :=
  match x with
  | Finite a => Finite (inject_Z (MathRound a))
  | _ => x
  end.

(** [Math.round(x * 100) / 100] *)
Definition round2 (x : double) : double :=
  div (round (mul x (Finite 100))) (Finite 100).

Definition ofNumber (n : number) : double :=
  match n with Fin q => Finite q | NonFin => NaN end.

Definition toNumber (x : double) : number :=
  match x with Finite q => Fin q | _ => NonFin end.

(** Half a unit in the last place of a double, relative to its value,
    and half the smallest subnormal number. *)
Definition halfUlp : Q := 1 # 9007199254740992.
Definition eta : Q := 2 ^ (-1075).

(** The operations of the reference semantics of IEEE 754 of the standard
    library ([SpecFloat], at precision 53 and maximal exponent 1024), to
    compare with: a float of the reference as a [double], and the float
    for a rational whose numerator and denominator are doubles. *)
Definition ofSpecFloat (f : SpecFloat.spec_float) : double :=
  match f with
  | SpecFloat.S754_zero _ => Finite 0
  | SpecFloat.S754_finite s m e =>
      Finite (Qred ((if s then -1 else 1) * inject_Z (Zpos m) * 2 ^ e))
  | SpecFloat.S754_infinity s => if s then NegInf else PosInf
  | SpecFloat.S754_nan => NaN
  end.

Definition toSpecFloat (x : Q) : SpecFloat.spec_float :=
  SpecFloat.SFdiv 53 1024
    (SpecFloat.binary_normalize 53 1024 (Qnum x) 0 false)
    (SpecFloat.binary_normalize 53 1024 (Zpos (Qden x)) 0 false).

Definition same (x y : double) : bool :=
  match x, y with
  | Finite a, Finite b => Qeq_bool a b
  | PosInf, PosInf | NegInf, NegInf | NaN, NaN => true
  | _, _ => false
  end.

(** The rounding and the four operations give, on [a] and [b], what the
    reference gives. *)
Definition agreesWithReference (a b : Q) : bool :=
  let x := toSpecFloat a in
  let y := toSpecFloat b in
  same (nearest a) (ofSpecFloat x)
  && same (nearest b) (ofSpecFloat y)
  && same (add (nearest a) (nearest b)) (ofSpecFloat (SpecFloat.SFadd 53 1024 x y))
  && same (sub (nearest a) (nearest b)) (ofSpecFloat (SpecFloat.SFsub 53 1024 x y))
  && same (mul (nearest a) (nearest b)) (ofSpecFloat (SpecFloat.SFmul 53 1024 x y))
  && same (div (nearest a) (nearest b)) (ofSpecFloat (SpecFloat.SFdiv 53 1024 x y)).

(** Sample pairs of rationals for the comparison: the terms of a linear
    congruential sequence as numerators and denominators, a power of two
    as scale and a sign. *)
Definition nextSeed (x : Z) : Z := (x * 25214903917 + 11) mod 2 ^ 48.

Fixpoint samples (n : nat) (x : Z) : list (Q * Q) :=
  match n with
  | O => []
  | S n =>
      let x1 := nextSeed x in
      let x2 := nextSeed x1 in
      let x3 := nextSeed x2 in
      let x4 := nextSeed x3 in
      let x5 := nextSeed x4 in
      let sign := if Z.even (x5 / 2 ^ 20) then 1 else -1 in
      let scale := 2 ^ ((x5 / 2 ^ 30) mod 64) in
      ((sign * x1 * scale # Z.to_pos (x2 + 1))%Q, (x3 + 1 # Z.to_pos (x4 + 1))%Q)
        :: samples n x5
  end.

End Binary64.

Declare Scope double_scope.
Delimit Scope double_scope with double.
Notation "x + y" := (Binary64.add x y) : double_scope.
Notation "x - y" := (Binary64.sub x y) : double_scope.
Notation "x * y" := (Binary64.mul x y) : double_scope.
Notation "x / y" := (Binary64.div x y) : double_scope.
Notation "x <? y" := (Binary64.ltb x y) : double_scope.
Notation "x <=? y" := (Binary64.leb x y) : double_scope.

(** ** Reports controller: inventory aging helpers *)

Module Reports.
Import Js.

(** A purchase cost layer [{ purchasedAt, quantity, effectiveUnitCost }];
    [purchasedAt] is an instant in milliseconds since the epoch. *)
Record Layer : Type := mkLayer {
  purchasedAt : Z;
  quantity : Z;
  effectiveUnitCost : Q
}.

Definition AGING_BUCKETS : list string :=
  ["0-30"; "31-60"; "61-90"; "90+"]%string.

Definition getAgingBucket (ageDays : Z) : string :=
  if ageDays <=? 30 then "0-30"
  else if ageDays <=? 60 then "31-60"
  else if ageDays <=? 90 then "61-90"
  else "90+".

Definition getBucketDiscountPercent (bucket : string) : Q :=
  if String.eqb bucket "0-30" then 0%Q
  else if String.eqb bucket "31-60" then 5%Q
  else if String.eqb bucket "61-90" then 10%Q
  else if String.eqb bucket "90+" then 20%Q
  else 0%Q.

Record Suggestion : Type := mkSuggestion {
  suggestedDiscountPercent : Q;
  suggestedPrice : number;
  discountCappedByCost : bool
}.

Definition getDiscountSuggestion (bucket : string)
    (defaultSellingPrice maxDiscountPercent costPrice : number) : Suggestion :=
  let bucketPct := getBucketDiscountPercent bucket in
  let maxPct := match maxDiscountPercent with Fin m => m | NonFin => 0%Q end in
  let suggestedDiscountPercent := MathMin bucketPct maxPct in
  let sellingPrice := match defaultSellingPrice with Fin p => p | NonFin => 0%Q end in
  let suggestedPrice :=
    if Qltb 0 sellingPrice
    then Binary64.round2
           (Binary64.Finite sellingPrice
            * (Binary64.Finite 1
               - Binary64.Finite suggestedDiscountPercent / Binary64.Finite 100))%double
    else Binary64.ofNumber costPrice in
  match costPrice with
  | Fin c =>
      if (suggestedPrice <? Binary64.Finite c)%double
      then mkSuggestion suggestedDiscountPercent
                        (Binary64.toNumber (Binary64.round2 (Binary64.Finite c))) true
      else mkSuggestion suggestedDiscountPercent (Binary64.toNumber suggestedPrice) false
  | NonFin => mkSuggestion suggestedDiscountPercent (Binary64.toNumber suggestedPrice) false
  end.

Definition MS_PER_DAY : Z := 24 * 60 * 60 * 1000.

(** [daysBetween]; [startOfDay] is [Date.prototype.setHours(0, 0, 0, 0)]
    in the time zone of the host, which the source leaves to the
    environment. *)
Definition daysBetween (startOfDay : Z -> Z) (asOfDate purchasedAt : Z) : Z :=
  let a := startOfDay asOfDate in
  let p := startOfDay purchasedAt in
  (a - p) / MS_PER_DAY.

(** One turn of the loop of [applyFifo]: the state is the pair of
    [toConsume] and the array [remaining]. *)
Definition applyFifo_body (st : Z * list Layer) (layer : Layer) : Z * list Layer :=
  let '(toConsume, remaining) := st in
  let qty := quantity layer in
  let consume := Z.min qty toConsume in
  let toConsume := toConsume - consume in
  let remainingQty := qty - consume in
  if 0 <? remainingQty
  then (toConsume,
        remaining ++ [mkLayer (purchasedAt layer) remainingQty (effectiveUnitCost layer)])
  else (toConsume, remaining).

Definition applyFifo (layers : list Layer) (totalSold : Z) : list Layer :=
  snd (fold_left applyFifo_body layers (totalSold, [])).

(** Vocabulary of the aging properties. *)

Definition totalQuantity (layers : list Layer) : Z :=
  fold_right (fun l acc => quantity l + acc) 0 layers.

Definition positiveLayers (layers : list Layer) : Prop :=
  Forall (fun l => 0 < quantity l) layers.

(** [remnant out inp]: [out] lists, in the order of [inp], some of the
    layers of [inp], each with its date and cost and with a positive
    quantity not above the original one. *)
Inductive remnant : list Layer -> list Layer -> Prop :=
| remnant_nil : remnant [] []
| remnant_drop l out inp : remnant out inp -> remnant out (l :: inp)
| remnant_keep o l out inp :
    purchasedAt o = purchasedAt l ->
    effectiveUnitCost o = effectiveUnitCost l ->
    0 < quantity o <= quantity l ->
    remnant out inp ->
    remnant (o :: out) (l :: inp).

End Reports.

(** ** JavaScript strings *)

Module JsString.

Definition isWhiteSpace (c : ascii) : bool :=
  let n := N_of_ascii c in
  ((9 <=? n) && (n <=? 13) || (n =? 32))%N.

Fixpoint trimStart (s : string) : string :=
  match s with
  | String c r => if isWhiteSpace c then trimStart r else s
  | EmptyString => EmptyString
  end.

Definition reverse (s : string) : string :=
  string_of_list_ascii (rev (list_ascii_of_string s)).

(** [String.prototype.trim] *)
Definition trim (s : string) : string :=
  reverse (trimStart (reverse (trimStart s))).

(** [s.slice(n)] for [0 <= n] *)
Fixpoint slice (n : nat) (s : string) : string :=
  match n, s with
  | O, _ => s
  | S k, String _ r => slice k r
  | S _, EmptyString => EmptyString
  end.

(** [s.startsWith(p)] *)
Definition startsWith (s p : string) : bool := String.prefix p s.

(** [s.padStart(len, c)] for a filler of one character *)
Definition padStart (len : nat) (c : ascii) (s : string) : string :=
  (string_of_list_ascii (repeat c (len - String.length s)) ++ s)%string.

(** [String(n)] for a natural number: its decimal digits *)
Definition ofN (n : N) : string := NilEmpty.string_of_uint (N.to_uint n).

Definition digitValue (c : ascii) : option N :=
  let n := N_of_ascii c in
  if ((48 <=? n) && (n <=? 57))%N then Some (n - 48)%N else None.

(** The longest run of decimal digits at the head of [s], as a number;
    [acc] is [None] until a digit has been read. *)
Fixpoint parseDigits (s : string) (acc : option N) : option N :=
  match s with
  | String c r =>
      match digitValue c with
      | Some d =>
          parseDigits r (Some (10 * match acc with Some a => a | None => 0 end + d)%N)
      | None => acc
      end
  | EmptyString => acc
  end.

(** [parseInt(s, 10)]; [None] is [NaN]. *)
Definition parseInt (s : string) : option Z :=
  match trimStart s with
  | String "-"%char r => option_map (fun n => - Z.of_N n) (parseDigits r None)
  | String "+"%char r => option_map Z.of_N (parseDigits r None)
  | t => option_map Z.of_N (parseDigits t None)
  end.

(** [[...new Set(xs)]]: first occurrences, in order *)
Fixpoint uniq (xs : list string) : list string :=
  match xs with
  | [] => []
  | x :: r => x :: filter (fun y => negb (String.eqb y x)) (uniq r)
  end.

Definition includes (xs : list string) (x : string) : bool :=
  existsb (String.eqb x) xs.

End JsString.

(** ** Entity store *)

Module Db.
Import Js.

Record Supplier : Type := mkSupplier {
  supplier_id : string;
  supplier_name : string
}.

Record ProductVariant : Type := mkProductVariant {
  variant_id : string;
  mrp : number;
  default_selling_price : number;
  max_discount_percent : number
}.

Record Product : Type := mkProduct {
  product_id : string;
  sku : string;
  productVariantId : string;
  supplierId : string;
  quantityInStock : Z
}.

Record Purchase : Type := mkPurchase {
  purchase_id : string;
  purchase_supplierId : string;
  purchasedAt : Z;
  invoiceNo : option string;
  notes : option string;
  extraCharges : option Q
}.

Record PurchaseItem : Type := mkPurchaseItem {
  purchaseItem_id : string;
  purchaseId : string;
  purchaseItem_productVariantId : string;
  purchaseItem_quantity : Z;
  unitCost : Q;
  effectiveUnitCost : Q
}.

Record Sale : Type := mkSale {
  sale_id : string;
  billNumber : string;
  totalAmount : Q;
  soldAt : Z
}.

Record SaleItem : Type := mkSaleItem {
  saleItem_id : string;
  saleId : string;
  productId : string;
  saleItem_quantity : Z;
  unitPrice : Q;
  lineTotal : Q
}.

Record Payment : Type := mkPayment {
  payment_id : string;
  payment_saleId : string;
  mode : string;
  provider : option string;
  amount : Q
}.

(** The product row [p] with its stock set to [q]. *)
Definition setStock (p : Product) (q : Z) : Product :=
  mkProduct (product_id p) (sku p) (productVariantId p) (supplierId p) q.

(** The tables, and the counter from which row ids are drawn. *)
Record Store : Type := mkStore {
  suppliers : list Supplier;
  productVariants : list ProductVariant;
  products : list Product;
  purchases : list Purchase;
  purchaseItems : list PurchaseItem;
  sales : list Sale;
  saleItems : list SaleItem;
  payments : list Payment;
  nextId : N
}.

(** The invariant of the [Product] table: no stock below zero. *)
Definition nonNegativeStock (s : Store) : Prop :=
  Forall (fun p => 0 <= quantityInStock p) (products s).

(** What a service call can throw: one constructor per message of the
    services, carrying the values the message interpolates, and
    [InternalError] for an error raised by the store or the runtime. *)
Inductive Error : Type :=
| ItemsNotNonEmptyArray
| PaymentsNotNonEmptyArray
| ItemMissingSku
| ProductNotFound (sku : string)
| InvalidQuantity (sku : string)
| InvalidSellingPrice (sku : string)
| InsufficientStock (sku : string) (requested : Q) (available : Z)
| PriceExceedsMrp (sku : string) (sellingPrice mrp : Q)
| DiscountExceedsLimit (sku : string) (discountPercent : Binary64.double)
                       (maxDiscountPercent : Q)
| PaymentMissingMode
| PaymentInvalidAmount
| PaymentMismatch (paymentSum totalAmount : Binary64.double)
| SupplierIdRequired
| ExtraChargesInvalid
| ItemVariantIdRequired (i : nat)
| ItemQuantityInvalid (i : nat)
| ItemUnitCostInvalid (i : nat)
| TotalQuantityNotPositive
| SupplierNotFound
| VariantNotFound (id : string)
| PurchasedAtInvalid
| NoMatchingProduct (variantId supplierId : string)
| InternalError (what : string).

(** [err(message, statusCode = 400)]; a store error carries no status. *)
Definition statusCode (e : Error) : option Z :=
  match e with
  | SupplierNotFound | VariantNotFound _ => Some 404
  | InternalError _ => None
  | _ => Some 400
  end.

Inductive Outcome (A : Type) : Type :=
| Ok (a : A)
| Throw (e : Error).
Arguments Ok {A} a.
Arguments Throw {A} e.

(** A computation against the store. *)
Definition Tx (A : Type) : Type := Store -> Outcome A * Store.

Definition ret {A} (a : A) : Tx A := fun s => (Ok a, s).
Definition throw {A} (e : Error) : Tx A := fun s => (Throw e, s).
Definition bind {A B} (m : Tx A) (k : A -> Tx B) : Tx B :=
  fun s => match m s with
           | (Ok a, s') => k a s'
           | (Throw e, s') => (Throw e, s')
           end.
Definition gets {A} (f : Store -> A) : Tx A := fun s => (Ok (f s), s).
Definition modify (f : Store -> Store) : Tx unit := fun s => (Ok tt, f s).

(** [if (bad) throw e] *)
Definition throwIf (bad : bool) (e : Error) : Tx unit :=
  if bad then throw e else ret tt.

(** [if (!Number.isFinite(n) || bad(n)) throw e], yielding the number. *)
Definition validNumber (n : number) (bad : Q -> bool) (e : Error) : Tx Q :=
  match n with
  | Fin q => if bad q then throw e else ret q
  | NonFin => throw e
  end.

Definition lift {A} (o : Outcome A) : Tx A := fun s => (o, s).

(** [for (const x of xs) await f(x)] *)
Fixpoint forEach {A} (f : A -> Tx unit) (xs : list A) : Tx unit :=
  match xs with
  | [] => ret tt
  | x :: r => bind (f x) (fun _ => forEach f r)
  end.

(** A loop that carries its variables in [acc]. *)
Fixpoint foldM {A S} (f : S -> A -> Tx S) (xs : list A) (acc : S) : Tx S :=
  match xs with
  | [] => ret acc
  | x :: r => bind (f acc x) (fun acc' => foldM f r acc')
  end.

(** [prisma.$transaction(body)]: the writes of [body] are kept when it
    returns and dropped when it throws. *)
Definition transaction {A} (body : Tx A) : Tx A :=
  fun s => match body s with
           | (Ok a, s') => (Ok a, s')
           | (Throw e, _) => (Throw e, s)
           end.

(** [m] never writes. *)
Definition readOnly {A} (m : Tx A) : Prop :=
  forall s, snd (m s) = s.

(** [m] leaves the part [proj] of the store as it is. *)
Definition keeps {A B} (proj : Store -> B) (m : Tx A) : Prop :=
  forall s o s', m s = (o, s') -> proj s' = proj s.

(** [m] leaves the store as it found it whenever it throws. *)
Definition allOrNothing {A} (m : Tx A) : Prop :=
  forall s e s', m s = (Throw e, s') -> s' = s.

(** A fresh row id. *)
Definition freshId : Tx string :=
  fun s => (Ok (JsString.ofN (nextId s)),
            mkStore (suppliers s) (productVariants s) (products s) (purchases s)
                    (purchaseItems s) (sales s) (saleItems s) (payments s)
                    (N.succ (nextId s))).

Definition set_products (f : list Product -> list Product) (s : Store) : Store :=
  mkStore (suppliers s) (productVariants s) (f (products s)) (purchases s)
          (purchaseItems s) (sales s) (saleItems s) (payments s) (nextId s).
Definition set_purchases (f : list Purchase -> list Purchase) (s : Store) : Store :=
  mkStore (suppliers s) (productVariants s) (products s) (f (purchases s))
          (purchaseItems s) (sales s) (saleItems s) (payments s) (nextId s).
Definition set_purchaseItems (f : list PurchaseItem -> list PurchaseItem) (s : Store) : Store :=
  mkStore (suppliers s) (productVariants s) (products s) (purchases s)
          (f (purchaseItems s)) (sales s) (saleItems s) (payments s) (nextId s).
Definition set_sales (f : list Sale -> list Sale) (s : Store) : Store :=
  mkStore (suppliers s) (productVariants s) (products s) (purchases s)
          (purchaseItems s) (f (sales s)) (saleItems s) (payments s) (nextId s).
Definition set_saleItems (f : list SaleItem -> list SaleItem) (s : Store) : Store :=
  mkStore (suppliers s) (productVariants s) (products s) (purchases s)
          (purchaseItems s) (sales s) (f (saleItems s)) (payments s) (nextId s).
Definition set_payments (f : list Payment -> list Payment) (s : Store) : Store :=
  mkStore (suppliers s) (productVariants s) (products s) (purchases s)
          (purchaseItems s) (sales s) (saleItems s) (f (payments s)) (nextId s).

End Db.

Declare Scope tx_scope.
Delimit Scope tx_scope with tx.
Notation "x <- m ;; k" := (Db.bind m (fun x => k))
  (at level 61, m at next level, right associativity) : tx_scope.
Notation "m ;;; k" := (Db.bind m (fun _ => k))
  (at level 61, right associativity) : tx_scope.

(** ** Sale service *)

Module SaleService.
Import Js JsString Db.
Local Open Scope tx_scope.
Local Open Scope string_scope.

(** The source gives this constant the comment "allow 1 cent rounding";
    it is compared with a difference of amounts in currency units. *)
Definition PAYMENT_SUM_TOLERANCE : Q := 1.

(** A request item: [it_sku] is [""] when the field is missing or falsy;
    the numeric fields hold [Number(it.quantity)] and
    [Number(it.sellingPrice)]. *)
Record SaleItemInput : Type := mkSaleItemInput {
  it_sku : string;
  it_quantity : number;
  it_sellingPrice : number
}.

(** A request payment: [p_mode] is [None] when the field is not a
    string; [p_provider] is [None] when it is [null] or missing. *)
Record PaymentInput : Type := mkPaymentInput {
  p_mode : option string;
  p_provider : option string;
  p_amount : number
}.

(** The request body; a field is [None] when it is not an array. *)
Record SalePayload : Type := mkSalePayload {
  items : option (list SaleItemInput);
  payments : option (list PaymentInput)
}.

(** A product row with [include: { productVariant: true }]. *)
Record ProductRow : Type := mkProductRow {
  product : Product;
  productVariant : option ProductVariant
}.

Record LineTotal : Type := mkLineTotal {
  lt_product : Product;
  lt_quantity : Q;
  lt_unitPrice : Q;
  lt_lineTotal : Q
}.

Record NormalizedPayment : Type := mkNormalizedPayment {
  np_mode : string;
  np_provider : option string;
  np_amount : Q
}.

Record Validated : Type := mkValidated {
  lineTotals : list LineTotal;
  normalizedPayments : list NormalizedPayment;
  v_totalAmount : Q
}.

(** [now]: the local calendar fields read by the service ([month] as
    [getMonth] returns it, from 0) and the instant itself. *)
Record LocalDateTime : Type := mkLocalDateTime {
  fullYear : N;
  month : N;
  date : N;
  time : Z
}.

Record SaleResult : Type := mkSaleResult {
  r_saleId : string;
  r_billNumber : string;
  r_totalAmount : Q;
  r_soldAt : Z
}.

(** [tx.product.findMany({ where: { sku: { in: skus } },
      include: { productVariant: true } })] *)
Definition findProductsBySku (skus : list string) : Tx (list ProductRow) :=
  gets (fun s =>
    map (fun p => mkProductRow p
           (find (fun v => String.eqb (variant_id v) (productVariantId p))
                 (productVariants s)))
        (filter (fun p => includes skus (sku p)) (products s))).

(** [Object.fromEntries(products.map((p) => [p.sku, p]))], read at a key:
    the last entry with that key. *)
Definition fromEntries (rows : list ProductRow) (key : string) : option ProductRow :=
  find (fun r => String.eqb (sku (product r)) key) (rev rows).

(** Step 3 of the item loop: [sellingPrice <= mrp] and
    [discount % <= max_discount_percent]; the percentage is computed in
    double precision. *)
Definition checkDiscountRules (skuName : string) (sellingPrice : Q)
    (variant : option ProductVariant) : Outcome unit :=
  let mrp := option_map mrp variant in
  let maxDiscountPercent :=
    match option_map max_discount_percent variant with
    | Some m => m
    | None => Fin 0
    end in
  match mrp with
  | Some (Fin mrp) =>
      if Qltb mrp sellingPrice
      then Throw (PriceExceedsMrp skuName sellingPrice mrp)
      else if Qltb 0 mrp && isFinite maxDiscountPercent
      then
        match maxDiscountPercent with
        | Fin maxDiscountPercent =>
            let discountPercent :=
              ((Binary64.Finite mrp - Binary64.Finite sellingPrice) / Binary64.Finite mrp
               * Binary64.Finite 100)%double in
            if (Binary64.Finite maxDiscountPercent <? discountPercent)%double
            then Throw (DiscountExceedsLimit skuName discountPercent maxDiscountPercent)
            else Ok tt
        | NonFin => Ok tt
        end
      else Ok tt
  | _ => Ok tt
  end.

(** One turn of the item loop; the state is [lineTotals] and
    [totalAmount]. *)
Definition itemBody (productsBySku : string -> option ProductRow)
    (acc : list LineTotal * Q) (it : SaleItemInput) : Tx (list LineTotal * Q) :=
  let '(lineTotals, totalAmount) := acc in
  match productsBySku (it_sku it) with
  | None => throw (InternalError "TypeError: product is undefined")
  | Some row =>
      let product := product row in
      quantity <- validNumber (it_quantity it)
                    (fun q => negb (isIntegerQ q) || Qltb q 1)
                    (InvalidQuantity (it_sku it)) ;;
      sellingPrice <- validNumber (it_sellingPrice it)
                    (fun p => Qltb p 0)
                    (InvalidSellingPrice (it_sku it)) ;;
      throwIf (Qltb (inject_Z (quantityInStock product)) quantity)
              (InsufficientStock (it_sku it) quantity (quantityInStock product)) ;;;
      lift (checkDiscountRules (it_sku it) sellingPrice (productVariant row)) ;;;
      let lineTotal := round2 (quantity * sellingPrice) in
      ret ((lineTotals ++ [mkLineTotal product quantity sellingPrice lineTotal])%list,
           (totalAmount + lineTotal)%Q)
  end.

(** One turn of the payment loop; the state is [paymentSum] and
    [normalizedPayments]. *)
Definition paymentBody (acc : Q * list NormalizedPayment) (p : PaymentInput)
    : Tx (Q * list NormalizedPayment) :=
  let '(paymentSum, normalizedPayments) := acc in
  match p_mode p with
  | None => throw PaymentMissingMode
  | Some mode =>
      throwIf (String.eqb mode "") PaymentMissingMode ;;;
      amount <- validNumber (p_amount p) (fun a => Qltb a 0) PaymentInvalidAmount ;;
      ret ((paymentSum + amount)%Q,
           (normalizedPayments ++
             [mkNormalizedPayment (trim mode) (option_map trim (p_provider p)) amount])%list)
  end.

Definition validateAndCompute (items : option (list SaleItemInput))
    (payments : option (list PaymentInput)) : Tx Validated :=
  match items, payments with
  | None, _ | Some [], _ => throw ItemsNotNonEmptyArray
  | _, None | _, Some [] => throw PaymentsNotNonEmptyArray
  | Some items, Some payments =>
      let skus := uniq (filter (fun s => negb (String.eqb s "")) (map it_sku items)) in
      products <- findProductsBySku skus ;;
      let productsBySku := fromEntries products in
      (* 1. Validate all SKUs exist *)
      forEach (fun it =>
                 throwIf (String.eqb (it_sku it) "") ItemMissingSku ;;;
                 match productsBySku (it_sku it) with
                 | None => throw (ProductNotFound (it_sku it))
                 | Some _ => ret tt
                 end) items ;;;
      (* 2 - 5. stock, discount rules, line totals *)
      r <- foldM (itemBody productsBySku) items ([], 0%Q) ;;
      let totalAmount := round2 (snd r) in
      (* 6. payments *)
      q <- foldM paymentBody payments (0%Q, []) ;;
      let paymentSum := round2 (fst q) in
      throwIf (Qltb PAYMENT_SUM_TOLERANCE (MathAbs (paymentSum - totalAmount)))
              (PaymentMismatch (Binary64.Finite paymentSum) (Binary64.Finite totalAmount)) ;;;
      ret (mkValidated (fst r) (snd q) totalAmount)
  end.

(** [`BILL-${yyyy}${mm}${dd}-`] *)
Definition billPrefix (now : LocalDateTime) : string :=
  let yyyy := ofN (fullYear now) in
  let mm := padStart 2 "0" (ofN (month now + 1)) in
  let dd := padStart 2 "0" (ofN (date now)) in
  "BILL-" ++ yyyy ++ mm ++ dd ++ "-".

(** [tx.sale.findFirst({ where: { billNumber: { startsWith: prefix } },
      orderBy: { billNumber: 'desc' } })]; strings are ordered by code
    point. *)
Definition findLastSale (prefix : string) : Tx (option Sale) :=
  gets (fun s =>
    fold_left (fun best x =>
                 if startsWith (billNumber x) prefix
                 then match best with
                      | Some b => if String.ltb (billNumber b) (billNumber x)
                                  then Some x else Some b
                      | None => Some x
                      end
                 else best)
              (sales s) None).

Definition nextSeq (prefix : string) (lastSale : option Sale) : Z :=
  match lastSale with
  | Some last =>
      if String.eqb (billNumber last) "" then 1
      else
        let numPart := slice (String.length prefix) (billNumber last) in
        match parseInt numPart with
        | Some n => if (0 <=? n)%Z then n + 1 else 1
        | None => 1
        end
  | None => 1
  end.

(** [String(seq)] *)
Definition ofZ (z : Z) : string :=
  if (z <? 0)%Z then "-" ++ ofN (Z.to_N (- z)) else ofN (Z.to_N z).

(** [tx.sale.create]; [billNumber] carries a unique index. *)
Definition sale_create (billNumber_ : string) (totalAmount_ : Q) (soldAt_ : Z) : Tx Sale :=
  taken <- gets (fun s => existsb (fun x => String.eqb (billNumber x) billNumber_) (sales s)) ;;
  throwIf taken (InternalError "Unique constraint failed: Sale_billNumber_key") ;;;
  id <- freshId ;;
  let sale := mkSale id billNumber_ totalAmount_ soldAt_ in
  modify (set_sales (fun l => (l ++ [sale])%list)) ;;;
  ret sale.

Definition saleItem_create (saleId_ : string) (row : LineTotal) : Tx unit :=
  id <- freshId ;;
  modify (set_saleItems (fun l => (l ++
    [mkSaleItem id saleId_ (product_id (lt_product row)) (toInt (lt_quantity row))
                (lt_unitPrice row) (lt_lineTotal row)])%list)).

(** [tx.product.update({ where: { id }, data: { quantityInStock:
      { decrement } } })] *)
Definition product_decrement (id : string) (by_ : Z) : Tx unit :=
  found <- gets (fun s => existsb (fun p => String.eqb (product_id p) id) (products s)) ;;
  throwIf (negb found) (InternalError "Record to update not found") ;;;
  modify (set_products (map (fun p =>
    if String.eqb (product_id p) id
    then setStock p (quantityInStock p - by_)
    else p))).

Definition payment_create (saleId_ : string) (p : NormalizedPayment) : Tx unit :=
  id <- freshId ;;
  modify (set_payments (fun l => (l ++
    [mkPayment id saleId_ (np_mode p) (np_provider p) (np_amount p)])%list)).

(** The callback handed to [prisma.$transaction]. *)
Definition createSale_body (now : LocalDateTime) (payload : SalePayload) : Tx SaleResult :=
  v <- validateAndCompute (items payload) (payments payload) ;;
  (* 7. next bill number for today *)
  let prefix := billPrefix now in
  lastSale <- findLastSale prefix ;;
  let seq := nextSeq prefix lastSale in
  let billNumber_ := prefix ++ padStart 4 "0" (ofZ seq) in
  sale <- sale_create billNumber_ (v_totalAmount v) (time now) ;;
  (* 8. SaleItem records *)
  forEach (saleItem_create (sale_id sale)) (lineTotals v) ;;;
  (* 9. reduce Product.quantityInStock *)
  forEach (fun row => product_decrement (product_id (lt_product row)) (toInt (lt_quantity row)))
          (lineTotals v) ;;;
  (* 10. Payment records *)
  forEach (payment_create (sale_id sale)) (normalizedPayments v) ;;;
  ret (mkSaleResult (sale_id sale) (billNumber sale) (v_totalAmount v) (soldAt sale)).

Definition createSale (now : LocalDateTime) (payload : SalePayload) : Tx SaleResult :=
  transaction (createSale_body now payload).

(** Vocabulary of the sale properties. *)

(** [Σ lineTotal], added up as the item loop does. *)
Definition sumLineTotals (rows : list LineTotal) : Q :=
  fold_left (fun acc r => (acc + lt_lineTotal r)%Q) rows 0%Q.

(** [Σ amount], added up as the payment loop does. *)
Definition sumPayments (ps : list NormalizedPayment) : Q :=
  fold_left (fun acc p => (acc + np_amount p)%Q) ps 0%Q.

(** The units of product [id] that the rows of a sale take out of stock. *)
Definition soldOf (id : string) (rows : list LineTotal) : Z :=
  fold_right (fun r acc =>
                if String.eqb (product_id (lt_product r)) id
                then (toInt (lt_quantity r) + acc)%Z else acc)
             0%Z rows.

(** [r] is the line computed for the request item [it]: the item passed
    every check of the item loop against the product found under its
    SKU. *)
Definition lineOf (productsBySku : string -> option ProductRow)
    (it : SaleItemInput) (r : LineTotal) : Prop :=
  exists (row : ProductRow) (q p : Q),
    productsBySku (it_sku it) = Some row
    /\ it_quantity it = Fin q /\ isIntegerQ q = true /\ (1 <= q)%Q
    /\ it_sellingPrice it = Fin p /\ (0 <= p)%Q
    /\ (q <= inject_Z (quantityInStock (product row)))%Q
    /\ checkDiscountRules (it_sku it) p (productVariant row) = Ok tt
    /\ r = mkLineTotal (product row) q p (round2 (q * p)).

(** Vocabulary of the bill number properties. *)

(** The suffix of a bill number: [String(seq).padStart(4, '0')]. *)
Definition suffix4 (n : Z) : string := padStart 4 "0" (ofZ n).

(** The bill number with suffix [n] under [prefix]. *)
Definition billOf (prefix : string) (n : Z) : string := prefix ++ suffix4 n.

(** The bill numbers of the store that start with [prefix], oldest first. *)
Definition dayBills (prefix : string) (s : Store) : list string :=
  filter (fun b => startsWith b prefix) (map billNumber (sales s)).

(** One turn of the search of [findLastSale], on bill numbers alone: the
    later of [best] and [b] in code-point order. *)
Definition later (best : option string) (b : string) : option string :=
  match best with
  | Some a => if String.ltb a b then Some b else Some a
  | None => Some b
  end.

(** The integers [from], [from + 1], ... ([count] of them). *)
Fixpoint suffixes (from : Z) (count : nat) : list Z :=
  match count with
  | O => []
  | S c => from :: suffixes (from + 1) c
  end.

(** The largest of a list of suffixes, [0] for none. *)
Definition highest (l : list Z) : Z := fold_right Z.max 0 l.

(** Sale requests handled one after the other: the bill numbers of those
    that succeed, oldest first, and the store they leave. *)
Fixpoint createSales (requests : list (LocalDateTime * SalePayload)) (s : Store)
    : list string * Store :=
  match requests with
  | [] => ([], s)
  | (now, payload) :: rest =>
      match createSale now payload s with
      | (Ok r, s') =>
          let '(bills, s'') := createSales rest s' in
          (r_billNumber r :: bills, s'')
      | (Throw _, s') => createSales rest s'
      end
  end.

End SaleService.

(** ** Purchase service *)

Module PurchaseService.
Import Js JsString Db.
Local Open Scope tx_scope.
Local Open Scope string_scope.

(** A request item: [in_productVariantId] is [""] when the field is
    missing or falsy; the numeric fields hold [Number(it.quantity)] and
    [Number(it.unitCost)]. *)
Record PurchaseItemInput : Type := mkPurchaseItemInput {
  in_productVariantId : string;
  in_quantity : number;
  in_unitCost : number
}.

(** The request body.  [in_supplierId] is [None] when the field is
    missing or not a string; [in_purchasedAt] is [None] when the field is
    falsy and otherwise holds [new Date(purchasedAt)], [None] for an
    invalid date; [in_extraCharges] is [Number(extraCharges)] with the
    default [0] of the destructuring; [in_items] is [None] when the
    field is not an array. *)
Record PurchasePayload : Type := mkPurchasePayload {
  in_supplierId : option string;
  in_purchasedAt : option (option Z);
  in_invoiceNo : option string;
  in_notes : option string;
  in_extraCharges : number;
  in_items : option (list PurchaseItemInput)
}.

Record PurchaseResult : Type := mkPurchaseResult {
  r_purchaseId : string
}.

(** The input validation loop, from index [i]. *)
Fixpoint validateItems (i : nat) (items : list PurchaseItemInput) : Tx unit :=
  match items with
  | [] => ret tt
  | it :: rest =>
      throwIf (String.eqb (in_productVariantId it) "") (ItemVariantIdRequired i) ;;;
      _ <- validNumber (in_quantity it)
             (fun q => negb (isIntegerQ q) || Qltb q 1) (ItemQuantityInvalid i) ;;
      _ <- validNumber (in_unitCost it)
             (fun c => Qltb c 0) (ItemUnitCostInvalid i) ;;
      validateItems (S i) rest
  end.

(** [Number(x)] of a field that the validation loop has accepted. *)
Definition numberValue (n : number) : Q :=
  match n with Fin q => q | NonFin => 0%Q end.

(** [items.reduce((sum, i) => sum + Number(i.quantity), 0)] *)
Definition totalQty (items : list PurchaseItemInput) : Q :=
  fold_left (fun sum i => (sum + numberValue (in_quantity i))%Q) items 0%Q.

(** [x || 0] *)
Definition orZero (x : Q) : Q := if Qeq_bool x 0 then 0%Q else x.

(** [x || null] *)
Definition orNull (x : Q) : option Q := if Qeq_bool x 0 then None else Some x.

(** [v != null ? String(v).trim() || null : null] *)
Definition trimOrNull (v : option string) : option string :=
  match v with
  | Some t => if String.eqb (trim t) "" then None else Some (trim t)
  | None => None
  end.

Definition supplier_findUnique (id : string) : Tx (option Supplier) :=
  gets (fun s => find (fun x => String.eqb (supplier_id x) id) (suppliers s)).

Definition productVariant_findMany (ids : list string) : Tx (list ProductVariant) :=
  gets (fun s => filter (fun v => includes ids (variant_id v)) (productVariants s)).

Definition purchase_create (supplierId_ : string) (purchasedAt_ : Z)
    (invoiceNo_ notes_ : option string) (extraCharges_ : option Q) : Tx Purchase :=
  id <- freshId ;;
  let purchase := mkPurchase id supplierId_ purchasedAt_ invoiceNo_ notes_ extraCharges_ in
  modify (set_purchases (fun l => (l ++ [purchase])%list)) ;;;
  ret purchase.

(** [tx.purchaseItem.create]; [productVariantId] is a foreign key. *)
Definition purchaseItem_create (purchaseId_ productVariantId_ : string)
    (quantity_ : Z) (unitCost_ effectiveUnitCost_ : Q) : Tx unit :=
  known <- gets (fun s => existsb (fun v => String.eqb (variant_id v) productVariantId_)
                                  (productVariants s)) ;;
  throwIf (negb known)
          (InternalError "Foreign key constraint failed: PurchaseItem_productVariantId_fkey") ;;;
  id <- freshId ;;
  modify (set_purchaseItems (fun l => (l ++
    [mkPurchaseItem id purchaseId_ productVariantId_ quantity_ unitCost_
                    effectiveUnitCost_])%list)).

Definition matches (productVariantId_ supplierId_ : string) (p : Product) : bool :=
  String.eqb (productVariantId p) productVariantId_ && String.eqb (supplierId p) supplierId_.

(** [tx.product.updateMany({ where: { productVariantId, supplierId },
      data: { quantityInStock: { increment } } })], yielding the count. *)
Definition product_incrementMany (productVariantId_ supplierId_ : string) (by_ : Z)
    : Tx nat :=
  count <- gets (fun s => List.length
                   (filter (matches productVariantId_ supplierId_) (products s))) ;;
  modify (set_products (map (fun p =>
    if matches productVariantId_ supplierId_ p
    then setStock p (quantityInStock p + by_)
    else p))) ;;;
  ret count.

(** [allocatedCharge] of the item loop *)
Definition allocatedCharge (totalQty extraChargesVal quantity : Q) : Q :=
  if Qltb 0 totalQty then (quantity / totalQty * extraChargesVal)%Q else 0%Q.

(** [effectiveUnitCost] of the item loop, before rounding *)
Definition effectiveUnitCost (unitCost quantity allocatedCharge : Q) : Q :=
  if Qltb 0 quantity
  then ((unitCost * quantity + allocatedCharge) / quantity)%Q
  else unitCost.

(** One turn of the item loop of the transaction. *)
Definition purchaseItemBody (purchase : Purchase) (supplier : Supplier)
    (totalQty extraChargesVal : Q) (it : PurchaseItemInput) : Tx unit :=
  let productVariantId := trim (in_productVariantId it) in
  let quantity := numberValue (in_quantity it) in
  let unitCost := numberValue (in_unitCost it) in
  let allocatedCharge := allocatedCharge totalQty extraChargesVal quantity in
  let effectiveUnitCost := effectiveUnitCost unitCost quantity allocatedCharge in
  let effectiveRounded := round2 effectiveUnitCost in
  purchaseItem_create (purchase_id purchase) productVariantId (toInt quantity)
                      unitCost effectiveRounded ;;;
  count <- product_incrementMany productVariantId (supplier_id supplier) (toInt quantity) ;;
  throwIf (Nat.eqb count 0)
          (NoMatchingProduct productVariantId (supplier_id supplier)).

(** An item that the validation loop accepts: a positive integer quantity
    and a unit cost that is not negative. *)
Definition validItem (it : PurchaseItemInput) : Prop :=
  exists quantity unitCost : Q,
    in_quantity it = Fin quantity /\ in_unitCost it = Fin unitCost
    /\ isIntegerQ quantity = true /\ (1 <= quantity)%Q /\ (0 <= unitCost)%Q.

(** [row] is the [PurchaseItem] persisted for the request item [it] of
    purchase [purchaseId_], the charges [extraCharges_] being shared over
    [totalQty_] units. *)
Definition persistedFor (purchaseId_ : string) (totalQty_ extraCharges_ : Q)
    (it : PurchaseItemInput) (row : PurchaseItem) : Prop :=
  let quantity := numberValue (in_quantity it) in
  let unitCost := numberValue (in_unitCost it) in
  purchaseId row = purchaseId_
  /\ purchaseItem_productVariantId row = trim (in_productVariantId it)
  /\ (inject_Z (purchaseItem_quantity row) == quantity)%Q
  /\ Db.unitCost row = unitCost
  /\ Db.effectiveUnitCost row =
       round2 ((unitCost * quantity + quantity / totalQty_ * extraCharges_) / quantity)%Q.

(** The callback handed to [prisma.$transaction]. *)
Definition createPurchase_body (now : Z) (payload : PurchasePayload)
    (supplierId_ : string) (items : list PurchaseItemInput) (extraNum totalQty : Q)
    : Tx PurchaseResult :=
  found <- supplier_findUnique (trim supplierId_) ;;
  match found with
  | None => throw SupplierNotFound
  | Some supplier =>
      let variantIds :=
        uniq (filter (fun s => negb (String.eqb s ""))
                     (map (fun i => trim (in_productVariantId i)) items)) in
      variants <- productVariant_findMany variantIds ;;
      let variantSet := map variant_id variants in
      forEach (fun id => throwIf (negb (includes variantSet id)) (VariantNotFound id))
              variantIds ;;;
      purchasedAtDate <-
        match in_purchasedAt payload with
        | None => ret now
        | Some (Some t) => ret t
        | Some None => throw PurchasedAtInvalid
        end ;;
      purchase <- purchase_create (supplier_id supplier) purchasedAtDate
                    (trimOrNull (in_invoiceNo payload)) (trimOrNull (in_notes payload))
                    (orNull extraNum) ;;
      let extraChargesVal := orZero extraNum in
      forEach (purchaseItemBody purchase supplier totalQty extraChargesVal) items ;;;
      ret (mkPurchaseResult (purchase_id purchase))
  end.

Definition createPurchase (now : Z) (payload : PurchasePayload) : Tx PurchaseResult :=
  match in_supplierId payload with
  | None => throw SupplierIdRequired
  | Some supplierId_ =>
      throwIf (String.eqb supplierId_ "" || String.eqb (trim supplierId_) "")
              SupplierIdRequired ;;;
      match in_items payload with
      | None | Some [] => throw ItemsNotNonEmptyArray
      | Some items =>
          extraNum <- validNumber (in_extraCharges payload)
                        (fun x => Qltb x 0) ExtraChargesInvalid ;;
          validateItems 0 items ;;;
          let totalQty := totalQty items in
          throwIf (Qle_bool totalQty 0) TotalQuantityNotPositive ;;;
          transaction (createPurchase_body now payload supplierId_ items extraNum totalQty)
      end
  end.

End PurchaseService.

(** ** Purchase service: the amounts as the engine and the database hold them *)

Module Machine.
Import Js JsString Db PurchaseService.
Local Open Scope tx_scope.
Local Open Scope string_scope.

(** What the database client makes of a number written to a decimal
    column: [printed x] is the decimal numeral that it sends for the
    double [x].  The numeral is not fixed by the source; all that is
    taken of it is that it reads back as the double that it prints. *)
Record Driver : Type := mkDriver {
  printed : Q -> Q;
  printed_reads_back : forall x, Binary64.nearest (printed x) = Binary64.nearest x
}.

(** The client that sends the binary value of a double, digit for
    digit. *)
Definition exactDriver : Driver := mkDriver (fun x => x) (fun x => eq_refl).

(** PostgreSQL rounds a numeric to the scale of its column, a half going
    away from zero. *)
Definition roundHalfAway (x : Q) : Z :=
  if Qle_bool 0 x then Qfloor (x + (1 # 2)) else - Qfloor (- x + (1 # 2)).

(** What a [DECIMAL(12,2)] column keeps of a number written to it;
    [None] when the write is refused: the number is not finite, or needs
    more than ten digits before the point. *)
Definition decimal12_2 (driver : Driver) (x : Binary64.double) : option Q :=
  match x with
  | Binary64.Finite d =>
      let cents := roundHalfAway (printed driver d * 100) in
      if (Z.abs cents <? 10 ^ 12)%Z then Some (Qred (inject_Z cents / 100)) else None
  | _ => None
  end.

Definition NUMERIC_OVERFLOW : Error :=
  InternalError "A number does not fit its DECIMAL(12,2) column".

(** A value handed to a [DECIMAL(12,2)] column, as the column keeps it. *)
Definition stored (driver : Driver) (x : Binary64.double) : Tx Q :=
  match decimal12_2 driver x with
  | Some q => ret q
  | None => throw NUMERIC_OVERFLOW
  end.

(** [tx.purchase.create]; [extraCharges] is a [DECIMAL(12,2)] column
    that may be null. *)
Definition purchase_create (driver : Driver) (supplierId_ : string) (purchasedAt_ : Z)
    (invoiceNo_ notes_ : option string) (extraCharges_ : option Q) : Tx Purchase :=
  kept <- match extraCharges_ with
          | Some x => q <- stored driver (Binary64.Finite x) ;; ret (Some q)
          | None => ret None
          end ;;
  PurchaseService.purchase_create supplierId_ purchasedAt_ invoiceNo_ notes_ kept.

(** [tx.purchaseItem.create]; [unitCost] and [effectiveUnitCost] are
    [DECIMAL(12,2)] columns. *)
Definition purchaseItem_create (driver : Driver) (purchaseId_ productVariantId_ : string)
    (quantity_ : Z) (unitCost_ effectiveUnitCost_ : Binary64.double) : Tx unit :=
  unitCost <- stored driver unitCost_ ;;
  effectiveUnitCost <- stored driver effectiveUnitCost_ ;;
  PurchaseService.purchaseItem_create purchaseId_ productVariantId_ quantity_
                                      unitCost effectiveUnitCost.

(** [items.reduce((sum, i) => sum + Number(i.quantity), 0)] *)
Definition totalQty (items : list PurchaseItemInput) : Binary64.double :=
  fold_left (fun sum i => (sum + Binary64.ofNumber (in_quantity i))%double)
            items (Binary64.Finite 0).

(** [allocatedCharge] of the item loop *)
Definition allocatedCharge (totalQty : Binary64.double) (extraChargesVal quantity : Q)
    : Binary64.double :=
  if (Binary64.Finite 0 <? totalQty)%double
  then (Binary64.Finite quantity / totalQty * Binary64.Finite extraChargesVal)%double
  else Binary64.Finite 0.

(** [effectiveUnitCost] of the item loop, before rounding *)
Definition effectiveUnitCost (unitCost quantity : Q) (allocatedCharge : Binary64.double)
    : Binary64.double :=
  if Qltb 0 quantity
  then ((Binary64.Finite unitCost * Binary64.Finite quantity + allocatedCharge)
        / Binary64.Finite quantity)%double
  else Binary64.Finite unitCost.

(** One turn of the item loop of the transaction. *)
Definition purchaseItemBody (driver : Driver) (purchase : Purchase) (supplier : Supplier)
    (totalQty : Binary64.double) (extraChargesVal : Q) (it : PurchaseItemInput)
    : Tx unit :=
  let productVariantId := trim (in_productVariantId it) in
  let quantity := numberValue (in_quantity it) in
  let unitCost := numberValue (in_unitCost it) in
  let allocatedCharge := allocatedCharge totalQty extraChargesVal quantity in
  let effectiveUnitCost := effectiveUnitCost unitCost quantity allocatedCharge in
  let effectiveRounded := Binary64.round2 effectiveUnitCost in
  purchaseItem_create driver (purchase_id purchase) productVariantId (toInt quantity)
                      (Binary64.Finite unitCost) effectiveRounded ;;;
  count <- product_incrementMany productVariantId (supplier_id supplier) (toInt quantity) ;;
  throwIf (Nat.eqb count 0)
          (NoMatchingProduct productVariantId (supplier_id supplier)).

(** The callback handed to [prisma.$transaction]. *)
Definition createPurchase_body (driver : Driver) (now : Z) (payload : PurchasePayload)
    (supplierId_ : string) (items : list PurchaseItemInput) (extraNum : Q)
    (totalQty : Binary64.double) : Tx PurchaseResult :=
  found <- supplier_findUnique (trim supplierId_) ;;
  match found with
  | None => throw SupplierNotFound
  | Some supplier =>
      let variantIds :=
        uniq (filter (fun s => negb (String.eqb s ""))
                     (map (fun i => trim (in_productVariantId i)) items)) in
      variants <- productVariant_findMany variantIds ;;
      let variantSet := map variant_id variants in
      forEach (fun id => throwIf (negb (includes variantSet id)) (VariantNotFound id))
              variantIds ;;;
      purchasedAtDate <-
        match in_purchasedAt payload with
        | None => ret now
        | Some (Some t) => ret t
        | Some None => throw PurchasedAtInvalid
        end ;;
      purchase <- purchase_create driver (supplier_id supplier) purchasedAtDate
                    (trimOrNull (in_invoiceNo payload)) (trimOrNull (in_notes payload))
                    (orNull extraNum) ;;
      let extraChargesVal := orZero extraNum in
      forEach (purchaseItemBody driver purchase supplier totalQty extraChargesVal) items ;;;
      ret (mkPurchaseResult (purchase_id purchase))
  end.

Definition createPurchase (driver : Driver) (now : Z) (payload : PurchasePayload)
    : Tx PurchaseResult :=
  match in_supplierId payload with
  | None => throw SupplierIdRequired
  | Some supplierId_ =>
      throwIf (String.eqb supplierId_ "" || String.eqb (trim supplierId_) "")
              SupplierIdRequired ;;;
      match in_items payload with
      | None | Some [] => throw ItemsNotNonEmptyArray
      | Some items =>
          extraNum <- validNumber (in_extraCharges payload)
                        (fun x => Qltb x 0) ExtraChargesInvalid ;;
          validateItems 0 items ;;;
          let totalQty := totalQty items in
          throwIf (totalQty <=? Binary64.Finite 0)%double TotalQuantityNotPositive ;;;
          transaction (createPurchase_body driver now payload supplierId_ items
                                           extraNum totalQty)
      end
  end.

(** Vocabulary of the costing properties. *)

(** [(unitCost * quantity + quantity / totalQty * extraCharges) / quantity
     * 100] as the engine evaluates it: every operation rounded to the
    nearest double. *)
Definition costInCents (totalQty : Binary64.double) (extraCharges quantity unitCost : Q)
    : Binary64.double :=
  ((Binary64.Finite unitCost * Binary64.Finite quantity
    + Binary64.Finite quantity / totalQty * Binary64.Finite extraCharges)
   / Binary64.Finite quantity * Binary64.Finite 100)%double.

(** [row] is the [PurchaseItem] persisted for the request item [it] of
    purchase [purchaseId_], the charges [extraCharges_] being shared over
    [totalQty_] units: its unit cost is the unit cost of the item as the
    column keeps it, an amount of cents within a cent of it; its
    effective unit cost is [cents / 100] for the integer [cents] nearest
    to the double [costInCents], a half going up. *)
Definition persistedFor (purchaseId_ : string) (totalQty_ : Binary64.double)
    (extraCharges_ : Q) (it : PurchaseItemInput) (row : PurchaseItem) : Prop :=
  let quantity := numberValue (in_quantity it) in
  let unitCost := numberValue (in_unitCost it) in
  purchaseId row = purchaseId_
  /\ purchaseItem_productVariantId row = trim (in_productVariantId it)
  /\ (inject_Z (purchaseItem_quantity row) == quantity)%Q
  /\ isCents (Db.unitCost row)
  /\ (0 <= Db.unitCost row <= 10000000000)%Q
  /\ (Qabs (Db.unitCost row - unitCost) <= 1 # 100)%Q
  /\ exists (y : Q) (cents : Z),
       costInCents totalQty_ extraCharges_ quantity unitCost = Binary64.Finite y
       /\ (inject_Z cents - (1 # 2) <= y < inject_Z cents + (1 # 2))%Q
       /\ (Db.effectiveUnitCost row == inject_Z cents / 100)%Q.

End Machine.

(** ** Sale service: the amounts as the engine and the database hold them *)

Module MachineSale.
Import Js JsString Db SaleService.
Local Open Scope tx_scope.
Local Open Scope string_scope.

Record LineTotal : Type := mkLineTotal {
  lt_product : Product;
  lt_quantity : Q;
  lt_unitPrice : Q;
  lt_lineTotal : Binary64.double
}.

Record Validated : Type := mkValidated {
  lineTotals : list LineTotal;
  normalizedPayments : list NormalizedPayment;
  v_totalAmount : Binary64.double
}.

Record SaleResult : Type := mkSaleResult {
  r_saleId : string;
  r_billNumber : string;
  r_totalAmount : Binary64.double;
  r_soldAt : Z
}.

(** One turn of the item loop; the state is [lineTotals] and
    [totalAmount]. *)
Definition itemBody (productsBySku : string -> option ProductRow)
    (acc : list LineTotal * Binary64.double) (it : SaleItemInput)
    : Tx (list LineTotal * Binary64.double) :=
  let '(lineTotals, totalAmount) := acc in
  match productsBySku (it_sku it) with
  | None => throw (InternalError "TypeError: product is undefined")
  | Some row =>
      let product := product row in
      quantity <- validNumber (it_quantity it)
                    (fun q => negb (isIntegerQ q) || Qltb q 1)
                    (InvalidQuantity (it_sku it)) ;;
      sellingPrice <- validNumber (it_sellingPrice it)
                    (fun p => Qltb p 0)
                    (InvalidSellingPrice (it_sku it)) ;;
      throwIf (Qltb (inject_Z (quantityInStock product)) quantity)
              (InsufficientStock (it_sku it) quantity (quantityInStock product)) ;;;
      lift (checkDiscountRules (it_sku it) sellingPrice (productVariant row)) ;;;
      let lineTotal :=
        Binary64.round2 (Binary64.Finite quantity * Binary64.Finite sellingPrice)%double in
      ret ((lineTotals ++ [mkLineTotal product quantity sellingPrice lineTotal])%list,
           (totalAmount + lineTotal)%double)
  end.

(** One turn of the payment loop; the state is [paymentSum] and
    [normalizedPayments]. *)
Definition paymentBody (acc : Binary64.double * list NormalizedPayment) (p : PaymentInput)
    : Tx (Binary64.double * list NormalizedPayment) :=
  let '(paymentSum, normalizedPayments) := acc in
  match p_mode p with
  | None => throw PaymentMissingMode
  | Some mode =>
      throwIf (String.eqb mode "") PaymentMissingMode ;;;
      amount <- validNumber (p_amount p) (fun a => Qltb a 0) PaymentInvalidAmount ;;
      ret ((paymentSum + Binary64.Finite amount)%double,
           (normalizedPayments ++
             [mkNormalizedPayment (trim mode) (option_map trim (p_provider p)) amount])%list)
  end.

Definition validateAndCompute (items : option (list SaleItemInput))
    (payments : option (list PaymentInput)) : Tx Validated :=
  match items, payments with
  | None, _ | Some [], _ => throw ItemsNotNonEmptyArray
  | _, None | _, Some [] => throw PaymentsNotNonEmptyArray
  | Some items, Some payments =>
      let skus := uniq (filter (fun s => negb (String.eqb s "")) (map it_sku items)) in
      products <- findProductsBySku skus ;;
      let productsBySku := fromEntries products in
      (* 1. Validate all SKUs exist *)
      forEach (fun it =>
                 throwIf (String.eqb (it_sku it) "") ItemMissingSku ;;;
                 match productsBySku (it_sku it) with
                 | None => throw (ProductNotFound (it_sku it))
                 | Some _ => ret tt
                 end) items ;;;
      (* 2 - 5. stock, discount rules, line totals *)
      r <- foldM (itemBody productsBySku) items ([], Binary64.Finite 0) ;;
      let totalAmount := Binary64.round2 (snd r) in
      (* 6. payments *)
      q <- foldM paymentBody payments (Binary64.Finite 0, []) ;;
      let paymentSum := Binary64.round2 (fst q) in
      throwIf (Binary64.Finite PAYMENT_SUM_TOLERANCE
               <? Binary64.abs (paymentSum - totalAmount))%double
              (PaymentMismatch paymentSum totalAmount) ;;;
      ret (mkValidated (fst r) (snd q) totalAmount)
  end.

(** [tx.sale.create]; [totalAmount] is a [DECIMAL(12,2)] column. *)
Definition sale_create (driver : Machine.Driver) (billNumber_ : string)
    (totalAmount_ : Binary64.double) (soldAt_ : Z) : Tx Sale :=
  total <- Machine.stored driver totalAmount_ ;;
  SaleService.sale_create billNumber_ total soldAt_.

(** [tx.saleItem.create]; [unitPrice] and [lineTotal] are [DECIMAL(12,2)]
    columns. *)
Definition saleItem_create (driver : Machine.Driver) (saleId_ : string) (row : LineTotal)
    : Tx unit :=
  unitPrice <- Machine.stored driver (Binary64.Finite (lt_unitPrice row)) ;;
  lineTotal <- Machine.stored driver (lt_lineTotal row) ;;
  SaleService.saleItem_create saleId_
    (SaleService.mkLineTotal (lt_product row) (lt_quantity row) unitPrice lineTotal).

(** [tx.payment.create]; [amount] is a [DECIMAL(12,2)] column. *)
Definition payment_create (driver : Machine.Driver) (saleId_ : string)
    (p : NormalizedPayment) : Tx unit :=
  amount <- Machine.stored driver (Binary64.Finite (np_amount p)) ;;
  SaleService.payment_create saleId_
    (mkNormalizedPayment (np_mode p) (np_provider p) amount).

(** The callback handed to [prisma.$transaction]. *)
Definition createSale_body (driver : Machine.Driver) (now : LocalDateTime)
    (payload : SalePayload) : Tx SaleResult :=
  v <- validateAndCompute (items payload) (payments payload) ;;
  (* 7. next bill number for today *)
  let prefix := billPrefix now in
  lastSale <- findLastSale prefix ;;
  let seq := nextSeq prefix lastSale in
  let billNumber_ := prefix ++ padStart 4 "0" (ofZ seq) in
  sale <- sale_create driver billNumber_ (v_totalAmount v) (time now) ;;
  (* 8. SaleItem records *)
  forEach (saleItem_create driver (sale_id sale)) (lineTotals v) ;;;
  (* 9. reduce Product.quantityInStock *)
  forEach (fun row => product_decrement (product_id (lt_product row)) (toInt (lt_quantity row)))
          (lineTotals v) ;;;
  (* 10. Payment records *)
  forEach (payment_create driver (sale_id sale)) (normalizedPayments v) ;;;
  ret (mkSaleResult (sale_id sale) (billNumber sale) (v_totalAmount v) (soldAt sale)).

Definition createSale (driver : Machine.Driver) (now : LocalDateTime)
    (payload : SalePayload) : Tx SaleResult :=
  transaction (createSale_body driver now payload).

(** Vocabulary of the sale properties. *)

(** [r] is the line computed for the request item [it]: the item passed
    the checks of quantity, price and stock against the product found
    under its SKU, and its line total is [Math.round(quantity *
    sellingPrice * 100) / 100] in double precision. *)
Definition lineOf (productsBySku : string -> option ProductRow)
    (it : SaleItemInput) (r : LineTotal) : Prop :=
  exists (row : ProductRow) (q p : Q),
    productsBySku (it_sku it) = Some row
    /\ it_quantity it = Fin q /\ isIntegerQ q = true /\ (1 <= q)%Q
    /\ it_sellingPrice it = Fin p /\ (0 <= p)%Q
    /\ (q <= inject_Z (quantityInStock (product row)))%Q
    /\ r = mkLineTotal (product row) q p
             (Binary64.round2 (Binary64.Finite q * Binary64.Finite p)%double).

(** [i] is the sale item written for the line [row] under sale [sid]:
    its unit price and line total are what the columns keep of those of
    the line. *)
Definition writtenFor (driver : Machine.Driver) (sid : string) (row : LineTotal)
    (i : SaleItem) : Prop :=
  saleId i = sid
  /\ productId i = product_id (lt_product row)
  /\ saleItem_quantity i = toInt (lt_quantity row)
  /\ Machine.decimal12_2 driver (Binary64.Finite (lt_unitPrice row)) = Some (unitPrice i)
  /\ Machine.decimal12_2 driver (lt_lineTotal row) = Some (lineTotal i).

(** [row] is the payment written for [p] under sale [sid]. *)
Definition paidWith (driver : Machine.Driver) (sid : string) (p : NormalizedPayment)
    (row : Payment) : Prop :=
  payment_saleId row = sid
  /\ mode row = np_mode p
  /\ provider row = np_provider p
  /\ Machine.decimal12_2 driver (Binary64.Finite (np_amount p)) = Some (amount row).

End MachineSale.

(** ** Sample data *)

Module Examples.
Import Js Db SaleService PurchaseService.
Local Open Scope string_scope.

(** One supplier; variants [V1] and [V2] stocked as SKUs [A] and [B],
    variant [V3] not stocked. *)
Definition store0 : Store :=
  mkStore
    [mkSupplier "S1" "Puneet Textiles"]
    [mkProductVariant "V1" (Fin 100) (Fin 90) (Fin 50);
     mkProductVariant "V2" (Fin 2500) (Fin 2200) (Fin 20);
     mkProductVariant "V3" (Fin 10) (Fin 10) (Fin 0)]
    [mkProduct "P1" "A" "V1" "S1" 5;
     mkProduct "P2" "B" "V2" "S1" 0]
    [] [] [] [] [] 0.

(** 5 February 2026 *)
Definition today : LocalDateTime := mkLocalDateTime 2026 1 5 1770268800000.

Definition cash (amount_ : Q) : PaymentInput :=
  mkPaymentInput (Some "CASH") None (Fin amount_).

(** SKU [A] twice, 3 units each, against a stock of 5. *)
Definition duplicateSkuSale : SalePayload :=
  mkSalePayload
    (Some [mkSaleItemInput "A" (Fin 3) (Fin 100); mkSaleItemInput "A" (Fin 3) (Fin 100)])
    (Some [cash 600]).

(** One unit at 60 paid with 59.50. *)
Definition underpaidSale : SalePayload :=
  mkSalePayload
    (Some [mkSaleItemInput "A" (Fin 1) (Fin 60)])
    (Some [cash (119 # 2)]).

(** 6 units of a SKU that has 5. *)
Definition oversizedSale : SalePayload :=
  mkSalePayload
    (Some [mkSaleItemInput "A" (Fin 6) (Fin 100)])
    (Some [cash 600]).

Definition plainSale : SalePayload :=
  mkSalePayload
    (Some [mkSaleItemInput "A" (Fin 1) (Fin 100)])
    (Some [cash 100]).

(** Extra charges of 100 over 3 units at 10 and 2 units at 20. *)
Definition sharedChargesPurchase : PurchasePayload :=
  mkPurchasePayload (Some "S1") None (Some "INV-1") None (Fin 100)
    (Some [mkPurchaseItemInput "V1" (Fin 3) (Fin 10);
           mkPurchaseItemInput "V2" (Fin 2) (Fin 20)]).

(** One unit at 0.375 and four units at 1, extra charges of 1: the first
    item costs 0.575 a unit. *)
Definition halfCentPurchase : PurchasePayload :=
  mkPurchasePayload (Some "S1") None None None (Fin 1)
    (Some [mkPurchaseItemInput "V1" (Fin 1) (Fin (375 # 1000));
           mkPurchaseItemInput "V2" (Fin 4) (Fin 1)]).

(** The second item names a variant the supplier has no SKU for. *)
Definition unstockedPurchase : PurchasePayload :=
  mkPurchasePayload (Some "S1") None None None (Fin 100)
    (Some [mkPurchaseItemInput "V1" (Fin 3) (Fin 10);
           mkPurchaseItemInput "V3" (Fin 2) (Fin 20)]).

End Examples.

(** ** Sale and purchase controllers *)

Module Controllers.
Import Js JsString Db SaleService PurchaseService.
Local Open Scope string_scope.

(** [res.status(status).json(body)]: the body of a success, or the error
    whose message is sent. *)
Inductive Reply (A : Type) : Type :=
| Replied (status : Z) (body : A)
| Refused (status : Z) (error : Error).
Arguments Replied {A} status body.
Arguments Refused {A} status error.

Record SaleBody : Type := mkSaleBody {
  sb_saleId : string;
  sb_billNumber : string;
  sb_totalAmount : Q
}.

(** [postSale]; [now] is the clock that the service reads. *)
Definition postSale (now : LocalDateTime) (body : SalePayload) (s : Store)
    : Reply SaleBody * Store :=
  match createSale now body s with
  | (Ok result, s') =>
      (Replied 201 (mkSaleBody (r_saleId result) (r_billNumber result)
                               (r_totalAmount result)), s')
  | (Throw err, s') =>
      let status := match statusCode err with
                    | Some code => if Z.eqb code 400 then 400 else 500
                    | None => 500
                    end in
      (Refused status err, s')
  end.

Record PurchaseBody : Type := mkPurchaseBody {
  pb_purchaseId : string
}.

(** [postPurchase] *)
Definition postPurchase (now : Z) (body : PurchasePayload) (s : Store)
    : Reply PurchaseBody * Store :=
  match createPurchase now body s with
  | (Ok result, s') => (Replied 201 (mkPurchaseBody (r_purchaseId result)), s')
  | (Throw err, s') =>
      let status := match statusCode err with
                    | Some code => code
                    | None => 500
                    end in
      (Refused status err, s')
  end.

(** The status of a reply. *)
Definition statusOf {A} (r : Reply A) : Z :=
  match r with
  | Replied status _ => status
  | Refused status _ => status
  end.

(** [m] throws only errors that satisfy [P]. *)
Definition throwsOnly {A} (P : Error -> Prop) (m : Tx A) : Prop :=
  forall s e s', m s = (Throw e, s') -> P e.

(** An error that is not answered with 404: one that the services raise
    with status 400, or an error of the store or the runtime. *)
Definition notA404 (e : Error) : Prop := statusCode e <> Some 404.

End Controllers.

(** ** Reports controller: the handlers *)

Module ReportsController.
Import Js JsString Db Reports.
Local Open Scope string_scope.

(** An object used as a dictionary: its own properties, in the order in
    which they were added. *)
Definition Dict (V : Type) : Type := list (string * V).

(** [d[k]]; [None] is [undefined]. *)
Fixpoint dictGet {V} (d : Dict V) (k : string) : option V :=
  match d with
  | [] => None
  | (k', v) :: r => if String.eqb k' k then Some v else dictGet r k
  end.

(** [d[k] = v] *)
Fixpoint dictSet {V} (d : Dict V) (k : string) (v : V) : Dict V :=
  match d with
  | [] => [(k, v)]
  | (k', v') :: r =>
      if String.eqb k' k then (k', v) :: r else (k', v') :: dictSet r k v
  end.

(** [Object.fromEntries(entries)] *)
Definition objectFromEntries {V} (entries : list (string * V)) : Dict V :=
  fold_left (fun d e => dictSet d (fst e) (snd e)) entries [].

(** What a handler answers: [res.json(body)], or
    [res.status(status).json({ error })]. *)
Inductive Response (A : Type) : Type :=
| Json (body : A)
| Failure (status : Z) (error : string).
Arguments Json {A} body.
Arguments Failure {A} status error.

(** What a handler takes from its host: the clock, and the results of
    [Date] that depend on the time zone of the host or on the date parser
    of the engine.  [utcMidnight str] is
    [new Date(str + 'T00:00:00.000Z')], [None] for an invalid date. *)
Record Host : Type := mkHost {
  now : Z;
  todayIso : string;
  startOfDay : Z -> Z;
  utcMidnight : string -> option Z
}.

(** [new Date(str + 'T23:59:59.999Z')]: the last millisecond of the day
    that [utcMidnight] begins. *)
Definition utcEndOfDay (host : Host) (str : string) : option Z :=
  option_map (fun t => t + (MS_PER_DAY - 1)) (utcMidnight host str).

Definition isDigit (c : ascii) : bool :=
  match digitValue c with Some _ => true | None => false end.

Definition isHyphen (c : ascii) : bool := Ascii.eqb c "-"%char.

(** [/^\d{4}-\d{2}-\d{2}$/.test(s)] *)
Definition DATE_REGEX_test (s : string) : bool :=
  match list_ascii_of_string s with
  | [y1; y2; y3; y4; h1; m1; m2; h2; d1; d2] =>
      isDigit y1 && isDigit y2 && isDigit y3 && isDigit y4 && isHyphen h1
      && isDigit m1 && isDigit m2 && isHyphen h2 && isDigit d1 && isDigit d2
  | _ => false
  end.

(** *** Sales by day and by period *)

Definition DEFAULT_PAYMENT_KEYS : list string := ["CASH"; "CARD"; "UPI_N"; "UPI_S"].

(** [include: { items: true }] and [include: { payments: true }] *)
Definition itemsOf (s : Store) (sale : Sale) : list SaleItem :=
  filter (fun i => String.eqb (saleId i) (sale_id sale)) (saleItems s).

Definition paymentsOf (s : Store) (sale : Sale) : list Payment :=
  filter (fun p => String.eqb (payment_saleId p) (sale_id sale)) (Db.payments s).

(** [p.mode || 'CASH'] *)
Definition modeOf (p : Payment) : string :=
  if String.eqb (mode p) "" then "CASH" else mode p.

(** One turn of the payment loop:
    [if (!payments[mode]) payments[mode] = 0;
     payments[mode] += Number(p.amount)]. *)
Definition addPayment (payments : Dict Q) (p : Payment) : Dict Q :=
  let mode_ := modeOf p in
  match dictGet payments mode_ with
  | Some v =>
      if Qeq_bool v 0 then dictSet payments mode_ (0 + amount p)%Q
      else dictSet payments mode_ (v + amount p)%Q
  | None => dictSet payments mode_ (0 + amount p)%Q
  end.

Record SalesTotals : Type := mkSalesTotals {
  totalBills : nat;
  totalItems : Z;
  totalRevenue : Q;
  paymentsByMode : Dict Q
}.

(** The totals that [getDailySales] and [getSalesSummary] compute from
    the sales they select; the source writes these lines out in both. *)
Definition salesTotals (s : Store) (sales_ : list Sale) : SalesTotals :=
  let totalBills := List.length sales_ in
  let totalItems :=
    fold_left (fun sum sale =>
                 sum + fold_left (fun q i => q + saleItem_quantity i) (itemsOf s sale) 0)
              sales_ 0 in
  let totalRevenue := fold_left (fun sum sale => (sum + totalAmount sale)%Q) sales_ 0%Q in
  let payments0 := objectFromEntries (map (fun k => (k, 0%Q)) DEFAULT_PAYMENT_KEYS) in
  let payments :=
    fold_left (fun d sale => fold_left addPayment (paymentsOf s sale) d) sales_ payments0 in
  mkSalesTotals totalBills totalItems totalRevenue payments.

(** [prisma.sale.findMany({ where: { soldAt: { gte, lte } } })]; a bound
    that is [None] is not applied. *)
Definition salesBetween (gte lte : option Z) (s : Store) : list Sale :=
  filter (fun sale =>
            match gte with Some t => Z.leb t (soldAt sale) | None => true end
            && match lte with Some t => Z.leb (soldAt sale) t | None => true end)
         (sales s).

Definition INTERNAL_SERVER_ERROR : string := "Internal Server Error".

Record DailySales : Type := mkDailySales {
  ds_date : string;
  ds_totals : SalesTotals
}.

(** [date] is [req.query.date]. *)
Definition getDailySales (host : Host) (date : option string) (s : Store)
    : Response DailySales :=
  match date with
  | None => Failure 400 "Query param date required (YYYY-MM-DD)"
  | Some dateStr =>
      if String.eqb dateStr "" || negb (DATE_REGEX_test dateStr)
      then Failure 400 "Query param date required (YYYY-MM-DD)"
      else
        match utcMidnight host dateStr, utcEndOfDay host dateStr with
        | Some start, Some end_ =>
            Json (mkDailySales dateStr
                    (salesTotals s (salesBetween (Some start) (Some end_) s)))
        | _, _ => Failure 500 INTERNAL_SERVER_ERROR
        end
  end.

Record SalesSummary : Type := mkSalesSummary {
  ss_from : option string;
  ss_to : option string;
  ss_totals : SalesTotals
}.

(** A bound of the period: [Some None] when the parameter is missing or
    empty, and [None] for an invalid date, which the query rejects. *)
Definition periodBound (parse : string -> option Z) (value : option string)
    : option (option Z) :=
  match value with
  | None => Some None
  | Some v => if String.eqb v "" then Some None else option_map Some (parse v)
  end.

(** [from] and [to] are [req.query.from] and [req.query.to]. *)
Definition getSalesSummary (host : Host) (from to : option string) (s : Store)
    : Response SalesSummary :=
  match periodBound (utcMidnight host) from, periodBound (utcEndOfDay host) to with
  | Some gte, Some lte =>
      Json (mkSalesSummary from to (salesTotals s (salesBetween gte lte s)))
  | _, _ => Failure 500 INTERNAL_SERVER_ERROR
  end.

(** *** Inventory valuation *)

Record CostAcc : Type := mkCostAcc {
  costQty : Q;
  qty : Z
}.

(** One turn of the loop over the purchase items. *)
Definition addCost (byVariant : Dict CostAcc) (pi : PurchaseItem) : Dict CostAcc :=
  let id := purchaseItem_productVariantId pi in
  let acc := match dictGet byVariant id with
             | Some a => a
             | None => mkCostAcc 0 0
             end in
  let q := purchaseItem_quantity pi in
  let c := Db.effectiveUnitCost pi in
  dictSet byVariant id (mkCostAcc (costQty acc + c * inject_Z q)%Q (qty acc + q)).

(** [qty > 0 ? costQty / qty : 0] *)
Definition averageOf (a : CostAcc) : Q :=
  if Z.ltb 0 (qty a) then (costQty a / inject_Z (qty a))%Q else 0%Q.

(** [avgCostByVariant] after its two loops, for the purchase items
    [pis]. *)
Definition avgCostByVariant (pis : list PurchaseItem) : Dict Q :=
  map (fun kv => (fst kv, averageOf (snd kv))) (fold_left addCost pis []).

(** [prisma.purchaseItem.findMany({ where: { productVariantId:
      { in: variantIds } } })] *)
Definition purchaseItemsOf (variantIds : list string) (s : Store) : list PurchaseItem :=
  filter (fun pi => includes variantIds (purchaseItem_productVariantId pi))
         (purchaseItems s).

(** [include: { products: true }] *)
Definition productsOf (s : Store) (v : ProductVariant) : list Product :=
  filter (fun p => String.eqb (productVariantId p) (variant_id v)) (products s).

(** The sku shown for a variant without product: an em dash. *)
Definition NO_SKU : string :=
  String (ascii_of_nat 226) (String (ascii_of_nat 128) (String (ascii_of_nat 148) "")).

(** [v.products[0]?.sku ?? NO_SKU] *)
Definition firstSku (s : Store) (v : ProductVariant) : string :=
  match productsOf s v with
  | p :: _ => sku p
  | [] => NO_SKU
  end.

(** A row of the valuation; the category name and the attributes, which
    the source copies from columns that the store record does not carry,
    are left out. *)
Record ValuationRow : Type := mkValuationRow {
  vr_productVariantId : string;
  vr_sku : string;
  vr_stockQty : Z;
  vr_avgCost : Q;
  vr_inventoryValue : Q
}.

(** One turn of the loop over the variants. *)
Definition valuationOf (s : Store) (avgCost_ : Dict Q) (result : list ValuationRow)
    (v : ProductVariant) : list ValuationRow :=
  let stockQty := fold_left (fun sum p => sum + quantityInStock p) (productsOf s v) 0 in
  if Z.eqb stockQty 0 then result
  else
    let avgCost := match dictGet avgCost_ (variant_id v) with
                   | Some a => a
                   | None => 0%Q
                   end in
    let inventoryValue := round2 (inject_Z stockQty * avgCost) in
    (result ++ [mkValuationRow (variant_id v) (firstSku s v) stockQty (round2 avgCost)
                               inventoryValue])%list.

Definition getInventoryValuation (s : Store) : Response (list ValuationRow) :=
  let variants := productVariants s in
  let variantIds := map variant_id variants in
  let avgCost_ := avgCostByVariant (purchaseItemsOf variantIds s) in
  Json (fold_left (valuationOf s avgCost_) variants []).

(** *** Inventory aging *)

Record AgingItem : Type := mkAgingItem {
  ai_sku : string;
  ai_productName : string;
  ai_ageDays : option Z;
  ai_bucket : string;
  ai_quantity : Z;
  ai_value : Q;
  ai_suggestedDiscountPercent : Q;
  ai_suggestedPrice : number;
  ai_discountCappedByCost : bool
}.

Record BucketTotal : Type := mkBucketTotal {
  bt_quantity : Z;
  bt_value : Q
}.

Record AgingReport : Type := mkAgingReport {
  ar_asOfDate : string;
  ar_buckets : Dict BucketTotal;
  ar_items : list AgingItem
}.

(** [Object.fromEntries(AGING_BUCKETS.map((b) => [b, { quantity: 0,
      value: 0 }]))] *)
Definition emptyBuckets : Dict BucketTotal :=
  objectFromEntries (map (fun b => (b, mkBucketTotal 0 0)) AGING_BUCKETS).

(** [include: { product: true }] on a sale item *)
Definition productOf (s : Store) (si : SaleItem) : option Product :=
  find (fun p => String.eqb (product_id p) (productId si)) (products s).

(** [prisma.saleItem.findMany({ include: { product: true },
      where: { product: { productVariantId: { in: variantIds } } } })],
    each item with its product. *)
Definition saleItemsOf (variantIds : list string) (s : Store)
    : list (SaleItem * Product) :=
  flat_map (fun si =>
              match productOf s si with
              | Some p => if includes variantIds (productVariantId p)
                          then [(si, p)] else []
              | None => []
              end)
           (saleItems s).

(** One turn of the loop over the sale items:
    [if (!vid) continue;
     soldByVariant[vid] = (soldByVariant[vid] || 0) + si.quantity]. *)
Definition addSold (soldByVariant : Dict Z) (sp : SaleItem * Product) : Dict Z :=
  let vid := productVariantId (snd sp) in
  if String.eqb vid "" then soldByVariant
  else
    let sold := match dictGet soldByVariant vid with
                | Some n => n
                | None => 0
                end in
    dictSet soldByVariant vid (sold + saleItem_quantity (fst sp)).

(** [include: { purchase: true }] on a purchase item *)
Definition purchaseOf (s : Store) (pi : PurchaseItem) : option Purchase :=
  find (fun pu => String.eqb (purchase_id pu) (purchaseId pi)) (purchases s).

(** One turn of the loop over the purchase items:
    [if (!layersByVariant[vid]) layersByVariant[vid] = [];
     layersByVariant[vid].push({ ... })].  Reading [purchasedAt] off a
    purchase that is not there throws. *)
Definition addLayer (s : Store) (layersByVariant : option (Dict (list Layer)))
    (pi : PurchaseItem) : option (Dict (list Layer)) :=
  match layersByVariant, purchaseOf s pi with
  | Some d, Some pu =>
      let vid := purchaseItem_productVariantId pi in
      let layers := match dictGet d vid with
                    | Some ls => ls
                    | None => []
                    end in
      Some (dictSet d vid
              (layers ++ [mkLayer (Db.purchasedAt pu) (purchaseItem_quantity pi)
                                  (Db.effectiveUnitCost pi)])%list)
  | _, _ => None
  end.

(** [layers.sort((a, b) => new Date(a.purchasedAt) - new Date(b.purchasedAt))]:
    ascending by date, layers of one date in their order of arrival. *)
Fixpoint insertLayer (l : Layer) (sorted : list Layer) : list Layer :=
  match sorted with
  | [] => [l]
  | x :: r =>
      if Z.leb (purchasedAt l) (purchasedAt x) then l :: sorted
      else x :: insertLayer l r
  end.

Definition sortLayers (layers : list Layer) : list Layer :=
  fold_right insertLayer [] layers.

(** One turn of the loop over the remaining layers of a variant; the
    state is [buckets] and [items].  [asOfDate] is [None] for an invalid
    date, whose age is [NaN]: no comparison of [getAgingBucket] holds of
    it. *)
Definition agingItemOf (host : Host) (asOfDate : option Z) (sku_ : string)
    (defaultSellingPrice maxDiscountPercent : number) (layer : Layer) : AgingItem :=
  let ageDays :=
    option_map (fun a => daysBetween (startOfDay host) a (purchasedAt layer)) asOfDate in
  let bucket := match ageDays with
                | Some d => getAgingBucket d
                | None => "90+"
                end in
  let value := round2 (inject_Z (quantity layer) * effectiveUnitCost layer) in
  let sg := getDiscountSuggestion bucket defaultSellingPrice maxDiscountPercent
              (Fin (effectiveUnitCost layer)) in
  mkAgingItem sku_ sku_ ageDays bucket (quantity layer) value
              (suggestedDiscountPercent sg) (suggestedPrice sg) (discountCappedByCost sg).

(** [buckets[bucket].quantity += layer.quantity;
     buckets[bucket].value = round2(buckets[bucket].value + value)];
    a bucket that is not there throws. *)
Definition addToBucket (buckets : Dict BucketTotal) (item : AgingItem)
    : option (Dict BucketTotal) :=
  match dictGet buckets (ai_bucket item) with
  | Some b =>
      Some (dictSet buckets (ai_bucket item)
              (mkBucketTotal (bt_quantity b + ai_quantity item)
                             (round2 (bt_value b + ai_value item))))
  | None => None
  end.

Definition agingLayer (host : Host) (asOfDate : option Z) (sku_ : string)
    (defaultSellingPrice maxDiscountPercent : number)
    (st : option (Dict BucketTotal * list AgingItem)) (layer : Layer)
    : option (Dict BucketTotal * list AgingItem) :=
  match st with
  | Some (buckets, items) =>
      let item := agingItemOf host asOfDate sku_ defaultSellingPrice
                              maxDiscountPercent layer in
      match addToBucket buckets item with
      | Some buckets' => Some (buckets', (items ++ [item])%list)
      | None => None
      end
  | None => None
  end.

(** One turn of the loop over the variant ids. *)
Definition agingVariant (host : Host) (asOfDate : option Z)
    (skuByVariant : Dict string) (variantPricing : Dict (number * number))
    (layersByVariant : Dict (list Layer)) (soldByVariant : Dict Z)
    (st : option (Dict BucketTotal * list AgingItem)) (variantId : string)
    : option (Dict BucketTotal * list AgingItem) :=
  let layers := match dictGet layersByVariant variantId with
                | Some ls => ls
                | None => []
                end in
  let totalSold := match dictGet soldByVariant variantId with
                   | Some n => n
                   | None => 0
                   end in
  let remainingLayers := applyFifo layers totalSold in
  let sku_ := match dictGet skuByVariant variantId with
              | Some k => k
              | None => NO_SKU
              end in
  let pricing := match dictGet variantPricing variantId with
                 | Some p => p
                 | None => (NonFin, NonFin)
                 end in
  fold_left (agingLayer host asOfDate sku_ (fst pricing) (snd pricing))
            remainingLayers st.

(** The last loop: [buckets[b].value = round2(buckets[b].value)]. *)
Definition roundBucket (buckets : option (Dict BucketTotal)) (b : string)
    : option (Dict BucketTotal) :=
  match buckets with
  | Some d =>
      match dictGet d b with
      | Some t => Some (dictSet d b (mkBucketTotal (bt_quantity t) (round2 (bt_value t))))
      | None => None
      end
  | None => None
  end.

(** [asOfStr] and [categoryId] are [req.query.asOfDate] and
    [req.query.categoryId]; [categoryOf] is the column [categoryId] of a
    variant, which the store record does not carry. *)
Definition getInventoryAging (host : Host) (categoryOf : ProductVariant -> string)
    (asOfStr categoryId : option string) (s : Store) : Response AgingReport :=
  let categoryId :=
    match categoryId with
    | Some c => if String.eqb (trim c) "" then None else Some (trim c)
    | None => None
    end in
  let dated :=
    match asOfStr with
    | Some a => negb (String.eqb a "") && DATE_REGEX_test a
    | None => false
    end in
  let asOfDate :=
    match asOfStr with
    | Some a => if dated then utcMidnight host a else Some (now host)
    | None => Some (now host)
    end in
  let asOfDateOnly :=
    match asOfStr with
    | Some a => if dated then a else todayIso host
    | None => todayIso host
    end in
  let variants :=
    match categoryId with
    | Some c => filter (fun v => String.eqb (categoryOf v) c) (productVariants s)
    | None => productVariants s
    end in
  let variantIds := map variant_id variants in
  let skuByVariant :=
    objectFromEntries (map (fun v => (variant_id v, firstSku s v)) variants) in
  let variantPricing :=
    objectFromEntries
      (map (fun v => (variant_id v, (default_selling_price v, max_discount_percent v)))
           variants) in
  match variantIds with
  | [] => Json (mkAgingReport asOfDateOnly emptyBuckets [])
  | _ =>
      let soldByVariant := fold_left addSold (saleItemsOf variantIds s) [] in
      match fold_left (addLayer s) (purchaseItemsOf variantIds s) (Some []) with
      | None => Failure 500 INTERNAL_SERVER_ERROR
      | Some grouped =>
          let layersByVariant := map (fun kv => (fst kv, sortLayers (snd kv))) grouped in
          match fold_left (agingVariant host asOfDate skuByVariant variantPricing
                                        layersByVariant soldByVariant)
                          variantIds (Some (emptyBuckets, [])) with
          | None => Failure 500 INTERNAL_SERVER_ERROR
          | Some (buckets, items) =>
              match fold_left roundBucket AGING_BUCKETS (Some buckets) with
              | Some buckets' => Json (mkAgingReport asOfDateOnly buckets' items)
              | None => Failure 500 INTERNAL_SERVER_ERROR
              end
          end
      end
  end.



(** *** Sales list and sales profit *)

(** What [validateDateParam] returns: [null], the record
    [{ invalid: true, paramName, value }], or the string itself. *)
Inductive DateParam : Type :=
| NoDate
| InvalidDate (value : string)
| ValidDate (str : string).

Definition validateDateParam (host : Host) (value : option string) : DateParam :=
  match value with
  | None => NoDate
  | Some v =>
      if String.eqb v "" then NoDate
      else
        let str := trim v in
        if negb (DATE_REGEX_test str) then InvalidDate str
        else
          match utcMidnight host str with
          | None => InvalidDate str
          | Some _ => ValidDate str
          end
  end.

(** [orderBy: { soldAt: 'desc' }]: newest first, sales of one instant in
    the order of the table. *)
Fixpoint insertSale (x : Sale) (sorted : list Sale) : list Sale :=
  match sorted with
  | [] => [x]
  | y :: r =>
      if Z.leb (soldAt y) (soldAt x) then x :: sorted
      else y :: insertSale x r
  end.

Definition newestFirst (sales_ : list Sale) : list Sale :=
  fold_right insertSale [] sales_.

(** The sales that [getSalesList] and [getSalesProfit] select, for the
    validated bounds. *)
Definition salesInPeriod (host : Host) (fromValid toValid : DateParam) (s : Store)
    : list Sale :=
  let gte := match fromValid with
             | ValidDate str => utcMidnight host str
             | _ => None
             end in
  let lte := match toValid with
             | ValidDate str => utcEndOfDay host str
             | _ => None
             end in
  newestFirst (salesBetween gte lte s).

Definition INVALID_FROM : string := "Invalid from: must be YYYY-MM-DD".
Definition INVALID_TO : string := "Invalid to: must be YYYY-MM-DD".

(** An item of the sales list; the name of the product, a column that
    the store record does not carry, is left out. *)
Record SaleListItem : Type := mkSaleListItem {
  li_sku : option string;
  li_quantity : Z;
  li_unitPrice : Q;
  li_lineTotal : Q
}.

Record SaleListRow : Type := mkSaleListRow {
  lr_saleId : string;
  lr_billNumber : string;
  lr_soldAt : Z;
  lr_totalAmount : Q;
  lr_totalItems : Z;
  lr_payments : Dict Q;
  lr_items : list SaleListItem
}.

(** One turn of the payment loop of the sales list:
    [paymentsByMode[mode] = (paymentsByMode[mode] || 0) + Number(p.amount)]. *)
Definition addPaymentByMode (paymentsByMode_ : Dict Q) (p : Payment) : Dict Q :=
  let mode_ := modeOf p in
  let paid := match dictGet paymentsByMode_ mode_ with
              | Some v => if Qeq_bool v 0 then 0%Q else v
              | None => 0%Q
              end in
  dictSet paymentsByMode_ mode_ (paid + amount p)%Q.

Definition saleListRow (s : Store) (sale : Sale) : SaleListRow :=
  let totalItems_ := fold_left (fun sum i => sum + saleItem_quantity i) (itemsOf s sale) 0 in
  let paymentsByMode_ := fold_left addPaymentByMode (paymentsOf s sale) [] in
  mkSaleListRow (sale_id sale) (billNumber sale) (soldAt sale) (totalAmount sale)
    totalItems_ paymentsByMode_
    (map (fun i => mkSaleListItem (option_map sku (productOf s i)) (saleItem_quantity i)
                                  (unitPrice i) (lineTotal i))
         (itemsOf s sale)).

Definition getSalesList (host : Host) (from to : option string) (s : Store)
    : Response (list SaleListRow) :=
  let fromValid := validateDateParam host from in
  let toValid := validateDateParam host to in
  match fromValid, toValid with
  | InvalidDate _, _ => Failure 400 INVALID_FROM
  | _, InvalidDate _ => Failure 400 INVALID_TO
  | _, _ => Json (map (saleListRow s) (salesInPeriod host fromValid toValid s))
  end.

Record ProfitRow : Type := mkProfitRow {
  pr_saleId : string;
  pr_billNumber : string;
  pr_soldAt : Z;
  pr_totalAmount : Q;
  pr_profit : Q
}.

Record ProfitReport : Type := mkProfitReport {
  pf_from : option string;
  pf_to : option string;
  pf_sales : list ProfitRow;
  pf_totalProfit : Q
}.

(** [i.product?.productVariantId], [""] when there is none. *)
Definition variantOfItem (s : Store) (i : SaleItem) : string :=
  match productOf s i with
  | Some p => productVariantId p
  | None => ""
  end.

(** [variantId ? avgCostByVariant[variantId] ?? 0 : 0] *)
Definition avgCostOfItem (s : Store) (avgCost_ : Dict Q) (i : SaleItem) : Q :=
  let variantId := variantOfItem s i in
  if String.eqb variantId "" then 0%Q
  else match dictGet avgCost_ variantId with
       | Some a => a
       | None => 0%Q
       end.

Definition profitRow (s : Store) (avgCost_ : Dict Q) (sale : Sale) : ProfitRow :=
  let saleProfit :=
    fold_left (fun acc item =>
                 (acc + (unitPrice item - avgCostOfItem s avgCost_ item)
                        * inject_Z (saleItem_quantity item))%Q)
              (itemsOf s sale) 0%Q in
  mkProfitRow (sale_id sale) (billNumber sale) (soldAt sale) (totalAmount sale)
              (round2 saleProfit).

Definition getSalesProfit (host : Host) (from to : option string) (s : Store)
    : Response ProfitReport :=
  let fromValid := validateDateParam host from in
  let toValid := validateDateParam host to in
  match fromValid, toValid with
  | InvalidDate _, _ => Failure 400 INVALID_FROM
  | _, InvalidDate _ => Failure 400 INVALID_TO
  | _, _ =>
      let sales_ := salesInPeriod host fromValid toValid s in
      let variantIds :=
        uniq (flat_map (fun sale =>
                          filter (fun id => negb (String.eqb id ""))
                                 (map (variantOfItem s) (itemsOf s sale)))
                       sales_) in
      let avgCost_ :=
        match variantIds with
        | [] => []
        | _ => avgCostByVariant (purchaseItemsOf variantIds s)
        end in
      let rows := map (profitRow s avgCost_) sales_ in
      let totalProfit := fold_left (fun t r => (t + pr_profit r)%Q) rows 0%Q in
      Json (mkProfitReport from to rows (round2 totalProfit))
  end.

(** Vocabulary of the report properties. *)

(** The payments of the sales [sales_], in the order in which the payment
    loop meets them. *)
Definition paymentsIn (s : Store) (sales_ : list Sale) : list Payment :=
  flat_map (paymentsOf s) sales_.

(** The amounts of the payments of [ps] made by mode [m]. *)
Definition paidBy (m : string) (ps : list Payment) : Q :=
  fold_right (fun p acc => if String.eqb (modeOf p) m then (amount p + acc)%Q else acc)
             0%Q ps.

(** The units on the sale items of the sales [sales_]. *)
Definition unitsIn (s : Store) (sales_ : list Sale) : Z :=
  fold_right (fun sale acc =>
                fold_right (fun i q => saleItem_quantity i + q) 0 (itemsOf s sale) + acc)
             0 sales_.

(** The amount listed for mode [m], [0] when the mode is not listed. *)
Definition valueAt (d : Dict Q) (m : string) : Q :=
  match dictGet d m with
  | Some v => v
  | None => 0%Q
  end.

(** The stock of a variant: the stock of its products, added up. *)
Definition stockOf (s : Store) (v : ProductVariant) : Z :=
  fold_right (fun p acc => quantityInStock p + acc) 0 (productsOf s v).

(** The units of variant [id] on the purchase items [pis], and what they
    cost: [Σ quantity] and [Σ effectiveUnitCost * quantity]. *)
Definition purchasedQty (id : string) (pis : list PurchaseItem) : Z :=
  fold_right (fun pi acc =>
                if String.eqb (purchaseItem_productVariantId pi) id
                then purchaseItem_quantity pi + acc else acc)
             0 pis.

Definition purchasedCost (id : string) (pis : list PurchaseItem) : Q :=
  fold_right (fun pi acc =>
                if String.eqb (purchaseItem_productVariantId pi) id
                then (Db.effectiveUnitCost pi * inject_Z (purchaseItem_quantity pi) + acc)%Q
                else acc)
             0%Q pis.

(** The average cost of a unit of variant [id]: the cost of the units
    purchased over their number, [0] when there is none. *)
Definition averageCost (id : string) (pis : list PurchaseItem) : Q :=
  if Z.ltb 0 (purchasedQty id pis)
  then (purchasedCost id pis / inject_Z (purchasedQty id pis))%Q
  else 0%Q.

(** The accumulator of a variant, the empty one when there is none. *)
Definition accOf (d : Dict CostAcc) (id : string) : CostAcc :=
  match dictGet d id with
  | Some a => a
  | None => mkCostAcc 0 0
  end.

(** The units and the value of the aging items [items] that fall in
    bucket [b]. *)
Definition qtyIn (b : string) (items : list AgingItem) : Z :=
  fold_right (fun i acc => if String.eqb (ai_bucket i) b then ai_quantity i + acc else acc)
             0 items.

Definition valIn (b : string) (items : list AgingItem) : Q :=
  fold_right (fun i acc => if String.eqb (ai_bucket i) b then (ai_value i + acc)%Q else acc)
             0%Q items.

(** The units on all the aging items [items]. *)
Definition agedUnits (items : list AgingItem) : Z :=
  fold_right (fun i acc => ai_quantity i + acc) 0 items.

(** The units of variant [id] that the sale items of the store record:
    those of the items whose product is a product of that variant. *)
Definition soldQty (id : string) (s : Store) : Z :=
  fold_right (fun si acc =>
                match productOf s si with
                | Some p => if String.eqb (productVariantId p) id
                            then saleItem_quantity si + acc else acc
                | None => acc
                end)
             0 (saleItems s).

(** The units of variant [id] that remain: those purchased less those
    sold, and none when more were sold than purchased. *)
Definition remainingOf (s : Store) (id : string) : Z :=
  Z.max 0 (purchasedQty id (purchaseItems s) - soldQty id s).

(** The layers listed under [id], none when the variant is not listed. *)
Definition layersAt (d : Dict (list Layer)) (id : string) : list Layer :=
  match dictGet d id with
  | Some ls => ls
  | None => []
  end.

(** The units listed under [id], [0] when the variant is not listed. *)
Definition soldUnitsAt (d : Dict Z) (id : string) : Z :=
  match dictGet d id with
  | Some n => n
  | None => 0
  end.

(** The buckets [d] hold the totals of the items [items]. *)
Definition bucketsOf (d : Dict BucketTotal) (items : list AgingItem) : Prop :=
  forall b, In b AGING_BUCKETS ->
    exists t, dictGet d b = Some t
              /\ bt_quantity t = qtyIn b items
              /\ (bt_value t == valIn b items)%Q.

(** The variants that the aging report selects. *)
Definition variantsIn (categoryOf : ProductVariant -> string) (categoryId : option string)
    (s : Store) : list ProductVariant :=
  match match categoryId with
        | Some c => if String.eqb (trim c) "" then None else Some (trim c)
        | None => None
        end with
  | Some c => filter (fun v => String.eqb (categoryOf v) c) (productVariants s)
  | None => productVariants s
  end.

(** The items that one turn of the loop over the variant ids adds. *)
Definition variantItems (host : Host) (asOfDate : option Z)
    (skuByVariant : Dict string) (variantPricing : Dict (number * number))
    (layersByVariant : Dict (list Layer)) (soldByVariant : Dict Z)
    (variantId : string) : list AgingItem :=
  let sku_ := match dictGet skuByVariant variantId with
              | Some k => k
              | None => NO_SKU
              end in
  let pricing := match dictGet variantPricing variantId with
                 | Some p => p
                 | None => (NonFin, NonFin)
                 end in
  map (agingItemOf host asOfDate sku_ (fst pricing) (snd pricing))
      (applyFifo (layersAt layersByVariant variantId)
                 (soldUnitsAt soldByVariant variantId)).

(** The instant as of which the aging report ages the layers; [None] is
    an invalid date. *)
Definition asOfDateOf (host : Host) (asOfStr : option string) : option Z :=
  match asOfStr with
  | Some a => if negb (String.eqb a "") && DATE_REGEX_test a
              then utcMidnight host a else Some (now host)
  | None => Some (now host)
  end.

(** The date that the aging report shows. *)
Definition asOfDateOnlyOf (host : Host) (asOfStr : option string) : string :=
  match asOfStr with
  | Some a => if negb (String.eqb a "") && DATE_REGEX_test a then a else todayIso host
  | None => todayIso host
  end.

(** The bounds of the period that [from] and [to] ask for; [None] is no
    bound. *)
Definition periodStart (host : Host) (from : option string) : option Z :=
  match validateDateParam host from with
  | ValidDate str => utcMidnight host str
  | _ => None
  end.

Definition periodEnd (host : Host) (to : option string) : option Z :=
  match validateDateParam host to with
  | ValidDate str => utcEndOfDay host str
  | _ => None
  end.

(** The parameter is there and is not a date. *)
Definition invalidDate (host : Host) (value : option string) : Prop :=
  exists v, validateDateParam host value = InvalidDate v.

End ReportsController.

(** ** Sample data of the reports *)

Module ReportExamples.
Import Js Db SaleService PurchaseService Examples ReportsController.
Local Open Scope string_scope.

(** A host in UTC on 5 February 2026, whose parser knows that day and the
    next. *)
Definition host0 : Host :=
  mkHost 1770268800000 "2026-02-05"
         (fun t => t - t mod Reports.MS_PER_DAY)
         (fun str => if String.eqb str "2026-02-05" then Some 1770249600000
                     else if String.eqb str "2026-02-06" then Some 1770336000000
                     else None).

(** The sample store after the purchase with shared charges, dated
    1 January 2026, and a sale of one unit of [A] on 5 February. *)
Definition store1 : Store :=
  snd (createSale today plainSale
         (snd (createPurchase 1767225600000 sharedChargesPurchase store0))).

End ReportExamples.

(** ** Histories of requests *)

Module Ledger.
Import Js JsString Db SaleService PurchaseService.
Local Open Scope string_scope.

(** The units of product [id] on the sale items [rows]. *)
Definition unitsOf (id : string) (rows : list SaleItem) : Z :=
  fold_right (fun i acc =>
                if String.eqb (productId i) id then saleItem_quantity i + acc else acc)
             0 rows.

(** The units that the request items [items] of a purchase from supplier
    [supplierId_] add to the product [p]: the quantities of the items that
    name the variant of [p], when [p] is a product of that supplier. *)
Definition receivedOf (supplierId_ : string) (items : list PurchaseItemInput)
    (p : Product) : Z :=
  fold_right (fun it acc =>
                if matches (trim (in_productVariantId it)) supplierId_ p
                then toInt (numberValue (in_quantity it)) + acc else acc)
             0 items.

(** [i] is the sale item written for the line [row] of sale [sid]. *)
Definition writtenFor (sid : string) (row : LineTotal) (i : SaleItem) : Prop :=
  saleId i = sid
  /\ productId i = product_id (lt_product row)
  /\ saleItem_quantity i = toInt (lt_quantity row)
  /\ unitPrice i = lt_unitPrice row
  /\ lineTotal i = lt_lineTotal row.

(** [n] is the payment kept for the request payment [p]: a mode that is a
    non-empty string, trimmed; the provider trimmed when there is one; an
    amount that is a finite number and not negative. *)
Definition normalizedFrom (p : PaymentInput) (n : NormalizedPayment) : Prop :=
  (exists m, p_mode p = Some m /\ m <> "" /\ np_mode n = trim m)
  /\ np_provider n = option_map trim (p_provider p)
  /\ p_amount p = Fin (np_amount n)
  /\ (0 <= np_amount n)%Q.





(** [!Number.isInteger(qty) || qty < 1] *)
Definition badQuantity (n : number) : bool :=
  match n with
  | Fin q => negb (isIntegerQ q) || Qltb q 1
  | NonFin => true
  end.

(** [!Number.isFinite(cost) || cost < 0] *)
Definition badUnitCost (n : number) : bool :=
  match n with
  | Fin c => Qltb c 0
  | NonFin => true
  end.

(** The request item fails one of the three checks of the validation
    loop of a purchase. *)
Definition badItem (it : PurchaseItemInput) : bool :=
  String.eqb (in_productVariantId it) ""
  || badQuantity (in_quantity it) || badUnitCost (in_unitCost it).

(** The error that the validation loop throws for a bad item at index
    [i]: the first of the three checks that fails. *)
Definition itemError (i : nat) (it : PurchaseItemInput) : Error :=
  if String.eqb (in_productVariantId it) "" then ItemVariantIdRequired i
  else if badQuantity (in_quantity it) then ItemQuantityInvalid i
  else ItemUnitCostInvalid i.

(** A call of one of the two services. *)
Inductive Request : Type :=
| SaleRequest (now : LocalDateTime) (payload : SalePayload)
| PurchaseRequest (now : Z) (payload : PurchasePayload).

(** The store after the call, whether it returned or threw. *)
Definition handle (q : Request) (s : Store) : Store :=
  match q with
  | SaleRequest now payload => snd (createSale now payload s)
  | PurchaseRequest now payload => snd (createPurchase now payload s)
  end.

Definition handleAll (qs : list Request) (s : Store) : Store :=
  fold_left (fun s q => handle q s) qs s.

(** A sale request names no SKU twice. *)
Definition distinctSkus (q : Request) : Prop :=
  match q with
  | SaleRequest _ payload =>
      match items payload with
      | Some its => NoDup (map it_sku its)
      | None => True
      end
  | PurchaseRequest _ _ => True
  end.

End Ledger.

(* ================================================================== *)
(** * Properties *)

(** ** Numbers *)

Section NumberFacts.
Import Js.
Local Open Scope Q_scope.

Lemma Qltb_lt x y : Qltb x y = true <-> x < y.
Proof.
  unfold Qltb. rewrite negb_true_iff, <- not_true_iff_false, Qle_bool_iff.
  split; [apply Qnot_le_lt | apply Qlt_not_le].
Qed.

Lemma Qltb_ge x y : Qltb x y = false <-> y <= x.
Proof.
  unfold Qltb. rewrite negb_false_iff. apply Qle_bool_iff.
Qed.

Lemma isIntegerQ_floor q : isIntegerQ q = true -> inject_Z (Qfloor q) == q.
Proof.
  destruct q as [n d]. unfold isIntegerQ, Qfloor, Qeq. cbn [Qnum Qden inject_Z].
  intros H. apply Z.eqb_eq in H.
  rewrite Z.mul_1_r.
  rewrite (Z.div_mod n (Zpos d)) at 2 by discriminate.
  rewrite H. ring.
Qed.

Lemma isIntegerQ_inject z : isIntegerQ (inject_Z z) = true.
Proof.
  unfold isIntegerQ. cbn. now rewrite Z.mod_1_r.
Qed.

Lemma isIntegerQ_proper x y : x == y -> isIntegerQ x = true -> isIntegerQ y = true.
Proof.
  intros Hxy Hx. apply isIntegerQ_floor in Hx.
  assert (Hy : inject_Z (Qfloor x) == y) by (now rewrite Hx).
  clear Hx Hxy. revert Hy. generalize (Qfloor x). intros k Hy.
  destruct y as [n d]. unfold isIntegerQ. cbn [Qnum Qden].
  apply Z.eqb_eq.
  unfold Qeq in Hy. cbn [Qnum Qden inject_Z] in Hy.
  rewrite Z.mul_1_r in Hy. rewrite <- Hy.
  apply Z.mod_mul. discriminate.
Qed.

Lemma MathRound_inject z : MathRound (inject_Z z) = z.
Proof.
  unfold MathRound.
  assert (Hlo : (z <= Qfloor (inject_Z z + (1 # 2)))%Z).
  { rewrite <- (Qfloor_Z z) at 1. apply Qfloor_resp_le.
    rewrite <- Qplus_0_r at 1. apply Qplus_le_r. discriminate. }
  assert (Hhi : (Qfloor (inject_Z z + (1 # 2)) < z + 1)%Z).
  { rewrite Zlt_Qlt. eapply Qle_lt_trans; [apply Qfloor_le|].
    rewrite inject_Z_plus. apply Qplus_lt_r. reflexivity. }
  lia.
Qed.

Lemma MathRound_proper x y : x == y -> MathRound x = MathRound y.
Proof.
  intros H. unfold MathRound. now rewrite H.
Qed.

Lemma round2_proper x y : x == y -> round2 x = round2 y.
Proof.
  intros H. unfold round2. f_equal. f_equal. apply MathRound_proper. now rewrite H.
Qed.

Lemma round2_cents q : isCents q -> round2 q == q.
Proof.
  unfold isCents, round2. intros H. apply isIntegerQ_floor in H.
  rewrite (MathRound_proper _ _ (Qeq_sym _ _ H)), MathRound_inject, H.
  field.
Qed.

Lemma round2_isCents x : isCents (round2 x).
Proof.
  unfold isCents, round2.
  apply (isIntegerQ_proper (inject_Z (MathRound (x * 100)))).
  - field.
  - apply isIntegerQ_inject.
Qed.



End NumberFacts.

(** ** Doubles: the error of a rounding *)

Section DoubleFacts.
Import Js Binary64.
Local Open Scope Q_scope.

Lemma roundHalfEven_close x : Qabs (inject_Z (roundHalfEven x) - x) <= 1 # 2.
Proof.
  unfold roundHalfEven.
  pose proof (Qfloor_le x) as Hlo. pose proof (Qlt_floor x) as Hhi.
  rewrite inject_Z_plus in Hhi. change (inject_Z 1) with 1 in Hhi.
  apply Qabs_Qle_condition.
  destruct (x - inject_Z (Qfloor x) ?= 1 # 2) eqn:E.
  - apply Qeq_alt in E. destruct (Z.even (Qfloor x)).
    + split; lra.
    + rewrite inject_Z_plus. change (inject_Z 1) with 1. split; lra.
  - apply Qlt_alt in E. split; lra.
  - apply Qgt_alt in E. rewrite inject_Z_plus. change (inject_Z 1) with 1. split; lra.
Qed.

Lemma roundHalfEven_nonpos x : x <= 0 -> (roundHalfEven x <= 0)%Z.
Proof.
  intros Hx. unfold roundHalfEven.
  pose proof (Qfloor_le x) as Hlo. pose proof (Qlt_floor x) as Hhi.
  rewrite inject_Z_plus in Hhi. change (inject_Z 1) with 1 in Hhi.
  assert (Hf : (Qfloor x <= 0)%Z)
    by (rewrite Zle_Qle; change (inject_Z 0) with 0; lra).
  destruct (x - inject_Z (Qfloor x) ?= 1 # 2) eqn:E.
  - apply Qeq_alt in E.
    assert (Hneg : (Qfloor x < 0)%Z)
      by (rewrite Zlt_Qlt; change (inject_Z 0) with 0; lra).
    destruct (Z.even (Qfloor x)); lia.
  - exact Hf.
  - apply Qgt_alt in E.
    assert (Hneg : (Qfloor x < 0)%Z)
      by (rewrite Zlt_Qlt; change (inject_Z 0) with 0; lra).
    lia.
Qed.

Lemma pow2_pos e : 0 < 2 ^ e.
Proof. apply Qpower_0_lt. reflexivity. Qed.

Lemma pow2_plus a b : 2 ^ (a + b) == 2 ^ a * 2 ^ b.
Proof. apply Qpower_plus. discriminate. Qed.

Lemma pow2_inject (n : Z) : (0 <= n)%Z -> inject_Z (2 ^ n) == 2 ^ n.
Proof. intros H. now rewrite Zpower_Qpower. Qed.

Lemma binade_le a : 0 < a -> 2 ^ binade a <= a.
Proof.
  intros Ha. unfold binade.
  set (k := (Z.log2 (Qnum a) - Z.log2 (Zpos (Qden a)))%Z).
  destruct (Qle_bool (2 ^ k) a) eqn:E; [now apply Qle_bool_iff|].
  destruct a as [n d]. cbn [Qnum Qden] in k.
  assert (Hn : (0 < n)%Z) by (unfold Qlt in Ha; cbn in Ha; lia).
  pose proof (Z.log2_spec n Hn) as [Hn1 _].
  pose proof (Z.log2_spec (Zpos d) (Pos2Z.is_pos d)) as [_ Hd2].
  pose proof (Z.log2_nonneg n) as Ln. pose proof (Z.log2_nonneg (Zpos d)) as Ld.
  replace (k - 1)%Z with (Z.log2 n + - (Z.succ (Z.log2 (Zpos d))))%Z by (unfold k; lia).
  rewrite pow2_plus, Qpower_opp.
  rewrite <- !pow2_inject by lia.
  rewrite (Qmake_Qdiv n d).
  assert (H1 : inject_Z (2 ^ Z.log2 n) <= inject_Z n) by (rewrite <- Zle_Qle; exact Hn1).
  assert (H2 : inject_Z (Zpos d) <= inject_Z (2 ^ Z.succ (Z.log2 (Zpos d))))
    by (rewrite <- Zle_Qle; lia).
  assert (H3 : 0 < inject_Z (Zpos d)) by (rewrite <- (Zlt_Qlt 0); lia).
  assert (H4 : 0 < inject_Z (2 ^ Z.log2 n)).
  { rewrite <- (Zlt_Qlt 0). apply Z.pow_pos_nonneg; lia. }
  set (p := inject_Z (2 ^ Z.log2 n)) in *.
  set (q := inject_Z (2 ^ Z.succ (Z.log2 (Zpos d)))) in *.
  set (N := inject_Z n) in *. set (D := inject_Z (Zpos d)) in *.
  apply Qle_shift_div_l; [exact H3|].
  assert (Hq : 0 < q) by lra.
  assert (Hpq : p * / q * q == p) by (field; lra).
  assert (Hinv : 0 < / q) by now apply Qinv_lt_0_compat.
  assert (Hnn : 0 <= p * / q) by (apply Qmult_le_0_compat; lra).
  nra.
Qed.

Lemma lastPlace_cases a :
  0 < a -> 2 ^ lastPlace a <= a * 2 ^ (-52) \/ lastPlace a = (-1074)%Z.
Proof.
  intros Ha. unfold lastPlace.
  destruct (Z.max_spec (binade a - 52) (-1074)) as [[_ ->]|[_ ->]]; [now right|left].
  replace (binade a - 52)%Z with (binade a + -52)%Z by lia.
  rewrite pow2_plus. apply Qmult_le_compat_r; [now apply binade_le|].
  apply Qlt_le_weak, pow2_pos.
Qed.

Lemma Qabs_pos_neq x : ~ x == 0 -> 0 < Qabs x.
Proof.
  intros E0. apply Qabs_case; intros Hc.
  - destruct (Qlt_le_dec 0 x); [assumption|exfalso; apply E0; lra].
  - destruct (Qlt_le_dec x 0); [lra|exfalso; apply E0; lra].
Qed.

Lemma eta_pos : 0 < eta.
Proof. apply pow2_pos. Qed.

Lemma eta_small : eta <= 1 # 1000000000000000000000000000000.
Proof. apply Qle_bool_iff. vm_compute. reflexivity. Qed.

(** A rounding moves a number by at most half a unit in its last
    place. *)
Lemma rounded_close x :
  ~ x == 0 ->
  let e := lastPlace (Qabs x) in
  Qabs (inject_Z (roundHalfEven (x / 2 ^ e)) * 2 ^ e - x) <= Qabs x * halfUlp + eta.
Proof.
  intros E0 e. set (m := inject_Z (roundHalfEven (x / 2 ^ e))).
  pose proof (Qabs_pos_neq x E0) as Ha.
  pose proof (pow2_pos e) as He.
  pose proof (roundHalfEven_close (x / 2 ^ e)) as Hm. fold m in Hm.
  assert (Hdiff : m * 2 ^ e - x == (m - x / 2 ^ e) * 2 ^ e) by (field; lra).
  rewrite Hdiff, Qabs_Qmult, (Qabs_pos (2 ^ e)) by lra.
  assert (Hhalf : Qabs (m - x / 2 ^ e) * 2 ^ e <= (1 # 2) * 2 ^ e)
    by (apply Qmult_le_compat_r; lra).
  pose proof eta_pos as Heta.
  destruct (lastPlace_cases (Qabs x) Ha) as [Hn|Hs].
  - fold e in Hn.
    assert (Hc : (1 # 2) * (Qabs x * 2 ^ (-52)) == Qabs x * halfUlp).
    { unfold halfUlp. change (2 ^ (-52)) with (/ (2 ^ 52)).
      assert (H52 : / 2 ^ 52 == 1 # 4503599627370496) by reflexivity.
      rewrite H52. field. }
    nra.
  - fold e in Hs.
    assert (Hc : (1 # 2) * 2 ^ e == eta).
    { rewrite Hs. unfold eta. replace (-1074)%Z with (1 + -1075)%Z by lia.
      rewrite pow2_plus. change (2 ^ 1) with 2. field. }
    assert (0 <= Qabs x * halfUlp) by (apply Qmult_le_0_compat; [lra|discriminate]).
    lra.
Qed.

Lemma nearest_close x y :
  nearest x = Finite y -> Qabs (y - x) <= Qabs x * halfUlp + eta.
Proof.
  unfold nearest. destruct (Qeq_bool x 0) eqn:E0.
  - apply Qeq_bool_iff in E0. intros H.
    assert (Hy : 0 = y) by (now injection H). subst y.
    rewrite E0. pose proof eta_pos. change (Qabs (0 - 0)) with 0.
    change (Qabs 0) with 0. lra.
  - apply Qeq_bool_neq in E0.
    pose proof (rounded_close x E0) as Hclose. cbv zeta in Hclose.
    destruct (Qle_bool (2 ^ 1024) _); [destruct (Qle_bool 0 x); discriminate|].
    intros H.
    match type of H with
    | Finite (Qred ?v) = _ => assert (Hy : Qred v = y) by (now injection H)
    end.
    rewrite <- Hy, Qred_correct. exact Hclose.
Qed.

Lemma nearest_finite x :
  Qabs x <= 2 ^ 1023 -> exists y, nearest x = Finite y.
Proof.
  intros Hx. unfold nearest. destruct (Qeq_bool x 0) eqn:E0; [eauto|].
  apply Qeq_bool_neq in E0.
  pose proof (rounded_close x E0) as Hclose. cbv zeta in Hclose.
  match goal with
  | |- context [Qle_bool (2 ^ 1024) ?v] => destruct (Qle_bool (2 ^ 1024) v) eqn:E
  end; [exfalso|eauto].
  apply Qle_bool_iff in E.
  match type of E with
  | _ <= Qabs ?v => set (y := v) in *
  end.
  assert (Hy : Qabs y <= Qabs x + Qabs (y - x)).
  { setoid_replace y with (x + (y - x)) at 1 by ring. apply Qabs_triangle. }
  pose proof eta_small as Heta.
  assert (H1024 : 2 ^ 1024 == 2 * 2 ^ 1023).
  { replace 1024%Z with (1 + 1023)%Z by lia. rewrite pow2_plus. reflexivity. }
  assert (Hone : 1 <= 2 ^ 1023).
  { change 1 with (2 ^ 0). apply Qpower_le_compat_l; [lia|discriminate]. }
  pose proof (Qabs_nonneg x) as Hnn.
  unfold halfUlp in Hclose.
  set (P := 2 ^ 1023) in *. set (T := 2 ^ 1024) in *.
  set (ax := Qabs x) in *. set (ay := Qabs y) in *. set (ad := Qabs (y - x)) in *.
  lra.
Qed.

Lemma nearest_nonpos x :
  x <= 0 -> nearest x = NegInf \/ exists y, nearest x = Finite y /\ y <= 0.
Proof.
  intros Hx. unfold nearest. destruct (Qeq_bool x 0) eqn:E0.
  - right. exists 0. split; [reflexivity|lra].
  - apply Qeq_bool_neq in E0.
    destruct (Qle_bool (2 ^ 1024) _).
    + left. destruct (Qle_bool 0 x) eqn:E; [|reflexivity].
      apply Qle_bool_iff in E. exfalso. apply E0. lra.
    + right. eexists. split; [reflexivity|]. rewrite Qred_correct.
      set (e := lastPlace (Qabs x)). pose proof (pow2_pos e) as He.
      assert (Hq : x / 2 ^ e <= 0).
      { apply Qle_shift_div_r; [exact He|]. lra. }
      apply roundHalfEven_nonpos in Hq. rewrite Zle_Qle in Hq.
      change (inject_Z 0) with 0 in Hq.
      set (m := inject_Z (roundHalfEven (x / 2 ^ e))) in *. nra.
Qed.

Lemma roundHalfEven_nonneg x : 0 <= x -> (0 <= roundHalfEven x)%Z.
Proof.
  intros Hx. unfold roundHalfEven.
  assert (Hf : (0 <= Qfloor x)%Z).
  { rewrite <- (Qfloor_Z 0). now apply Qfloor_resp_le. }
  destruct (x - inject_Z (Qfloor x) ?= 1 # 2); [destruct (Z.even (Qfloor x))| |]; lia.
Qed.

Lemma nearest_nonneg x :
  0 <= x -> nearest x = PosInf \/ exists y, nearest x = Finite y /\ 0 <= y.
Proof.
  intros Hx. unfold nearest. destruct (Qeq_bool x 0) eqn:E0.
  - right. exists 0. split; [reflexivity|lra].
  - destruct (Qle_bool (2 ^ 1024) _).
    + left. apply Qle_bool_iff in Hx. now rewrite Hx.
    + right. eexists. split; [reflexivity|]. rewrite Qred_correct.
      set (e := lastPlace (Qabs x)). pose proof (pow2_pos e) as He.
      assert (Hq : 0 <= x / 2 ^ e).
      { apply Qle_shift_div_l; [exact He|]. lra. }
      apply roundHalfEven_nonneg in Hq. rewrite Zle_Qle in Hq.
      change (inject_Z 0) with 0 in Hq.
      set (m := inject_Z (roundHalfEven (x / 2 ^ e))) in *. nra.
Qed.

Lemma MathRound_bounds y :
  inject_Z (MathRound y) - (1 # 2) <= y < inject_Z (MathRound y) + (1 # 2).
Proof.
  unfold MathRound.
  pose proof (Qfloor_le (y + (1 # 2))) as Hlo.
  pose proof (Qlt_floor (y + (1 # 2))) as Hhi.
  rewrite inject_Z_plus in Hhi. change (inject_Z 1) with 1 in Hhi.
  split; lra.
Qed.

Lemma MathRound_unique y k :
  inject_Z k - (1 # 2) <= y < inject_Z k + (1 # 2) -> MathRound y = k.
Proof.
  intros [Hlo Hhi]. destruct (MathRound_bounds y) as [Mlo Mhi].
  assert (H1 : (MathRound y < k + 1)%Z).
  { rewrite Zlt_Qlt, inject_Z_plus. change (inject_Z 1) with 1. lra. }
  assert (H2 : (k < MathRound y + 1)%Z).
  { rewrite Zlt_Qlt, inject_Z_plus. change (inject_Z 1) with 1. lra. }
  lia.
Qed.

Lemma inject_Z_bounded k b :
  (Z.abs k <= b)%Z -> - inject_Z b <= inject_Z k <= inject_Z b.
Proof.
  intros H. rewrite <- inject_Z_opp, <- !Zle_Qle. lia.
Qed.

Lemma roundHalfEven_proper x y : x == y -> roundHalfEven x = roundHalfEven y.
Proof.
  intros H. unfold roundHalfEven. cbv zeta.
  assert (Hf : Qfloor x = Qfloor y) by (now rewrite H). rewrite Hf.
  assert (Hc : (x - inject_Z (Qfloor y) ?= 1 # 2) = (y - inject_Z (Qfloor y) ?= 1 # 2)).
  { apply Qcompare_comp; [now rewrite H|reflexivity]. }
  now rewrite Hc.
Qed.

Lemma roundHalfEven_inject z : roundHalfEven (inject_Z z) = z.
Proof.
  unfold roundHalfEven. cbv zeta. rewrite Qfloor_Z.
  assert (Hc : (inject_Z z - inject_Z z ?= 1 # 2) = (0 ?= 1 # 2)).
  { apply Qcompare_comp; [ring|reflexivity]. }
  now rewrite Hc.
Qed.

Lemma Qred_inject z : Qred (inject_Z z) = inject_Z z.
Proof.
  apply Qred_identity. cbn. apply Z.gcd_1_r.
Qed.

(** An integer of at most 53 bits is a double. *)
Lemma nearest_integer x n :
  x == inject_Z n -> (Z.abs n <= 2 ^ 53)%Z -> nearest x = Finite (inject_Z n).
Proof.
  intros Hx Hn. unfold nearest. destruct (Qeq_bool x 0) eqn:E0.
  - apply Qeq_bool_iff in E0. rewrite Hx in E0.
    assert (n = 0%Z) by (apply inject_Z_injective; exact E0). now subst n.
  - apply Qeq_bool_neq in E0.
    set (e := lastPlace (Qabs x)).
    pose proof (pow2_pos e) as He.
    assert (Hb := inject_Z_bounded n (2 ^ 53) Hn).
    assert (Hax : Qabs x <= inject_Z (2 ^ 53)).
    { rewrite Hx. apply Qabs_Qle_condition. exact Hb. }
    assert (He1 : (e <= 1)%Z).
    { unfold e, lastPlace.
      pose proof (binade_le (Qabs x) (Qabs_pos_neq x E0)) as Hbin.
      assert (H53 : 2 ^ binade (Qabs x) <= 2 ^ 53).
      { eapply Qle_trans; [exact Hbin|]. eapply Qle_trans; [exact Hax|].
        rewrite pow2_inject by lia. apply Qle_refl. }
      apply Qpower_le_compat_l_inv in H53; [lia|reflexivity]. }
    assert (Hz : exists z, x / 2 ^ e == inject_Z z).
    { destruct (Z.le_gt_cases e 0) as [Hneg|Hpos].
      - exists (n * 2 ^ (- e))%Z. rewrite inject_Z_mult, pow2_inject by lia.
        rewrite Qpower_opp, Hx. field. lra.
      - assert (e = 1%Z) by lia.
        assert (Hbig : inject_Z (2 ^ 53) <= Qabs x).
        { pose proof (binade_le (Qabs x) (Qabs_pos_neq x E0)) as Hbin.
          unfold e, lastPlace in H.
          assert (HE : binade (Qabs x) = 53%Z) by lia.
          rewrite HE in Hbin. now rewrite pow2_inject by lia. }
        rewrite Hx in Hbig.
        assert (Habs : (Z.abs n = 2 ^ 53)%Z).
        { apply Z.le_antisymm; [exact Hn|].
          rewrite Zle_Qle. eapply Qle_trans; [exact Hbig|].
          apply Qabs_case; intros _; rewrite <- ?inject_Z_opp, <- Zle_Qle; lia. }
        exists (n / 2)%Z. rewrite H. change (2 ^ 1) with 2. rewrite Hx.
        assert (Hdiv : n = (2 * (n / 2))%Z).
        { apply Z_div_exact_2; [lia|].
          destruct (Z.abs_spec n) as [[_ Hs]|[_ Hs]]; rewrite Hs in Habs.
          - rewrite Habs. reflexivity.
          - replace n with (- 2 ^ 53)%Z by lia. reflexivity. }
        rewrite Hdiv at 1. rewrite inject_Z_mult. change (inject_Z 2) with 2. field. }
    destruct Hz as [z Hz].
    rewrite (roundHalfEven_proper _ _ Hz), roundHalfEven_inject.
    assert (Hy : inject_Z z * 2 ^ e == inject_Z n).
    { rewrite <- Hz, <- Hx. field. lra. }
    assert (Hfin : Qle_bool (2 ^ 1024) (Qabs (inject_Z z * 2 ^ e)) = false).
    { apply not_true_iff_false. intros Hc. apply Qle_bool_iff in Hc.
      rewrite Hy, <- Hx in Hc.
      assert (Hlt : inject_Z (2 ^ 53) < 2 ^ 1024).
      { rewrite pow2_inject by lia. apply Qpower_lt_compat_l; [lia|reflexivity]. }
      lra. }
    rewrite Hfin. f_equal. rewrite (Qred_complete _ _ Hy). apply Qred_inject.
Qed.

(** An amount of cents read as a number keeps its value when it is
    rounded to cents again. *)
Lemma cents_read_back k d :
  (Z.abs k <= 10 ^ 12)%Z ->
  nearest (inject_Z k / 100) = Finite d ->
  Binary64.round2 (Finite d) = Finite d.
Proof.
  intros Hk H. apply inject_Z_bounded in Hk.
  change (inject_Z (10 ^ 12)) with 1000000000000 in Hk.
  pose proof (nearest_close _ _ H) as Hd.
  pose proof eta_pos as Heta0. pose proof eta_small as Heta.
  set (K := inject_Z k) in *.
  assert (Hb : Qabs (K / 100) <= 10000000000).
  { apply Qabs_Qle_condition. unfold Qdiv. change (/ 100) with (1 # 100). split; lra. }
  unfold halfUlp in Hd.
  assert (Hd' : Qabs (d - K / 100) <= 1 # 100000).
  { set (a := Qabs (K / 100)) in *. set (b := Qabs (d - K / 100)) in *. lra. }
  clear Hd. apply Qabs_Qle_condition in Hd'. unfold Qdiv in Hd'.
  change (/ 100) with (1 # 100) in Hd'.
  assert (Hd100 : Qabs (d * 100) <= 1100000000000).
  { apply Qabs_Qle_condition. split; lra. }
  destruct (nearest_finite (d * 100)) as [y Hy].
  { eapply Qle_trans; [exact Hd100|]. apply Qle_bool_iff. vm_compute. reflexivity. }
  pose proof (nearest_close _ _ Hy) as Hclose. unfold halfUlp in Hclose.
  assert (Hy' : Qabs (y - d * 100) <= 1 # 1000).
  { set (a := Qabs (d * 100)) in *. set (b := Qabs (y - d * 100)) in *. lra. }
  clear Hclose. apply Qabs_Qle_condition in Hy'.
  assert (Hround : MathRound y = k).
  { apply MathRound_unique. fold K. split; lra. }
  unfold Binary64.round2. cbn [mul]. rewrite Hy. cbn [round]. rewrite Hround.
  cbn [div]. change (Qeq_bool 100 0) with false. cbv iota. exact H.
Qed.

(** The embedding of the double-precision operations agrees with the
    reference semantics of the standard library on amounts, percentages
    and quantities of the kind the services meet, on ties, on subnormal
    numbers, on an overflow and on a division by zero. *)
Lemma binary64_agrees_with_the_reference :
  forallb (fun p => agreesWithReference (fst p) (snd p))
    [(100, 93); (7 # 100, 100); (130 # 100, 5); (95 # 100, 100); (375 # 1000, 1);
     (1, 5); (1 # 5, 1); (575 # 1000, 100); (1005 # 1000, 100); (1995 # 10, 95 # 100);
     (22 # 10, 12 # 10); (1 # 10, 2 # 10); (3 # 10, 6 # 10); (1000 # 100, 1001 # 100);
     (2001 # 100, 2); (1, 3); (100, 3); (3333333333333333 # 100000000000000, 3);
     (9007199254740992, 1); (9007199254740993, 2); (4503599627370497 # 2, 1 # 2);
     (- (75 # 10), 225 # 100); (- (1 # 3), - (7 # 100)); (0, 5); (5, 0); (- 5, 0);
     (0, 0); (3 * 2 ^ 1000, 2 ^ 1000); (- (3 * 2 ^ 1000), 2 ^ 30);
     (2 ^ 1023, 2 ^ 1023); (3 # 2 ^ 1000, 1 # 2 ^ 75); (5 # 2 ^ 1000, 1 # 2 ^ 75);
     (1 # 2 ^ 1000, 1 # 2 ^ 70); (1 # 2 ^ 1000, 1 # 2 ^ 80);
     (999999999999 # 100, 1 # 100); (12345678901 # 1000, 2147483647)]%Q
  = true.
Proof. vm_compute. reflexivity. Qed.

Lemma binary64_agrees_with_the_reference_on_a_sequence :
  forallb (fun p => agreesWithReference (fst p) (snd p)) (samples 300 1) = true.
Proof. vm_compute. reflexivity. Qed.

End DoubleFacts.

(** ** FIFO consumption *)

Section FifoFacts.
Import Reports.

Lemma applyFifo_body_acc layers : forall c acc,
  fold_left applyFifo_body layers (c, acc) =
  (fst (fold_left applyFifo_body layers (c, [])),
   acc ++ snd (fold_left applyFifo_body layers (c, []))).
Proof.
  induction layers as [|l ls IH]; intros c acc; cbn [fold_left].
  - now rewrite app_nil_r.
  - unfold applyFifo_body at 2 4 6. cbv zeta.
    destruct (0 <? quantity l - Z.min (quantity l) c).
    + rewrite IH. rewrite (IH _ ([] ++ _)). cbn [fst snd app].
      now rewrite <- app_assoc.
    + now rewrite IH.
Qed.

Lemma applyFifo_nil c : applyFifo [] c = [].
Proof. reflexivity. Qed.

Lemma applyFifo_dropped l ls c :
  quantity l <= c -> applyFifo (l :: ls) c = applyFifo ls (c - quantity l).
Proof.
  intros H. unfold applyFifo. cbn [fold_left]. unfold applyFifo_body at 2.
  cbv zeta. rewrite Z.min_l by lia.
  replace (quantity l - quantity l) with 0 by lia. reflexivity.
Qed.

Lemma applyFifo_partial l ls c :
  c < quantity l ->
  applyFifo (l :: ls) c =
  mkLayer (purchasedAt l) (quantity l - c) (effectiveUnitCost l) :: applyFifo ls 0.
Proof.
  intros H. unfold applyFifo. cbn [fold_left]. unfold applyFifo_body at 2.
  cbv zeta. rewrite Z.min_r by lia.
  replace (0 <? quantity l - c) with true by (symmetry; apply Z.ltb_lt; lia).
  rewrite applyFifo_body_acc. cbn [snd app].
  now replace (c - c) with 0 by lia.
Qed.

Lemma applyFifo_exhausted ls :
  positiveLayers ls -> applyFifo ls 0 = ls.
Proof.
  induction 1 as [|l ls Hl _ IH]; [reflexivity|].
  rewrite applyFifo_partial by assumption. rewrite IH.
  replace (quantity l - 0) with (quantity l) by lia. now destruct l.
Qed.

End FifoFacts.

Section FifoClaims.
Import Reports.

Lemma remnant_refl ls : positiveLayers ls -> remnant ls ls.
Proof.
  induction 1 as [|l ls Hl _ IH]; constructor; auto; lia.
Qed.

Lemma positiveLayers_total ls : positiveLayers ls -> 0 <= totalQuantity ls.
Proof.
  induction 1 as [|l ls Hl _ IH]; cbn [totalQuantity fold_right]; [lia|].
  fold (totalQuantity ls). lia.
Qed.

(** C3.  [applyFifo] walks the layers oldest first against a to-consume
    counter [c]: a layer whose quantity is at most [c] is dropped and the
    counter goes down by that quantity; the first layer larger than the
    counter is kept with its date and cost and with quantity
    [quantity - c], and the layers after it come out unchanged.  Layers
    [(t1,10,5), (t2,5,6)] with 12 sold leave exactly [(t2,3,6)]. *)
Theorem applyFifo_walks_oldest_first :
  forall (l : Layer) (ls : list Layer) (c : Z),
    0 <= c ->
    positiveLayers ls ->
    applyFifo [] c = []
    /\ (quantity l <= c ->
        applyFifo (l :: ls) c = applyFifo ls (c - quantity l) /\ 0 <= c - quantity l)
    /\ (c < quantity l ->
        applyFifo (l :: ls) c =
        mkLayer (purchasedAt l) (quantity l - c) (effectiveUnitCost l) :: ls)
    /\ (forall t1 t2 : Z,
        applyFifo [mkLayer t1 10 5; mkLayer t2 5 6] 12 = [mkLayer t2 3 6]).
Proof.
  intros l ls c Hc Hpos. split; [reflexivity|]. split; [|split].
  - intros Hle. split; [now apply applyFifo_dropped | lia].
  - intros Hlt. rewrite applyFifo_partial by assumption.
    now rewrite applyFifo_exhausted.
  - intros t1 t2. reflexivity.
Qed.

Lemma applyFifo_walks_oldest_first_witness :
  0 <= 12
  /\ positiveLayers [mkLayer 200 5 6]
  /\ applyFifo [mkLayer 100 10 5; mkLayer 200 5 6] 12 = applyFifo [mkLayer 200 5 6] 2
  /\ applyFifo [mkLayer 200 5 6] 2 = [mkLayer 200 3 6].
Proof.
  assert (H12 : 0 <= 12) by lia.
  assert (H2 : 0 <= 2) by lia.
  assert (Hp : positiveLayers [mkLayer 200 5 6])
    by (repeat constructor).
  split; [exact H12|]. split; [exact Hp|]. split.
  - destruct (applyFifo_walks_oldest_first (mkLayer 100 10 5) [mkLayer 200 5 6] 12 H12 Hp)
      as (_ & Hdrop & _).
    apply Hdrop. cbn; lia.
  - destruct (applyFifo_walks_oldest_first (mkLayer 200 5 6) [] 2 H2 (Forall_nil _))
      as (_ & _ & Hpart & _).
    apply Hpart. cbn; lia.
Defined.

(** C10.  On layers of positive quantity and a non-negative [totalSold],
    [applyFifo] conserves stock: the remaining quantities add up to
    [max 0 (total - totalSold)]; every remaining layer has a positive
    quantity; and the output is, in input order, a selection of the input
    layers with dates and costs unchanged and quantities not above the
    original ones. *)
Theorem applyFifo_conserves_stock :
  forall (layers : list Layer) (totalSold : Z),
    positiveLayers layers ->
    0 <= totalSold ->
    totalQuantity (applyFifo layers totalSold)
      = Z.max 0 (totalQuantity layers - totalSold)
    /\ positiveLayers (applyFifo layers totalSold)
    /\ remnant (applyFifo layers totalSold) layers.
Proof.
  intros layers totalSold Hpos. revert totalSold.
  induction Hpos as [|l ls Hl Hls IH]; intros c Hc.
  - rewrite applyFifo_nil. cbn [totalQuantity fold_right].
    split; [lia|]. split; constructor.
  - pose proof (positiveLayers_total ls Hls) as Htot.
    destruct (Z_le_gt_dec (quantity l) c) as [Hle|Hgt].
    + rewrite applyFifo_dropped by assumption.
      destruct (IH (c - quantity l) ltac:(lia)) as (Hsum & Hp & Hr).
      split; [|split].
      * rewrite Hsum. cbn [totalQuantity fold_right]. fold (totalQuantity ls). lia.
      * exact Hp.
      * now constructor.
    + rewrite applyFifo_partial by lia.
      rewrite applyFifo_exhausted by assumption.
      split; [|split].
      * cbn [totalQuantity fold_right quantity]. fold (totalQuantity ls). lia.
      * constructor; [cbn; lia | exact Hls].
      * apply remnant_keep; cbn; try reflexivity; try lia.
        now apply remnant_refl.
Qed.

Lemma applyFifo_conserves_stock_witness :
  positiveLayers [mkLayer 100 10 5; mkLayer 200 5 6]
  /\ 0 <= 12
  /\ totalQuantity (applyFifo [mkLayer 100 10 5; mkLayer 200 5 6] 12) = 3.
Proof.
  assert (Hp : positiveLayers [mkLayer 100 10 5; mkLayer 200 5 6])
    by (repeat constructor).
  assert (H12 : 0 <= 12) by lia.
  split; [exact Hp|]. split; [exact H12|].
  destruct (applyFifo_conserves_stock _ 12 Hp H12) as (Hsum & _).
  rewrite Hsum. reflexivity.
Defined.

End FifoClaims.

(** ** Aging buckets and discount suggestions *)

Section AgingClaims.
Import Js Reports.
Local Open Scope string_scope.

(** C8.  [daysBetween] is the whole number of days between the two
    midnights, rounded down; [getAgingBucket] sends ages up to 30 to
    [0-30], 31 to 60 to [31-60], 61 to 90 to [61-90] and the rest to
    [90+]; the base discounts of the four buckets are 0, 5, 10 and 20
    percent. *)
Theorem aging_classification :
  (forall (startOfDay : Z -> Z) (asOfDate purchasedAt : Z),
      let ageDays := daysBetween startOfDay asOfDate purchasedAt in
      let elapsed := startOfDay asOfDate - startOfDay purchasedAt in
      MS_PER_DAY = 86400000
      /\ MS_PER_DAY * ageDays <= elapsed < MS_PER_DAY * (ageDays + 1))
  /\ (forall ageDays : Z,
      (ageDays <= 30 ->
         getAgingBucket ageDays = "0-30"
         /\ getBucketDiscountPercent (getAgingBucket ageDays) = 0%Q)
      /\ (31 <= ageDays <= 60 ->
         getAgingBucket ageDays = "31-60"
         /\ getBucketDiscountPercent (getAgingBucket ageDays) = 5%Q)
      /\ (61 <= ageDays <= 90 ->
         getAgingBucket ageDays = "61-90"
         /\ getBucketDiscountPercent (getAgingBucket ageDays) = 10%Q)
      /\ (90 < ageDays ->
         getAgingBucket ageDays = "90+"
         /\ getBucketDiscountPercent (getAgingBucket ageDays) = 20%Q)).
Proof.
  split.
  - intros startOfDay asOfDate purchasedAt ageDays elapsed.
    split; [reflexivity|].
    subst ageDays. unfold daysBetween. fold elapsed.
    assert (Hd : 0 < MS_PER_DAY) by reflexivity.
    pose proof (Z.mul_div_le elapsed MS_PER_DAY Hd).
    pose proof (Z.mul_succ_div_gt elapsed MS_PER_DAY Hd).
    lia.
  - intros n. unfold getAgingBucket.
    repeat split; intros;
      repeat match goal with
             | |- context [Z.leb ?a ?b] =>
                 destruct (Z.leb_spec a b); try lia
             end; reflexivity.
Qed.

Lemma aging_classification_witness :
  daysBetween (fun t => t - t mod MS_PER_DAY) 8640000000 5000 = 100
  /\ getAgingBucket 100 = "90+"
  /\ getBucketDiscountPercent (getAgingBucket 45) = 5%Q.
Proof.
  destruct aging_classification as [Hdays Hbucket].
  split; [|split].
  - specialize (Hdays (fun t => t - t mod MS_PER_DAY) 8640000000 5000).
    cbv zeta in Hdays. destruct Hdays as [_ Hbounds].
    revert Hbounds. generalize (daysBetween (fun t => t - t mod MS_PER_DAY) 8640000000 5000).
    intros z.
    change MS_PER_DAY with 86400000. cbv beta.
    change (8640000000 mod 86400000) with 0.
    change (5000 mod 86400000) with 5000.
    lia.
  - destruct (Hbucket 100) as (_ & _ & _ & H). apply H. lia.
  - destruct (Hbucket 45) as (_ & H & _). apply H. lia.
Defined.

End AgingClaims.

Section DiscountSuggestionClaims.
Import Js Binary64 Reports.
Local Open Scope Q_scope.

(** What [getDiscountSuggestion] returns, by the comparison that decides
    the cap. *)
Lemma getDiscountSuggestion_cases bucket dsp maxD c :
  let pct := Qmin (getBucketDiscountPercent bucket) maxD in
  let price :=
    match dsp with
    | Fin p =>
        if Qltb 0 p
        then Binary64.round2 (Finite p * (Finite 1 - Finite pct / Finite 100))%double
        else Finite c
    | NonFin => Finite c
    end in
  getDiscountSuggestion bucket dsp (Fin maxD) (Fin c)
  = if (price <? Finite c)%double
    then mkSuggestion pct (toNumber (Binary64.round2 (Finite c))) true
    else mkSuggestion pct (toNumber price) false.
Proof.
  cbv zeta. unfold getDiscountSuggestion, MathMin. cbn [ofNumber].
  destruct dsp as [p|]; [reflexivity|].
  change (Qltb 0 0) with false. reflexivity.
Qed.

(** C7.  For a bucket, a variant pricing and a layer cost that is an
    amount of cents read as a number, [getDiscountSuggestion] returns the
    smaller of the bucket discount and [maxDiscountPercent]; its price is
    the default selling price less that discount, every operation carried
    out in double precision and the result rounded to cents by
    [Math.round(x * 100) / 100], that is the double nearest to [c / 100]
    for the integer [c] nearest to the double [x * 100], a half going
    up; it is the layer cost when the default selling price is not a
    finite positive number.  A price below the layer cost is replaced by
    the cost and flagged.  A 90+ layer of cost 95 under default price 90
    and limit 50 yields 95, flagged, the price before the cap being 72. *)
Theorem discount_suggestion_capped_by_cost :
  forall (bucket : string) (defaultSellingPrice : number)
         (maxDiscountPercent : Q) (cents : Z) (costPrice : Q),
    (Z.abs cents <= 10 ^ 12)%Z ->
    nearest (inject_Z cents / 100) = Finite costPrice ->
    let r := getDiscountSuggestion bucket defaultSellingPrice
               (Fin maxDiscountPercent) (Fin costPrice) in
    let pct := Qmin (getBucketDiscountPercent bucket) maxDiscountPercent in
    let discounted (p : Q) : double :=
      (Finite p * (Finite 1 - Finite pct / Finite 100) * Finite 100)%double in
    let price :=
      match defaultSellingPrice with
      | Fin p =>
          if Qlt_le_dec 0 p
          then match discounted p with
               | Finite y => nearest (inject_Z (MathRound y) / 100)
               | other => other
               end
          else Finite costPrice
      | NonFin => Finite costPrice
      end in
    suggestedDiscountPercent r = pct
    /\ ((price <? Finite costPrice)%double = true ->
        suggestedPrice r = Fin costPrice /\ discountCappedByCost r = true)
    /\ ((price <? Finite costPrice)%double = false ->
        suggestedPrice r = toNumber price /\ discountCappedByCost r = false)
    /\ (forall y, inject_Z (MathRound y) - (1 # 2) <= y < inject_Z (MathRound y) + (1 # 2))
    /\ (let e := getDiscountSuggestion "90+" (Fin 90) (Fin 50) (Fin 95) in
        (Finite 90 * (Finite 1 - Finite (suggestedDiscountPercent e) / Finite 100)
         * Finite 100)%double = Finite 7200
        /\ nearest (7200 / 100) = Finite 72
        /\ suggestedPrice e = Fin 95
        /\ discountCappedByCost e = true).
Proof.
  intros bucket dsp maxD cents cost Hcents Hcost r pct discounted price.
  assert (Hsel : r = if (price <? Finite cost)%double
                     then mkSuggestion pct (Fin cost) true
                     else mkSuggestion pct (toNumber price) false).
  { subst r. rewrite getDiscountSuggestion_cases. fold pct.
    rewrite (cents_read_back cents cost Hcents Hcost). cbn [toNumber].
    assert (Hprice : match dsp with
                     | Fin p =>
                         if Qltb 0 p
                         then Binary64.round2
                                (Finite p * (Finite 1 - Finite pct / Finite 100))%double
                         else Finite cost
                     | NonFin => Finite cost
                     end = price).
    { subst price discounted. destruct dsp as [p|]; [|reflexivity].
      destruct (Qlt_le_dec 0 p) as [Hp|Hp].
      - apply Qltb_lt in Hp. rewrite Hp. unfold Binary64.round2.
        destruct (Finite p * (Finite 1 - Finite pct / Finite 100) * Finite 100)%double
          as [y| | |]; reflexivity.
      - apply Qltb_ge in Hp. now rewrite Hp. }
    now rewrite Hprice. }
  rewrite Hsel. clear Hsel r.
  split; [|split; [|split; [|split]]].
  - now destruct (price <? Finite cost)%double.
  - intros ->. split; reflexivity.
  - intros ->. split; reflexivity.
  - apply MathRound_bounds.
  - vm_compute. repeat split.
Qed.

Lemma discount_suggestion_capped_by_cost_witness :
  (Z.abs 9500 <= 10 ^ 12)%Z
  /\ nearest (inject_Z 9500 / 100) = Finite 95
  /\ suggestedDiscountPercent
       (getDiscountSuggestion "90+" (Fin 90) (Fin 50) (Fin 95)) = Qmin 20 50
  /\ suggestedPrice (getDiscountSuggestion "90+" (Fin 90) (Fin 50) (Fin 95)) = Fin 95.
Proof.
  assert (Hc : (Z.abs 9500 <= 10 ^ 12)%Z) by (vm_compute; discriminate).
  assert (Hn : nearest (inject_Z 9500 / 100) = Finite 95) by (vm_compute; reflexivity).
  split; [exact Hc|]. split; [exact Hn|].
  destruct (discount_suggestion_capped_by_cost "90+" (Fin 90) 50 9500 95 Hc Hn)
    as (Hpct & Hcap & _).
  split; [exact Hpct|].
  apply Hcap. vm_compute. reflexivity.
Defined.

(** The price of [getDiscountSuggestion] is not the exact product rounded
    to cents.  For the default selling price 1.30 (the double nearest to
    it, which is a little above) and a discount of 5 per cent the product
    is above 1.235, so that every rounding to the nearest cent gives 1.24;
    the doubles give 123.49999999999999 for the product times 100, and
    the suggestion is 1.23. *)
Lemma discount_suggestion_rounds_the_double :
  exists p price,
    nearest (130 # 100) = Finite p
    /\ nearest (123 # 100) = Finite price
    /\ suggestedDiscountPercent
         (getDiscountSuggestion "31-60" (Fin p) (Fin 50) (Fin 1)) = 5
    /\ suggestedPrice (getDiscountSuggestion "31-60" (Fin p) (Fin 50) (Fin 1)) = Fin price
    /\ (123 # 100) + (1 # 200) < p * (1 - 5 / 100)
    /\ Js.round2 (p * (1 - 5 / 100)) == 124 # 100
    /\ ~ price == Js.round2 (p * (1 - 5 / 100)).
Proof.
  eexists. eexists.
  split; [vm_compute; reflexivity|].
  split; [vm_compute; reflexivity|].
  split; [vm_compute; reflexivity|].
  split; [vm_compute; reflexivity|].
  split; [vm_compute; reflexivity|].
  split; [vm_compute; reflexivity|].
  vm_compute. discriminate.
Qed.

End DiscountSuggestionClaims.

(** ** Pricing and discount validation *)

Section PricingClaims.
Import Js Binary64 Db SaleService.
Local Open Scope Q_scope.

Lemma checkDiscountRules_finite skuName id dsp sellingPrice mrp maxDiscountPercent :
  let discountPercent :=
    ((Finite mrp - Finite sellingPrice) / Finite mrp * Finite 100)%double in
  checkDiscountRules skuName sellingPrice
    (Some (mkProductVariant id (Fin mrp) dsp (Fin maxDiscountPercent)))
  = if Qltb mrp sellingPrice
    then Throw (PriceExceedsMrp skuName sellingPrice mrp)
    else if Qltb 0 mrp && (Finite maxDiscountPercent <? discountPercent)%double
    then Throw (DiscountExceedsLimit skuName discountPercent maxDiscountPercent)
    else Ok tt.
Proof.
  cbv zeta.
  unfold checkDiscountRules. cbn [option_map Db.mrp max_discount_percent isFinite].
  destruct (Qltb mrp sellingPrice); [reflexivity|].
  rewrite andb_true_r.
  destruct (Qltb 0 mrp); [|reflexivity].
  now destruct (Finite maxDiscountPercent <? _)%double.
Qed.

(** Above the MRP the computed percentage is not positive. *)
Lemma discount_not_positive_above_mrp sellingPrice mrp maxDiscountPercent :
  0 < mrp -> mrp < sellingPrice -> 0 <= maxDiscountPercent ->
  (Finite maxDiscountPercent
   <? (Finite mrp - Finite sellingPrice) / Finite mrp * Finite 100)%double = false.
Proof.
  intros Hm Hs Hmax.
  assert (Hmrp : Qeq_bool mrp 0 = false).
  { apply not_true_iff_false. intros E. apply Qeq_bool_iff in E. lra. }
  assert (Hle : Qle_bool 0 mrp = true) by (apply Qle_bool_iff; lra).
  unfold sub. cbn [opp add].
  destruct (nearest_nonpos (mrp + - sellingPrice)) as [->|(y & -> & Hy)]; [lra| |].
  - cbn [div]. rewrite Hle. reflexivity.
  - cbn [div]. rewrite Hmrp.
    assert (Hq : y / mrp <= 0).
    { apply Qle_shift_div_r; [exact Hm|]. lra. }
    destruct (nearest_nonpos (y / mrp) Hq) as [->|(z & -> & Hz)]; [reflexivity|].
    cbn [mul].
    destruct (nearest_nonpos (z * 100)) as [->|(w & -> & Hw)]; [lra|reflexivity|].
    cbn [ltb]. apply Qltb_ge. lra.
Qed.

(** For a price between nothing and an MRP of a cent at least, the
    computed percentage is the exact one up to [10^-13]. *)
Lemma discountPercent_close sellingPrice mrp :
  0 <= sellingPrice <= mrp -> 1 # 100 <= mrp <= 1000000000000 ->
  exists d,
    ((Finite mrp - Finite sellingPrice) / Finite mrp * Finite 100)%double = Finite d
    /\ Qabs (d - (mrp - sellingPrice) / mrp * 100) <= 1 # 10000000000000.
Proof.
  intros [Hs0 Hs] [Hm0 Hm1].
  assert (Hmrp : Qeq_bool mrp 0 = false).
  { apply not_true_iff_false. intros E. apply Qeq_bool_iff in E. lra. }
  assert (Hbig : 10000000000000 <= 2 ^ 1023) by (apply Qle_bool_iff; vm_compute; reflexivity).
  pose proof eta_pos as Heta0. pose proof eta_small as Heta.
  unfold sub. cbn [opp add]. fold (mrp - sellingPrice).
  set (t := mrp - sellingPrice).
  assert (Ht : 0 <= t <= mrp) by (unfold t; split; lra).
  destruct (nearest_finite t) as [a Ha].
  { rewrite Qabs_pos by lra. lra. }
  rewrite Ha. pose proof (nearest_close _ _ Ha) as Ca.
  rewrite (Qabs_pos t) in Ca by lra. unfold halfUlp in Ca.
  apply Qabs_Qle_condition in Ca.
  cbn [div]. rewrite Hmrp.
  set (r := / mrp).
  assert (Hr : 0 < r <= 100).
  { unfold r. split; [apply Qinv_lt_0_compat; lra|].
    apply Qle_shift_inv_r; lra. }
  assert (Hrm : r * mrp == 1) by (unfold r; field; lra).
  assert (Htr : 0 <= t * r <= 1) by (split; nra).
  unfold Qdiv. fold r.
  assert (Cq : - ((1 # 9007199254740992) + 100 * eta) <= a * r - t * r
               <= (1 # 9007199254740992) + 100 * eta) by (split; nra).
  destruct (nearest_finite (a * r)) as [b Hb].
  { eapply Qle_trans; [|exact Hbig]. apply Qabs_Qle_condition. split; lra. }
  rewrite Hb. pose proof (nearest_close _ _ Hb) as Cb. unfold halfUlp in Cb.
  assert (Hq : Qabs (a * r) <= 2) by (apply Qabs_Qle_condition; split; lra).
  assert (Cb' : Qabs (b - a * r) <= (2 # 9007199254740992) + eta).
  { set (x := Qabs (a * r)) in *. set (y := Qabs (b - a * r)) in *. lra. }
  clear Cb. apply Qabs_Qle_condition in Cb'.
  cbn [mul].
  destruct (nearest_finite (b * 100)) as [d Hd].
  { eapply Qle_trans; [|exact Hbig]. apply Qabs_Qle_condition. split; lra. }
  rewrite Hd. pose proof (nearest_close _ _ Hd) as Cd. unfold halfUlp in Cd.
  assert (Hb100 : Qabs (b * 100) <= 300) by (apply Qabs_Qle_condition; split; lra).
  assert (Cd' : Qabs (d - b * 100) <= (300 # 9007199254740992) + eta).
  { set (x := Qabs (b * 100)) in *. set (y := Qabs (d - b * 100)) in *. lra. }
  clear Cd. apply Qabs_Qle_condition in Cd'.
  exists d. split; [reflexivity|].
  apply Qabs_Qle_condition. split; lra.
Qed.

(** C4.  On a triple [(sellingPrice, mrp, maxDiscountPercent)] the check
    of the item loop fails with [PriceExceedsMrp] exactly when
    [sellingPrice > mrp]; when [mrp > 0] it computes
    [discountPercent = (mrp - sellingPrice) / mrp * 100] in double
    precision, each of the three operations rounded to the nearest double,
    and fails with [DiscountExceedsLimit] exactly when the price check has
    passed and that number is above [maxDiscountPercent], which for a
    limit that is not negative is exactly when it is above
    [maxDiscountPercent]; for a price that is not negative and an MRP
    between a cent and [10^12] the number is the exact percentage up to
    [10^-13]; when [mrp <= 0] there is no discount check; nothing else
    fails, and the check leaves the store as it is. *)
Theorem pricing_validation :
  forall (skuName id : string) (dsp : number)
         (sellingPrice mrp maxDiscountPercent : Q),
    let outcome :=
      checkDiscountRules skuName sellingPrice
        (Some (mkProductVariant id (Fin mrp) dsp (Fin maxDiscountPercent))) in
    let discountPercent :=
      ((Finite mrp - Finite sellingPrice) / Finite mrp * Finite 100)%double in
    (outcome = Throw (PriceExceedsMrp skuName sellingPrice mrp)
       <-> mrp < sellingPrice)
    /\ (0 < mrp ->
        (outcome = Throw (DiscountExceedsLimit skuName discountPercent maxDiscountPercent)
           <-> sellingPrice <= mrp
               /\ (Finite maxDiscountPercent <? discountPercent)%double = true))
    /\ (0 < mrp -> 0 <= maxDiscountPercent ->
        (outcome = Throw (DiscountExceedsLimit skuName discountPercent maxDiscountPercent)
           <-> (Finite maxDiscountPercent <? discountPercent)%double = true))
    /\ (0 <= sellingPrice <= mrp -> 1 # 100 <= mrp <= 1000000000000 ->
        exists d,
          discountPercent = Finite d
          /\ Qabs (d - (mrp - sellingPrice) / mrp * 100) <= 1 # 10000000000000
          /\ (outcome = Throw (DiscountExceedsLimit skuName discountPercent
                                                    maxDiscountPercent)
              <-> maxDiscountPercent < d))
    /\ (mrp <= 0 -> sellingPrice <= mrp -> outcome = Ok tt)
    /\ (outcome = Ok tt
        \/ outcome = Throw (PriceExceedsMrp skuName sellingPrice mrp)
        \/ outcome = Throw (DiscountExceedsLimit skuName discountPercent maxDiscountPercent))
    /\ (forall s : Store, lift outcome s = (outcome, s)).
Proof.
  intros skuName id dsp sp m maxD outcome d.
  assert (Hout : outcome =
                 if Qltb m sp then Throw (PriceExceedsMrp skuName sp m)
                 else if Qltb 0 m && (Finite maxD <? d)%double
                 then Throw (DiscountExceedsLimit skuName d maxD)
                 else Ok tt)
    by apply checkDiscountRules_finite.
  clearbody outcome. subst outcome.
  assert (Hclose : 0 <= sp <= m -> 1 # 100 <= m <= 1000000000000 ->
                   exists x, d = Finite x
                             /\ Qabs (x - (m - sp) / m * 100) <= 1 # 10000000000000)
    by (intros; now apply discountPercent_close).
  destruct (Qltb m sp) eqn:Eprice.
  - apply Qltb_lt in Eprice.
    split; [tauto|]. split; [|split; [|split; [|split; [|split]]]].
    + intros _. split; [discriminate|]. intros [Hle _]. lra.
    + intros Hm Hmax. split; [discriminate|]. intros Hd.
      pose proof (discount_not_positive_above_mrp sp m maxD Hm Eprice Hmax) as Hno.
      fold d in Hno. congruence.
    + intros [_ Hle] _. lra.
    + intros _ Hle. lra.
    + tauto.
    + reflexivity.
  - apply Qltb_ge in Eprice.
    split; [split; [destruct (Qltb 0 m && (Finite maxD <? d)%double); discriminate | lra]|].
    destruct (Qltb 0 m) eqn:Em; cbn [andb].
    + apply Qltb_lt in Em.
      destruct (Finite maxD <? d)%double eqn:Ed.
      * repeat split; auto; try lra.
        intros Hs Hm. destruct (Hclose Hs Hm) as (x & Hx & Hc).
        exists x. repeat split; auto.
        rewrite Hx in Ed. cbn [ltb] in Ed. now apply Qltb_lt in Ed.
      * repeat split; auto; try discriminate; try (intros; lra);
          try (intros [_ Hc]; discriminate).
        intros Hs Hm. destruct (Hclose Hs Hm) as (x & Hx & Hc).
        exists x. repeat split; auto; try discriminate.
        intros Hlt. rewrite Hx in Ed. cbn [ltb] in Ed. apply Qltb_ge in Ed. lra.
    + apply Qltb_ge in Em.
      repeat split; auto; try discriminate; try (intros; lra);
        try (intros [_ Hc]; discriminate).
Qed.

Lemma pricing_validation_witness :
  0 < 100
  /\ 0 <= 20
  /\ checkDiscountRules "A" 70 (Some (mkProductVariant "V" (Fin 100) (Fin 90) (Fin 20)))
     = Throw (DiscountExceedsLimit "A" (Finite 30) 20).
Proof.
  assert (Hm : 0 < 100) by reflexivity.
  assert (Hd : 0 <= 20) by discriminate.
  split; [exact Hm|]. split; [exact Hd|].
  destruct (pricing_validation "A" "V" (Fin 90) 70 100 20) as (_ & _ & Hdisc & _).
  apply (Hdisc Hm Hd). reflexivity.
Defined.

(** The check does not compare the exact percentage: at an MRP of 100, a
    price of 93 and a limit of 7 the discount is 7 per cent, which is
    not above the limit, and the sale item is rejected, the doubles giving
    7.000000000000001. *)
Lemma discount_at_the_limit_is_rejected :
  checkDiscountRules "A" 93 (Some (mkProductVariant "V" (Fin 100) (Fin 90) (Fin 7)))
  = Throw (DiscountExceedsLimit "A" (Finite (7881299347898369 # 1125899906842624)) 7)
  /\ (100 - 93) / 100 * 100 == 7
  /\ ~ 7 < (100 - 93) / 100 * 100.
Proof.
  split; [vm_compute; reflexivity|]. split; [reflexivity|].
  intros H. vm_compute in H. discriminate.
Qed.

End PricingClaims.

(** ** Reasoning about store computations *)

Section TxFacts.
Import Js Db.
Context {A B : Type}.

Lemma bind_Ok (m : Tx A) (k : A -> Tx B) s b s' :
  bind m k s = (Ok b, s') ->
  exists a s1, m s = (Ok a, s1) /\ k a s1 = (Ok b, s').
Proof.
  unfold bind. destruct (m s) as [[a|e] s1]; [eauto|discriminate].
Qed.

Lemma readOnly_bind (m : Tx A) (k : A -> Tx B) :
  readOnly m -> (forall a, readOnly (k a)) -> readOnly (bind m k).
Proof.
  intros Hm Hk s. unfold bind. specialize (Hm s).
  destruct (m s) as [[a|e] s1]; cbn in Hm; subst s1; [apply Hk|reflexivity].
Qed.

Lemma allOrNothing_bind (m : Tx A) (k : A -> Tx B) :
  readOnly m -> (forall a, allOrNothing (k a)) -> allOrNothing (bind m k).
Proof.
  intros Hm Hk s e s'. unfold bind. specialize (Hm s).
  destruct (m s) as [[a|e0] s1]; cbn in Hm; subst s1.
  - apply Hk.
  - intros H. now inversion H.
Qed.

Lemma readOnly_allOrNothing (m : Tx A) : readOnly m -> allOrNothing m.
Proof.
  intros Hm s e s' H. specialize (Hm s). rewrite H in Hm. now symmetry.
Qed.

Lemma allOrNothing_transaction (m : Tx A) : allOrNothing (transaction m).
Proof.
  intros s e s'. unfold transaction.
  destruct (m s) as [[a|e0] s1]; intros H; now inversion H.
Qed.

Lemma transaction_Ok (m : Tx A) s a s' :
  transaction m s = (Ok a, s') -> m s = (Ok a, s').
Proof.
  unfold transaction. destruct (m s) as [[a0|e0] s1]; [trivial|discriminate].
Qed.

Lemma readOnly_ret (a : A) : readOnly (ret a).
Proof. now intros s. Qed.

Lemma readOnly_throw e : readOnly (@throw A e).
Proof. now intros s. Qed.

Lemma readOnly_gets (f : Store -> A) : readOnly (gets f).
Proof. now intros s. Qed.

Lemma readOnly_lift (o : Outcome A) : readOnly (lift o).
Proof. now intros s. Qed.

End TxFacts.

Section TxLoopFacts.
Import Js Db.

Lemma readOnly_throwIf c e : readOnly (throwIf c e).
Proof. intros s. now destruct c. Qed.

Lemma readOnly_validNumber n bad e : readOnly (validNumber n bad e).
Proof. intros s. destruct n as [q|]; cbn; [now destruct (bad q)|reflexivity]. Qed.

Lemma readOnly_forEach {A} (f : A -> Tx unit) xs :
  (forall x, readOnly (f x)) -> readOnly (forEach f xs).
Proof.
  intros Hf. induction xs as [|x r IH]; cbn [forEach].
  - apply readOnly_ret.
  - apply readOnly_bind; auto.
Qed.

Lemma readOnly_foldM {A S} (f : S -> A -> Tx S) xs :
  (forall acc x, readOnly (f acc x)) -> forall acc, readOnly (foldM f xs acc).
Proof.
  intros Hf. induction xs as [|x r IH]; intros acc; cbn [foldM].
  - apply readOnly_ret.
  - apply readOnly_bind; auto.
Qed.

Lemma throwIf_Ok c e s u s' :
  throwIf c e s = (Ok u, s') -> c = false /\ s' = s.
Proof.
  destruct c; cbn; intros H; inversion H; auto.
Qed.

Lemma validNumber_Ok n bad e s q s' :
  validNumber n bad e s = (Ok q, s') -> n = Fin q /\ bad q = false /\ s' = s.
Proof.
  destruct n as [p|]; cbn; [|discriminate].
  destruct (bad p) eqn:E; cbn; intros H; inversion H; subst; auto.
Qed.

Lemma gets_Ok {A} (f : Store -> A) s a s' :
  gets f s = (Ok a, s') -> a = f s /\ s' = s.
Proof.
  unfold gets. intros H; inversion H; auto.
Qed.

Lemma ret_Ok {A} (a : A) s b s' :
  ret a s = (Ok b, s') -> b = a /\ s' = s.
Proof.
  unfold ret. intros H; inversion H; auto.
Qed.

Lemma modify_Ok f s u s' :
  modify f s = (Ok u, s') -> s' = f s.
Proof.
  unfold modify. intros H; now inversion H.
Qed.

Lemma readOnly_run {A} (m : Tx A) s o s' :
  readOnly m -> m s = (o, s') -> s' = s.
Proof.
  intros Hm H. specialize (Hm s). now rewrite H in Hm.
Qed.

End TxLoopFacts.

Create HintDb tx.
#[local] Hint Resolve readOnly_ret readOnly_throw readOnly_gets readOnly_lift
  readOnly_throwIf readOnly_validNumber : tx.

(** Invert a successful run of a sequence of store operations. *)
Ltac tx_ok H :=
  repeat match type of H with
  | Db.bind _ _ _ = (Db.Ok _, _) =>
      let a := fresh "a" in let s1 := fresh "s" in
      let H1 := fresh "Hstep" in
      apply bind_Ok in H; destruct H as (a & s1 & H1 & H);
      first [ apply throwIf_Ok in H1; destruct H1 as [H1 ->]
            | apply validNumber_Ok in H1; destruct H1 as (H1 & ? & ->)
            | apply gets_Ok in H1; destruct H1 as [-> ->]
            | apply ret_Ok in H1; destruct H1 as [-> ->]
            | apply modify_Ok in H1; subst s1
            | idtac ]
  end.

Section KeepsFacts.
Import Db.

Lemma keeps_bind {A B C} (proj : Store -> C) (m : Tx A) (k : A -> Tx B) :
  keeps proj m -> (forall a, keeps proj (k a)) -> keeps proj (bind m k).
Proof.
  intros Hm Hk s o s'. unfold bind.
  destruct (m s) as [[a|e] s1] eqn:E.
  - intros H. rewrite (Hk a _ _ _ H). exact (Hm _ _ _ E).
  - intros H. inversion H; subst. exact (Hm _ _ _ E).
Qed.

Lemma keeps_readOnly {A C} (proj : Store -> C) (m : Tx A) :
  readOnly m -> keeps proj m.
Proof.
  intros Hm s o s' H. specialize (Hm s). rewrite H in Hm. cbn in Hm. now subst.
Qed.

Lemma keeps_modify {C} (proj : Store -> C) (f : Store -> Store) :
  (forall s, proj (f s) = proj s) -> keeps proj (modify f).
Proof.
  intros Hf s o s' H. inversion H. apply Hf.
Qed.

Lemma keeps_forEach {A C} (proj : Store -> C) (f : A -> Tx unit) xs :
  (forall x, keeps proj (f x)) -> keeps proj (forEach f xs).
Proof.
  intros Hf. induction xs as [|x r IH]; cbn [forEach].
  - apply keeps_readOnly, readOnly_ret.
  - apply keeps_bind; auto.
Qed.

Lemma keeps_sales_freshId : keeps sales freshId.
Proof.
  intros s o s' H. inversion H. reflexivity.
Qed.

End KeepsFacts.

(** Settle a goal [keeps proj m] for a straight-line [m]. *)
Ltac keeps_solve :=
  repeat first
    [ apply keeps_bind; [|intros ?]
    | apply keeps_modify; intros; reflexivity
    | apply keeps_readOnly; solve [auto with tx]
    | let H := fresh in intros ? ? ? H; inversion H; reflexivity ].

(** ** Rejected requests *)

Section RollbackClaims.
Import Js Db SaleService PurchaseService.

Lemma readOnly_itemBody f acc it : readOnly (itemBody f acc it).
Proof.
  unfold itemBody. destruct acc as [lts total].
  destruct (f (it_sku it)); auto with tx.
  repeat (apply readOnly_bind; [auto with tx|intros ?]). auto with tx.
Qed.

Lemma readOnly_paymentBody acc p : readOnly (paymentBody acc p).
Proof.
  unfold paymentBody. destruct acc as [total nps].
  destruct (p_mode p); auto with tx.
  repeat (apply readOnly_bind; [auto with tx|intros ?]). auto with tx.
Qed.

Lemma readOnly_validateAndCompute items payments :
  readOnly (validateAndCompute items payments).
Proof.
  unfold validateAndCompute.
  destruct items as [[|it items]|]; auto with tx;
    destruct payments as [[|p payments]|]; auto with tx.
  apply readOnly_bind; [apply readOnly_gets|intros rows].
  apply readOnly_bind.
  { apply readOnly_forEach. intros x.
    apply readOnly_bind; [auto with tx|intros _].
    destruct (fromEntries rows (it_sku x)); auto with tx. }
  intros _.
  apply readOnly_bind; [apply readOnly_foldM; intros; apply readOnly_itemBody|intros r].
  apply readOnly_bind; [apply readOnly_foldM; intros; apply readOnly_paymentBody|intros q].
  apply readOnly_bind; auto with tx.
Qed.

Lemma readOnly_validateItems items : forall i, readOnly (validateItems i items).
Proof.
  induction items as [|it r IH]; intros i; cbn [validateItems]; auto with tx.
  repeat (apply readOnly_bind; [auto with tx|intros ?]). apply IH.
Qed.

Lemma allOrNothing_createPurchase now payload :
  allOrNothing (createPurchase now payload).
Proof.
  unfold createPurchase.
  destruct (in_supplierId payload) as [sid|];
    [|apply readOnly_allOrNothing; auto with tx].
  apply allOrNothing_bind; [auto with tx|intros _].
  destruct (in_items payload) as [[|it items]|];
    try solve [apply readOnly_allOrNothing; auto with tx].
  apply allOrNothing_bind; [auto with tx|intros extraNum].
  apply allOrNothing_bind; [apply readOnly_validateItems|intros _].
  apply allOrNothing_bind; [auto with tx|intros _].
  apply allOrNothing_transaction.
Qed.

End RollbackClaims.

(** ** What a sale validates and writes *)

Section SaleValidationFacts.
Import Js JsString Db SaleService.
Local Open Scope string_scope.

Lemma itemBody_Ok f lts total it s lts' total' s' :
  itemBody f (lts, total) it s = (Ok (lts', total'), s') ->
  exists r,
    lineOf f it r
    /\ lts' = (lts ++ [r])%list
    /\ total' = (total + lt_lineTotal r)%Q
    /\ s' = s.
Proof.
  unfold itemBody. destruct (f (it_sku it)) as [row|] eqn:Erow; [|discriminate].
  intros H. tx_ok H.
  match goal with
  | Hl : lift _ _ = (Ok _, ?s0) |- _ =>
      unfold lift in Hl; injection Hl as Hcheck Hs0; subst s0
  end.
  apply ret_Ok in H. destruct H as [Hacc ->]. injection Hacc as -> ->.
  repeat match goal with
  | Hb : _ || _ = false |- _ => apply orb_false_iff in Hb; destruct Hb as [? ?]
  | Hb : negb _ = false |- _ => apply negb_false_iff in Hb
  | Hb : Qltb _ _ = false |- _ => apply Qltb_ge in Hb
  end.
  match goal with Hu : _ = Ok ?u |- _ => destruct u end.
  exists (mkLineTotal (product row) a a0 (round2 (a * a0))).
  split.
  - unfold lineOf. exists row, a, a0. repeat split; assumption.
  - repeat split.
Qed.

Lemma foldM_itemBody_Ok f items : forall lts total s lts' total' s',
  foldM (itemBody f) items (lts, total) s = (Ok (lts', total'), s') ->
  exists rows,
    Forall2 (lineOf f) items rows
    /\ lts' = (lts ++ rows)%list
    /\ total' = fold_left (fun acc r => (acc + lt_lineTotal r)%Q) rows total
    /\ s' = s.
Proof.
  induction items as [|it items IH]; intros lts total s lts' total' s' H;
    cbn [foldM] in H.
  - apply ret_Ok in H. destruct H as [Hacc ->]. injection Hacc as -> ->.
    exists []. repeat split; [constructor | now rewrite app_nil_r].
  - apply bind_Ok in H. destruct H as ([lts1 total1] & s1 & Hone & Hrest).
    apply itemBody_Ok in Hone. destruct Hone as (r & Hr & -> & -> & ->).
    apply IH in Hrest. destruct Hrest as (rows & Hrows & -> & -> & ->).
    exists (r :: rows). repeat split.
    + now constructor.
    + now rewrite <- app_assoc.
Qed.

Lemma foldM_paymentBody_Ok ps : forall total nps s total' nps' s',
  foldM paymentBody ps (total, nps) s = (Ok (total', nps'), s') ->
  exists new,
    nps' = (nps ++ new)%list
    /\ total' = fold_left (fun acc p => (acc + np_amount p)%Q) new total
    /\ Forall2 (fun p n => p_amount p = Fin (np_amount n) /\ (0 <= np_amount n)%Q) ps new
    /\ s' = s.
Proof.
  induction ps as [|p ps IH]; intros total nps s total' nps' s' H; cbn [foldM] in H.
  - apply ret_Ok in H. destruct H as [Hacc ->]. injection Hacc as -> ->.
    exists []. repeat split; [now rewrite app_nil_r | constructor].
  - apply bind_Ok in H. destruct H as ([total1 nps1] & s1 & Hone & Hrest).
    unfold paymentBody in Hone. destruct (p_mode p) as [mode|]; [|discriminate].
    tx_ok Hone. apply ret_Ok in Hone. destruct Hone as [Hacc ->].
    injection Hacc as -> ->.
    apply IH in Hrest. destruct Hrest as (new & -> & -> & Hall & ->).
    eexists (_ :: new). split; [|split; [|split]].
    + now rewrite <- app_assoc.
    + reflexivity.
    + constructor; [|exact Hall]. cbn [np_amount]. split; [assumption|].
      match goal with Hb : Qltb _ 0 = false |- _ => now apply Qltb_ge in Hb end.
    + reflexivity.
Qed.

(** The rows that [validateAndCompute] reads from the store. *)
Lemma validateAndCompute_Ok items payments s v s' :
  validateAndCompute items payments s = (Ok v, s') ->
  exists its rows,
    items = Some its
    /\ findProductsBySku
         (uniq (filter (fun k => negb (String.eqb k "")) (map it_sku its))) s
       = (Ok rows, s)
    /\ Forall2 (lineOf (fromEntries rows)) its (lineTotals v)
    /\ v_totalAmount v = round2 (sumLineTotals (lineTotals v))
    /\ (Qabs (round2 (sumPayments (normalizedPayments v)) - v_totalAmount v)
        <= PAYMENT_SUM_TOLERANCE)%Q
    /\ s' = s.
Proof.
  unfold validateAndCompute.
  destruct items as [[|it its]|]; try discriminate;
    destruct payments as [[|p ps]|]; try discriminate.
  intros H.
  apply bind_Ok in H. destruct H as (rows & s1 & Hrows & H).
  pose proof (readOnly_run _ _ _ _ (readOnly_gets _) Hrows); subst s1.
  apply bind_Ok in H. destruct H as (u & s1 & Hskus & H).
  assert (s1 = s); [|subst s1].
  { eapply readOnly_run; [|exact Hskus]. apply readOnly_forEach. intros x.
    apply readOnly_bind; [auto with tx|intros _].
    destruct (fromEntries rows (it_sku x)); auto with tx. }
  apply bind_Ok in H. destruct H as ([lts total] & s1 & Hitems & H).
  apply foldM_itemBody_Ok in Hitems. destruct Hitems as (lines & Hlines & -> & -> & ->).
  apply bind_Ok in H. destruct H as ([paid nps] & s1 & Hpays & H).
  apply foldM_paymentBody_Ok in Hpays. destruct Hpays as (new & -> & -> & _ & ->).
  apply bind_Ok in H. destruct H as (u' & s1 & Htol & H).
  apply throwIf_Ok in Htol. destruct Htol as [Htol ->].
  apply ret_Ok in H. destruct H as [-> ->].
  apply Qltb_ge in Htol.
  exists (it :: its), rows. cbn [lineTotals normalizedPayments v_totalAmount fst snd app].
  repeat split; assumption.
Qed.

End SaleValidationFacts.

Section SaleRun.
Import Js JsString Db SaleService.
Local Open Scope string_scope.

Lemma keeps_sales_saleItem_create sid row : keeps sales (saleItem_create sid row).
Proof.
  unfold saleItem_create.
  apply keeps_bind; [apply keeps_sales_freshId|intros id].
  now apply keeps_modify.
Qed.

Lemma keeps_sales_product_decrement id q : keeps sales (product_decrement id q).
Proof.
  unfold product_decrement.
  apply keeps_bind; [apply keeps_readOnly, readOnly_gets|intros found].
  apply keeps_bind; [apply keeps_readOnly, readOnly_throwIf|intros _].
  now apply keeps_modify.
Qed.

Lemma keeps_sales_payment_create sid p : keeps sales (payment_create sid p).
Proof.
  unfold payment_create.
  apply keeps_bind; [apply keeps_sales_freshId|intros id].
  now apply keeps_modify.
Qed.

Lemma sale_create_Ok bill total t s sale s' :
  sale_create bill total t s = (Ok sale, s') ->
  existsb (fun x => String.eqb (billNumber x) bill) (sales s) = false
  /\ billNumber sale = bill
  /\ sales s' = (sales s ++ [sale])%list.
Proof.
  unfold sale_create. intros H. tx_ok H.
  apply ret_Ok in H. destruct H as [-> ->]. cbn. auto.
Qed.

(** What a successful sale did to the bill numbers. *)
Lemma createSale_Ok now payload s r s' :
  createSale now payload s = (Ok r, s') ->
  exists last sale,
    findLastSale (billPrefix now) s = (Ok last, s)
    /\ r_billNumber r = billOf (billPrefix now) (nextSeq (billPrefix now) last)
    /\ existsb (fun x => String.eqb (billNumber x) (r_billNumber r)) (sales s) = false
    /\ billNumber sale = r_billNumber r
    /\ sales s' = (sales s ++ [sale])%list.
Proof.
  intros H. apply transaction_Ok in H. unfold createSale_body in H.
  apply bind_Ok in H. destruct H as (v & s0 & Hv & H).
  pose proof (readOnly_run _ _ _ _ (readOnly_validateAndCompute _ _) Hv); subst s0.
  apply bind_Ok in H. destruct H as (last & s0 & Hlast & H).
  pose proof (readOnly_run _ _ _ _ (readOnly_gets _) Hlast); subst s0.
  apply bind_Ok in H. destruct H as (sale & s1 & Hsale & H).
  apply sale_create_Ok in Hsale. destruct Hsale as (Hfree & Hbill & Hsales).
  apply bind_Ok in H. destruct H as (u1 & s2 & H1 & H).
  apply bind_Ok in H. destruct H as (u2 & s3 & H2 & H).
  apply bind_Ok in H. destruct H as (u3 & s4 & H3 & H).
  apply ret_Ok in H. destruct H as [-> ->].
  apply (keeps_forEach sales) in H1; [|intros; apply keeps_sales_saleItem_create].
  apply (keeps_forEach sales) in H2; [|intros; apply keeps_sales_product_decrement].
  apply (keeps_forEach sales) in H3; [|intros; apply keeps_sales_payment_create].
  exists last, sale. cbn [r_billNumber].
  split; [exact Hlast|]. split; [exact Hbill|].
  rewrite Hbill. split; [exact Hfree|]. split; [reflexivity|].
  now rewrite H3, H2, H1.
Qed.

End SaleRun.

Section SalePersistence.
Import Js JsString Db SaleService.
Local Open Scope string_scope.

Lemma product_decrement_Ok id q s u s' :
  product_decrement id q s = (Ok u, s') ->
  products s' = map (fun p => if String.eqb (product_id p) id
                              then setStock p (quantityInStock p - q) else p)
                    (products s).
Proof.
  unfold product_decrement. intros H. tx_ok H.
  apply modify_Ok in H. now subst s'.
Qed.

Lemma soldOf_cons id r rows :
  soldOf id (r :: rows)
  = if String.eqb (product_id (lt_product r)) id
    then (toInt (lt_quantity r) + soldOf id rows)%Z else soldOf id rows.
Proof. reflexivity. Qed.

Lemma forEach_product_decrement_Ok rows : forall s u s',
  forEach (fun row => product_decrement (product_id (lt_product row))
                                        (toInt (lt_quantity row))) rows s
  = (Ok u, s') ->
  products s'
  = map (fun p => setStock p (quantityInStock p - soldOf (product_id p) rows))
        (products s).
Proof.
  induction rows as [|r rows IH]; intros s u s' H; cbn [forEach] in H.
  - apply ret_Ok in H. destruct H as [_ ->].
    rewrite <- (map_id (products s)) at 1. apply map_ext.
    intros p. cbn [soldOf fold_right]. rewrite Z.sub_0_r. now destruct p.
  - apply bind_Ok in H. destruct H as (u1 & s1 & Hone & Hrest).
    apply product_decrement_Ok in Hone. apply IH in Hrest.
    rewrite Hrest, Hone, map_map. apply map_ext. intros p.
    rewrite soldOf_cons. rewrite (String.eqb_sym (product_id (lt_product r))).
    destruct (String.eqb (product_id p) (product_id (lt_product r))) eqn:E.
    + rewrite String.eqb_sym in E. cbn [setStock product_id quantityInStock].
      unfold setStock. cbn. f_equal. lia.
    + reflexivity.
Qed.

Lemma keeps_products_saleItem_create sid row : keeps products (saleItem_create sid row).
Proof. unfold saleItem_create. keeps_solve. Qed.

Lemma keeps_products_payment_create sid p : keeps products (payment_create sid p).
Proof. unfold payment_create. keeps_solve. Qed.

Lemma keeps_products_sale_create b t d : keeps products (sale_create b t d).
Proof. unfold sale_create. keeps_solve. Qed.

(** The stock that a successful sale leaves: every product is down by the
    units that the lines of the sale take from it. *)
Lemma createSale_stock now payload s r s' :
  createSale now payload s = (Ok r, s') ->
  exists v,
    validateAndCompute (items payload) (payments payload) s = (Ok v, s)
    /\ r_totalAmount r = v_totalAmount v
    /\ products s'
       = map (fun p => setStock p (quantityInStock p
                                   - soldOf (product_id p) (lineTotals v)))
             (products s).
Proof.
  intros H. apply transaction_Ok in H. unfold createSale_body in H.
  apply bind_Ok in H. destruct H as (v & s0 & Hv & H).
  pose proof (readOnly_run _ _ _ _ (readOnly_validateAndCompute _ _) Hv); subst s0.
  apply bind_Ok in H. destruct H as (last & s0 & Hlast & H).
  pose proof (readOnly_run _ _ _ _ (readOnly_gets _) Hlast); subst s0.
  apply bind_Ok in H. destruct H as (sale & s1 & Hsale & H).
  apply keeps_products_sale_create in Hsale.
  apply bind_Ok in H. destruct H as (u1 & s2 & H1 & H).
  apply bind_Ok in H. destruct H as (u2 & s3 & H2 & H).
  apply bind_Ok in H. destruct H as (u3 & s4 & H3 & H).
  apply ret_Ok in H. destruct H as [-> ->].
  apply (keeps_forEach products) in H1; [|intros; apply keeps_products_saleItem_create].
  apply forEach_product_decrement_Ok in H2.
  apply (keeps_forEach products) in H3; [|intros; apply keeps_products_payment_create].
  exists v. split; [exact Hv|]. split; [reflexivity|].
  now rewrite H3, H2, H1, Hsale.
Qed.

Lemma saleItem_create_Ok sid row s u s' :
  saleItem_create sid row s = (Ok u, s') ->
  exists id,
    saleItems s'
    = (saleItems s ++ [mkSaleItem id sid (product_id (lt_product row))
                                  (toInt (lt_quantity row)) (lt_unitPrice row)
                                  (lt_lineTotal row)])%list.
Proof.
  unfold saleItem_create. intros H. tx_ok H.
  apply modify_Ok in H. subst s'. cbn. eauto.
Qed.

Lemma forEach_saleItem_create_Ok sid rows : forall s u s',
  forEach (saleItem_create sid) rows s = (Ok u, s') ->
  exists new,
    saleItems s' = (saleItems s ++ new)%list
    /\ map lineTotal new = map lt_lineTotal rows
    /\ Forall (fun i => saleId i = sid) new.
Proof.
  induction rows as [|r rows IH]; intros s u s' H; cbn [forEach] in H.
  - apply ret_Ok in H. destruct H as [_ ->].
    exists []. repeat split; [now rewrite app_nil_r | constructor].
  - apply bind_Ok in H. destruct H as (u1 & s1 & Hone & Hrest).
    apply saleItem_create_Ok in Hone. destruct Hone as (id & Hone).
    apply IH in Hrest. destruct Hrest as (new & Hnew & Hmap & Hall).
    eexists (_ :: new). split; [|split].
    + rewrite Hnew, Hone, <- app_assoc. reflexivity.
    + cbn [map lineTotal]. now rewrite Hmap.
    + constructor; [reflexivity|exact Hall].
Qed.

Lemma keeps_saleItems_product_decrement id q : keeps saleItems (product_decrement id q).
Proof. unfold product_decrement. keeps_solve. Qed.

Lemma keeps_saleItems_payment_create sid p : keeps saleItems (payment_create sid p).
Proof. unfold payment_create. keeps_solve. Qed.

Lemma keeps_saleItems_sale_create b t d : keeps saleItems (sale_create b t d).
Proof. unfold sale_create. keeps_solve. Qed.

Lemma sumLineTotals_map rows :
  sumLineTotals rows
  = fold_left Qplus (map lt_lineTotal rows) 0%Q.
Proof.
  unfold sumLineTotals. generalize 0%Q.
  induction rows as [|r rows IH]; intros acc; cbn [fold_left map]; [reflexivity|apply IH].
Qed.

(** The part of C2 that the code keeps: the total persisted with a sale
    is the sum of the line totals persisted with it, rounded to cents, and
    the payments are within the tolerance that the code applies. *)
Lemma createSale_total now payload s r s' :
  createSale now payload s = (Ok r, s') ->
  exists v sale new,
    validateAndCompute (items payload) (payments payload) s = (Ok v, s)
    /\ sales s' = (sales s ++ [sale])%list
    /\ saleItems s' = (saleItems s ++ new)%list
    /\ Forall (fun i => saleId i = sale_id sale) new
    /\ totalAmount sale = round2 (fold_left Qplus (map lineTotal new) 0%Q)
    /\ r_totalAmount r = totalAmount sale
    /\ (Qabs (round2 (sumPayments (normalizedPayments v)) - totalAmount sale)
        <= PAYMENT_SUM_TOLERANCE)%Q.
Proof.
  intros H. apply transaction_Ok in H. unfold createSale_body in H.
  apply bind_Ok in H. destruct H as (v & s0 & Hv & H).
  pose proof (readOnly_run _ _ _ _ (readOnly_validateAndCompute _ _) Hv); subst s0.
  apply bind_Ok in H. destruct H as (last & s0 & Hlast & H).
  pose proof (readOnly_run _ _ _ _ (readOnly_gets _) Hlast); subst s0.
  apply bind_Ok in H. destruct H as (sale & s1 & Hsale & H).
  pose proof (keeps_saleItems_sale_create _ _ _ _ _ _ Hsale) as Hitems0.
  assert (Htotal : totalAmount sale = v_totalAmount v).
  { unfold sale_create in Hsale. tx_ok Hsale.
    apply ret_Ok in Hsale. now destruct Hsale as [-> _]. }
  apply sale_create_Ok in Hsale. destruct Hsale as (_ & _ & Hsales).
  apply bind_Ok in H. destruct H as (u1 & s2 & H1 & H).
  apply bind_Ok in H. destruct H as (u2 & s3 & H2 & H).
  apply bind_Ok in H. destruct H as (u3 & s4 & H3 & H).
  apply ret_Ok in H. destruct H as [-> ->].
  pose proof (keeps_forEach sales _ _ (keeps_sales_saleItem_create _) _ _ _ H1) as K1.
  pose proof (keeps_forEach sales _ _
                (fun row => keeps_sales_product_decrement _ _) _ _ _ H2) as K2.
  pose proof (keeps_forEach sales _ _ (keeps_sales_payment_create _) _ _ _ H3) as K3.
  apply forEach_saleItem_create_Ok in H1. destruct H1 as (new & Hnew & Hmap & Hall).
  apply (keeps_forEach saleItems) in H2; [|intros; apply keeps_saleItems_product_decrement].
  apply (keeps_forEach saleItems) in H3; [|intros; apply keeps_saleItems_payment_create].
  pose proof Hv as Hv'. apply validateAndCompute_Ok in Hv'.
  destruct Hv' as (its & rows & _ & _ & _ & Hsum & Htol & _).
  exists v, sale, new. cbn [r_totalAmount].
  split; [exact Hv|]. split; [now rewrite K3, K2, K1|].
  split; [now rewrite H3, H2, Hnew, Hitems0|].
  split; [exact Hall|].
  split; [now rewrite Htotal, Hsum, Hmap, sumLineTotals_map|].
  split; [now symmetry|]. now rewrite Htotal.
Qed.

End SalePersistence.

(** ** Purchases: effective unit cost *)

Section PurchaseCostClaims.
Import Js JsString Db PurchaseService Examples.
Local Open Scope string_scope.

Lemma validateItems_Ok items : forall i s u s',
  validateItems i items s = (Ok u, s') -> Forall validItem items.
Proof.
  induction items as [|it r IH]; intros i s u s' H; [constructor|].
  cbn [validateItems] in H. tx_ok H.
  constructor; [|eapply IH; eassumption].
  exists a0, a1. repeat split; try assumption.
  - apply orb_false_iff in H0. destruct H0 as [Hint _].
    now apply negb_false_iff in Hint.
  - apply orb_false_iff in H0. destruct H0 as [_ Hlt]. now apply Qltb_ge in Hlt.
  - now apply Qltb_ge in H1.
Qed.

Lemma purchaseItem_create_Ok pid vid q c e s u s' :
  purchaseItem_create pid vid q c e s = (Ok u, s') ->
  exists id,
    purchaseItems s' = (purchaseItems s ++ [mkPurchaseItem id pid vid q c e])%list
    /\ products s' = products s /\ purchases s' = purchases s.
Proof.
  unfold purchaseItem_create. intros H. tx_ok H.
  apply modify_Ok in H. subst s'. cbn. eauto.
Qed.




Lemma purchase_create_Ok sid t inv nt ex s pu s' :
  purchase_create sid t inv nt ex s = (Ok pu, s') ->
  purchaseItems s' = purchaseItems s /\ products s' = products s.
Proof.
  unfold purchase_create. intros H. tx_ok H.
  apply ret_Ok in H. destruct H as [_ ->]. cbn. auto.
Qed.


End PurchaseCostClaims.

(** ** Purchases: the effective unit cost that is stored *)

Section DecimalColumns.
Import Js Binary64 Machine.
Local Open Scope Q_scope.

Lemma roundHalfAway_close x : Qabs (inject_Z (roundHalfAway x) - x) <= 1 # 2.
Proof.
  unfold roundHalfAway. apply Qabs_Qle_condition.
  destruct (Qle_bool 0 x).
  - pose proof (Qfloor_le (x + (1 # 2))) as Hlo.
    pose proof (Qlt_floor (x + (1 # 2))) as Hhi.
    rewrite inject_Z_plus in Hhi. change (inject_Z 1) with 1 in Hhi. split; lra.
  - pose proof (Qfloor_le (- x + (1 # 2))) as Hlo.
    pose proof (Qlt_floor (- x + (1 # 2))) as Hhi.
    rewrite inject_Z_plus in Hhi. change (inject_Z 1) with 1 in Hhi.
    rewrite inject_Z_opp. split; lra.
Qed.

Lemma roundHalfAway_unique x k :
  inject_Z k - (1 # 2) < x < inject_Z k + (1 # 2) -> roundHalfAway x = k.
Proof.
  intros [Hlo Hhi]. pose proof (roundHalfAway_close x) as Hc.
  apply Qabs_Qle_condition in Hc.
  assert (H1 : (roundHalfAway x < k + 1)%Z).
  { rewrite Zlt_Qlt, inject_Z_plus. change (inject_Z 1) with 1. lra. }
  assert (H2 : (k < roundHalfAway x + 1)%Z).
  { rewrite Zlt_Qlt, inject_Z_plus. change (inject_Z 1) with 1. lra. }
  lia.
Qed.

(** From the error of a rounding to a bound on what was rounded. *)
Lemma nearest_bounded x y b :
  nearest x = Finite y -> Qabs y <= b -> Qabs x <= 2 * b + 1.
Proof.
  intros H Hy. pose proof (nearest_close _ _ H) as Hc. unfold halfUlp in Hc.
  pose proof eta_small as Heta. pose proof eta_pos as Heta0.
  apply Qabs_Qle_condition in Hy.
  destruct (Qlt_le_dec x 0) as [Hx|Hx].
  - rewrite (Qabs_neg x) in Hc |- * by lra.
    apply Qabs_Qle_condition in Hc. lra.
  - rewrite (Qabs_pos x) in Hc |- * by lra.
    apply Qabs_Qle_condition in Hc. lra.
Qed.

(** Two numbers that round to the same double are close. *)
Lemma same_double_close x x' y b :
  nearest x = Finite y -> nearest x' = Finite y -> Qabs x <= b ->
  Qabs (x - x') <= (6 * b + 6) * halfUlp + 2 * eta.
Proof.
  intros H H' Hb.
  pose proof (nearest_close _ _ H) as Hc. pose proof (nearest_close _ _ H') as Hc'.
  pose proof eta_small as Heta. pose proof eta_pos as Heta0.
  assert (Hy : Qabs y <= 2 * b + 1).
  { unfold halfUlp in Hc. apply Qabs_Qle_condition.
    assert (Hxb := Hb). apply Qabs_Qle_condition in Hxb.
    pose proof (Qabs_nonneg x) as Hnn.
    assert (Hc2 : Qabs (y - x) <= b + 1).
    { set (u := Qabs x) in *. set (v := Qabs (y - x)) in *. lra. }
    apply Qabs_Qle_condition in Hc2.
    split; lra. }
  pose proof (nearest_bounded _ _ _ H' Hy) as Hx'.
  assert (Hb0 : 0 <= b) by (pose proof (Qabs_nonneg x); lra).
  assert (H1 : Qabs (y - x) <= b * halfUlp + eta).
  { eapply Qle_trans; [exact Hc|]. unfold halfUlp. lra. }
  assert (H2 : Qabs (y - x') <= (2 * (2 * b + 1) + 1) * halfUlp + eta).
  { eapply Qle_trans; [exact Hc'|]. unfold halfUlp. lra. }
  apply Qabs_Qle_condition in H1. apply Qabs_Qle_condition in H2.
  unfold halfUlp in *. apply Qabs_Qle_condition. split; lra.
Qed.

(** A column of two decimals keeps an amount of cents that was computed
    in doubles. *)
Lemma decimal12_2_cents driver k d q :
  nearest (inject_Z k / 100) = Finite d ->
  decimal12_2 driver (Finite d) = Some q ->
  q == inject_Z k / 100.
Proof.
  intros Hk. unfold decimal12_2.
  set (v := printed driver d). set (c := roundHalfAway (v * 100)).
  destruct (Z.abs c <? 10 ^ 12)%Z eqn:Ec; [|discriminate].
  intros Hq. assert (Hq' : Qred (inject_Z c / 100) = q) by (now injection Hq).
  rewrite <- Hq', Qred_correct. clear Hq Hq'.
  apply Z.ltb_lt in Ec.
  assert (Hc := inject_Z_bounded c (10 ^ 12) ltac:(lia)).
  change (inject_Z (10 ^ 12)) with 1000000000000 in Hc.
  pose proof (roundHalfAway_close (v * 100)) as Hv. fold c in Hv.
  apply Qabs_Qle_condition in Hv.
  assert (Hvb : Qabs v <= 10000000001) by (apply Qabs_Qle_condition; split; lra).
  destruct (nearest_finite v) as [w Hw].
  { eapply Qle_trans; [exact Hvb|]. apply Qle_bool_iff. vm_compute. reflexivity. }
  pose proof (printed_reads_back driver d) as Hread. fold v in Hread. rewrite Hw in Hread.
  symmetry in Hread.
  pose proof (same_double_close _ _ _ _ Hw Hread Hvb) as Hvd.
  assert (Hdb : Qabs d <= 20000000005).
  { pose proof (nearest_close _ _ Hw) as Cw. unfold halfUlp in Cw.
    assert (Hwb : Qabs w <= 10000000002).
    { pose proof eta_small. set (a := Qabs v) in *. set (b := Qabs (w - v)) in *.
      assert (Hb : b <= 1) by lra.
      unfold b in Hb. apply Qabs_Qle_condition in Hb.
      unfold a in Hvb. apply Qabs_Qle_condition in Hvb.
      apply Qabs_Qle_condition. split; lra. }
    eapply Qle_trans; [exact (nearest_bounded _ _ _ Hread Hwb)|]. lra. }
  assert (Hkb : Qabs (inject_Z k / 100) <= 2 * 20000000005 + 1)
    by exact (nearest_bounded _ _ _ Hk Hdb).
  pose proof (nearest_close _ _ Hk) as Ck.
  pose proof eta_small as Heta. pose proof eta_pos as Heta0.
  unfold halfUlp in *.
  assert (Ck' : Qabs (d - inject_Z k / 100) <= 1 # 100000).
  { set (a := Qabs (inject_Z k / 100)) in *. set (b := Qabs (d - inject_Z k / 100)) in *.
    lra. }
  assert (Hvd' : Qabs (v - d) <= 1 # 100000).
  { set (b := Qabs (v - d)) in *. lra. }
  apply Qabs_Qle_condition in Ck'. apply Qabs_Qle_condition in Hvd'.
  assert (Hck : c = k).
  { apply roundHalfAway_unique. unfold Qdiv in Ck'. change (/ 100) with (1 # 100) in Ck'.
    split; lra. }
  now rewrite Hck.
Qed.

(** What a column of two decimals keeps is an amount of cents, within a
    cent of the number written, and not negative when the number is
    not. *)
Lemma decimal12_2_close driver x q :
  decimal12_2 driver (Finite x) = Some q ->
  Qabs (q - x) <= 1 # 100
  /\ isCents q
  /\ (0 <= x -> 0 <= q)
  /\ Qabs q <= 10000000000.
Proof.
  unfold decimal12_2.
  set (v := printed driver x). set (c := roundHalfAway (v * 100)).
  destruct (Z.abs c <? 10 ^ 12)%Z eqn:Ec; [|discriminate].
  intros Hq. assert (Hq' : Qred (inject_Z c / 100) = q) by (now injection Hq).
  assert (Hqc : q == inject_Z c / 100) by (rewrite <- Hq'; apply Qred_correct).
  clear Hq Hq'. apply Z.ltb_lt in Ec.
  assert (Hc := inject_Z_bounded c (10 ^ 12) ltac:(lia)).
  change (inject_Z (10 ^ 12)) with 1000000000000 in Hc.
  pose proof (roundHalfAway_close (v * 100)) as Hv. fold c in Hv.
  apply Qabs_Qle_condition in Hv.
  assert (Hvb : Qabs v <= 10000000001) by (apply Qabs_Qle_condition; split; lra).
  destruct (nearest_finite v) as [w Hw].
  { eapply Qle_trans; [exact Hvb|]. apply Qle_bool_iff. vm_compute. reflexivity. }
  pose proof (printed_reads_back driver x) as Hread. fold v in Hread. rewrite Hw in Hread.
  symmetry in Hread.
  pose proof (same_double_close _ _ _ _ Hw Hread Hvb) as Hvx.
  pose proof eta_small as Heta. pose proof eta_pos as Heta0.
  unfold halfUlp in Hvx.
  assert (Hvx' : Qabs (v - x) <= 1 # 100000).
  { set (b := Qabs (v - x)) in *. lra. }
  clear Hvx. apply Qabs_Qle_condition in Hvx'.
  unfold Qdiv in Hqc. change (/ 100) with (1 # 100) in Hqc.
  split; [|split; [|split]].
  - apply Qabs_Qle_condition. rewrite Hqc. split; lra.
  - unfold isCents. apply (isIntegerQ_proper (inject_Z c)); [|apply isIntegerQ_inject].
    rewrite Hqc. ring.
  - intros Hx.
    assert (H0 : (-1 < c)%Z).
    { rewrite Zlt_Qlt. change (inject_Z (-1)) with (-1). lra. }
    assert (H1 : (0 <= c)%Z) by lia.
    rewrite Zle_Qle in H1. change (inject_Z 0) with 0 in H1. rewrite Hqc. lra.
  - apply Qabs_Qle_condition. rewrite Hqc. split; lra.
Qed.

End DecimalColumns.

(** ** Purchases: the cost in cents that the engine computes *)

Section CostInCents.
Import Js Binary64 Machine.
Local Open Scope Q_scope.

Lemma add_Finite x y z :
  (x + y)%double = Finite z ->
  exists a b, x = Finite a /\ y = Finite b /\ nearest (a + b) = Finite z.
Proof.
  destruct x as [a| | |], y as [b| | |]; cbn [add]; try discriminate. eauto.
Qed.

Lemma mul_Finite x y z :
  (x * y)%double = Finite z ->
  exists a b, x = Finite a /\ y = Finite b /\ nearest (a * b) = Finite z.
Proof.
  destruct x as [a| | |], y as [b| | |]; cbn [mul]; unfold scaled; try discriminate;
    try (destruct (Qeq_bool _ 0); [discriminate|];
         destruct (Qle_bool 0 _); discriminate).
  eauto.
Qed.

Lemma div_Finite x b z :
  0 < b -> (x / Finite b)%double = Finite z ->
  exists a, x = Finite a /\ nearest (a / b) = Finite z.
Proof.
  intros Hb. assert (E : Qeq_bool b 0 = false).
  { destruct (Qeq_bool b 0) eqn:E; [|reflexivity]. apply Qeq_bool_iff in E. lra. }
  destruct x as [a| | |]; cbn [div]; rewrite ?E; try discriminate;
    try (destruct (Qle_bool 0 b); discriminate).
  eauto.
Qed.

Lemma div_by_total q tq z :
  (Finite 0 <? tq)%double = true -> (Finite q / tq)%double = Finite z ->
  (exists t, tq = Finite t /\ 0 < t /\ nearest (q / t) = Finite z) \/ z = 0.
Proof.
  destruct tq as [t| | |]; cbn [ltb div]; try discriminate.
  - intros Ht. apply Qltb_lt in Ht.
    assert (E : Qeq_bool t 0 = false).
    { destruct (Qeq_bool t 0) eqn:E; [|reflexivity]. apply Qeq_bool_iff in E. lra. }
    rewrite E. intros H. left. eauto.
  - intros _ H. right. now injection H.
Qed.

(** A rounding of a number that is not negative, relative to the
    number. *)
Lemma nearest_within x y :
  0 <= x -> nearest x = Finite y ->
  0 <= y
  /\ x * (1 - halfUlp) - (1 # 1000000000000000000000000000000) <= y
  /\ y <= x * (1 + halfUlp) + (1 # 1000000000000000000000000000000).
Proof.
  intros Hx H. pose proof (nearest_close _ _ H) as Hc.
  pose proof eta_small as Heta. pose proof eta_pos as Heta0.
  rewrite (Qabs_pos x) in Hc by exact Hx.
  destruct (nearest_nonneg x Hx) as [Hinf|(y' & Hy' & Hnn)]; [congruence|].
  assert (Hy : y' = y) by congruence. subst y'.
  unfold halfUlp in *. apply Qabs_Qle_condition in Hc. repeat split; lra.
Qed.

Lemma nearest_zero x : x == 0 -> nearest x = Finite 0.
Proof.
  intros Hx. unfold nearest. apply Qeq_bool_iff in Hx. now rewrite Hx.
Qed.

(** The cost in cents that the doubles give is the exact cost of the
    units in cents or more, up to a thousandth of a cent; with no charges
    to share it is that cost, up to a thousandth of a cent. *)
Lemma costInCents_bounds tq extra q c y :
  0 <= c <= 10000000001 -> 1 <= q -> 0 <= extra ->
  (Finite 0 <? tq)%double = true ->
  costInCents tq extra q c = Finite y ->
  100 * c - (1 # 1000) <= y
  /\ (extra == 0 -> y <= 100 * c + (1 # 1000)).
Proof.
  intros [Hc0 Hc1] Hq Hextra Htq H. unfold costInCents in H.
  apply mul_Finite in H. destruct H as (r & hundred & Hr & Hh & Hy).
  assert (hundred = 100) by (now injection Hh). subst hundred. clear Hh.
  apply div_Finite in Hr; [|lra]. destruct Hr as (s & Hs & Hr).
  apply add_Finite in Hs. destruct Hs as (m & a & Hm & Ha & Hs).
  cbn [mul] in Hm. assert (Hm' : nearest (c * q) = Finite m) by exact Hm. clear Hm.
  apply mul_Finite in Ha. destruct Ha as (d & extra' & Hd & He & Ha).
  assert (extra' = extra) by (now injection He). subst extra'. clear He.
  assert (Hd0 : 0 <= d).
  { destruct (div_by_total _ _ _ Htq Hd) as [(t & _ & Ht & Hn)|Hz];
      [|rewrite Hz; apply Qle_refl].
    apply nearest_within in Hn; [tauto|]. apply Qle_shift_div_l; lra. }
  assert (Hx1 : 0 <= c * q) by (apply Qmult_le_0_compat; lra).
  destruct (nearest_within _ _ Hx1 Hm') as (Hm0 & Hmlo & Hmhi).
  assert (Hde : 0 <= d * extra) by (apply Qmult_le_0_compat; lra).
  destruct (nearest_within _ _ Hde Ha) as (Ha0 & _ & _).
  assert (Hma : 0 <= m + a) by lra.
  destruct (nearest_within _ _ Hma Hs) as (Hs0 & Hslo & Hshi).
  assert (Hsq : 0 <= s / q) by (apply Qle_shift_div_l; lra).
  destruct (nearest_within _ _ Hsq Hr) as (Hr0 & Hrlo & Hrhi).
  assert (Hr100 : 0 <= r * 100) by lra.
  destruct (nearest_within _ _ Hr100 Hy) as (_ & Hylo & Hyhi).
  unfold halfUlp in *.
  set (x1 := c * q) in *. set (z := s / q) in *.
  set (e := 1 # 1000000000000000000000000000000) in *.
  set (lo := 1 - (1 # 9007199254740992)) in *.
  set (hi := 1 + (1 # 9007199254740992)) in *.
  split.
  - assert (Hz : c * (lo * lo) - 2 * e <= z).
    { subst z. apply Qle_shift_div_l; [lra|].
      setoid_replace ((c * (lo * lo) - 2 * e) * q) with (x1 * (lo * lo) - 2 * e * q)
        by (subst x1; ring).
      subst lo e. lra. }
    subst lo e. lra.
  - intros Hzero.
    assert (Ha' : a == 0).
    { rewrite (nearest_zero (d * extra)) in Ha by (rewrite Hzero; ring).
      assert (E : 0 = a) by (now injection Ha). now subst a. }
    assert (Hz : z <= c * (hi * hi) + 3 * e).
    { subst z. apply Qle_shift_div_r; [lra|].
      setoid_replace ((c * (hi * hi) + 3 * e) * q) with (x1 * (hi * hi) + 3 * e * q)
        by (subst x1; ring).
      subst hi e. lra. }
    subst hi e. lra.
Qed.

End CostInCents.

Section MachinePurchaseRun.
Import Js Binary64 JsString Db PurchaseService Machine.
Local Open Scope string_scope.

Lemma stored_Ok driver x s q s' :
  stored driver x s = (Ok q, s') -> decimal12_2 driver x = Some q /\ s' = s.
Proof.
  unfold stored. destruct (decimal12_2 driver x) as [q0|]; [|discriminate].
  intros H. apply ret_Ok in H. destruct H as [-> ->]. split; reflexivity.
Qed.

Lemma machine_purchaseItem_create_Ok driver pid vid q c e s u s' :
  Machine.purchaseItem_create driver pid vid q c e s = (Ok u, s') ->
  exists id c' e',
    decimal12_2 driver c = Some c' /\ decimal12_2 driver e = Some e'
    /\ purchaseItems s' = (purchaseItems s ++ [mkPurchaseItem id pid vid q c' e'])%list
    /\ products s' = products s /\ purchases s' = purchases s.
Proof.
  unfold Machine.purchaseItem_create. intros H.
  apply bind_Ok in H. destruct H as (c' & s1 & Hc & H).
  apply stored_Ok in Hc. destruct Hc as [Hc ->].
  apply bind_Ok in H. destruct H as (e' & s2 & He & H).
  apply stored_Ok in He. destruct He as [He ->].
  apply purchaseItem_create_Ok in H. destruct H as (id & H).
  exists id, c', e'. split; [exact Hc|]. split; [exact He|]. exact H.
Qed.

(** [extra || 0] stands for [extra] in a product. *)
Lemma mul_orZero x extra :
  (x * Finite (orZero extra))%double = (x * Finite extra)%double.
Proof.
  unfold orZero. destruct (Qeq_bool extra 0) eqn:E; [|reflexivity].
  assert (E0 : Qeq_bool 0 0 = true) by reflexivity.
  destruct x as [a| | |]; cbn [mul]; unfold scaled; rewrite ?E, ?E0; try reflexivity.
  apply Qeq_bool_iff in E. unfold nearest.
  assert (H1 : Qeq_bool (a * 0) 0 = true) by (apply Qeq_bool_iff; ring).
  assert (H2 : Qeq_bool (a * extra) 0 = true) by (apply Qeq_bool_iff; rewrite E; ring).
  now rewrite H1, H2.
Qed.

Lemma round2_Finite x d :
  Binary64.round2 x = Finite d ->
  exists y, (x * Finite 100)%double = Finite y
            /\ nearest (inject_Z (MathRound y) / 100) = Finite d.
Proof.
  unfold Binary64.round2.
  destruct (x * Finite 100)%double as [y| | |]; cbn [round div]; try discriminate.
  change (Qeq_bool 100 0) with false. cbv iota. eauto.
Qed.

Lemma decimal12_2_Finite driver x q :
  decimal12_2 driver x = Some q -> exists d, x = Finite d.
Proof.
  destruct x; try discriminate. eauto.
Qed.

Lemma machine_purchaseItemBody_Ok driver pu su tq extra it s u s' :
  validItem it -> (Finite 0 <? tq)%double = true ->
  Machine.purchaseItemBody driver pu su tq (orZero extra) it s = (Ok u, s') ->
  exists row,
    purchaseItems s' = (purchaseItems s ++ [row])%list
    /\ Machine.persistedFor (purchase_id pu) tq extra it row.
Proof.
  intros (q & c & Hq & Hc & Hint & Hpos & Hcost) Htq.
  unfold Machine.purchaseItemBody. cbv zeta. rewrite Hq, Hc. cbn [numberValue].
  intros H.
  apply bind_Ok in H. destruct H as (a & s1 & Hstep & H).
  apply machine_purchaseItem_create_Ok in Hstep.
  destruct Hstep as (id & c' & e' & Hkept & He & Hrows & _).
  tx_ok H. apply throwIf_Ok in H. destruct H as [_ ->].
  eexists. split; [cbn [purchaseItems set_products]; exact Hrows|].
  unfold Machine.persistedFor. cbv zeta. rewrite Hq, Hc.
  cbn [numberValue purchaseId purchaseItem_productVariantId purchaseItem_quantity
       Db.unitCost Db.effectiveUnitCost].
  split; [reflexivity|]. split; [reflexivity|].
  split; [now apply isIntegerQ_floor|].
  destruct (decimal12_2_close _ _ _ Hkept) as (Hnear & Hgrid & Hsign & Hfits).
  apply Qabs_Qle_condition in Hfits.
  split; [exact Hgrid|]. split; [split; [now apply Hsign|tauto]|]. split; [exact Hnear|].
  destruct (decimal12_2_Finite _ _ _ He) as [d Hd].
  destruct (round2_Finite _ _ Hd) as (y & Hy & Hn).
  rewrite Hd in He.
  exists y, (MathRound y). split; [|split].
  - rewrite <- Hy. unfold costInCents, Machine.effectiveUnitCost, Machine.allocatedCharge.
    rewrite Htq.
    replace (Qltb 0 q) with true by (symmetry; apply Qltb_lt; lra).
    now rewrite mul_orZero.
  - apply MathRound_bounds.
  - exact (decimal12_2_cents _ _ _ _ Hn He).
Qed.

Lemma machine_forEach_purchaseItemBody_Ok driver pu su tq extra items : forall s u s',
  Forall validItem items -> (Finite 0 <? tq)%double = true ->
  forEach (Machine.purchaseItemBody driver pu su tq (orZero extra)) items s = (Ok u, s') ->
  exists rows,
    purchaseItems s' = (purchaseItems s ++ rows)%list
    /\ Forall2 (Machine.persistedFor (purchase_id pu) tq extra) items rows.
Proof.
  induction items as [|it r IH]; intros s u s' Hvalid Htq H; cbn [forEach] in H.
  - apply ret_Ok in H. destruct H as [_ ->].
    exists []. split; [now rewrite app_nil_r | constructor].
  - inversion Hvalid as [|? ? Hit Hr]; subst.
    apply bind_Ok in H. destruct H as (a & s1 & Hone & Hrest).
    apply machine_purchaseItemBody_Ok in Hone; [|assumption|assumption].
    destruct Hone as (row & Hrows & Hrow).
    destruct (IH _ _ _ Hr Htq Hrest) as (rows & Hrows' & Hall).
    exists (row :: rows). split.
    + rewrite Hrows', Hrows, <- app_assoc. reflexivity.
    + constructor; assumption.
Qed.

Lemma machine_purchase_create_Ok driver sid t inv nt ex s pu s' :
  Machine.purchase_create driver sid t inv nt ex s = (Ok pu, s') ->
  purchaseItems s' = purchaseItems s /\ products s' = products s.
Proof.
  unfold Machine.purchase_create. intros H.
  apply bind_Ok in H. destruct H as (kept & s1 & Hkept & H).
  assert (s1 = s).
  { destruct ex as [x|].
    - apply bind_Ok in Hkept. destruct Hkept as (q & s2 & Hq & Hret).
      apply stored_Ok in Hq. destruct Hq as [_ ->].
      apply ret_Ok in Hret. now destruct Hret.
    - apply ret_Ok in Hkept. now destruct Hkept. }
  subst s1. now apply purchase_create_Ok in H.
Qed.

(** The total of quantities that are not negative is positive or not at
    all a number below zero. *)
Lemma totalQty_sign items : forall acc,
  Forall validItem items ->
  (acc = PosInf \/ exists a, acc = Finite a /\ (0 <= a)%Q) ->
  let total := fold_left (fun sum i => (sum + ofNumber (in_quantity i))%double) items acc in
  total = PosInf \/ exists a, total = Finite a /\ (0 <= a)%Q.
Proof.
  induction items as [|it r IH]; intros acc Hvalid Hacc; [exact Hacc|].
  inversion Hvalid as [|? ? Hit Hr]; subst. cbn [fold_left]. apply IH; [exact Hr|].
  destruct Hit as (q & c & Hq & _ & _ & Hpos & _). rewrite Hq. cbn [ofNumber].
  destruct Hacc as [->|(a & -> & Ha)]; [now left|].
  cbn [add]. apply nearest_nonneg. lra.
Qed.

Lemma machine_createPurchase_Ok driver now payload s r s' :
  Machine.createPurchase driver now payload s = (Ok r, s') ->
  exists items extraCharges_ rows,
    in_items payload = Some items
    /\ in_extraCharges payload = Fin extraCharges_
    /\ (0 <= extraCharges_)%Q
    /\ Forall validItem items
    /\ (Finite 0 <? Machine.totalQty items)%double = true
    /\ purchaseItems s' = (purchaseItems s ++ rows)%list
    /\ Forall2 (Machine.persistedFor (r_purchaseId r) (Machine.totalQty items)
                                     extraCharges_) items rows.
Proof.
  unfold Machine.createPurchase. intros H.
  destruct (in_supplierId payload) as [sid|]; [|discriminate].
  tx_ok H.
  destruct (in_items payload) as [[|it items]|]; try discriminate.
  tx_ok H.
  match goal with
  | Hv : validateItems _ _ s = (Ok _, ?s0) |- _ =>
      pose proof (readOnly_run _ _ _ _ (readOnly_validateItems _ _) Hv); subst s0;
      pose proof (validateItems_Ok _ _ _ _ _ Hv) as Hvalid; clear Hv
  end.
  match goal with
  | Ht : (_ <=? _)%double = false |- _ =>
      assert (Htq : (Finite 0 <? Machine.totalQty (it :: items))%double = true);
        [|clear Ht]
  end.
  { destruct (totalQty_sign (it :: items) (Finite 0) Hvalid) as [Hinf|(tq & Ha & Hnn)].
    - right. exists 0%Q. split; [reflexivity|apply Qle_refl].
    - fold (Machine.totalQty (it :: items)) in Hinf. now rewrite Hinf.
    - fold (Machine.totalQty (it :: items)) in Ha. rewrite Ha in *.
      cbn [leb ltb] in *. unfold Qltb.
      match goal with Ht : Qle_bool tq 0 = false |- _ => now rewrite Ht end. }
  match goal with
  | Hx : Qltb ?x 0 = false |- _ => apply Qltb_ge in Hx
  end.
  apply transaction_Ok in H. unfold Machine.createPurchase_body in H.
  tx_ok H.
  match type of H with
  | context [match ?f with Some _ => _ | None => _ end] => destruct f as [supplier|]
  end; [|discriminate].
  tx_ok H.
  repeat match goal with
  | Hv : forEach (fun id => throwIf _ _) _ s = (Ok _, ?s0) |- _ =>
      assert (s0 = s)
        by (eapply readOnly_run; [|exact Hv];
            apply readOnly_forEach; intros; apply readOnly_throwIf);
      subst s0; clear Hv
  | Hv : match in_purchasedAt payload with _ => _ end s = (Ok _, ?s0) |- _ =>
      assert (s0 = s)
        by (eapply readOnly_run; [|exact Hv];
            destruct (in_purchasedAt payload) as [[?|]|]; auto with tx);
      subst s0; clear Hv
  | Hv : Machine.purchase_create _ _ _ _ _ _ s = (Ok _, _) |- _ =>
      apply machine_purchase_create_Ok in Hv; destruct Hv as [Hitems _]
  end.
  apply ret_Ok in H. destruct H as [-> ->].
  match goal with
  | Hv : forEach (Machine.purchaseItemBody _ _ _ _ _) _ _ = (Ok _, _) |- _ =>
      apply machine_forEach_purchaseItemBody_Ok in Hv; [|assumption|assumption];
      destruct Hv as (rows & Hrows & Hall)
  end.
  eexists _, _, rows. repeat split; try eassumption; try reflexivity.
  now rewrite Hrows, Hitems.
Qed.

Lemma exact_total_grows items : forall acc,
  Forall validItem items ->
  (acc <= fold_left (fun sum i => sum + numberValue (in_quantity i)) items acc)%Q.
Proof.
  induction items as [|it r IH]; intros acc Hvalid; cbn [fold_left]; [apply Qle_refl|].
  inversion Hvalid as [|? ? Hit Hr]; subst.
  eapply Qle_trans; [|apply IH; exact Hr].
  destruct Hit as (q & c & Hq & _ & _ & Hpos & _). rewrite Hq. cbn [numberValue]. lra.
Qed.

(** While the quantities add up to an integer of at most 53 bits, their
    total in doubles is their total. *)
Lemma totalQty_exact items : forall (acc : Q) (n N : Z),
  Forall validItem items ->
  acc = inject_Z n -> (0 <= n)%Z ->
  (fold_left (fun sum i => sum + numberValue (in_quantity i)) items acc == inject_Z N)%Q ->
  (N <= 2 ^ 53)%Z ->
  fold_left (fun sum i => (sum + ofNumber (in_quantity i))%double) items (Finite acc)
  = Finite (inject_Z N).
Proof.
  induction items as [|it r IH]; intros acc n N Hvalid Hacc Hn Hsum HN; cbn [fold_left] in *.
  - subst acc. apply -> inject_Z_injective in Hsum. now rewrite Hsum.
  - inversion Hvalid as [|? ? Hit Hr]; subst.
    pose proof (exact_total_grows r (inject_Z n + numberValue (in_quantity it))%Q Hr)
      as Hgrow.
    rewrite Hsum in Hgrow.
    destruct Hit as (q & c & Hq & _ & Hint & Hpos & _). rewrite Hq in *.
    cbn [numberValue ofNumber add] in *.
    apply isIntegerQ_floor in Hint.
    assert (Hk : (1 <= Qfloor q)%Z).
    { rewrite Zle_Qle, Hint. exact Hpos. }
    assert (Hx : (inject_Z n + q == inject_Z (n + Qfloor q))%Q).
    { rewrite inject_Z_plus, Hint. reflexivity. }
    assert (Hle : (n + Qfloor q <= N)%Z).
    { rewrite Zle_Qle, <- Hx. exact Hgrow. }
    rewrite (nearest_integer _ _ Hx) by lia.
    apply (IH _ (n + Qfloor q)%Z N Hr eq_refl); [lia| |exact HN].
    rewrite <- Hsum.
    clear - Hx. revert Hx.
    generalize (inject_Z n + q)%Q (inject_Z (n + Qfloor q)). intros a b Hab.
    revert a b Hab. induction r as [|x r IHr]; intros a b Hab; cbn [fold_left].
    + now symmetry.
    + apply IHr. now rewrite Hab.
Qed.

End MachinePurchaseRun.

Section MachinePurchaseClaims.
Import Js Binary64 JsString Db PurchaseService Machine Examples.
Local Open Scope string_scope.

(** C6.  Every purchase that is persisted went through the validation
    (positive integer quantities, unit costs and extra charges that are not
    negative), and each of its items is persisted with its unit cost
    rounded to cents by the column and with the effective unit cost
    [cents / 100], where [cents] is the integer nearest, a half going
    up, to the number that the engine computes in double precision for
    [(unitCost * quantity + quantity / totalQty * extraCharges) / quantity
     * 100], each operation rounded to the nearest double; [totalQty] is
    the sum of the quantities of the purchase as long as that sum has at
    most 53 bits.  This holds whatever decimal numeral the database client
    sends for a double, provided the numeral reads back as the double.
    Charges of 100 over 3 units at 10 and 2 units at 20 are split 60 and
    40 and give the effective unit costs 30 and 40. *)
Theorem purchase_effective_unit_cost :
  forall (driver : Driver) (now : Z) (payload : PurchasePayload) (s : Store)
         (r : PurchaseResult) (s' : Store),
    Machine.createPurchase driver now payload s = (Ok r, s') ->
    (exists (items : list PurchaseItemInput) (extraCharges_ : Q)
            (rows : list PurchaseItem),
        in_items payload = Some items
        /\ in_extraCharges payload = Fin extraCharges_
        /\ (0 <= extraCharges_)%Q
        /\ Forall validItem items
        /\ (Finite 0 <? Machine.totalQty items)%double = true
        /\ (forall N : Z,
              (PurchaseService.totalQty items == inject_Z N)%Q -> (N <= 2 ^ 53)%Z ->
              Machine.totalQty items = Finite (inject_Z N))
        /\ purchaseItems s' = (purchaseItems s ++ rows)%list
        /\ Forall2 (Machine.persistedFor (r_purchaseId r) (Machine.totalQty items)
                                         extraCharges_)
                   items rows)
    /\ (let run := Machine.createPurchase exactDriver 0 sharedChargesPurchase store0 in
        (exists r0, fst run = Ok r0)
        /\ Machine.totalQty [mkPurchaseItemInput "V1" (Fin 3) (Fin 10);
                             mkPurchaseItemInput "V2" (Fin 2) (Fin 20)] = Finite 5
        /\ (Finite 3 / Finite 5 * Finite 100)%double = Finite 60
        /\ (Finite 2 / Finite 5 * Finite 100)%double = Finite 40
        /\ map Db.effectiveUnitCost (purchaseItems (snd run)) = [30; 40]%Q
        /\ map quantityInStock (products (snd run)) = [8; 2]).
Proof.
  intros driver now payload s r s' H. split.
  - apply machine_createPurchase_Ok in H.
    destruct H as (items & extra & rows & Hitems & Hextra & Hnn & Hvalid & Htq & Hrows & Hall).
    exists items, extra, rows. repeat split; try assumption.
    intros N HN Hbound.
    apply (totalQty_exact items 0%Q 0%Z N Hvalid eq_refl (Z.le_refl 0) HN Hbound).
  - vm_compute. split; [eexists; reflexivity|]. repeat split.
Qed.

Lemma purchase_effective_unit_cost_witness :
  exists r s',
    Machine.createPurchase exactDriver 0 sharedChargesPurchase store0 = (Ok r, s')
    /\ exists rows,
         purchaseItems s' = rows
         /\ Forall2 (Machine.persistedFor (r_purchaseId r) (Finite 5) 100)
                    [mkPurchaseItemInput "V1" (Fin 3) (Fin 10);
                     mkPurchaseItemInput "V2" (Fin 2) (Fin 20)] rows.
Proof.
  destruct (Machine.createPurchase exactDriver 0 sharedChargesPurchase store0)
    as [o s'] eqn:E.
  assert (Ho : exists r, o = Ok r).
  { replace o with (fst (Machine.createPurchase exactDriver 0 sharedChargesPurchase store0))
      by now rewrite E.
    vm_compute. eexists; reflexivity. }
  destruct Ho as [r ->].
  exists r, s'. split; [reflexivity|].
  destruct (purchase_effective_unit_cost _ _ _ _ _ _ E)
    as ((items & extra & rows & Hitems & Hextra & _ & _ & _ & _ & Hrows & Hall) & _).
  cbn in Hitems, Hextra. inversion Hitems; subst items. inversion Hextra; subst extra.
  exists rows. split; [exact Hrows|].
  replace (Finite 5) with (Machine.totalQty [mkPurchaseItemInput "V1" (Fin 3) (Fin 10);
                                             mkPurchaseItemInput "V2" (Fin 2) (Fin 20)])
    by (vm_compute; reflexivity).
  exact Hall.
Defined.

(** The effective unit cost that is stored is not the exact cost rounded
    to cents.  One unit at 0.375 out of five units that share a charge of
    1 costs exactly 0.575, which every rounding to the nearest cent takes
    to 0.58 when a half goes up or to the even cent; the doubles give
    57.49999999999999 for the cost in cents, and 0.57 is stored. *)
Lemma effective_unit_cost_rounds_the_double :
  let run := Machine.createPurchase exactDriver 0 halfCentPurchase store0 in
  (exists r, fst run = Ok r)
  /\ map Db.effectiveUnitCost (purchaseItems (snd run)) = [57 # 100; 6 # 5]%Q
  /\ costInCents (Finite 5) 1 1 (375 # 1000)
     = Finite (8092405580431359 # 140737488355328)
  /\ (((375 # 1000) * 1 + 1 / 5 * 1) / 1 == 575 # 1000)%Q
  /\ (Js.round2 (((375 # 1000) * 1 + 1 / 5 * 1) / 1) == 58 # 100)%Q
  /\ ~ (57 # 100 == Js.round2 (((375 # 1000) * 1 + 1 / 5 * 1) / 1))%Q.
Proof.
  vm_compute. split; [eexists; reflexivity|].
  repeat split; try reflexivity. discriminate.
Qed.

End MachinePurchaseClaims.

(** ** Stock *)

Section StockInvariant.
Import Js JsString Db SaleService PurchaseService.
Local Open Scope string_scope.

Lemma fromEntries_Some rows key row :
  fromEntries rows key = Some row -> sku (product row) = key /\ In row rows.
Proof.
  unfold fromEntries. intros H. apply find_some in H. destruct H as [Hin Heq].
  split; [now apply String.eqb_eq | now apply in_rev].
Qed.

Lemma findProductsBySku_In skus s rows s0 row :
  findProductsBySku skus s = (Ok rows, s0) -> In row rows ->
  In (product row) (products s).
Proof.
  unfold findProductsBySku, gets. intros H Hin. injection H as <- _.
  apply in_map_iff in Hin. destruct Hin as (p & <- & Hp).
  apply filter_In in Hp. now destruct Hp.
Qed.

Lemma unique_id (l : list Product) x y :
  NoDup (map product_id l) -> In x l -> In y l -> product_id x = product_id y -> x = y.
Proof.
  induction l as [|z l IH]; intros Hnd Hx Hy Hid; [contradiction|].
  cbn [map] in Hnd. inversion Hnd as [|? ? Hz Hnd']; subst.
  destruct Hx as [->|Hx], Hy as [->|Hy]; auto.
  - elim Hz. rewrite Hid. now apply in_map.
  - elim Hz. rewrite <- Hid. now apply in_map.
Qed.

Lemma toInt_le q z : (q <= inject_Z z)%Q -> toInt q <= z.
Proof.
  intros H. unfold toInt. rewrite <- (Qfloor_Z z). now apply Qfloor_resp_le.
Qed.

Lemma toInt_pos q : (1 <= q)%Q -> 1 <= toInt q.
Proof.
  intros H. unfold toInt. change 1 with (Qfloor (inject_Z 1)). now apply Qfloor_resp_le.
Qed.

(** With every SKU named once, the lines that touch a product are at
    most one, and that one was checked against the stock of the product. *)
Lemma soldOf_within_stock prods f its rows :
  Forall2 (lineOf f) its rows ->
  (forall key row, f key = Some row ->
     sku (product row) = key /\ In (product row) prods) ->
  NoDup (map product_id prods) ->
  NoDup (map it_sku its) ->
  forall p, In p prods -> 0 <= quantityInStock p ->
    (~ In (sku p) (map it_sku its) -> soldOf (product_id p) rows = 0)
    /\ soldOf (product_id p) rows <= quantityInStock p.
Proof.
  intros Hlines Hf Hids.
  induction Hlines as [|it r its rows Hline Hlines IH]; intros Hskus p Hp Hstock.
  - cbn. split; [reflexivity|assumption].
  - cbn [map] in Hskus. inversion Hskus as [|? ? Hfresh Hskus']; subst.
    destruct (IH Hskus' p Hp Hstock) as [IHzero IHle].
    destruct Hline as (row & q & pr & Hrow & _ & _ & Hq1 & _ & _ & Hqs & _ & ->).
    destruct (Hf _ _ Hrow) as [Hsku Hin].
    rewrite soldOf_cons. cbn [lt_product lt_quantity].
    destruct (String.eqb (product_id (product row)) (product_id p)) eqn:E.
    + apply String.eqb_eq in E.
      assert (product row = p) by (now apply (unique_id prods)). subst p.
      rewrite IHzero by (now rewrite Hsku).
      split.
      * intros Hnot. elim Hnot. cbn [map]. left. now symmetry.
      * rewrite Z.add_0_r. now apply toInt_le.
    + split; [|exact IHle].
      intros Hnot. apply IHzero. intros Hin'. apply Hnot. now right.
Qed.

(** The part of C1 that the code keeps: a sale whose items name pairwise
    distinct SKUs leaves every stock non-negative. *)
Lemma distinct_sku_sale_keeps_stock now payload s r s' its :
  NoDup (map product_id (products s)) ->
  nonNegativeStock s ->
  items payload = Some its ->
  NoDup (map it_sku its) ->
  createSale now payload s = (Ok r, s') ->
  nonNegativeStock s'.
Proof.
  intros Hids Hstock Hits Hskus H.
  apply createSale_stock in H. destruct H as (v & Hv & _ & Hprods).
  apply validateAndCompute_Ok in Hv.
  destruct Hv as (its' & rows & Hits' & Hrows & Hlines & _ & _ & _).
  rewrite Hits in Hits'. injection Hits' as <-.
  unfold nonNegativeStock in *. rewrite Hprods. apply Forall_map.
  rewrite Forall_forall in *. intros p Hp. cbn [setStock quantityInStock].
  assert (Hf : forall key row, fromEntries rows key = Some row ->
                 sku (product row) = key /\ In (product row) (products s)).
  { intros key row Hrow. apply fromEntries_Some in Hrow. destruct Hrow as [Hk Hin].
    split; [exact Hk|]. eapply findProductsBySku_In; eassumption. }
  destruct (soldOf_within_stock _ _ _ _ Hlines Hf Hids Hskus p Hp (Hstock p Hp))
    as [_ Hle].
  lia.
Qed.

Lemma product_incrementMany_stock vid sid q s n s' :
  0 <= q -> nonNegativeStock s ->
  product_incrementMany vid sid q s = (Ok n, s') -> nonNegativeStock s'.
Proof.
  unfold product_incrementMany. intros Hq Hstock H. tx_ok H.
  apply ret_Ok in H. destruct H as [_ ->].
  unfold nonNegativeStock in *. cbn [products set_products].
  apply Forall_map. rewrite Forall_forall in *. intros p Hp.
  specialize (Hstock p Hp).
  destruct (matches vid sid p); cbn [setStock quantityInStock]; lia.
Qed.

Lemma forEach_purchaseItemBody_stock pu su tq ev items : forall s u s',
  Forall validItem items -> nonNegativeStock s ->
  forEach (purchaseItemBody pu su tq ev) items s = (Ok u, s') ->
  nonNegativeStock s'.
Proof.
  induction items as [|it items IH]; intros s u s' Hvalid Hstock H; cbn [forEach] in H.
  - apply ret_Ok in H. now destruct H as [_ ->].
  - inversion Hvalid as [|? ? Hit Hrest]; subst.
    apply bind_Ok in H. destruct H as (u1 & s1 & Hone & Hloop).
    apply (IH s1 u s' Hrest); [|exact Hloop].
    unfold purchaseItemBody in Hone. cbv zeta in Hone.
    apply bind_Ok in Hone. destruct Hone as (u2 & s2 & Hcreate & Hone).
    apply purchaseItem_create_Ok in Hcreate. destruct Hcreate as (id & _ & Hsame & _).
    apply bind_Ok in Hone. destruct Hone as (n & s3 & Hinc & Hone).
    apply throwIf_Ok in Hone. destruct Hone as [_ ->].
    apply product_incrementMany_stock in Hinc; [exact Hinc| |].
    + destruct Hit as (q & c & Hq & _ & _ & Hq1 & _). rewrite Hq. cbn [numberValue].
      pose proof (toInt_pos q Hq1). lia.
    + unfold nonNegativeStock in *. now rewrite Hsame.
Qed.

(** Purchases only add to the stock. *)
Lemma purchase_keeps_stock now payload s r s' :
  nonNegativeStock s ->
  createPurchase now payload s = (Ok r, s') ->
  nonNegativeStock s'.
Proof.
  intros Hstock H. unfold createPurchase in H.
  destruct (in_supplierId payload) as [sid|]; [|discriminate].
  tx_ok H.
  destruct (in_items payload) as [[|it items]|]; try discriminate.
  tx_ok H.
  match goal with
  | Hv : validateItems _ _ s = (Ok _, ?s0) |- _ =>
      pose proof (readOnly_run _ _ _ _ (readOnly_validateItems _ _) Hv); subst s0;
      pose proof (validateItems_Ok _ _ _ _ _ Hv) as Hvalid; clear Hv
  end.
  apply transaction_Ok in H. unfold createPurchase_body in H.
  tx_ok H.
  match type of H with
  | context [match ?f with Some _ => _ | None => _ end] => destruct f as [supplier|]
  end; [|discriminate].
  tx_ok H.
  repeat match goal with
  | Hv : forEach (fun id => throwIf _ _) _ s = (Ok _, ?s0) |- _ =>
      assert (s0 = s)
        by (eapply readOnly_run; [|exact Hv];
            apply readOnly_forEach; intros; apply readOnly_throwIf);
      subst s0; clear Hv
  | Hv : match in_purchasedAt payload with _ => _ end s = (Ok _, ?s0) |- _ =>
      assert (s0 = s)
        by (eapply readOnly_run; [|exact Hv];
            destruct (in_purchasedAt payload) as [[?|]|]; auto with tx);
      subst s0; clear Hv
  | Hv : purchase_create _ _ _ _ _ s = (Ok _, _) |- _ =>
      apply purchase_create_Ok in Hv; destruct Hv as [_ Hsame]
  end.
  apply ret_Ok in H. destruct H as [_ ->].
  match goal with
  | Hv : forEach (purchaseItemBody _ _ _ _) _ _ = (Ok _, _) |- _ =>
      apply forEach_purchaseItemBody_stock in Hv; [exact Hv|exact Hvalid|]
  end.
  unfold nonNegativeStock in *. now rewrite Hsame.
Qed.

End StockInvariant.

Section SaleDefects.
Import Js Db SaleService Examples.
Local Open Scope string_scope.

(** C1, at the failing input.  A sale that names SKU [A] twice, 3 units
    each, against a stock of 5 passes the stock check of both items and
    is persisted; the stock of [A] ends at -1. *)
Theorem duplicate_sku_sale_overdraws_stock :
  (exists r, fst (createSale today duplicateSkuSale store0) = Ok r)
  /\ map quantityInStock (products store0) = [5; 0]
  /\ map quantityInStock (products (snd (createSale today duplicateSkuSale store0)))
     = [-1; 0]
  /\ map saleItem_quantity (saleItems (snd (createSale today duplicateSkuSale store0)))
     = [3; 3].
Proof.
  vm_compute. split; [eexists; reflexivity|]. repeat split.
Qed.

(** C2, at the failing input.  One unit at 60 paid with 59.50 is
    accepted although the payments differ from the total by 0.50: the
    tolerance compared against is 1, not 0.01. *)
Theorem underpaid_sale_is_accepted :
  (exists r, fst (createSale today underpaidSale store0) = Ok r
             /\ (r_totalAmount r == 60)%Q)
  /\ (map amount (Db.payments (snd (createSale today underpaidSale store0)))
      = [119 # 2]%Q)
  /\ (1 # 100 < Qabs (round2 (119 # 2) - round2 60))%Q
  /\ (PAYMENT_SUM_TOLERANCE == 1)%Q.
Proof.
  vm_compute. split; [eexists; split; reflexivity|]. repeat split.
Qed.

End SaleDefects.

(** ** Bill numbers *)

Section BillNumberStrings.
Import JsString SaleService.
Local Open Scope string_scope.

Lemma prefix_app p x : String.prefix p (p ++ x) = true.
Proof.
  induction p as [|c p IH]; cbn.
  - now destruct x.
  - destruct (ascii_dec c c) as [_|Hne]; [exact IH|now elim Hne].
Qed.

Lemma slice_app p x : slice (String.length p) (p ++ x) = x.
Proof.
  induction p as [|c p IH]; cbn; [now destruct x|exact IH].
Qed.

Lemma compare_app p a b : String.compare (p ++ a) (p ++ b) = String.compare a b.
Proof.
  induction p as [|c p IH]; cbn; [reflexivity|].
  unfold Ascii.compare. now rewrite N.compare_refl.
Qed.

Lemma append_assoc (a b c : string) : (a ++ b) ++ c = a ++ b ++ c.
Proof.
  induction a as [|x a IH]; cbn; [reflexivity|now rewrite IH].
Qed.

Lemma ltb_app p a b : String.ltb (p ++ a) (p ++ b) = String.ltb a b.
Proof.
  unfold String.ltb. now rewrite compare_app.
Qed.

Lemma ltb_trans a b c :
  String.ltb a b = true -> String.ltb b c = true -> String.ltb a c = true.
Proof.
  unfold String.ltb. intros Hab Hbc.
  destruct (String.compare a b) eqn:Eab; try discriminate.
  destruct (String.compare b c) eqn:Ebc; try discriminate.
  apply String_as_OT.cmp_lt in Eab, Ebc.
  pose proof (String_as_OT.lt_trans _ _ _ Eab Ebc) as Hac.
  apply String_as_OT.cmp_lt in Hac. unfold String_as_OT.cmp in Hac. now rewrite Hac.
Qed.

Lemma suffixes_In n count : forall from,
  In n (suffixes from count) <-> (from <= n < from + Z.of_nat count)%Z.
Proof.
  induction count as [|c IH]; intros from; cbn [suffixes In].
  - lia.
  - rewrite IH. lia.
Qed.

(** The three facts below are checked on each of the suffixes concerned. *)

Lemma suffix4_parse n :
  (1 <= n <= 10000)%Z -> parseInt (suffix4 n) = Some n.
Proof.
  intros Hn.
  assert (Hall : forallb (fun k => match parseInt (suffix4 k) with
                                   | Some m => Z.eqb m k
                                   | None => false
                                   end) (suffixes 1 (Z.to_nat 10000)) = true)
    by (vm_compute; reflexivity).
  rewrite forallb_forall in Hall.
  specialize (Hall n ltac:(apply suffixes_In; lia)).
  destruct (parseInt (suffix4 n)) as [m|]; [|discriminate].
  apply Z.eqb_eq in Hall. now subst.
Qed.

Lemma suffix4_next n :
  (1 <= n < 9999)%Z -> String.ltb (suffix4 n) (suffix4 (n + 1)) = true.
Proof.
  intros Hn.
  assert (Hall : forallb (fun k => String.ltb (suffix4 k) (suffix4 (k + 1)))
                         (suffixes 1 (Z.to_nat 9998)) = true)
    by (vm_compute; reflexivity).
  rewrite forallb_forall in Hall.
  apply Hall. apply suffixes_In. lia.
Qed.

Lemma suffix4_overflow :
  String.ltb (suffix4 9999) (suffix4 10000) = false.
Proof. reflexivity. Qed.

End BillNumberStrings.

Section BillNumberOrder.
Import JsString Db SaleService.
Local Open Scope string_scope.

Lemma compare_refl a : String.compare a a = Eq.
Proof.
  induction a as [|c a IH]; cbn; [reflexivity|].
  unfold Ascii.compare. now rewrite N.compare_refl.
Qed.

Lemma suffix4_lt m n :
  (1 <= m < n)%Z -> (n <= 9999)%Z -> String.ltb (suffix4 m) (suffix4 n) = true.
Proof.
  intros Hmn Hn.
  assert (Hgen : forall d : nat, (m + 1 + Z.of_nat d <= 9999)%Z ->
                   String.ltb (suffix4 m) (suffix4 (m + 1 + Z.of_nat d)) = true).
  { induction d as [|d IH]; intros Hd.
    - replace (m + 1 + Z.of_nat 0)%Z with (m + 1)%Z by lia.
      apply suffix4_next. lia.
    - eapply ltb_trans; [apply IH; lia|].
      replace (m + 1 + Z.of_nat (S d))%Z with (m + 1 + Z.of_nat d + 1)%Z by lia.
      apply suffix4_next. lia. }
  replace n with (m + 1 + Z.of_nat (Z.to_nat (n - m - 1)))%Z by lia.
  apply Hgen. lia.
Qed.

Lemma suffix4_ltb m n :
  (1 <= m <= 9999)%Z -> (1 <= n <= 9999)%Z ->
  String.ltb (suffix4 m) (suffix4 n) = (m <? n)%Z.
Proof.
  intros Hm Hn. destruct (Z.ltb_spec m n) as [Hlt|Hge].
  - apply suffix4_lt; lia.
  - destruct (Z.eq_dec m n) as [->|Hne].
    + unfold String.ltb. now rewrite compare_refl.
    + assert (Hnm : String.ltb (suffix4 n) (suffix4 m) = true)
        by (apply suffix4_lt; lia).
      unfold String.ltb in *. rewrite String.compare_antisym.
      destruct (String.compare (suffix4 n) (suffix4 m)); now try discriminate.
Qed.

Lemma findLastSale_bills prefix (rows : list Sale) : forall best,
  option_map billNumber
    (fold_left (fun best x =>
                  if startsWith (billNumber x) prefix
                  then match best with
                       | Some b => if String.ltb (billNumber b) (billNumber x)
                                   then Some x else Some b
                       | None => Some x
                       end
                  else best) rows best)
  = fold_left later
      (filter (fun b => startsWith b prefix) (map billNumber rows))
      (option_map billNumber best).
Proof.
  induction rows as [|x rows IH]; intros best; cbn [fold_left map filter]; [reflexivity|].
  rewrite IH. destruct (startsWith (billNumber x) prefix); [|reflexivity].
  cbn [fold_left]. f_equal.
  destruct best as [b|]; cbn [option_map later]; [|reflexivity].
  now destruct (String.ltb (billNumber b) (billNumber x)).
Qed.

Lemma later_highest prefix (l : list Z) : forall m,
  (1 <= m <= 9999)%Z ->
  Forall (fun i => 1 <= i <= 9999)%Z l ->
  fold_left later (map (billOf prefix) l) (Some (billOf prefix m))
  = Some (billOf prefix (Z.max m (highest l))).
Proof.
  induction l as [|x l IH]; intros m Hm Hl; cbn [map fold_left highest fold_right].
  - now rewrite Z.max_l by lia.
  - inversion Hl as [|? ? Hx Hl']; subst.
    assert (Hh : (0 <= highest l)%Z).
    { clear. induction l; cbn [highest fold_right]; [lia|]. fold (highest l). lia. }
    fold (highest l).
    unfold later at 2.
    replace (String.ltb (billOf prefix m) (billOf prefix x)) with (m <? x)%Z
      by (symmetry; unfold billOf; rewrite ltb_app; now apply suffix4_ltb).
    destruct (Z.ltb_spec m x).
    + rewrite IH by assumption. f_equal. f_equal. lia.
    + rewrite IH by assumption. f_equal. f_equal. lia.
Qed.

Lemma highest_bounds (l : list Z) :
  Forall (fun i => 1 <= i <= 9999)%Z l ->
  l <> [] -> (1 <= highest l <= 9999)%Z.
Proof.
  induction 1 as [|x l Hx Hl IH]; intros Hne; [now elim Hne|].
  cbn [highest fold_right]. fold (highest l).
  destruct l as [|y l]; [cbn; lia|].
  specialize (IH ltac:(discriminate)). lia.
Qed.

Lemma later_of_day prefix (l : list Z) :
  Forall (fun i => 1 <= i <= 9999)%Z l ->
  fold_left later (map (billOf prefix) l) None
  = match l with
    | [] => None
    | _ => Some (billOf prefix (highest l))
    end.
Proof.
  intros Hl. destruct l as [|x l]; [reflexivity|].
  cbn [map fold_left later]. inversion Hl; subst.
  rewrite later_highest by assumption. reflexivity.
Qed.

End BillNumberOrder.

Section BillNumberClaims.
Import Js JsString Db SaleService Examples.
Local Open Scope string_scope.

Lemma nextSeq_after now h last :
  billNumber last = billOf (billPrefix now) h ->
  (1 <= h <= 10000)%Z ->
  nextSeq (billPrefix now) (Some last) = (h + 1)%Z.
Proof.
  intros Hbill Hh. unfold nextSeq. rewrite Hbill.
  change (String.eqb (billOf (billPrefix now) h) "") with false. cbv iota.
  unfold billOf. rewrite slice_app, suffix4_parse by assumption.
  destruct (Z.leb_spec 0 h); [reflexivity|lia].
Qed.

Lemma findLastSale_later prefix s last s0 :
  findLastSale prefix s = (Ok last, s0) ->
  option_map billNumber last = fold_left later (dayBills prefix s) None.
Proof.
  unfold findLastSale, gets. intros H. injection H as Hl _. rewrite <- Hl.
  apply (findLastSale_bills prefix (sales s) None).
Qed.

Lemma dayBills_after prefix s s' sale n :
  sales s' = (sales s ++ [sale])%list ->
  billNumber sale = billOf prefix n ->
  dayBills prefix s' = (dayBills prefix s ++ [billOf prefix n])%list.
Proof.
  intros Hs Hb. unfold dayBills. rewrite Hs, map_app, filter_app. f_equal.
  cbn [map filter]. rewrite Hb. unfold startsWith, billOf. now rewrite prefix_app.
Qed.

Lemma suffixes_snoc c : forall from,
  suffixes from (S c) = (suffixes from c ++ [from + Z.of_nat c])%list.
Proof.
  induction c as [|c IH]; intros from.
  - cbn. now rewrite Z.add_0_r.
  - change (suffixes from (S (S c))) with (from :: suffixes (from + 1) (S c)).
    rewrite IH.
    replace (from + 1 + Z.of_nat c)%Z with (from + Z.of_nat (S c))%Z by lia.
    reflexivity.
Qed.

Lemma highest_suffixes c : forall from,
  (0 <= from)%Z ->
  highest (suffixes from (S c)) = (from + Z.of_nat c)%Z.
Proof.
  induction c as [|c IH]; intros from Hfrom.
  - cbn. lia.
  - change (highest (suffixes from (S (S c))))
      with (Z.max from (highest (suffixes (from + 1) (S c)))).
    rewrite IH by lia. lia.
Qed.

Lemma suffixes_range (k : nat) :
  (Z.of_nat k <= 9999)%Z -> Forall (fun i => 1 <= i <= 9999)%Z (suffixes 1 k).
Proof.
  intros Hk. apply Forall_forall. intros i Hi. apply suffixes_In in Hi. lia.
Qed.

Lemma later_of_suffixes prefix (n : nat) :
  (Z.of_nat n <= 9998)%Z ->
  fold_left later (map (billOf prefix) (suffixes 1 (S n))) None
  = Some (billOf prefix (1 + Z.of_nat n)).
Proof.
  intros Hn. rewrite later_of_day by (apply suffixes_range; lia).
  rewrite <- (highest_suffixes n 1) by lia. reflexivity.
Qed.

(** A successful sale on a day whose bills so far carry well-formed
    suffixes of four digits. *)
Lemma createSale_next_bill now payload s r s' (l : list Z) :
  dayBills (billPrefix now) s = map (billOf (billPrefix now)) l ->
  Forall (fun i => 1 <= i <= 9999)%Z l ->
  createSale now payload s = (Ok r, s') ->
  r_billNumber r = billOf (billPrefix now) (highest l + 1)
  /\ dayBills (billPrefix now) s'
     = (dayBills (billPrefix now) s ++ [r_billNumber r])%list.
Proof.
  intros Hday Hl H.
  apply createSale_Ok in H.
  destruct H as (last & sale & Hlast & Hbill & _ & Hsale & Hsales).
  apply findLastSale_later in Hlast. rewrite Hday, later_of_day in Hlast by assumption.
  assert (Hseq : nextSeq (billPrefix now) last = (highest l + 1)%Z).
  { destruct l as [|x l].
    - destruct last; [discriminate|reflexivity].
    - destruct last as [x0|]; [|discriminate].
      cbn [option_map] in Hlast. inversion Hlast as [Hx0].
      apply nextSeq_after; [assumption|].
      pose proof (highest_bounds (x :: l) Hl ltac:(discriminate)). lia. }
  rewrite Hseq in Hbill. split; [exact Hbill|].
  rewrite Hbill in *. now apply dayBills_after with (sale := sale).
Qed.

(** Ten thousand bills in a day exhaust the numbering: the search finds
    suffix 9999 again and the insert meets the unique index. *)
Lemma createSale_exhausted now payload s r s' :
  dayBills (billPrefix now) s
    = map (billOf (billPrefix now)) (suffixes 1 (Z.to_nat 10000)) ->
  createSale now payload s = (Ok r, s') -> False.
Proof.
  intros Hday H.
  apply createSale_Ok in H.
  destruct H as (last & sale & Hlast & Hbill & Hfree & _ & _).
  apply findLastSale_later in Hlast.
  assert (Hmax : fold_left later (dayBills (billPrefix now) s) None
                 = Some (billOf (billPrefix now) 9999)).
  { rewrite Hday.
    replace (Z.to_nat 10000) with (S (S (Z.to_nat 9998))) by lia.
    rewrite suffixes_snoc, map_app, fold_left_app.
    rewrite later_of_suffixes by lia.
    replace (1 + Z.of_nat (Z.to_nat 9998))%Z with 9999%Z by lia.
    replace (1 + Z.of_nat (S (Z.to_nat 9998)))%Z with 10000%Z by lia.
    cbn [map fold_left later].
    unfold billOf. rewrite ltb_app, suffix4_overflow. reflexivity. }
  rewrite Hmax in Hlast. destruct last as [x|]; [|discriminate].
  inversion Hlast as [Hx].
  rewrite (nextSeq_after now 9999 x Hx) in Hbill by lia.
  change (9999 + 1)%Z with 10000%Z in Hbill.
  assert (Hin : In (r_billNumber r) (dayBills (billPrefix now) s)).
  { rewrite Hday, Hbill. apply in_map. apply suffixes_In. lia. }
  unfold dayBills in Hin. apply filter_In in Hin. destruct Hin as [Hin _].
  apply in_map_iff in Hin. destruct Hin as (x0 & Hx0 & Hin0).
  assert (Htaken : existsb (fun x => String.eqb (billNumber x) (r_billNumber r)) (sales s)
                   = true).
  { apply existsb_exists. exists x0. split; [exact Hin0|]. now apply String.eqb_eq. }
  congruence.
Qed.

Lemma highest_suffixes_from_1 (k : nat) : highest (suffixes 1 k) = Z.of_nat k.
Proof.
  destruct k as [|c]; [reflexivity|]. rewrite highest_suffixes by lia. lia.
Qed.

Lemma suffix4_form n :
  (1 <= n <= 9999)%Z -> String.length (suffix4 n) = 4%nat.
Proof.
  intros Hn.
  assert (Hall : forallb (fun k => Nat.eqb (String.length (suffix4 k)) 4)
                         (suffixes 1 (Z.to_nat 9999)) = true)
    by (vm_compute; reflexivity).
  rewrite forallb_forall in Hall.
  apply Nat.eqb_eq, Hall. apply suffixes_In. lia.
Qed.

(** Sales handled one after the other on one day number their bills
    consecutively. *)
Lemma createSales_consecutive requests : forall prefix (k : nat) s bills s',
  (Z.of_nat k <= 10000)%Z ->
  dayBills prefix s = map (billOf prefix) (suffixes 1 k) ->
  Forall (fun nr => billPrefix (fst nr) = prefix) requests ->
  createSales requests s = (bills, s') ->
  bills = map (billOf prefix) (suffixes (Z.of_nat k + 1) (List.length bills))
  /\ dayBills prefix s' = map (billOf prefix) (suffixes 1 (k + List.length bills))
  /\ (Z.of_nat (k + List.length bills) <= 10000)%Z.
Proof.
  induction requests as [|[now payload] rest IH];
    intros prefix k s bills s' Hk Hday Hreq Hrun; cbn [createSales] in Hrun.
  - inversion Hrun; subst. cbn [List.length suffixes map].
    rewrite Nat.add_0_r. repeat split; [assumption|lia].
  - inversion Hreq as [|? ? Hnow Hrest]; subst. cbn [fst] in *.
    destruct (createSale now payload s) as [[r|e] s1] eqn:E.
    + destruct (createSales rest s1) as [bills1 s2] eqn:E2.
      inversion Hrun; subst. clear Hrun.
      assert (Hlt : (Z.of_nat k <= 9999)%Z).
      { destruct (Z_le_gt_dec (Z.of_nat k) 9999) as [Hle|Hgt]; [exact Hle|].
        exfalso. apply (createSale_exhausted now payload s r s1); [|exact E].
        rewrite Hday. now replace k with (Z.to_nat 10000) by lia. }
      destruct (createSale_next_bill now payload s r s1 (suffixes 1 k) Hday
                  (suffixes_range k Hlt) E) as [Hbill Hday1].
      rewrite highest_suffixes_from_1 in Hbill.
      rewrite Hday, Hbill in Hday1.
      assert (Hday1' : dayBills (billPrefix now) s1
                       = map (billOf (billPrefix now)) (suffixes 1 (S k))).
      { rewrite Hday1, suffixes_snoc, map_app. cbn [map].
        now replace (1 + Z.of_nat k)%Z with (Z.of_nat k + 1)%Z by lia. }
      destruct (IH (billPrefix now) (S k) s1 bills1 s' ltac:(lia) Hday1' Hrest E2)
        as (Hbills & Hday' & Hbound).
      cbn [List.length suffixes map].
      split; [|split].
      * rewrite Hbill. f_equal. rewrite Hbills at 1.
        now replace (Z.of_nat (S k) + 1)%Z with (Z.of_nat k + 1 + 1)%Z by lia.
      * rewrite Hday'.
        now replace (k + S (List.length bills1))%nat
          with (S k + List.length bills1)%nat by lia.
      * lia.
    + apply allOrNothing_transaction in E. subst s1.
      now apply (IH (billPrefix now) k s bills s').
Qed.

(** C5.  A successful sale on a day whose bills carry four-digit suffixes
    gets [BILL-YYYYMMDD-] followed by one more than the highest of those
    suffixes, padded with zeros to four digits, hence [0001] when the day
    has no bill yet; sales handled one after the other on one day get the
    consecutive suffixes that follow the [k] bills already issued, without
    a gap, and never more than 10000 in all. *)
Theorem bill_numbers_follow_the_day_sequence :
  (forall now payload s r s' (l : list Z),
      dayBills (billPrefix now) s = map (billOf (billPrefix now)) l ->
      Forall (fun i => 1 <= i <= 9999)%Z l ->
      createSale now payload s = (Ok r, s') ->
      r_billNumber r = billOf (billPrefix now) (highest l + 1)
      /\ dayBills (billPrefix now) s'
         = (dayBills (billPrefix now) s ++ [r_billNumber r])%list)
  /\ (forall now n,
      billOf (billPrefix now) n
      = "BILL-" ++ ofN (fullYear now) ++ padStart 2 "0" (ofN (month now + 1))
          ++ padStart 2 "0" (ofN (date now)) ++ "-" ++ padStart 4 "0" (ofZ n))
  /\ (forall n, (1 <= n <= 9999)%Z ->
      String.length (suffix4 n) = 4%nat /\ parseInt (suffix4 n) = Some n)
  /\ suffix4 1 = "0001"
  /\ (forall requests prefix (k : nat) s bills s',
      (Z.of_nat k <= 10000)%Z ->
      dayBills prefix s = map (billOf prefix) (suffixes 1 k) ->
      Forall (fun nr => billPrefix (fst nr) = prefix) requests ->
      createSales requests s = (bills, s') ->
      bills = map (billOf prefix) (suffixes (Z.of_nat k + 1) (List.length bills))
      /\ dayBills prefix s' = map (billOf prefix) (suffixes 1 (k + List.length bills))
      /\ (Z.of_nat (k + List.length bills) <= 10000)%Z).
Proof.
  split; [|split; [|split; [|split]]].
  - intros now payload s r s' l. apply createSale_next_bill.
  - intros now n. unfold billOf, billPrefix, suffix4. cbv zeta.
    now rewrite !append_assoc.
  - intros n Hn. split; [now apply suffix4_form | apply suffix4_parse; lia].
  - reflexivity.
  - intros requests. apply createSales_consecutive.
Qed.

Lemma bill_numbers_follow_the_day_sequence_witness :
  dayBills (billPrefix today) store0 = map (billOf (billPrefix today)) []
  /\ fst (createSales [(today, plainSale); (today, oversizedSale); (today, plainSale)] store0)
     = ["BILL-20260205-0001"; "BILL-20260205-0002"].
Proof.
  assert (Hday : dayBills (billPrefix today) store0 = map (billOf (billPrefix today)) [])
    by reflexivity.
  split; [exact Hday|].
  destruct bill_numbers_follow_the_day_sequence as (_ & _ & _ & _ & Hseq).
  destruct (createSales [(today, plainSale); (today, oversizedSale); (today, plainSale)]
              store0) as [bills s'] eqn:E.
  assert (Hlen : List.length bills = 2%nat).
  { replace bills with (fst (createSales [(today, plainSale); (today, oversizedSale);
                                          (today, plainSale)] store0))
      by now rewrite E.
    vm_compute. reflexivity. }
  assert (Hreq : Forall (fun nr => billPrefix (fst nr) = billPrefix today)
                   [(today, plainSale); (today, oversizedSale); (today, plainSale)])
    by (repeat constructor).
  assert (Hk : (Z.of_nat 0 <= 10000)%Z) by (cbn; lia).
  destruct (Hseq _ (billPrefix today) 0%nat store0 bills s' Hk Hday Hreq E)
    as (Hbills & _).
  cbn [fst]. rewrite Hbills, Hlen. reflexivity.
Defined.

End BillNumberClaims.

(* ================================================================== *)
(** * Further properties *)

(** ** Numbers written and read back *)

Section DecimalRoundTrip.
Import JsString Db SaleService.
Local Open Scope string_scope.

Lemma parseDigits_cons c r acc :
  parseDigits (String c r) acc
  = match digitValue c with
    | Some d => parseDigits r (Some (10 * match acc with Some a => a | None => 0 end + d)%N)
    | None => acc
    end.
Proof. reflexivity. Qed.

(** Read the digit at the head of the string being parsed. *)
Ltac read_digit :=
  match goal with
  | |- context [parseDigits (String ?c ?r) ?acc] =>
      let v := eval vm_compute in (digitValue c) in
      rewrite (parseDigits_cons c r acc); change (digitValue c) with v; cbv iota
  end.

Lemma parseDigits_acc (l : Decimal.uint) : forall p : positive,
  parseDigits (NilEmpty.string_of_uint l) (Some (Npos p))
  = Some (Npos (Pos.of_uint_acc l p)).
Proof.
  induction l; intros p; cbn [NilEmpty.string_of_uint Pos.of_uint_acc];
    try reflexivity;
    read_digit; rewrite <- IHl; do 2 f_equal; lia.
Qed.

Lemma parseDigits_zero (l : Decimal.uint) :
  parseDigits (NilEmpty.string_of_uint l) (Some 0%N) = Some (Pos.of_uint l).
Proof.
  induction l; cbn [NilEmpty.string_of_uint Pos.of_uint];
    try reflexivity; read_digit;
    try exact IHl;
    rewrite <- parseDigits_acc; reflexivity.
Qed.

Lemma parseDigits_none (l : Decimal.uint) :
  l <> Decimal.Nil ->
  parseDigits (NilEmpty.string_of_uint l) None = Some (Pos.of_uint l).
Proof.
  intros Hl. rewrite <- parseDigits_zero.
  destruct l; try (now elim Hl); cbn [NilEmpty.string_of_uint];
    rewrite !parseDigits_cons; reflexivity.
Qed.

Lemma to_uint_nonnil (n : N) : N.to_uint n <> Decimal.Nil.
Proof.
  destruct n as [|p]; cbn; [discriminate|apply DecimalPos.Unsigned.to_uint_nonnil].
Qed.

Lemma parseDigits_ofN (n : N) (acc : option N) :
  acc = None \/ acc = Some 0%N ->
  parseDigits (ofN n) acc = Some n.
Proof.
  unfold ofN. rewrite <- (DecimalN.Unsigned.of_to n) at 2.
  intros [->| ->]; [apply parseDigits_none, to_uint_nonnil|apply parseDigits_zero].
Qed.

Lemma parseDigits_zeros (k : nat) (s : string) (acc : option N) :
  acc = None \/ acc = Some 0%N ->
  exists acc',
    (acc' = None \/ acc' = Some 0%N)
    /\ parseDigits (string_of_list_ascii (repeat "0"%char k) ++ s) acc
       = parseDigits s acc'.
Proof.
  revert acc. induction k as [|k IH]; intros acc Hacc; cbn [repeat string_of_list_ascii append].
  - now exists acc.
  - rewrite parseDigits_cons. change (digitValue "0") with (Some 0%N). cbv iota.
    apply IH. right. destruct Hacc as [->| ->]; reflexivity.
Qed.

(** A string that begins with a digit is read without sign or trimming. *)
Lemma parseInt_unsigned c r :
  digitValue c <> None ->
  parseInt (String c r) = option_map Z.of_N (parseDigits (String c r) None).
Proof.
  intros Hc. unfold parseInt.
  assert (Hw : isWhiteSpace c = false /\ c <> "-"%char /\ c <> "+"%char).
  { destruct c as [[] [] [] [] [] [] [] []];
      try (now elim Hc); repeat split; discriminate. }
  destruct Hw as (Hw & Hminus & Hplus).
  cbn [trimStart]. rewrite Hw.
  destruct c as [[] [] [] [] [] [] [] []]; try reflexivity;
    try (now elim Hminus); now elim Hplus.
Qed.

Lemma ofN_head (n : N) :
  exists c r, ofN n = String c r /\ digitValue c <> None.
Proof.
  unfold ofN. pose proof (to_uint_nonnil n) as Hl.
  destruct (N.to_uint n); try (now elim Hl); cbn [NilEmpty.string_of_uint];
    do 2 eexists; (split; [reflexivity|discriminate]).
Qed.

Lemma padStart_head (len : nat) (n : N) :
  exists c r, padStart len "0" (ofN n) = String c r /\ digitValue c <> None.
Proof.
  unfold padStart. destruct (len - String.length (ofN n))%nat as [|k].
  - cbn [repeat string_of_list_ascii append]. apply ofN_head.
  - cbn [repeat string_of_list_ascii append]. do 2 eexists. split; [reflexivity|discriminate].
Qed.

Lemma parseInt_padStart (len : nat) (n : N) :
  parseInt (padStart len "0" (ofN n)) = Some (Z.of_N n).
Proof.
  destruct (padStart_head len n) as (c & r & Heq & Hc).
  rewrite Heq, parseInt_unsigned by assumption. rewrite <- Heq.
  unfold padStart.
  destruct (parseDigits_zeros (len - String.length (ofN n)) (ofN n) None (or_introl eq_refl))
    as (acc' & Hacc' & ->).
  now rewrite parseDigits_ofN.
Qed.

Lemma parseInt_ofZ (z : Z) : parseInt (ofZ z) = Some z.
Proof.
  unfold ofZ. destruct (Z.ltb_spec z 0) as [Hneg|Hpos].
  - unfold parseInt. cbn [append trimStart].
    change (isWhiteSpace "-") with false. cbv iota.
    rewrite parseDigits_ofN by now left. cbn [option_map]. f_equal. lia.
  - change (ofN (Z.to_N z)) with (string_of_list_ascii (repeat "0"%char 0) ++ ofN (Z.to_N z)).
    replace 0%nat with (0 - String.length (ofN (Z.to_N z)))%nat at 1 by reflexivity.
    fold (padStart 0 "0" (ofN (Z.to_N z))).
    rewrite parseInt_padStart. f_equal. lia.
Qed.

End DecimalRoundTrip.

Section BillNumberRoundTrip.
Import JsString Db SaleService.
Local Open Scope string_scope.

(** X1. The sequence number the sale service reads from the last bill of
    the day is the number that bill was written with, plus one, for every
    number from 0 up to [2 ^ 53 - 2] and however many digits the bill's
    suffix has: writing [String(seq).padStart(4, '0')] after the prefix
    and reading it back with [slice] and [parseInt] loses nothing.  Up to
    [2 ^ 53] the numbers of the engine are the integers, and [String]
    writes them with all their digits. *)
Theorem bill_suffix_is_read_back (prefix : string) (n : Z) (last : Sale) :
  (0 <= n < 2 ^ 53 - 1)%Z ->
  billNumber last = billOf prefix n ->
  nextSeq prefix (Some last) = (n + 1)%Z
  /\ (nextSeq prefix (Some last) < 2 ^ 53)%Z.
Proof.
  intros [Hn Hmax] Hbill. unfold nextSeq. rewrite Hbill.
  assert (Hsuffix : suffix4 n = padStart 4 "0" (ofN (Z.to_N n))).
  { unfold suffix4, ofZ. destruct (Z.ltb_spec n 0); [lia|reflexivity]. }
  unfold billOf. rewrite Hsuffix.
  destruct (padStart_head 4 (Z.to_N n)) as (c & r & Heq & _).
  assert (Hne : String.eqb (prefix ++ padStart 4 "0" (ofN (Z.to_N n))) "" = false).
  { rewrite Heq. destruct prefix; reflexivity. }
  rewrite Hne, slice_app, parseInt_padStart, Z2N.id by assumption.
  destruct (Z.leb_spec 0 n); [split; [reflexivity|lia]|lia].
Qed.

Lemma bill_suffix_is_read_back_witness :
  nextSeq "BILL-20240315-"
    (Some (mkSale "sale-7" "BILL-20240315-12345" 10%Q 0%Z)) = 12346%Z.
Proof.
  apply (bill_suffix_is_read_back "BILL-20240315-" 12345); [lia|reflexivity].
Defined.

End BillNumberRoundTrip.

(** ** The records of a sale *)

Section SaleSteps.
Import Js JsString Db SaleService Ledger.
Local Open Scope string_scope.

(** The steps of a sale that returns. *)
Lemma createSale_steps now payload s r s' :
  createSale now payload s = (Ok r, s') ->
  exists v bill sale s1 s2 s3,
    validateAndCompute (items payload) (payments payload) s = (Ok v, s)
    /\ sale_create bill (v_totalAmount v) (time now) s = (Ok sale, s1)
    /\ forEach (saleItem_create (sale_id sale)) (lineTotals v) s1 = (Ok tt, s2)
    /\ forEach (fun row => product_decrement (product_id (lt_product row))
                                             (toInt (lt_quantity row)))
               (lineTotals v) s2 = (Ok tt, s3)
    /\ forEach (payment_create (sale_id sale)) (normalizedPayments v) s3 = (Ok tt, s')
    /\ r = mkSaleResult (sale_id sale) (billNumber sale) (v_totalAmount v) (soldAt sale).
Proof.
  intros H. apply transaction_Ok in H. unfold createSale_body in H.
  apply bind_Ok in H. destruct H as (v & s0 & Hv & H).
  pose proof (readOnly_run _ _ _ _ (readOnly_validateAndCompute _ _) Hv); subst s0.
  apply bind_Ok in H. destruct H as (last & s0 & Hlast & H).
  pose proof (readOnly_run _ _ _ _ (readOnly_gets _) Hlast); subst s0.
  apply bind_Ok in H. destruct H as (sale & s1 & Hsale & H).
  apply bind_Ok in H. destruct H as ([] & s2 & H1 & H).
  apply bind_Ok in H. destruct H as ([] & s3 & H2 & H).
  apply bind_Ok in H. destruct H as ([] & s4 & H3 & H).
  apply ret_Ok in H. destruct H as [-> ->].
  eexists v, _, sale, s1, s2, s3. repeat split; eassumption.
Qed.

Lemma sale_create_row bill total t s sale s1 :
  sale_create bill total t s = (Ok sale, s1) ->
  billNumber sale = bill /\ totalAmount sale = total /\ soldAt sale = t
  /\ sales s1 = (sales s ++ [sale])%list
  /\ saleItems s1 = saleItems s /\ Db.payments s1 = Db.payments s
  /\ products s1 = products s.
Proof.
  unfold sale_create. intros H. tx_ok H.
  apply ret_Ok in H. destruct H as [-> ->]. cbn. repeat split.
Qed.

Lemma forEach_saleItem_create_rows sid rows : forall s u s',
  forEach (saleItem_create sid) rows s = (Ok u, s') ->
  exists new,
    saleItems s' = (saleItems s ++ new)%list
    /\ Forall2 (writtenFor sid) rows new
    /\ products s' = products s /\ Db.payments s' = Db.payments s.
Proof.
  induction rows as [|r rows IH]; intros s u s' H; cbn [forEach] in H.
  - apply ret_Ok in H. destruct H as [_ ->].
    exists []. repeat split; [now rewrite app_nil_r | constructor].
  - apply bind_Ok in H. destruct H as (u1 & s1 & Hone & Hrest).
    unfold saleItem_create in Hone. tx_ok Hone. apply modify_Ok in Hone. subst s1.
    apply IH in Hrest. destruct Hrest as (new & Hnew & Hall & Hp & Hpay).
    eexists (_ :: new). split; [|split; [|split]].
    + rewrite Hnew. cbn [saleItems set_saleItems]. rewrite <- app_assoc. reflexivity.
    + constructor; [|exact Hall]. repeat split.
    + rewrite Hp. reflexivity.
    + rewrite Hpay. reflexivity.
Qed.

Lemma unitsOf_writtenFor sid id rows new :
  Forall2 (writtenFor sid) rows new -> unitsOf id new = soldOf id rows.
Proof.
  induction 1 as [|row i rows new (_ & Hp & Hq & _) _ IH]; [reflexivity|].
  cbn [unitsOf soldOf fold_right]. fold (unitsOf id new). fold (soldOf id rows).
  now rewrite Hp, Hq, IH.
Qed.

Lemma keeps_payments_product_decrement id q : keeps Db.payments (product_decrement id q).
Proof. unfold product_decrement. keeps_solve. Qed.

(** The items that a sale writes, and the stock it leaves. *)
Lemma createSale_items now payload s r s' :
  createSale now payload s = (Ok r, s') ->
  exists v new,
    validateAndCompute (items payload) (payments payload) s = (Ok v, s)
    /\ r_totalAmount r = v_totalAmount v
    /\ saleItems s' = (saleItems s ++ new)%list
    /\ Forall2 (writtenFor (r_saleId r)) (lineTotals v) new
    /\ products s'
       = map (fun p => setStock p (quantityInStock p - unitsOf (product_id p) new))
             (products s).
Proof.
  intros H. apply createSale_steps in H.
  destruct H as (v & bill & sale & s1 & s2 & s3 & Hv & Hsale & H1 & H2 & H3 & ->).
  apply sale_create_row in Hsale.
  destruct Hsale as (_ & _ & _ & _ & Hi1 & _ & Hp1).
  pose proof (keeps_forEach saleItems _ _
                (fun row => keeps_saleItems_product_decrement _ _) _ _ _ H2) as Hi3.
  pose proof (keeps_forEach saleItems _ _ (keeps_saleItems_payment_create _) _ _ _ H3) as Hi4.
  pose proof (keeps_forEach products _ _ (keeps_products_payment_create _) _ _ _ H3) as Hp4.
  apply forEach_saleItem_create_rows in H1. destruct H1 as (new & Hi2 & Hall & Hp2 & _).
  apply forEach_product_decrement_Ok in H2.
  exists v, new. cbn [r_saleId r_totalAmount].
  split; [exact Hv|]. split; [reflexivity|].
  split; [now rewrite Hi4, Hi3, Hi2, Hi1|]. split; [exact Hall|].
  rewrite Hp4, H2, Hp2, Hp1. apply map_ext. intros p.
  now rewrite (unitsOf_writtenFor _ _ _ _ Hall).
Qed.

End SaleSteps.

(** ** The records of a sale, as the engine and the database hold them *)

Section MachineSaleRun.
Import Js JsString Db SaleService Ledger.
Local Open Scope string_scope.

Lemma machine_itemBody_Ok f lts total it s lts' total' s' :
  MachineSale.itemBody f (lts, total) it s = (Ok (lts', total'), s') ->
  exists r, MachineSale.lineOf f it r /\ lts' = (lts ++ [r])%list /\ s' = s.
Proof.
  unfold MachineSale.itemBody.
  destruct (f (it_sku it)) as [row|] eqn:Erow; [|discriminate].
  intros H. tx_ok H.
  match goal with
  | Hl : lift _ _ = (Ok _, ?s0) |- _ =>
      unfold lift in Hl; injection Hl as Hcheck Hs0; subst s0
  end.
  apply ret_Ok in H. destruct H as [Hacc ->]. injection Hacc as -> ->.
  repeat match goal with
  | Hb : _ || _ = false |- _ => apply orb_false_iff in Hb; destruct Hb as [? ?]
  | Hb : negb _ = false |- _ => apply negb_false_iff in Hb
  | Hb : Qltb _ _ = false |- _ => apply Qltb_ge in Hb
  end.
  eexists. split; [|split; reflexivity].
  unfold MachineSale.lineOf. exists row, a, a0. repeat split; assumption.
Qed.

Lemma machine_foldM_itemBody_Ok f items : forall lts total s lts' total' s',
  foldM (MachineSale.itemBody f) items (lts, total) s = (Ok (lts', total'), s') ->
  exists rows,
    Forall2 (MachineSale.lineOf f) items rows /\ lts' = (lts ++ rows)%list /\ s' = s.
Proof.
  induction items as [|it items IH]; intros lts total s lts' total' s' H;
    cbn [foldM] in H.
  - apply ret_Ok in H. destruct H as [Hacc ->]. injection Hacc as -> ->.
    exists []. repeat split; [constructor | now rewrite app_nil_r].
  - apply bind_Ok in H. destruct H as ([lts1 total1] & s1 & Hone & Hrest).
    apply machine_itemBody_Ok in Hone. destruct Hone as (r & Hr & -> & ->).
    apply IH in Hrest. destruct Hrest as (rows & Hrows & -> & ->).
    exists (r :: rows). repeat split.
    + now constructor.
    + now rewrite <- app_assoc.
Qed.

Lemma machine_foldM_paymentBody_Ok ps : forall total nps s total' nps' s',
  foldM MachineSale.paymentBody ps (total, nps) s = (Ok (total', nps'), s') ->
  exists new, nps' = (nps ++ new)%list /\ Forall2 normalizedFrom ps new /\ s' = s.
Proof.
  induction ps as [|p ps IH]; intros total nps s total' nps' s' H; cbn [foldM] in H.
  - apply ret_Ok in H. destruct H as [Hacc ->]. injection Hacc as -> ->.
    exists []. repeat split; [now rewrite app_nil_r | constructor].
  - apply bind_Ok in H. destruct H as ([total1 nps1] & s1 & Hone & Hrest).
    unfold MachineSale.paymentBody in Hone.
    destruct (p_mode p) as [m|] eqn:Em; [|discriminate].
    tx_ok Hone. apply ret_Ok in Hone. destruct Hone as [Hacc ->].
    injection Hacc as -> ->.
    apply IH in Hrest. destruct Hrest as (new & -> & Hall & ->).
    eexists (_ :: new). split; [now rewrite <- app_assoc|]. split; [|reflexivity].
    constructor; [|exact Hall].
    unfold normalizedFrom. cbn [np_mode np_provider np_amount].
    split; [|split; [reflexivity|split; [assumption|]]].
    + exists m. split; [exact Em|]. split; [|reflexivity].
      intros ->. discriminate.
    + match goal with Hb : Qltb _ 0 = false |- _ => now apply Qltb_ge in Hb end.
Qed.

(** What a validated sale was computed from. *)
Lemma machine_validateAndCompute_Ok items payments s v s' :
  MachineSale.validateAndCompute items payments s = (Ok v, s') ->
  exists its ps rows,
    items = Some its /\ payments = Some ps
    /\ findProductsBySku
         (uniq (filter (fun k => negb (String.eqb k "")) (map it_sku its))) s
       = (Ok rows, s)
    /\ Forall2 (MachineSale.lineOf (fromEntries rows)) its (MachineSale.lineTotals v)
    /\ Forall2 normalizedFrom ps (MachineSale.normalizedPayments v)
    /\ s' = s.
Proof.
  unfold MachineSale.validateAndCompute.
  destruct items as [[|it its]|]; try discriminate;
    destruct payments as [[|p ps]|]; try discriminate.
  intros H.
  apply bind_Ok in H. destruct H as (rows & s1 & Hrows & H).
  pose proof (readOnly_run _ _ _ _ (readOnly_gets _) Hrows); subst s1.
  apply bind_Ok in H. destruct H as (u & s1 & Hskus & H).
  assert (s1 = s); [|subst s1].
  { eapply readOnly_run; [|exact Hskus]. apply readOnly_forEach. intros x.
    apply readOnly_bind; [auto with tx|intros _].
    destruct (fromEntries rows (it_sku x)); auto with tx. }
  apply bind_Ok in H. destruct H as ([lts total] & s1 & Hitems & H).
  apply machine_foldM_itemBody_Ok in Hitems. destruct Hitems as (lines & Hlines & -> & ->).
  apply bind_Ok in H. destruct H as ([paid nps] & s1 & Hpays & H).
  apply machine_foldM_paymentBody_Ok in Hpays. destruct Hpays as (new & -> & Hnew & ->).
  apply bind_Ok in H. destruct H as (u' & s1 & Htol & H).
  apply throwIf_Ok in Htol. destruct Htol as [_ ->].
  apply ret_Ok in H. destruct H as [-> ->].
  exists (it :: its), (p :: ps), rows.
  cbn [MachineSale.lineTotals MachineSale.normalizedPayments fst snd app].
  repeat split; assumption.
Qed.

Lemma machine_sale_create_row driver bill total t s sale s1 :
  MachineSale.sale_create driver bill total t s = (Ok sale, s1) ->
  saleItems s1 = saleItems s /\ Db.payments s1 = Db.payments s
  /\ products s1 = products s.
Proof.
  unfold MachineSale.sale_create. intros H.
  apply bind_Ok in H. destruct H as (kept & s0 & Hkept & H).
  apply stored_Ok in Hkept. destruct Hkept as [_ ->].
  apply sale_create_row in H. tauto.
Qed.

Lemma machine_forEach_saleItem_create_rows driver sid rows : forall s u s',
  forEach (MachineSale.saleItem_create driver sid) rows s = (Ok u, s') ->
  exists new,
    saleItems s' = (saleItems s ++ new)%list
    /\ Forall2 (MachineSale.writtenFor driver sid) rows new
    /\ Db.payments s' = Db.payments s.
Proof.
  induction rows as [|r rows IH]; intros s u s' H; cbn [forEach] in H.
  - apply ret_Ok in H. destruct H as [_ ->].
    exists []. repeat split; [now rewrite app_nil_r | constructor].
  - apply bind_Ok in H. destruct H as (u1 & s1 & Hone & Hrest).
    unfold MachineSale.saleItem_create in Hone.
    apply bind_Ok in Hone. destruct Hone as (price & s0 & Hprice & Hone).
    apply stored_Ok in Hprice. destruct Hprice as [Hprice ->].
    apply bind_Ok in Hone. destruct Hone as (total & s0 & Htotal & Hone).
    apply stored_Ok in Htotal. destruct Htotal as [Htotal ->].
    unfold saleItem_create in Hone. tx_ok Hone. apply modify_Ok in Hone. subst s1.
    apply IH in Hrest. destruct Hrest as (new & Hnew & Hall & Hpay).
    eexists (_ :: new). split; [|split].
    + rewrite Hnew. cbn [saleItems set_saleItems]. rewrite <- app_assoc. reflexivity.
    + constructor; [|exact Hall]. repeat split; assumption.
    + rewrite Hpay. reflexivity.
Qed.

Lemma machine_forEach_payment_create_rows driver sid ps : forall s u s',
  forEach (MachineSale.payment_create driver sid) ps s = (Ok u, s') ->
  exists new,
    Db.payments s' = (Db.payments s ++ new)%list
    /\ Forall2 (MachineSale.paidWith driver sid) ps new
    /\ saleItems s' = saleItems s.
Proof.
  induction ps as [|p ps IH]; intros s u s' H; cbn [forEach] in H.
  - apply ret_Ok in H. destruct H as [_ ->].
    exists []. repeat split; [now rewrite app_nil_r | constructor].
  - apply bind_Ok in H. destruct H as (u1 & s1 & Hone & Hrest).
    unfold MachineSale.payment_create in Hone.
    apply bind_Ok in Hone. destruct Hone as (kept & s0 & Hkept & Hone).
    apply stored_Ok in Hkept. destruct Hkept as [Hkept ->].
    unfold payment_create in Hone. tx_ok Hone. apply modify_Ok in Hone. subst s1.
    apply IH in Hrest. destruct Hrest as (new & Hnew & Hall & Hitems).
    eexists (_ :: new). split; [|split].
    + rewrite Hnew. cbn [Db.payments set_payments]. rewrite <- app_assoc. reflexivity.
    + constructor; [|exact Hall]. repeat split; assumption.
    + rewrite Hitems. reflexivity.
Qed.

(** The rows of a sale that returns. *)
Lemma machine_createSale_rows driver now payload s r s' :
  MachineSale.createSale driver now payload s = (Ok r, s') ->
  exists its ps rows lines kept items_ payments_,
    items payload = Some its /\ SaleService.payments payload = Some ps
    /\ findProductsBySku
         (uniq (filter (fun k => negb (String.eqb k "")) (map it_sku its))) s
       = (Ok rows, s)
    /\ Forall2 (MachineSale.lineOf (fromEntries rows)) its lines
    /\ Forall2 normalizedFrom ps kept
    /\ saleItems s' = (saleItems s ++ items_)%list
    /\ Forall2 (MachineSale.writtenFor driver (MachineSale.r_saleId r)) lines items_
    /\ Db.payments s' = (Db.payments s ++ payments_)%list
    /\ Forall2 (MachineSale.paidWith driver (MachineSale.r_saleId r)) kept payments_.
Proof.
  intros H. apply transaction_Ok in H. unfold MachineSale.createSale_body in H.
  apply bind_Ok in H. destruct H as (v & s0 & Hv & H).
  apply machine_validateAndCompute_Ok in Hv.
  destruct Hv as (its & ps & rows & Hits & Hps & Hrows & Hlines & Hkept & ->).
  apply bind_Ok in H. destruct H as (last & s0 & Hlast & H).
  pose proof (readOnly_run _ _ _ _ (readOnly_gets _) Hlast); subst s0.
  apply bind_Ok in H. destruct H as (sale & s1 & Hsale & H).
  apply machine_sale_create_row in Hsale. destruct Hsale as (Hi1 & Hp1 & _).
  apply bind_Ok in H. destruct H as ([] & s2 & H1 & H).
  apply machine_forEach_saleItem_create_rows in H1.
  destruct H1 as (items_ & Hi2 & Hwritten & Hp2).
  apply bind_Ok in H. destruct H as ([] & s3 & H2 & H).
  pose proof (keeps_forEach saleItems _ _
                (fun row => keeps_saleItems_product_decrement _ _) _ _ _ H2) as Hi3.
  pose proof (keeps_forEach Db.payments _ _
                (fun row => keeps_payments_product_decrement _ _) _ _ _ H2) as Hp3.
  apply bind_Ok in H. destruct H as ([] & s4 & H3 & H).
  apply machine_forEach_payment_create_rows in H3.
  destruct H3 as (payments_ & Hp4 & Hpaid & Hi4).
  apply ret_Ok in H. destruct H as [-> ->].
  exists its, ps, rows, (MachineSale.lineTotals v), (MachineSale.normalizedPayments v),
    items_, payments_.
  cbn [MachineSale.r_saleId].
  repeat split; try assumption.
  - now rewrite Hi4, Hi3, Hi2, Hi1.
  - now rewrite Hp4, Hp3, Hp2, Hp1.
Qed.

(** The line total that is stored: an amount of cents within a cent of
    the quantity times the price. *)
Lemma lineTotal_close driver q p kept :
  (0 <= q)%Q -> (0 <= p)%Q ->
  Machine.decimal12_2 driver
    (Binary64.round2 (Binary64.Finite q * Binary64.Finite p)%double) = Some kept ->
  isCents kept /\ (Qabs (kept - q * p) <= 1 # 100)%Q.
Proof.
  intros Hq Hp Hkept.
  destruct (decimal12_2_Finite _ _ _ Hkept) as [d Hd].
  destruct (round2_Finite _ _ Hd) as (y & Hy & Hn).
  rewrite Hd in Hkept.
  pose proof (decimal12_2_cents _ _ _ _ Hn Hkept) as Hcents.
  destruct (decimal12_2_close _ _ _ Hkept) as (_ & Hgrid & _ & Hfits).
  split; [exact Hgrid|].
  apply mul_Finite in Hy. destruct Hy as (m & hundred & Hm & Hh & Hy).
  assert (hundred = 100%Q) by (now injection Hh). subst hundred. clear Hh.
  cbn [Binary64.mul] in Hm.
  assert (Hm' : Binary64.nearest (q * p) = Binary64.Finite m) by exact Hm. clear Hm.
  assert (Hqp : (0 <= q * p)%Q) by (apply Qmult_le_0_compat; assumption).
  destruct (nearest_within _ _ Hqp Hm') as (Hm0 & Hmlo & Hmhi).
  assert (Hm100 : (0 <= m * 100)%Q) by lra.
  destruct (nearest_within _ _ Hm100 Hy) as (_ & Hylo & Hyhi).
  destruct (MathRound_bounds y) as [Hrlo Hrhi].
  rewrite Hcents in Hfits |- *. apply Qabs_Qle_condition in Hfits.
  unfold Binary64.halfUlp in *. unfold Qdiv in *. change (/ 100)%Q with (1 # 100)%Q in *.
  set (x := (q * p)%Q) in *. set (k := inject_Z (MathRound y)) in *.
  apply Qabs_Qle_condition. split; lra.
Qed.

End MachineSaleRun.

Section SaleLedger.
Import Js JsString Db SaleService Ledger Examples.
Local Open Scope string_scope.

Lemma plainSale_returns :
  exists r, createSale today plainSale store0
            = (Ok r, snd (createSale today plainSale store0)).
Proof. vm_compute. eexists; reflexivity. Qed.

Lemma Forall2_compose {A B C} (R : A -> B -> Prop) (S : B -> C -> Prop) xs ys zs :
  Forall2 R xs ys -> Forall2 S ys zs ->
  Forall2 (fun x z => exists y, R x y /\ S y z) xs zs.
Proof.
  intros H. revert zs. induction H as [|x y xs ys Hxy _ IH]; intros zs Hz.
  - inversion Hz. constructor.
  - inversion Hz as [|? z ? zs' Hyz Hrest]; subst. constructor; eauto.
Qed.

(** X2. The stock and the sale items move together: a sale that returns
    appends its sale items, all under the id it returns, and takes from
    every product exactly the units that those new items record for it;
    a product that no new item names keeps its stock. *)
Theorem sale_stock_follows_recorded_items now payload s r s' :
  createSale now payload s = (Ok r, s') ->
  exists new,
    saleItems s' = (saleItems s ++ new)%list
    /\ Forall (fun i => saleId i = r_saleId r) new
    /\ products s'
       = map (fun p => setStock p (quantityInStock p - unitsOf (product_id p) new))
             (products s).
Proof.
  intros H. apply createSale_items in H.
  destruct H as (v & new & _ & _ & Hnew & Hall & Hprods).
  exists new. split; [exact Hnew|]. split; [|exact Hprods].
  clear Hnew Hprods. induction Hall as [|row i rows new Hrow _ IH]; constructor.
  - now destruct Hrow.
  - exact IH.
Qed.

Lemma sale_stock_follows_recorded_items_witness :
  exists r new,
    createSale today plainSale store0 = (Ok r, snd (createSale today plainSale store0))
    /\ saleItems (snd (createSale today plainSale store0)) = (saleItems store0 ++ new)%list
    /\ products (snd (createSale today plainSale store0))
       = map (fun p => setStock p (quantityInStock p - unitsOf (product_id p) new))
             (products store0).
Proof.
  destruct plainSale_returns as [r E].
  destruct (sale_stock_follows_recorded_items _ _ _ _ _ E) as (new & Hnew & _ & Hprods).
  exists r, new. split; [exact E|]. split; [exact Hnew|exact Hprods].
Defined.

(** X3. A sale that returns writes one sale item per request item, in
    request order.  The item names a product of the store that carries
    the requested SKU, and holds the requested quantity, a whole number
    of at least one unit that was within the stock of that product when
    the sale began.  With the amounts as the engine computes them and as
    the columns keep them, its unit price and its line total are amounts
    of cents, the unit price within a cent of the requested price, which
    is not negative, and the line total within a cent of the quantity
    times that price. *)
Theorem sale_records_one_item_per_request_item driver now payload s r s' :
  MachineSale.createSale driver now payload s = (Ok r, s') ->
  exists its new,
    items payload = Some its
    /\ saleItems s' = (saleItems s ++ new)%list
    /\ Forall2 (fun it i =>
         exists (p : Product) (q price : Q),
           In p (products s) /\ sku p = it_sku it /\ productId i = product_id p
           /\ it_quantity it = Fin q /\ it_sellingPrice it = Fin price
           /\ (inject_Z (saleItem_quantity i) == q)%Q
           /\ 1 <= saleItem_quantity i <= quantityInStock p
           /\ (0 <= price)%Q
           /\ isCents (unitPrice i)
           /\ (Qabs (unitPrice i - price) <= 1 # 100)%Q
           /\ isCents (lineTotal i)
           /\ (Qabs (lineTotal i - q * price) <= 1 # 100)%Q
           /\ saleId i = MachineSale.r_saleId r) its new.
Proof.
  intros H. apply machine_createSale_rows in H.
  destruct H as (its & ps & rows & lines & kept & new & pays
                 & Hits & _ & Hrows & Hlines & _ & Hnew & Hall & _).
  exists its, new. split; [exact Hits|]. split; [exact Hnew|].
  pose proof (Forall2_compose _ _ _ _ _ Hlines Hall) as Hboth.
  eapply Forall2_impl; [|exact Hboth].
  intros it i (row & Hline & Hsid & Hpid & Hqty & Hprice & Htotal).
  destruct Hline as (prow & q & price & Hfound & Hq & Hint & Hq1 & Hp & Hp0 & Hstock & ->).
  apply fromEntries_Some in Hfound. destruct Hfound as [Hsku Hin].
  cbn [MachineSale.lt_product MachineSale.lt_quantity MachineSale.lt_unitPrice
       MachineSale.lt_lineTotal] in *.
  destruct (decimal12_2_close _ _ _ Hprice) as (Hnear & Hgrid & _).
  assert (Hq0 : (0 <= q)%Q) by lra.
  destruct (lineTotal_close _ _ _ _ Hq0 Hp0 Htotal) as [Hlgrid Hlnear].
  exists (product prow), q, price.
  split; [eapply findProductsBySku_In; eassumption|].
  repeat split; try assumption.
  - rewrite Hqty. now apply isIntegerQ_floor.
  - rewrite Hqty. now apply toInt_pos.
  - rewrite Hqty. now apply toInt_le.
Qed.

Lemma sale_records_one_item_per_request_item_witness :
  exists r s' new,
    MachineSale.createSale Machine.exactDriver today plainSale store0 = (Ok r, s')
    /\ saleItems s' = (saleItems store0 ++ new)%list
    /\ List.length new = 1%nat.
Proof.
  destruct (MachineSale.createSale Machine.exactDriver today plainSale store0)
    as [o s'] eqn:E.
  assert (Ho : exists r, o = Ok r).
  { replace o with (fst (MachineSale.createSale Machine.exactDriver today
                           plainSale store0)) by now rewrite E.
    vm_compute. eexists; reflexivity. }
  destruct Ho as [r ->].
  destruct (sale_records_one_item_per_request_item _ _ _ _ _ _ E)
    as (its & new & Hits & Hnew & Hall).
  exists r, s', new. split; [reflexivity|]. split; [exact Hnew|].
  cbn in Hits. injection Hits as <-.
  apply Forall2_length in Hall. now rewrite <- Hall.
Defined.

End SaleLedger.

Section SalePayments.
Import Js JsString Db SaleService Ledger Examples.
Local Open Scope string_scope.

(** X4. A sale that returns writes one payment per request payment, in
    request order and under the id it returns: the mode is the requested
    mode trimmed (a non-empty string), the provider is trimmed when the
    request gives one, and the amount, as the column keeps it, is an
    amount of cents that is not negative, within a cent of the requested
    amount, which is not negative. *)
Theorem sale_records_every_payment driver now payload s r s' :
  MachineSale.createSale driver now payload s = (Ok r, s') ->
  exists ps new,
    payments payload = Some ps
    /\ Db.payments s' = (Db.payments s ++ new)%list
    /\ Forall2 (fun p row =>
         payment_saleId row = MachineSale.r_saleId r
         /\ (exists m, p_mode p = Some m /\ m <> "" /\ mode row = trim m)
         /\ provider row = option_map trim (p_provider p)
         /\ (exists a, p_amount p = Fin a /\ (0 <= a)%Q
                       /\ (Qabs (amount row - a) <= 1 # 100)%Q)
         /\ isCents (amount row)
         /\ (0 <= amount row)%Q) ps new.
Proof.
  intros H. apply machine_createSale_rows in H.
  destruct H as (its & ps & rows & lines & kept & items_ & new
                 & _ & Hps & _ & _ & Hnorm & _ & _ & Hnew & Hall).
  exists ps, new. split; [exact Hps|]. split; [exact Hnew|].
  pose proof (Forall2_compose _ _ _ _ _ Hnorm Hall) as Hboth.
  eapply Forall2_impl; [|exact Hboth].
  intros p row (n & (Hm & Hprov & Hamt & Hpos) & Hsid & Hmode & Hprovider & Hamount).
  destruct (decimal12_2_close _ _ _ Hamount) as (Hnear & Hgrid & Hsign & _).
  rewrite Hmode, Hprovider. repeat split; try assumption.
  - exists (np_amount n). split; [exact Hamt|]. split; [exact Hpos|exact Hnear].
  - now apply Hsign.
Qed.

Lemma sale_records_every_payment_witness :
  exists r s' new,
    MachineSale.createSale Machine.exactDriver today plainSale store0 = (Ok r, s')
    /\ Db.payments s' = (Db.payments store0 ++ new)%list
    /\ List.length new = 1%nat.
Proof.
  destruct (MachineSale.createSale Machine.exactDriver today plainSale store0)
    as [o s'] eqn:E.
  assert (Ho : exists r, o = Ok r).
  { replace o with (fst (MachineSale.createSale Machine.exactDriver today
                           plainSale store0)) by now rewrite E.
    vm_compute. eexists; reflexivity. }
  destruct Ho as [r ->].
  destruct (sale_records_every_payment _ _ _ _ _ _ E) as (ps & new & Hps & Hnew & Hall).
  exists r, s', new. split; [reflexivity|]. split; [exact Hnew|].
  cbn in Hps. injection Hps as <-.
  apply Forall2_length in Hall. now rewrite <- Hall.
Defined.

End SalePayments.

Section SaleTotal.
Import Js JsString Db SaleService Ledger Examples.
Local Open Scope string_scope.




End SaleTotal.

(** ** The order of the checks of a sale *)

Section SaleSkuCheck.
Import Js JsString Db SaleService Ledger Examples.
Local Open Scope string_scope.

Lemma includes_In xs x : includes xs x = true <-> In x xs.
Proof.
  unfold includes. rewrite existsb_exists. split.
  - intros (y & Hy & Heq). apply String.eqb_eq in Heq. now subst.
  - intros H. exists x. split; [exact H|apply String.eqb_refl].
Qed.









End SaleSkuCheck.

(** ** The records of a purchase *)

Section PurchaseSteps.
Import Js JsString Db PurchaseService Ledger.
Local Open Scope string_scope.

(** The steps of a purchase that returns. *)
Lemma createPurchase_steps now payload s r s' :
  createPurchase now payload s = (Ok r, s') ->
  exists sid its extra supplier date purchase s1,
    in_supplierId payload = Some sid
    /\ in_items payload = Some its
    /\ in_extraCharges payload = Fin extra /\ (0 <= extra)%Q
    /\ Forall validItem its
    /\ (0 < totalQty its)%Q
    /\ find (fun x => String.eqb (supplier_id x) (trim sid)) (suppliers s) = Some supplier
    /\ match in_purchasedAt payload with
       | None => date = now
       | Some d => d = Some date
       end
    /\ purchase_create (supplier_id supplier) date (trimOrNull (in_invoiceNo payload))
         (trimOrNull (in_notes payload)) (orNull extra) s = (Ok purchase, s1)
    /\ forEach (purchaseItemBody purchase supplier (totalQty its) (orZero extra)) its s1
       = (Ok tt, s')
    /\ r = mkPurchaseResult (purchase_id purchase).
Proof.
  unfold createPurchase. intros H.
  destruct (in_supplierId payload) as [sid|]; [|discriminate].
  tx_ok H.
  destruct (in_items payload) as [[|it items]|]; try discriminate.
  tx_ok H.
  match goal with
  | Hv : validateItems _ _ s = (Ok _, ?s0) |- _ =>
      pose proof (readOnly_run _ _ _ _ (readOnly_validateItems _ _) Hv); subst s0;
      pose proof (validateItems_Ok _ _ _ _ _ Hv) as Hvalid; clear Hv
  end.
  match goal with
  | Ht : Qle_bool _ 0 = false |- _ =>
      assert (Htq : (0 < totalQty (it :: items))%Q)
        by (apply Qltb_lt; unfold Qltb; now rewrite Ht); clear Ht
  end.
  match goal with
  | Hx : Qltb ?x 0 = false |- _ => apply Qltb_ge in Hx
  end.
  apply transaction_Ok in H. unfold createPurchase_body in H.
  apply bind_Ok in H. destruct H as (found & s0 & Hfound & H).
  apply gets_Ok in Hfound. destruct Hfound as [-> ->].
  destruct (find _ (suppliers s)) as [supplier|] eqn:Esup; [|discriminate].
  apply bind_Ok in H. destruct H as (variants & s0 & Hvar & H).
  apply gets_Ok in Hvar. destruct Hvar as [-> ->].
  apply bind_Ok in H. destruct H as (u & s0 & Hknown & H).
  assert (s0 = s)
    by (eapply readOnly_run; [|exact Hknown];
        apply readOnly_forEach; intros; apply readOnly_throwIf).
  subst s0. clear Hknown.
  apply bind_Ok in H. destruct H as (date & s0 & Hdate & H).
  assert (Hd : s0 = s /\ match in_purchasedAt payload with
                         | None => date = now
                         | Some d => d = Some date
                         end).
  { destruct (in_purchasedAt payload) as [[t|]|]; try discriminate;
      apply ret_Ok in Hdate; destruct Hdate as [-> ->]; auto. }
  destruct Hd as [-> Hd]. clear Hdate.
  apply bind_Ok in H. destruct H as (purchase & s1 & Hpurchase & H).
  apply bind_Ok in H. destruct H as ([] & s2 & Hloop & H).
  apply ret_Ok in H. destruct H as [-> ->].
  exists sid, (it :: items), a0, supplier, date, purchase, s1.
  repeat split; assumption.
Qed.

Lemma matches_setStock vid sid p q : matches vid sid (setStock p q) = matches vid sid p.
Proof. reflexivity. Qed.

Lemma receivedOf_setStock sid items p q :
  receivedOf sid items (setStock p q) = receivedOf sid items p.
Proof. reflexivity. Qed.

Lemma product_incrementMany_Ok vid sid q s n s' :
  product_incrementMany vid sid q s = (Ok n, s') ->
  n = List.length (filter (matches vid sid) (products s))
  /\ products s' = map (fun p => if matches vid sid p
                                 then setStock p (quantityInStock p + q) else p)
                       (products s)
  /\ purchases s' = purchases s /\ purchaseItems s' = purchaseItems s.
Proof.
  unfold product_incrementMany. intros H. tx_ok H.
  apply ret_Ok in H. destruct H as [-> ->]. cbn. repeat split.
Qed.

(** The stock that the item loop of a purchase leaves, and the products
    that each of its items found. *)
Lemma forEach_purchaseItemBody_products pu su tq ev items : forall s u s',
  forEach (purchaseItemBody pu su tq ev) items s = (Ok u, s') ->
  products s'
  = map (fun p => setStock p (quantityInStock p + receivedOf (supplier_id su) items p))
        (products s)
  /\ Forall (fun it => exists p, In p (products s)
                       /\ matches (trim (in_productVariantId it)) (supplier_id su) p = true)
            items
  /\ purchases s' = purchases s.
Proof.
  induction items as [|it items IH]; intros s u s' H; cbn [forEach] in H.
  - apply ret_Ok in H. destruct H as [_ ->]. split; [|split; [constructor|reflexivity]].
    rewrite <- (map_id (products s)) at 1. apply map_ext.
    intros p. cbn [receivedOf fold_right]. rewrite Z.add_0_r. now destruct p.
  - apply bind_Ok in H. destruct H as (u1 & s1 & Hone & Hrest).
    unfold purchaseItemBody in Hone. cbv zeta in Hone.
    apply bind_Ok in Hone. destruct Hone as (u2 & s2 & Hcreate & Hone).
    apply purchaseItem_create_Ok in Hcreate. destruct Hcreate as (id & _ & Hsame & Hpu).
    apply bind_Ok in Hone. destruct Hone as (n & s3 & Hinc & Hone).
    apply throwIf_Ok in Hone. destruct Hone as [Hn ->].
    apply product_incrementMany_Ok in Hinc. destruct Hinc as (-> & Hprods & Hpu' & _).
    rewrite Hsame in Hprods, Hn.
    destruct (IH _ _ _ Hrest) as (Hfinal & Hfound & Hpurch).
    split; [|split].
    + rewrite Hfinal, Hprods, map_map. apply map_ext. intros p.
      cbn [receivedOf fold_right]. fold (receivedOf (supplier_id su) items p).
      destruct (matches (trim (in_productVariantId it)) (supplier_id su) p) eqn:E.
      * rewrite receivedOf_setStock. unfold setStock. cbn. f_equal. lia.
      * reflexivity.
    + constructor.
      * destruct (filter (matches (trim (in_productVariantId it)) (supplier_id su))
                         (products s)) as [|p l] eqn:Ef; [discriminate|].
        assert (Hp : In p (p :: l)) by now left.
        rewrite <- Ef in Hp. apply filter_In in Hp. now exists p.
      * rewrite Forall_forall in *. intros x Hx. destruct (Hfound x Hx) as (p & Hp & Hm).
        rewrite Hprods in Hp. apply in_map_iff in Hp. destruct Hp as (p0 & <- & Hp0).
        exists p0. split; [exact Hp0|].
        destruct (matches (trim (in_productVariantId it)) (supplier_id su) p0);
          [now rewrite matches_setStock in Hm|exact Hm].
    + now rewrite Hpurch, Hpu', Hpu.
Qed.

End PurchaseSteps.

Section PurchaseStock.
Import Js JsString Db PurchaseService Ledger Examples.
Local Open Scope string_scope.

Lemma sharedChargesPurchase_returns :
  exists r, createPurchase 0 sharedChargesPurchase store0
            = (Ok r, snd (createPurchase 0 sharedChargesPurchase store0)).
Proof. vm_compute. eexists; reflexivity. Qed.

Lemma receivedOf_nonneg sid items p :
  Forall validItem items -> 0 <= receivedOf sid items p.
Proof.
  induction 1 as [|it items Hit _ IH]; cbn [receivedOf fold_right]; [lia|].
  fold (receivedOf sid items p).
  destruct (matches _ sid p); [|exact IH].
  destruct Hit as (q & c & Hq & _ & _ & Hq1 & _). rewrite Hq. cbn [numberValue].
  pose proof (toInt_pos q Hq1). lia.
Qed.

Lemma receivedOf_other_supplier sid items p :
  supplierId p <> sid -> receivedOf sid items p = 0.
Proof.
  intros Hne. induction items as [|it items IH]; [reflexivity|].
  cbn [receivedOf fold_right]. fold (receivedOf sid items p).
  unfold matches. apply String.eqb_neq in Hne. rewrite Hne, andb_false_r. exact IH.
Qed.

Lemma createPurchase_products now payload s r s' :
  createPurchase now payload s = (Ok r, s') ->
  exists sid its supplier,
    in_supplierId payload = Some sid
    /\ in_items payload = Some its
    /\ Forall validItem its
    /\ In supplier (suppliers s) /\ supplier_id supplier = trim sid
    /\ products s'
       = map (fun p => setStock p (quantityInStock p + receivedOf (trim sid) its p))
             (products s)
    /\ Forall (fun it => exists p, In p (products s)
                         /\ matches (trim (in_productVariantId it)) (trim sid) p = true)
              its.
Proof.
  intros H. apply createPurchase_steps in H.
  destruct H as (sid & its & extra & supplier & date & purchase & s1
                 & Hsid & Hits & _ & _ & Hvalid & _ & Hsup & _ & Hpu & Hloop & _).
  apply find_some in Hsup. destruct Hsup as [Hin Heq]. apply String.eqb_eq in Heq.
  apply purchase_create_Ok in Hpu. destruct Hpu as [_ Hsame].
  apply forEach_purchaseItemBody_products in Hloop. destruct Hloop as (Hprods & Hfound & _).
  rewrite Hsame, Heq in *.
  exists sid, its, supplier. repeat split; assumption.
Qed.

(** X8. A purchase that returns adds to the stock of every product the
    quantities of the request items that name the variant of that product,
    provided the product belongs to the supplier of the purchase; every
    other product keeps its stock.  The supplier is a supplier of the
    store, every request item found a product of that supplier for its
    variant, and no stock goes down. *)
Theorem purchase_adds_its_quantities_to_stock now payload s r s' :
  createPurchase now payload s = (Ok r, s') ->
  exists sid its supplier,
    in_supplierId payload = Some sid
    /\ in_items payload = Some its
    /\ In supplier (suppliers s) /\ supplier_id supplier = trim sid
    /\ products s'
       = map (fun p => setStock p (quantityInStock p + receivedOf (trim sid) its p))
             (products s)
    /\ Forall (fun it => exists p, In p (products s)
                         /\ productVariantId p = trim (in_productVariantId it)
                         /\ supplierId p = trim sid) its
    /\ (forall p, supplierId p <> trim sid -> receivedOf (trim sid) its p = 0)
    /\ (forall p, 0 <= receivedOf (trim sid) its p).
Proof.
  intros H. apply createPurchase_products in H.
  destruct H as (sid & its & supplier & Hsid & Hits & Hvalid & Hin & Heq & Hprods & Hfound).
  exists sid, its, supplier.
  split; [exact Hsid|]. split; [exact Hits|]. split; [exact Hin|]. split; [exact Heq|].
  split; [exact Hprods|]. split; [|split].
  - eapply Forall_impl; [|exact Hfound].
    intros it (p & Hp & Hm). exists p. split; [exact Hp|].
    unfold matches in Hm. apply andb_true_iff in Hm. destruct Hm as [Hv Hs].
    now apply String.eqb_eq in Hv, Hs.
  - intros p. apply receivedOf_other_supplier.
  - intros p. now apply receivedOf_nonneg.
Qed.

Lemma purchase_adds_its_quantities_to_stock_witness :
  exists r,
    createPurchase 0 sharedChargesPurchase store0
    = (Ok r, snd (createPurchase 0 sharedChargesPurchase store0))
    /\ map quantityInStock (products (snd (createPurchase 0 sharedChargesPurchase store0)))
       = [5 + 3; 0 + 2].
Proof.
  destruct sharedChargesPurchase_returns as [r E].
  exists r. split; [exact E|].
  destruct (purchase_adds_its_quantities_to_stock _ _ _ _ _ E)
    as (sid & its & supplier & Hsid & Hits & _ & _ & Hprods & _).
  cbn in Hsid, Hits. injection Hsid as <-. injection Hits as <-.
  rewrite Hprods. reflexivity.
Defined.

End PurchaseStock.

(** ** Histories of requests *)

Section Histories.
Import Js JsString Db SaleService PurchaseService Ledger Examples.
Local Open Scope string_scope.

Lemma map_setStock_identity (f : Product -> Z) (l : list Product) :
  map (fun p => setStock p 0) (map (fun p => setStock p (f p)) l)
  = map (fun p => setStock p 0) l.
Proof. rewrite map_map. now apply map_ext. Qed.

Lemma product_ids_of_identity (l l' : list Product) :
  map (fun p => setStock p 0) l' = map (fun p => setStock p 0) l ->
  map product_id l' = map product_id l.
Proof.
  intros H. apply (f_equal (map product_id)) in H.
  rewrite !map_map in H. exact H.
Qed.

(** One request: the stock stays non-negative and the products stay the
    same but for their stock. *)
Lemma handle_keeps_stock q s :
  NoDup (map product_id (products s)) ->
  nonNegativeStock s ->
  distinctSkus q ->
  nonNegativeStock (handle q s)
  /\ map (fun p => setStock p 0) (products (handle q s))
     = map (fun p => setStock p 0) (products s).
Proof.
  intros Hids Hstock Hq. destruct q as [now payload|now payload]; cbn [handle distinctSkus] in *.
  - destruct (createSale now payload s) as [[r|e] s'] eqn:E; cbn [snd].
    + pose proof (createSale_stock _ _ _ _ _ E) as (v & Hv & _ & Hprods).
      apply validateAndCompute_Ok in Hv. destruct Hv as (its & _ & Hits & _).
      rewrite Hits in Hq. split.
      * eapply distinct_sku_sale_keeps_stock; eassumption.
      * rewrite Hprods. apply map_setStock_identity.
    + apply allOrNothing_transaction in E. subst s'. auto.
  - destruct (createPurchase now payload s) as [[r|e] s'] eqn:E; cbn [snd].
    + split; [eapply purchase_keeps_stock; eassumption|].
      apply createPurchase_products in E.
      destruct E as (sid & its & supplier & _ & _ & _ & _ & _ & Hprods & _).
      rewrite Hprods. apply map_setStock_identity.
    + apply allOrNothing_createPurchase in E. subst s'. auto.
Qed.

(** X7. Stock never goes below zero: in a store whose products have
    distinct ids and no negative stock, any sequence of sale and purchase
    requests, accepted or rejected, in which no sale request names a SKU
    twice, leaves every stock non-negative; and the requests change
    nothing of a product but its stock (no product is added, removed or
    renamed). *)
Theorem stock_stays_non_negative qs : forall s,
  NoDup (map product_id (products s)) ->
  nonNegativeStock s ->
  Forall distinctSkus qs ->
  nonNegativeStock (handleAll qs s)
  /\ map (fun p => setStock p 0) (products (handleAll qs s))
     = map (fun p => setStock p 0) (products s).
Proof.
  induction qs as [|q qs IH]; intros s Hids Hstock Hqs; cbn [handleAll fold_left].
  - auto.
  - inversion Hqs as [|? ? Hq Hrest]; subst.
    destruct (handle_keeps_stock q s Hids Hstock Hq) as [Hstock' Hsame].
    destruct (IH (handle q s)) as [Hfinal Hsame']; try assumption.
    + now rewrite (product_ids_of_identity _ _ Hsame).
    + split; [exact Hfinal|]. unfold handleAll in Hsame'. now rewrite Hsame'.
Qed.

Lemma stock_stays_non_negative_witness :
  nonNegativeStock
    (handleAll [PurchaseRequest 0 sharedChargesPurchase;
                SaleRequest today plainSale;
                SaleRequest today oversizedSale] store0).
Proof.
  apply (stock_stays_non_negative
           [PurchaseRequest 0 sharedChargesPurchase;
            SaleRequest today plainSale;
            SaleRequest today oversizedSale] store0).
  - cbn. repeat constructor; cbn; intuition discriminate.
  - unfold nonNegativeStock. cbn.
    repeat (apply Forall_cons; [cbn; lia|]). apply Forall_nil.
  - apply Forall_cons; [exact I|].
    apply Forall_cons; [cbn; repeat constructor; cbn; intuition|].
    apply Forall_cons; [cbn; repeat constructor; cbn; intuition|].
    apply Forall_nil.
Defined.

End Histories.

(** ** The cost of a purchase *)

Section PurchaseCharges.
Import Js JsString Db PurchaseService Ledger Examples.
Local Open Scope string_scope.
Local Open Scope Q_scope.



End PurchaseCharges.

Section PurchaseBookValue.
Import Js JsString Db PurchaseService Ledger Examples.
Local Open Scope string_scope.
Local Open Scope Q_scope.





End PurchaseBookValue.

Section PurchaseRows.
Import Js JsString Db PurchaseService Ledger Examples.
Local Open Scope string_scope.
Local Open Scope Q_scope.


Lemma cents_of q : isCents q -> exists k : Z, q == inject_Z k / 100.
Proof.
  unfold isCents. intros H. apply isIntegerQ_floor in H.
  exists (Qfloor (q * 100)). rewrite H. field.
Qed.

(** The effective unit cost that is stored, against the unit cost that is
    stored: both are amounts of cents, and the doubles and the column
    take a cent at most. *)
Lemma machine_persistedFor_floor pid tq extra it row :
  validItem it -> (Binary64.Finite 0 <? tq)%double = true -> 0 <= extra ->
  Machine.persistedFor pid tq extra it row ->
  (1 <= purchaseItem_quantity row)%Z
  /\ 0 <= Db.unitCost row
  /\ isCents (Db.unitCost row)
  /\ isCents (Db.effectiveUnitCost row)
  /\ Db.unitCost row - (1 # 100) <= Db.effectiveUnitCost row
  /\ (extra == 0 -> Db.effectiveUnitCost row <= Db.unitCost row + (1 # 100)).
Proof.
  intros (q & c & Hq & Hc & _ & Hq1 & Hc0) Htq Hextra
         (_ & _ & Hqty & Hgrid & [Hu0 Hu1] & Hnear & y & cents & Hy & [Hlo Hhi] & Heff).
  rewrite Hq, Hc in *. cbn [numberValue] in *.
  apply Qabs_Qle_condition in Hnear.
  assert (Hcb : 0 <= c <= 10000000001) by (split; lra).
  destruct (costInCents_bounds _ _ _ _ _ Hcb Hq1 Hextra Htq Hy) as [Hylo Hyhi].
  destruct (cents_of _ Hgrid) as [k Hk].
  unfold Qdiv in Hk, Heff. change (/ 100) with (1 # 100) in Hk, Heff.
  split; [rewrite Zle_Qle, Hqty; exact Hq1|]. split; [exact Hu0|].
  split; [exact Hgrid|]. split.
  { unfold isCents. apply (isIntegerQ_proper (inject_Z cents)); [|apply isIntegerQ_inject].
    rewrite Heff. ring. }
  split.
  - assert (H1 : (k - 2 < cents)%Z).
    { rewrite Zlt_Qlt. unfold Z.sub. rewrite inject_Z_plus.
      change (inject_Z (- (2))) with (- (2)). lra. }
    assert (H2 : (k - 1 <= cents)%Z) by lia.
    rewrite Zle_Qle in H2. unfold Z.sub in H2. rewrite inject_Z_plus in H2.
    change (inject_Z (- (1))) with (- (1)) in H2. rewrite Hk, Heff. lra.
  - intros Hzero. specialize (Hyhi Hzero).
    assert (H1 : (cents < k + 2)%Z).
    { rewrite Zlt_Qlt, inject_Z_plus. change (inject_Z 2) with 2. lra. }
    assert (H2 : (cents <= k + 1)%Z) by lia.
    rewrite Zle_Qle, inject_Z_plus in H2. change (inject_Z 1) with 1 in H2.
    rewrite Hk, Heff. lra.
Qed.

(** X11. Extra charges do not lower the cost of an item.  For a purchase
    that returns, with the amounts as the engine computes them and as the
    columns keep them, every purchase item written has a quantity of at
    least one and a unit cost and an effective unit cost in cents; the
    unit cost is not negative, and the effective unit cost is not below
    it by more than the cent that the roundings may take; when the
    purchase has no extra charges, the effective unit cost is the unit
    cost to within a cent. *)
Theorem effective_cost_is_at_least_unit_cost driver now payload s r s' :
  Machine.createPurchase driver now payload s = (Ok r, s') ->
  exists extra rows,
    in_extraCharges payload = Fin extra
    /\ purchaseItems s' = (purchaseItems s ++ rows)%list
    /\ Forall (fun row =>
         (1 <= purchaseItem_quantity row)%Z
         /\ 0 <= Db.unitCost row
         /\ isCents (Db.unitCost row)
         /\ isCents (Db.effectiveUnitCost row)
         /\ Db.unitCost row - (1 # 100) <= Db.effectiveUnitCost row
         /\ (extra == 0 ->
             Db.effectiveUnitCost row <= Db.unitCost row + (1 # 100))) rows.
Proof.
  intros H. apply machine_createPurchase_Ok in H.
  destruct H as (its & extra & rows & _ & Hextra & Hpos & Hvalid & Htq & Hrows & Hall).
  exists extra, rows. split; [exact Hextra|]. split; [exact Hrows|].
  clear Hrows. revert Hvalid.
  induction Hall as [|it row its0 rows0 Hrow _ IH]; intros Hvalid; constructor.
  - inversion Hvalid as [|? ? Hit _]; subst.
    exact (machine_persistedFor_floor _ _ _ _ _ Hit Htq Hpos Hrow).
  - apply IH. now inversion Hvalid.
Qed.

Lemma effective_cost_is_at_least_unit_cost_witness :
  exists r s' rows,
    Machine.createPurchase Machine.exactDriver 0 halfCentPurchase store0 = (Ok r, s')
    /\ purchaseItems s' = rows
    /\ map Db.unitCost rows = [19 # 50; 1]
    /\ map Db.effectiveUnitCost rows = [57 # 100; 6 # 5]
    /\ Forall (fun row => Db.unitCost row - (1 # 100) <= Db.effectiveUnitCost row) rows.
Proof.
  destruct (Machine.createPurchase Machine.exactDriver 0 halfCentPurchase store0)
    as [o s'] eqn:E.
  assert (Ho : exists r, o = Ok r).
  { replace o with (fst (Machine.createPurchase Machine.exactDriver 0
                           halfCentPurchase store0)) by now rewrite E.
    vm_compute. eexists; reflexivity. }
  destruct Ho as [r ->].
  destruct (effective_cost_is_at_least_unit_cost _ _ _ _ _ _ E)
    as (extra & rows & _ & Hrows & Hall).
  assert (Hs : s' = snd (Machine.createPurchase Machine.exactDriver 0
                           halfCentPurchase store0)) by now rewrite E.
  exists r, s', rows. split; [reflexivity|]. split; [exact Hrows|].
  assert (Hr : rows = purchaseItems s') by exact (eq_sym Hrows).
  split; [rewrite Hr, Hs; vm_compute; reflexivity|].
  split; [rewrite Hr, Hs; vm_compute; reflexivity|].
  eapply Forall_impl; [|exact Hall]. intros row (_ & _ & _ & _ & Hle & _). exact Hle.
Defined.

Lemma purchase_create_row sid t inv nt ex s pu s' :
  purchase_create sid t inv nt ex s = (Ok pu, s') ->
  purchases s' = (purchases s ++ [pu])%list
  /\ purchase_supplierId pu = sid /\ Db.purchasedAt pu = t
  /\ invoiceNo pu = inv /\ notes pu = nt /\ extraCharges pu = ex.
Proof.
  unfold purchase_create. intros H. tx_ok H.
  apply ret_Ok in H. destruct H as [-> ->]. cbn. repeat split.
Qed.

Lemma machine_purchase_create_row driver sid t inv nt ex s pu s' :
  Machine.purchase_create driver sid t inv nt ex s = (Ok pu, s') ->
  purchases s' = (purchases s ++ [pu])%list
  /\ purchase_supplierId pu = sid /\ Db.purchasedAt pu = t
  /\ invoiceNo pu = inv /\ notes pu = nt
  /\ match ex with
     | Some x => exists q, extraCharges pu = Some q
                           /\ Machine.decimal12_2 driver (Binary64.Finite x) = Some q
     | None => extraCharges pu = None
     end.
Proof.
  unfold Machine.purchase_create. intros H.
  apply bind_Ok in H. destruct H as (kept & s1 & Hkept & H).
  apply purchase_create_row in H.
  destruct H as (Hrows & Hs & Ht & Hinv & Hnotes & Hex).
  destruct ex as [x|].
  - apply bind_Ok in Hkept. destruct Hkept as (q & s2 & Hq & Hret).
    apply stored_Ok in Hq. destruct Hq as [Hq ->].
    apply ret_Ok in Hret. destruct Hret as [-> ->].
    repeat split; try assumption. exists q. now split.
  - apply ret_Ok in Hkept. destruct Hkept as [-> ->].
    repeat split; assumption.
Qed.

Lemma machine_forEach_keeps_purchases driver pu su tq ev items : forall s u s',
  forEach (Machine.purchaseItemBody driver pu su tq ev) items s = (Ok u, s') ->
  purchases s' = purchases s.
Proof.
  induction items as [|it items IH]; intros s u s' H; cbn [forEach] in H.
  - apply ret_Ok in H. now destruct H as [_ ->].
  - apply bind_Ok in H. destruct H as (u1 & s1 & Hone & Hrest).
    unfold Machine.purchaseItemBody in Hone. cbv zeta in Hone.
    apply bind_Ok in Hone. destruct Hone as (u2 & s2 & Hcreate & Hone).
    apply machine_purchaseItem_create_Ok in Hcreate.
    destruct Hcreate as (id & c' & e' & _ & _ & _ & _ & Hpu).
    apply bind_Ok in Hone. destruct Hone as (n & s3 & Hinc & Hone).
    apply throwIf_Ok in Hone. destruct Hone as [_ ->].
    apply product_incrementMany_Ok in Hinc. destruct Hinc as (_ & _ & Hpu' & _).
    rewrite (IH _ _ _ Hrest). congruence.
Qed.

(** The purchase row of a purchase that returns. *)
Lemma machine_createPurchase_header driver now payload s r s' :
  Machine.createPurchase driver now payload s = (Ok r, s') ->
  exists sid extra supplier pu,
    in_supplierId payload = Some sid
    /\ in_extraCharges payload = Fin extra /\ 0 <= extra
    /\ In supplier (suppliers s) /\ supplier_id supplier = trim sid
    /\ purchases s' = (purchases s ++ [pu])%list
    /\ r = mkPurchaseResult (purchase_id pu)
    /\ purchase_supplierId pu = supplier_id supplier
    /\ Db.purchasedAt pu
       = match in_purchasedAt payload with
         | Some (Some t) => t
         | _ => now
         end
    /\ invoiceNo pu = trimOrNull (in_invoiceNo payload)
    /\ notes pu = trimOrNull (in_notes payload)
    /\ match orNull extra with
       | Some x => exists q, extraCharges pu = Some q
                             /\ Machine.decimal12_2 driver (Binary64.Finite x) = Some q
       | None => extraCharges pu = None
       end.
Proof.
  unfold Machine.createPurchase. intros H.
  destruct (in_supplierId payload) as [sid|]; [|discriminate].
  tx_ok H.
  destruct (in_items payload) as [[|it items]|]; try discriminate.
  tx_ok H.
  match goal with
  | Hv : validateItems _ _ s = (Ok _, ?s0) |- _ =>
      pose proof (readOnly_run _ _ _ _ (readOnly_validateItems _ _) Hv); subst s0;
      clear Hv
  end.
  match goal with
  | Hx : Qltb ?x 0 = false |- _ => apply Qltb_ge in Hx
  end.
  apply transaction_Ok in H. unfold Machine.createPurchase_body in H.
  apply bind_Ok in H. destruct H as (found & s0 & Hfound & H).
  apply gets_Ok in Hfound. destruct Hfound as [-> ->].
  destruct (find _ (suppliers s)) as [supplier|] eqn:Esup; [|discriminate].
  apply bind_Ok in H. destruct H as (variants & s0 & Hvar & H).
  apply gets_Ok in Hvar. destruct Hvar as [-> ->].
  apply bind_Ok in H. destruct H as (u & s0 & Hknown & H).
  assert (s0 = s)
    by (eapply readOnly_run; [|exact Hknown];
        apply readOnly_forEach; intros; apply readOnly_throwIf).
  subst s0. clear Hknown.
  apply bind_Ok in H. destruct H as (date & s0 & Hdate & H).
  assert (Hd : s0 = s /\ date = match in_purchasedAt payload with
                                | Some (Some t) => t
                                | _ => now
                                end).
  { destruct (in_purchasedAt payload) as [[t|]|]; try discriminate;
      apply ret_Ok in Hdate; destruct Hdate as [-> ->]; auto. }
  destruct Hd as [-> Hd]. clear Hdate.
  apply bind_Ok in H. destruct H as (purchase & s1 & Hpurchase & H).
  apply bind_Ok in H. destruct H as ([] & s2 & Hloop & H).
  apply ret_Ok in H. destruct H as [-> ->].
  apply machine_purchase_create_row in Hpurchase.
  destruct Hpurchase as (Hrows & Hs & Ht & Hinv & Hnotes & Hex).
  apply machine_forEach_keeps_purchases in Hloop.
  apply find_some in Esup. destruct Esup as [Hin Heq]. apply String.eqb_eq in Heq.
  match goal with
  | Hx : 0 <= ?x |- _ => exists sid, x, supplier, purchase
  end.
  repeat split; try assumption; try reflexivity.
  - now rewrite Hloop.
  - now rewrite Ht.
Qed.

(** X12. A purchase that returns appends exactly one purchase row, under
    the id it returns.  The row names a supplier of the store by the
    trimmed [supplierId] of the request; its date is the date of the
    request, or the time of the call when the request gives none; its
    invoice number and notes are trimmed, and null when blank; its extra
    charges are null exactly when the request has none (zero), and
    otherwise an amount of cents, not negative, within a cent of the
    charges of the request: the column keeps two decimals. *)
Theorem purchase_records_its_header driver now payload s r s' :
  Machine.createPurchase driver now payload s = (Ok r, s') ->
  exists sid extra supplier pu,
    in_supplierId payload = Some sid
    /\ in_extraCharges payload = Fin extra
    /\ In supplier (suppliers s) /\ supplier_id supplier = trim sid
    /\ purchases s' = (purchases s ++ [pu])%list
    /\ purchase_id pu = r_purchaseId r
    /\ purchase_supplierId pu = trim sid
    /\ Db.purchasedAt pu
       = match in_purchasedAt payload with
         | Some (Some t) => t
         | _ => now
         end
    /\ invoiceNo pu = trimOrNull (in_invoiceNo payload)
    /\ notes pu = trimOrNull (in_notes payload)
    /\ (extraCharges pu = None <-> extra == 0)
    /\ (forall x, extraCharges pu = Some x ->
          isCents x /\ 0 <= x /\ Qabs (x - extra) <= 1 # 100).
Proof.
  intros H. apply machine_createPurchase_header in H.
  destruct H as (sid & extra & supplier & pu & Hsid & Hextra & Hpos & Hin & Heq
                 & Hrows & -> & Hs & Ht & Hinv & Hnotes & Hex).
  exists sid, extra, supplier, pu. cbn [r_purchaseId].
  split; [exact Hsid|]. split; [exact Hextra|]. split; [exact Hin|]. split; [exact Heq|].
  split; [exact Hrows|]. split; [reflexivity|]. split; [now rewrite Hs|].
  split; [exact Ht|]. split; [exact Hinv|]. split; [exact Hnotes|].
  unfold orNull in Hex. destruct (Qeq_bool extra 0) eqn:E.
  - apply Qeq_bool_iff in E. rewrite Hex. split; [now split|]. discriminate.
  - destruct Hex as (q & Hq & Hkept). rewrite Hq.
    destruct (decimal12_2_close _ _ _ Hkept) as (Hnear & Hgrid & Hsign & _).
    split.
    + split; [discriminate|]. intros Hz. apply Qeq_bool_iff in Hz. congruence.
    + intros x Hx. injection Hx as <-. split; [exact Hgrid|]. split; [now apply Hsign|].
      exact Hnear.
Qed.

Lemma purchase_records_its_header_witness :
  exists r s' pu,
    Machine.createPurchase Machine.exactDriver 0 sharedChargesPurchase store0 = (Ok r, s')
    /\ purchases s' = [pu]
    /\ purchase_id pu = r_purchaseId r
    /\ invoiceNo pu = Some "INV-1".
Proof.
  destruct (Machine.createPurchase Machine.exactDriver 0 sharedChargesPurchase store0)
    as [o s'] eqn:E.
  assert (Ho : exists r, o = Ok r).
  { replace o with (fst (Machine.createPurchase Machine.exactDriver 0
                           sharedChargesPurchase store0)) by now rewrite E.
    vm_compute. eexists; reflexivity. }
  destruct Ho as [r ->].
  destruct (purchase_records_its_header _ _ _ _ _ _ E)
    as (sid & extra & supplier & pu & _ & _ & _ & _ & Hrows & Hid & _ & _ & Hinv & _).
  exists r, s', pu. split; [reflexivity|]. split; [exact Hrows|]. split; [exact Hid|].
  rewrite Hinv. reflexivity.
Defined.

End PurchaseRows.

(** ** The order of the checks of a purchase *)

Section PurchaseValidation.
Import Js JsString Db PurchaseService Ledger Examples.
Local Open Scope string_scope.

Lemma validateItems_good i it rest s :
  badItem it = false ->
  validateItems i (it :: rest) s = validateItems (S i) rest s.
Proof.
  unfold badItem, badQuantity, badUnitCost. intros H.
  apply orb_false_iff in H. destruct H as [H Hc].
  apply orb_false_iff in H. destruct H as [Hv Hq].
  cbn [validateItems]. unfold bind, throwIf, validNumber. rewrite Hv. cbn [ret].
  destruct (in_quantity it) as [q|]; [|discriminate]. rewrite Hq. cbn [ret].
  destruct (in_unitCost it) as [c|]; [|discriminate]. rewrite Hc. reflexivity.
Qed.

Lemma validateItems_bad i it rest s :
  badItem it = true ->
  validateItems i (it :: rest) s = (Throw (itemError i it), s).
Proof.
  unfold badItem, itemError, badQuantity, badUnitCost. intros H.
  cbn [validateItems]. unfold bind, throwIf, validNumber.
  destruct (String.eqb (in_productVariantId it) ""); [reflexivity|]. cbn [ret].
  destruct (in_quantity it) as [q|]; [|reflexivity].
  destruct (negb (isIntegerQ q) || Qltb q 1); [reflexivity|]. cbn [ret].
  destruct (in_unitCost it) as [c|]; [|reflexivity].
  cbn [orb] in H. now rewrite H.
Qed.

Lemma validateItems_first_bad pre it post s : forall i,
  Forall (fun x => badItem x = false) pre ->
  badItem it = true ->
  validateItems i (pre ++ it :: post)%list s
  = (Throw (itemError (i + List.length pre) it), s).
Proof.
  induction pre as [|x pre IH]; intros i Hpre Hit; cbn [app List.length].
  - rewrite Nat.add_0_r. now apply validateItems_bad.
  - inversion Hpre; subst. rewrite validateItems_good by assumption.
    rewrite IH by assumption. now rewrite Nat.add_succ_comm.
Qed.


Lemma trim_nonempty sid :
  trim sid <> "" -> String.eqb sid "" || String.eqb (trim sid) "" = false.
Proof.
  intros H. apply orb_false_iff. split; apply String.eqb_neq; [|exact H].
  intros ->. now apply H.
Qed.

(** X13. The items of a purchase are validated in request order, before
    the store is read.  For a request with a supplier id and valid extra
    charges whose first bad item is [it], at index [i], the purchase is
    rejected with the error of the first check that [it] fails (variant
    id, then quantity, then unit cost), naming [i]; the error has status
    400 and the store is as before, whether or not the supplier or the
    variants exist. *)
Theorem first_bad_item_rejects_the_purchase now payload s sid extra pre it post :
  in_supplierId payload = Some sid ->
  trim sid <> "" ->
  in_items payload = Some (pre ++ it :: post)%list ->
  in_extraCharges payload = Fin extra ->
  (0 <= extra)%Q ->
  Forall (fun x => badItem x = false) pre ->
  badItem it = true ->
  createPurchase now payload s = (Throw (itemError (List.length pre) it), s)
  /\ statusCode (itemError (List.length pre) it) = Some 400%Z.
Proof.
  intros Hsid Htrim Hitems Hextra Hpos Hpre Hit. split.
  - unfold createPurchase. rewrite Hsid, Hitems, Hextra. clear Hitems.
    unfold bind at 1. rewrite (trim_nonempty _ Htrim). cbn [throwIf ret].
    destruct (pre ++ it :: post)%list as [|i0 its0] eqn:Eits; [now destruct pre|].
    rewrite <- Eits. clear Eits i0 its0.
    unfold bind at 1. unfold validNumber.
    apply Qltb_ge in Hpos. rewrite Hpos. cbn [ret].
    unfold bind at 1. now rewrite validateItems_first_bad.
  - unfold itemError.
    destruct (String.eqb (in_productVariantId it) ""); [reflexivity|].
    now destruct (badQuantity (in_quantity it)).
Qed.

Lemma first_bad_item_rejects_the_purchase_witness :
  createPurchase 0
    (mkPurchasePayload (Some "nobody") None None None (Fin 0)
       (Some [mkPurchaseItemInput "V1" (Fin 3) (Fin 10);
              mkPurchaseItemInput "V2" (Fin (5 # 2)) NonFin])) store0
  = (Throw (ItemQuantityInvalid 1), store0).
Proof.
  apply (first_bad_item_rejects_the_purchase 0
           (mkPurchasePayload (Some "nobody") None None None (Fin 0)
              (Some [mkPurchaseItemInput "V1" (Fin 3) (Fin 10);
                     mkPurchaseItemInput "V2" (Fin (5 # 2)) NonFin]))
           store0 "nobody" 0 [mkPurchaseItemInput "V1" (Fin 3) (Fin 10)]
           (mkPurchaseItemInput "V2" (Fin (5 # 2)) NonFin) []).
  - reflexivity.
  - vm_compute. discriminate.
  - reflexivity.
  - reflexivity.
  - discriminate.
  - constructor; [reflexivity|constructor].
  - reflexivity.
Defined.

End PurchaseValidation.

Section PurchaseLookups.
Import Js JsString Db PurchaseService Ledger Examples.
Local Open Scope string_scope.










End PurchaseLookups.

(** ** Reports: sales totals *)

Section DictFacts.
Import Js JsString Db ReportsController.
Local Open Scope string_scope.
Context {V : Type}.

Lemma dictGet_dictSet_same (d : Dict V) k v : dictGet (dictSet d k v) k = Some v.
Proof.
  induction d as [|[k' v'] d IH]; cbn [dictSet dictGet].
  - now rewrite String.eqb_refl.
  - destruct (String.eqb k' k) eqn:E; cbn [dictGet]; now rewrite E.
Qed.

Lemma dictGet_dictSet_other (d : Dict V) k v k0 :
  k0 <> k -> dictGet (dictSet d k v) k0 = dictGet d k0.
Proof.
  intros Hne. induction d as [|[k' v'] d IH]; cbn [dictSet dictGet].
  - apply String.eqb_neq in Hne. rewrite String.eqb_sym in Hne. now rewrite Hne.
  - destruct (String.eqb k' k) eqn:E; cbn [dictGet].
    + apply String.eqb_eq in E. subst k'.
      apply String.eqb_neq in Hne. rewrite String.eqb_sym in Hne. now rewrite Hne.
    + now rewrite IH.
Qed.

Lemma dictGet_dictSet (d : Dict V) k v k0 :
  dictGet (dictSet d k v) k0 = if String.eqb k k0 then Some v else dictGet d k0.
Proof.
  destruct (String.eqb k k0) eqn:E.
  - apply String.eqb_eq in E. subst k0. apply dictGet_dictSet_same.
  - apply dictGet_dictSet_other. apply String.eqb_neq in E. congruence.
Qed.

Lemma fold_left_flat_map {A B S} (f : S -> B -> S) (g : A -> list B) xs : forall acc,
  fold_left (fun acc x => fold_left f (g x) acc) xs acc
  = fold_left f (flat_map g xs) acc.
Proof.
  induction xs as [|x xs IH]; intros acc; cbn [fold_left flat_map]; [reflexivity|].
  now rewrite fold_left_app, IH.
Qed.

End DictFacts.

Section SalesTotalsFacts.
Import Js JsString Db ReportsController.
Local Open Scope string_scope.
Local Open Scope Q_scope.

(** The entry of a mode after one payment. *)
Lemma dictGet_addPayment d p m :
  match dictGet (addPayment d p) m, dictGet d m with
  | Some v', Some v => v' == v + (if String.eqb (modeOf p) m then amount p else 0)
  | Some v', None => String.eqb (modeOf p) m = true /\ v' == amount p
  | None, Some _ => False
  | None, None => String.eqb (modeOf p) m = false
  end.
Proof.
  unfold addPayment.
  destruct (String.eqb (modeOf p) m) eqn:Em.
  - apply String.eqb_eq in Em. subst m.
    destruct (dictGet d (modeOf p)) as [v|] eqn:E.
    + destruct (Qeq_bool v 0) eqn:Ez; rewrite dictGet_dictSet_same.
      * apply Qeq_bool_eq in Ez. rewrite Ez. reflexivity.
      * reflexivity.
    + rewrite dictGet_dictSet_same. split; [reflexivity|ring].
  - assert (Hne : m <> modeOf p) by (apply String.eqb_neq in Em; congruence).
    assert (Hsame : forall v, dictGet (dictSet d (modeOf p) v) m = dictGet d m)
      by (intros v; now apply dictGet_dictSet_other).
    destruct (dictGet d (modeOf p)) as [v|];
      [destruct (Qeq_bool v 0)|]; rewrite Hsame;
      (destruct (dictGet d m) as [w|]; [ring|reflexivity]).
Qed.

Lemma dictGet_payments ps m : forall d,
  match dictGet (fold_left addPayment ps d) m, dictGet d m with
  | Some v', Some v => v' == v + paidBy m ps
  | Some v', None => (exists p, In p ps /\ modeOf p = m) /\ v' == paidBy m ps
  | None, Some _ => False
  | None, None => forall p, In p ps -> modeOf p <> m
  end.
Proof.
  induction ps as [|p ps IH]; intros d; cbn [fold_left paidBy fold_right].
  - destruct (dictGet d m); [ring|]. intros p [].
  - fold (paidBy m ps).
    specialize (IH (addPayment d p)). pose proof (dictGet_addPayment d p m) as Hone.
    destruct (dictGet (fold_left addPayment ps (addPayment d p)) m) as [v'|];
      destruct (dictGet (addPayment d p) m) as [v1|];
      destruct (dictGet d m) as [v|]; try contradiction.
    + rewrite IH, Hone. destruct (String.eqb (modeOf p) m); ring.
    + destruct Hone as [Hm Hv]. rewrite Hm. split.
      * exists p. split; [now left|now apply String.eqb_eq].
      * rewrite IH, Hv. ring.
    + destruct IH as [(p' & Hin & Hm) Hv]. rewrite Hone. split.
      * exists p'. split; [now right|exact Hm].
      * rewrite Hv. ring.
    + intros p' [<-|Hin]; [now apply String.eqb_neq|now apply IH].
Qed.

End SalesTotalsFacts.

Section SalesTotalsClaims.
Import Js JsString Db ReportsController.
Local Open Scope string_scope.

Lemma sum_fold_left_Z {A} (f : A -> Z) (l : list A) : forall a,
  fold_left (fun q i => q + f i) l a = a + fold_right (fun i q => f i + q) 0 l.
Proof.
  induction l as [|x l IH]; intros a; cbn [fold_left fold_right]; [lia|].
  rewrite IH. lia.
Qed.

Lemma sum_fold_left_Q {A} (f : A -> Q) (l : list A) : forall a,
  (fold_left (fun q i => q + f i) l a == a + fold_right (fun i q => f i + q) 0 l)%Q.
Proof.
  induction l as [|x l IH]; intros a; cbn [fold_left fold_right]; [ring|].
  rewrite IH. ring.
Qed.

Lemma totalItems_unitsIn s sales_ :
  totalItems (salesTotals s sales_) = unitsIn s sales_.
Proof.
  unfold salesTotals, unitsIn. cbn [totalItems].
  rewrite (sum_fold_left_Z
             (fun sale => fold_left (fun q i => q + saleItem_quantity i) (itemsOf s sale) 0)).
  rewrite Z.add_0_l. induction sales_ as [|sale sales_ IH]; cbn [fold_right]; [reflexivity|].
  rewrite IH, (sum_fold_left_Z saleItem_quantity). lia.
Qed.

Lemma defaultPayments_get m :
  dictGet (objectFromEntries (map (fun k => (k, 0%Q)) DEFAULT_PAYMENT_KEYS)) m
  = if includes DEFAULT_PAYMENT_KEYS m then Some 0%Q else None.
Proof.
  change (objectFromEntries (map (fun k => (k, 0%Q)) DEFAULT_PAYMENT_KEYS))
    with [("CASH", 0%Q); ("CARD", 0%Q); ("UPI_N", 0%Q); ("UPI_S", 0%Q)].
  unfold includes, DEFAULT_PAYMENT_KEYS. cbn [dictGet existsb].
  rewrite (String.eqb_sym m "CASH"), (String.eqb_sym m "CARD"),
    (String.eqb_sym m "UPI_N"), (String.eqb_sym m "UPI_S").
  destruct (String.eqb "CASH" m); [reflexivity|].
  destruct (String.eqb "CARD" m); [reflexivity|].
  destruct (String.eqb "UPI_N" m); [reflexivity|].
  destruct (String.eqb "UPI_S" m); reflexivity.
Qed.

(** X15. The sales totals (of [getDailySales] and [getSalesSummary]) list
    every payment mode of the selected sales.  The bills are the selected
    sales and the items their units.  The four default modes are always
    listed; any other mode is listed exactly when a payment of a selected
    sale carries it (a payment without mode counting as CASH).  The mode
    [__proto__] is left aside: an object keeps no property of that
    name. *)
Theorem sales_totals_account_for_every_payment (s : Store) (sales_ : list Sale) :
  let t := salesTotals s sales_ in
  let ps := paymentsIn s sales_ in
  totalBills t = List.length sales_
  /\ totalItems t = unitsIn s sales_
  /\ (forall m, In m DEFAULT_PAYMENT_KEYS -> dictGet (paymentsByMode t) m <> None)
  /\ (forall m, ~ In m DEFAULT_PAYMENT_KEYS -> m <> "__proto__" ->
        dictGet (paymentsByMode t) m <> None <-> exists p, In p ps /\ modeOf p = m).
Proof.
  intros t ps. split; [reflexivity|]. split; [apply totalItems_unitsIn|].
  assert (Hp : paymentsByMode t
               = fold_left addPayment ps
                   (objectFromEntries (map (fun k => (k, 0%Q)) DEFAULT_PAYMENT_KEYS))).
  { subst t ps. unfold salesTotals, paymentsIn. cbn [paymentsByMode].
    apply fold_left_flat_map. }
  split.
  - intros m Hm. rewrite Hp.
    pose proof (dictGet_payments ps m
                  (objectFromEntries (map (fun k => (k, 0%Q)) DEFAULT_PAYMENT_KEYS))) as H.
    rewrite defaultPayments_get in H.
    apply includes_In in Hm. rewrite Hm in H.
    destruct (dictGet (fold_left addPayment ps _) m) as [v|]; [discriminate|contradiction].
  - intros m Hm _. rewrite Hp.
    pose proof (dictGet_payments ps m
                  (objectFromEntries (map (fun k => (k, 0%Q)) DEFAULT_PAYMENT_KEYS))) as H.
    rewrite defaultPayments_get in H.
    destruct (includes DEFAULT_PAYMENT_KEYS m) eqn:E;
      [apply includes_In in E; contradiction|].
    destruct (dictGet (fold_left addPayment ps _) m) as [v|].
    + split; [intros _; exact (proj1 H)|discriminate].
    + split; [intros Hn; now elim Hn|].
      intros (q & Hq & Hmode). now elim (H q Hq).
Qed.

End SalesTotalsClaims.

Section SalesPeriods.
Import Js JsString Db Reports ReportsController ReportExamples.
Local Open Scope string_scope.

Lemma valueAt_paidBy s sales_ m :
  (valueAt (paymentsByMode (salesTotals s sales_)) m == paidBy m (paymentsIn s sales_))%Q.
Proof.
  unfold valueAt, salesTotals, paymentsIn. cbn [paymentsByMode].
  rewrite fold_left_flat_map.
  pose proof (dictGet_payments (flat_map (paymentsOf s) sales_) m
                (objectFromEntries (map (fun k => (k, 0%Q)) DEFAULT_PAYMENT_KEYS))) as H.
  rewrite defaultPayments_get in H.
  destruct (dictGet (fold_left addPayment _ _) m) as [v|];
    destruct (includes DEFAULT_PAYMENT_KEYS m); try contradiction.
  - rewrite H. ring.
  - now destruct H.
  - clear -H. induction (flat_map (paymentsOf s) sales_) as [|p ps IH];
      cbn [paidBy fold_right]; [reflexivity|].
    fold (paidBy m ps).
    destruct (String.eqb (modeOf p) m) eqn:E.
    + apply String.eqb_eq in E. elim (H p (or_introl eq_refl) E).
    + apply IH. intros p' Hp'. apply H. now right.
Qed.

Lemma paidBy_app m ps qs : (paidBy m (ps ++ qs) == paidBy m ps + paidBy m qs)%Q.
Proof.
  induction ps as [|p ps IH]; cbn [app].
  - change (paidBy m []) with 0%Q. ring.
  - change (paidBy m (p :: ps ++ qs))
      with (if String.eqb (modeOf p) m then (amount p + paidBy m (ps ++ qs))%Q
            else paidBy m (ps ++ qs)).
    change (paidBy m (p :: ps))
      with (if String.eqb (modeOf p) m then (amount p + paidBy m ps)%Q else paidBy m ps).
    destruct (String.eqb (modeOf p) m); rewrite IH; ring.
Qed.

(** Sums over a selection that splits in two. *)
Lemma split_length {A} (P P1 P2 : A -> bool) l :
  (forall x, P x = P1 x || P2 x) -> (forall x, P1 x && P2 x = false) ->
  List.length (filter P l) = (List.length (filter P1 l) + List.length (filter P2 l))%nat.
Proof.
  intros Hor Hdis. induction l as [|x l IH]; cbn [filter]; [reflexivity|].
  rewrite Hor. specialize (Hdis x).
  destruct (P1 x), (P2 x); try discriminate; cbn [orb List.length]; lia.
Qed.

Lemma split_sum_Z {A} (f : A -> Z) (P P1 P2 : A -> bool) l :
  (forall x, P x = P1 x || P2 x) -> (forall x, P1 x && P2 x = false) ->
  fold_right (fun x acc => f x + acc) 0 (filter P l)
  = fold_right (fun x acc => f x + acc) 0 (filter P1 l)
    + fold_right (fun x acc => f x + acc) 0 (filter P2 l).
Proof.
  intros Hor Hdis. induction l as [|x l IH]; cbn [filter]; [reflexivity|].
  rewrite Hor. specialize (Hdis x).
  destruct (P1 x), (P2 x); try discriminate; cbn [orb fold_right]; lia.
Qed.

Lemma split_sum_Q {A} (f : A -> Q) (P P1 P2 : A -> bool) l :
  (forall x, P x = P1 x || P2 x) -> (forall x, P1 x && P2 x = false) ->
  (fold_right (fun x acc => f x + acc) 0 (filter P l)
   == fold_right (fun x acc => f x + acc) 0 (filter P1 l)
      + fold_right (fun x acc => f x + acc) 0 (filter P2 l))%Q.
Proof.
  intros Hor Hdis. induction l as [|x l IH]; cbn [filter]; [reflexivity|].
  rewrite Hor. specialize (Hdis x).
  destruct (P1 x), (P2 x); try discriminate; cbn [orb fold_right]; rewrite ?IH; ring.
Qed.

Lemma paidBy_paymentsIn s m l :
  (paidBy m (paymentsIn s l)
   == fold_right (fun sale acc => paidBy m (paymentsOf s sale) + acc) 0 l)%Q.
Proof.
  unfold paymentsIn. induction l as [|x l IH]; cbn [flat_map fold_right]; [reflexivity|].
  now rewrite paidBy_app, IH.
Qed.

(** The totals of a selection of sales that splits in two. *)
Lemma salesTotals_split s (P P1 P2 : Sale -> bool) :
  (forall x, P x = P1 x || P2 x) -> (forall x, P1 x && P2 x = false) ->
  let t := salesTotals s (filter P (sales s)) in
  let t1 := salesTotals s (filter P1 (sales s)) in
  let t2 := salesTotals s (filter P2 (sales s)) in
  totalBills t = (totalBills t1 + totalBills t2)%nat
  /\ totalItems t = totalItems t1 + totalItems t2
  /\ (totalRevenue t == totalRevenue t1 + totalRevenue t2)%Q
  /\ (forall m, valueAt (paymentsByMode t) m
                == valueAt (paymentsByMode t1) m + valueAt (paymentsByMode t2) m)%Q.
Proof.
  intros Hor Hdis t t1 t2. split; [|split; [|split]].
  - now apply split_length.
  - subst t t1 t2. rewrite !totalItems_unitsIn. unfold unitsIn.
    now apply (split_sum_Z
                 (fun sale => fold_right (fun i q => saleItem_quantity i + q) 0
                                         (itemsOf s sale))).
  - subst t t1 t2. unfold salesTotals. cbn [totalRevenue].
    rewrite !(sum_fold_left_Q totalAmount), !Qplus_0_l.
    now apply (split_sum_Q totalAmount).
  - intros m. subst t t1 t2. rewrite !valueAt_paidBy, !paidBy_paymentsIn.
    now apply (split_sum_Q (fun sale => paidBy m (paymentsOf s sale))).
Qed.

End SalesPeriods.

Section SalesPeriodClaims.
Import Js JsString Db Reports ReportsController ReportExamples.
Local Open Scope string_scope.

Lemma getDailySales_Json host d s r :
  getDailySales host (Some d) s = Json r ->
  exists start,
    String.eqb d "" = false
    /\ utcMidnight host d = Some start
    /\ r = mkDailySales d
             (salesTotals s (salesBetween (Some start) (Some (start + (MS_PER_DAY - 1))) s)).
Proof.
  unfold getDailySales, utcEndOfDay.
  destruct (String.eqb d ""); [discriminate|].
  destruct (DATE_REGEX_test d); [|discriminate]. cbn [orb negb].
  destruct (utcMidnight host d) as [start|]; [|discriminate].
  cbn [option_map]. intros H. injection H as <-. now exists start.
Qed.

(** X16. The daily report is the summary of a one-day period, and the
    reports of two consecutive days add up to the summary of the two-day
    period: when [getDailySales] answers for a day and for the day that
    begins 24 hours later, [getSalesSummary] from the first to the second
    answers with the sums of their bills and of their items. *)
Theorem daily_sales_add_up_to_the_summary host d1 d2 s r1 r2 start :
  utcMidnight host d1 = Some start ->
  utcMidnight host d2 = Some (start + MS_PER_DAY) ->
  getDailySales host (Some d1) s = Json r1 ->
  getDailySales host (Some d2) s = Json r2 ->
  getSalesSummary host (Some d1) (Some d1) s
  = Json (mkSalesSummary (Some d1) (Some d1) (ds_totals r1))
  /\ exists r,
       getSalesSummary host (Some d1) (Some d2) s = Json r
       /\ ss_from r = Some d1 /\ ss_to r = Some d2
       /\ totalBills (ss_totals r)
          = (totalBills (ds_totals r1) + totalBills (ds_totals r2))%nat
       /\ totalItems (ss_totals r)
          = totalItems (ds_totals r1) + totalItems (ds_totals r2).
Proof.
  intros Hd1 Hd2 H1 H2.
  apply getDailySales_Json in H1. destruct H1 as (start1 & Hne1 & Hs1 & ->).
  apply getDailySales_Json in H2. destruct H2 as (start2 & Hne2 & Hs2 & ->).
  rewrite Hd1 in Hs1. injection Hs1 as <-. rewrite Hd2 in Hs2. injection Hs2 as <-.
  unfold getSalesSummary, periodBound, utcEndOfDay.
  rewrite Hne1, Hne2, Hd1, Hd2. cbn [option_map ds_totals].
  split; [reflexivity|].
  eexists. split; [reflexivity|]. cbn [ss_from ss_to ss_totals].
  split; [reflexivity|]. split; [reflexivity|].
  unfold salesBetween.
  match goal with
  | |- totalBills (salesTotals s (filter ?P _))
       = (totalBills (salesTotals s (filter ?P1 _))
          + totalBills (salesTotals s (filter ?P2 _)))%nat /\ _ =>
      destruct (salesTotals_split s P P1 P2) as (Hbills & Hitems & _)
  end.
  - intros x.
    repeat match goal with
           | |- context [Z.leb ?a ?b] => destruct (Z.leb_spec a b)
           end; try reflexivity; unfold MS_PER_DAY in *; lia.
  - intros x.
    repeat match goal with
           | |- context [Z.leb ?a ?b] => destruct (Z.leb_spec a b)
           end; try reflexivity; unfold MS_PER_DAY in *; lia.
  - split; assumption.
Qed.

Lemma daily_sales_add_up_to_the_summary_witness :
  exists r1 r2 r,
    getDailySales host0 (Some "2026-02-05") store1 = Json r1
    /\ getDailySales host0 (Some "2026-02-06") store1 = Json r2
    /\ getSalesSummary host0 (Some "2026-02-05") (Some "2026-02-06") store1 = Json r
    /\ totalBills (ss_totals r)
       = (totalBills (ds_totals r1) + totalBills (ds_totals r2))%nat.
Proof.
  assert (E1 : exists r1, getDailySales host0 (Some "2026-02-05") store1 = Json r1)
    by (vm_compute; eexists; reflexivity).
  assert (E2 : exists r2, getDailySales host0 (Some "2026-02-06") store1 = Json r2)
    by (vm_compute; eexists; reflexivity).
  destruct E1 as [r1 E1]. destruct E2 as [r2 E2].
  destruct (daily_sales_add_up_to_the_summary host0 "2026-02-05" "2026-02-06" store1
              r1 r2 1770249600000 eq_refl eq_refl E1 E2)
    as (_ & r & Hr & _ & _ & Hbills & _).
  exists r1, r2, r. repeat split; assumption.
Defined.

End SalesPeriodClaims.

(** ** Reports: FIFO consumption in steps *)

Section FifoComposition.
Import Reports.

(** X17. Consuming stock in two steps is consuming it in one: on layers
    of positive quantity, the layers that remain after [a] units and then
    [b] more units are taken oldest first are the layers that remain
    after [a + b] units are taken at once. *)
Theorem applyFifo_in_two_steps (layers : list Layer) (a b : Z) :
  positiveLayers layers -> 0 <= a -> 0 <= b ->
  applyFifo (applyFifo layers a) b = applyFifo layers (a + b).
Proof.
  intros Hpos. revert a b.
  induction Hpos as [|l ls Hl Hls IH]; intros a b Ha Hb; [reflexivity|].
  destruct (Z_le_gt_dec (quantity l) a) as [Hle|Hgt].
  - rewrite (applyFifo_dropped l ls a) by assumption.
    rewrite (applyFifo_dropped l ls (a + b)) by lia.
    rewrite IH by lia. f_equal. lia.
  - rewrite (applyFifo_partial l ls a) by lia.
    rewrite applyFifo_exhausted by assumption.
    destruct (Z_le_gt_dec (quantity l - a) b) as [Hle'|Hgt'].
    + rewrite applyFifo_dropped by (cbn [quantity]; lia).
      rewrite (applyFifo_dropped l ls (a + b)) by lia.
      cbn [quantity]. f_equal. lia.
    + rewrite applyFifo_partial by (cbn [quantity]; lia).
      rewrite (applyFifo_partial l ls (a + b)) by lia.
      cbn [quantity purchasedAt effectiveUnitCost]. do 2 f_equal. lia.
Qed.

Lemma applyFifo_in_two_steps_witness :
  applyFifo (applyFifo [mkLayer 100 10 5; mkLayer 200 5 6] 4) 8
  = applyFifo [mkLayer 100 10 5; mkLayer 200 5 6] (4 + 8).
Proof.
  apply applyFifo_in_two_steps; [repeat constructor|lia|lia].
Defined.

End FifoComposition.

(** ** Reports: inventory valuation *)

Section ValuationFacts.
Import Js JsString Db Reports ReportsController.
Local Open Scope string_scope.

Lemma accOf_addCost d pi id :
  qty (accOf (addCost d pi) id)
  = qty (accOf d id)
    + (if String.eqb (purchaseItem_productVariantId pi) id
       then purchaseItem_quantity pi else 0)
  /\ (costQty (accOf (addCost d pi) id)
      == costQty (accOf d id)
         + (if String.eqb (purchaseItem_productVariantId pi) id
            then Db.effectiveUnitCost pi * inject_Z (purchaseItem_quantity pi) else 0))%Q.
Proof.
  unfold accOf, addCost. cbv zeta. rewrite dictGet_dictSet.
  destruct (String.eqb (purchaseItem_productVariantId pi) id) eqn:E.
  - apply String.eqb_eq in E. subst id. cbn [qty costQty]. split; reflexivity.
  - split; [lia|ring].
Qed.

Lemma accOf_fold pis id : forall d,
  qty (accOf (fold_left addCost pis d) id) = qty (accOf d id) + purchasedQty id pis
  /\ (costQty (accOf (fold_left addCost pis d) id)
      == costQty (accOf d id) + purchasedCost id pis)%Q.
Proof.
  induction pis as [|pi pis IH]; intros d;
    cbn [fold_left purchasedQty purchasedCost fold_right].
  - split; [lia|ring].
  - fold (purchasedQty id pis). fold (purchasedCost id pis).
    destruct (IH (addCost d pi)) as [Hq Hc]. destruct (accOf_addCost d pi id) as [Hq1 Hc1].
    rewrite Hq, Hc, Hq1, Hc1.
    destruct (String.eqb (purchaseItem_productVariantId pi) id); split; try lia; ring.
Qed.

Lemma dictGet_map_values {A B} (f : A -> B) (d : Dict A) k :
  dictGet (map (fun kv => (fst kv, f (snd kv))) d) k = option_map f (dictGet d k).
Proof.
  induction d as [|[k' v] d IH]; cbn [map dictGet fst snd]; [reflexivity|].
  destruct (String.eqb k' k); [reflexivity|exact IH].
Qed.

Lemma averageOf_proper a q c :
  qty a = q -> (costQty a == c)%Q ->
  (averageOf a == if Z.ltb 0 q then c / inject_Z q else 0)%Q.
Proof.
  intros <- Hc. unfold averageOf. destruct (Z.ltb 0 (qty a)); [|reflexivity].
  now rewrite Hc.
Qed.

(** The average that the valuation reads for a variant. *)
Lemma avgCostByVariant_get pis id :
  (match dictGet (avgCostByVariant pis) id with
   | Some a => a
   | None => 0
   end == averageCost id pis)%Q.
Proof.
  unfold avgCostByVariant. rewrite dictGet_map_values.
  destruct (accOf_fold pis id []) as [Hq Hc]. unfold accOf in Hq, Hc.
  cbn [dictGet qty costQty] in Hq, Hc. unfold averageCost.
  destruct (dictGet (fold_left addCost pis []) id) as [a|]; cbn [option_map].
  - apply averageOf_proper; [lia|]. rewrite Hc. ring.
  - assert (Hz : purchasedQty id pis = 0) by (cbn [qty] in Hq; lia).
    rewrite Hz. reflexivity.
Qed.

Lemma purchasedQty_filter (keep : PurchaseItem -> bool) id pis :
  (forall pi, String.eqb (purchaseItem_productVariantId pi) id = true -> keep pi = true) ->
  purchasedQty id (filter keep pis) = purchasedQty id pis
  /\ purchasedCost id (filter keep pis) = purchasedCost id pis.
Proof.
  intros Hkeep. induction pis as [|pi pis [IHq IHc]]; [split; reflexivity|].
  cbn [filter]. destruct (keep pi) eqn:E;
    cbn [purchasedQty purchasedCost fold_right];
    fold (purchasedQty id (filter keep pis)); fold (purchasedQty id pis);
    fold (purchasedCost id (filter keep pis)); fold (purchasedCost id pis).
  - rewrite IHq, IHc. split; reflexivity.
  - destruct (String.eqb (purchaseItem_productVariantId pi) id) eqn:Ei;
      [rewrite (Hkeep pi Ei) in E; discriminate|]. now split.
Qed.

Lemma averageCost_of_store s id :
  In id (map variant_id (productVariants s)) ->
  averageCost id (purchaseItemsOf (map variant_id (productVariants s)) s)
  = averageCost id (purchaseItems s).
Proof.
  intros Hid. unfold averageCost, purchaseItemsOf.
  destruct (purchasedQty_filter
              (fun pi => includes (map variant_id (productVariants s))
                                  (purchaseItem_productVariantId pi))
              id (purchaseItems s)) as [Hq Hc].
  - intros pi E. apply String.eqb_eq in E. rewrite E. now apply includes_In.
  - now rewrite Hq, Hc.
Qed.

End ValuationFacts.

Section ValuationClaims.
Import Js JsString Db Reports ReportsController ReportExamples.
Local Open Scope string_scope.

Lemma valuationOf_acc s avg acc v :
  valuationOf s avg acc v = (acc ++ valuationOf s avg [] v)%list.
Proof.
  unfold valuationOf. cbv zeta.
  destruct (Z.eqb _ 0); [now rewrite app_nil_r|reflexivity].
Qed.

Lemma valuationOf_fold s avg vs : forall acc,
  fold_left (valuationOf s avg) vs acc
  = (acc ++ flat_map (fun v => valuationOf s avg [] v) vs)%list.
Proof.
  induction vs as [|v vs IH]; intros acc; cbn [fold_left flat_map].
  - now rewrite app_nil_r.
  - now rewrite IH, valuationOf_acc, <- app_assoc.
Qed.

Lemma valuationOf_row s v :
  valuationOf s (avgCostByVariant (purchaseItemsOf (map variant_id (productVariants s)) s))
              [] v
  = if Z.eqb (stockOf s v) 0 then []
    else [mkValuationRow (variant_id v) (firstSku s v) (stockOf s v)
            (round2 (match dictGet (avgCostByVariant
                                      (purchaseItemsOf (map variant_id (productVariants s)) s))
                                   (variant_id v) with
                     | Some a => a
                     | None => 0%Q
                     end))
            (round2 (inject_Z (stockOf s v)
                     * match dictGet (avgCostByVariant
                                        (purchaseItemsOf (map variant_id (productVariants s)) s))
                                     (variant_id v) with
                       | Some a => a
                       | None => 0%Q
                       end))].
Proof.
  unfold valuationOf, stockOf. cbv zeta.
  rewrite (sum_fold_left_Z quantityInStock), Z.add_0_l. reflexivity.
Qed.

(** [row] is the valuation of the variant [v]. *)
Lemma valuation_rows s vs :
  (forall v, In v vs -> In (variant_id v) (map variant_id (productVariants s))) ->
  Forall2 (fun row v =>
       vr_productVariantId row = variant_id v
       /\ vr_sku row = firstSku s v
       /\ vr_stockQty row = stockOf s v
       /\ vr_stockQty row <> 0
       /\ vr_avgCost row = round2 (averageCost (variant_id v) (purchaseItems s))
       /\ vr_inventoryValue row
          = round2 (inject_Z (stockOf s v)
                    * averageCost (variant_id v) (purchaseItems s)))
    (flat_map (fun v => valuationOf s
                 (avgCostByVariant (purchaseItemsOf (map variant_id (productVariants s)) s))
                 [] v) vs)
    (filter (fun v => negb (Z.eqb (stockOf s v) 0)) vs).
Proof.
  intros Hsub. induction vs as [|v vs IH]; cbn [flat_map filter]; [constructor|].
  specialize (IH (fun x Hx => Hsub x (or_intror Hx))).
  rewrite valuationOf_row.
  destruct (Z.eqb (stockOf s v) 0) eqn:E; cbn [negb app]; [exact IH|].
  constructor; [|exact IH].
  cbn [vr_productVariantId vr_sku vr_stockQty vr_avgCost vr_inventoryValue].
  pose proof (avgCostByVariant_get
                (purchaseItemsOf (map variant_id (productVariants s)) s)
                (variant_id v)) as Havg.
  rewrite (averageCost_of_store s (variant_id v)) in Havg
    by (apply Hsub; now left).
  repeat split.
  - now apply Z.eqb_neq.
  - now apply round2_proper.
  - apply round2_proper. now rewrite Havg.
Qed.

(** X18. The inventory valuation lists the variants that have stock, once
    each and in the order of the variant table: a variant is listed
    exactly when the stock of its products adds up to something else
    than zero.  A row carries the id of the variant, the SKU of its first
    product and the stock of its products. *)
Theorem valuation_lists_the_stocked_variants (s : Store) :
  exists rows,
    getInventoryValuation s = Json rows
    /\ Forall2 (fun row v =>
         vr_productVariantId row = variant_id v
         /\ vr_sku row = firstSku s v
         /\ vr_stockQty row = stockOf s v
         /\ vr_stockQty row <> 0)
         rows (filter (fun v => negb (Z.eqb (stockOf s v) 0)) (productVariants s)).
Proof.
  unfold getInventoryValuation. cbv zeta. eexists. split; [reflexivity|].
  rewrite valuationOf_fold. cbn [app].
  eapply Forall2_impl; [|apply valuation_rows; intros v Hv; now apply in_map].
  cbv beta. intros row v (Hid & Hsku & Hstock & Hne & _). now repeat split.
Qed.

End ValuationClaims.

Section ValuationBounds.
Import Js JsString Db Reports ReportsController ReportExamples.
Local Open Scope string_scope.









End ValuationBounds.

(** ** Reports: inventory aging *)

Section AgingBuckets.
Import Js JsString Db Reports ReportsController.
Local Open Scope string_scope.

Lemma isIntegerQ_plus x y :
  isIntegerQ x = true -> isIntegerQ y = true -> isIntegerQ (x + y) = true.
Proof.
  intros Hx Hy. apply isIntegerQ_floor in Hx, Hy.
  apply (isIntegerQ_proper (inject_Z (Qfloor x + Qfloor y))).
  - rewrite inject_Z_plus, Hx, Hy. reflexivity.
  - apply isIntegerQ_inject.
Qed.

Lemma isCents_plus x y : isCents x -> isCents y -> isCents (x + y).
Proof.
  unfold isCents. intros Hx Hy.
  apply (isIntegerQ_proper (x * 100 + y * 100)); [ring|].
  now apply isIntegerQ_plus.
Qed.

Lemma isCents_proper x y : (x == y)%Q -> isCents x -> isCents y.
Proof.
  unfold isCents. intros Hxy Hx.
  apply (isIntegerQ_proper (x * 100)); [now rewrite Hxy|exact Hx].
Qed.

Lemma getAgingBucket_In d : In (getAgingBucket d) AGING_BUCKETS.
Proof.
  unfold getAgingBucket, AGING_BUCKETS.
  destruct (Z.leb d 30); [now left|].
  destruct (Z.leb d 60); [right; now left|].
  destruct (Z.leb d 90); [right; right; now left|].
  right; right; right; now left.
Qed.

(** What every item of the report satisfies. *)
Lemma agingItemOf_ok host asOf k dsp maxd layer :
  let item := agingItemOf host asOf k dsp maxd layer in
  In (ai_bucket item) AGING_BUCKETS
  /\ ai_quantity item = quantity layer
  /\ isCents (ai_value item)
  /\ ai_value item = round2 (inject_Z (quantity layer) * effectiveUnitCost layer).
Proof.
  unfold agingItemOf. cbv zeta.
  cbn [ai_bucket ai_quantity ai_value]. split; [|split; [reflexivity|split]].
  - destruct asOf as [a|]; cbn [option_map]; [apply getAgingBucket_In|].
    right; right; right; now left.
  - apply round2_isCents.
  - reflexivity.
Qed.

Lemma qtyIn_snoc b items i :
  qtyIn b (items ++ [i])
  = qtyIn b items + (if String.eqb (ai_bucket i) b then ai_quantity i else 0).
Proof.
  induction items as [|x items IH]; cbn [app qtyIn fold_right].
  - destruct (String.eqb (ai_bucket i) b); lia.
  - fold (qtyIn b (items ++ [i])). fold (qtyIn b items). rewrite IH.
    destruct (String.eqb (ai_bucket x) b); lia.
Qed.

Lemma valIn_snoc b items i :
  (valIn b (items ++ [i])
   == valIn b items + (if String.eqb (ai_bucket i) b then ai_value i else 0))%Q.
Proof.
  induction items as [|x items IH]; cbn [app].
  - change (valIn b [i]) with (if String.eqb (ai_bucket i) b then (ai_value i + 0)%Q else 0%Q).
    change (valIn b []) with 0%Q.
    destruct (String.eqb (ai_bucket i) b); ring.
  - change (valIn b (x :: items ++ [i]))
      with (if String.eqb (ai_bucket x) b then (ai_value x + valIn b (items ++ [i]))%Q
            else valIn b (items ++ [i])).
    change (valIn b (x :: items))
      with (if String.eqb (ai_bucket x) b then (ai_value x + valIn b items)%Q
            else valIn b items).
    destruct (String.eqb (ai_bucket x) b); rewrite IH; ring.
Qed.

Lemma valIn_isCents b items :
  Forall (fun i => isCents (ai_value i)) items -> isCents (valIn b items).
Proof.
  induction 1 as [|x items Hx _ IH]; [reflexivity|].
  change (valIn b (x :: items))
    with (if String.eqb (ai_bucket x) b then (ai_value x + valIn b items)%Q
          else valIn b items).
  destruct (String.eqb (ai_bucket x) b); [now apply isCents_plus|exact IH].
Qed.

End AgingBuckets.

Section AgingLoops.
Import Js JsString Db Reports ReportsController.
Local Open Scope string_scope.

Lemma dictSet_keys {V} (d : Dict V) k v old :
  dictGet d k = Some old -> map fst (dictSet d k v) = map fst d.
Proof.
  induction d as [|[k' v'] d IH]; cbn [dictGet dictSet]; [discriminate|].
  destruct (String.eqb k' k); cbn [map fst]; [reflexivity|].
  intros H. now rewrite IH.
Qed.

Lemma addToBucket_ok d items item :
  bucketsOf d items ->
  Forall (fun i => isCents (ai_value i)) items ->
  In (ai_bucket item) AGING_BUCKETS ->
  isCents (ai_value item) ->
  exists d',
    addToBucket d item = Some d'
    /\ bucketsOf d' (items ++ [item])
    /\ map fst d' = map fst d.
Proof.
  intros Hd Hcents Hb Hv. unfold addToBucket.
  destruct (Hd _ Hb) as (t & Ht & Hq & Hval). rewrite Ht.
  eexists. split; [reflexivity|]. split; [|eapply dictSet_keys; eassumption].
  intros b Hin. rewrite dictGet_dictSet, qtyIn_snoc.
  destruct (String.eqb (ai_bucket item) b) eqn:E.
  - apply String.eqb_eq in E. subst b.
    eexists. split; [reflexivity|]. cbn [bt_quantity bt_value].
    split; [now rewrite Hq|].
    rewrite valIn_snoc, String.eqb_refl, <- Hval.
    apply round2_cents. apply isCents_plus; [|exact Hv].
    apply (isCents_proper (valIn (ai_bucket item) items)); [now symmetry|].
    now apply valIn_isCents.
  - destruct (Hd _ Hin) as (t' & Ht' & Hq' & Hval').
    exists t'. split; [exact Ht'|]. split; [lia|].
    rewrite valIn_snoc, E, Hval'. ring.
Qed.

Lemma agingLayers_run host asOf k dsp maxd layers : forall d items,
  bucketsOf d items ->
  Forall (fun i => isCents (ai_value i)) items ->
  exists d',
    fold_left (agingLayer host asOf k dsp maxd) layers (Some (d, items))
    = Some (d', (items ++ map (agingItemOf host asOf k dsp maxd) layers)%list)
    /\ bucketsOf d' (items ++ map (agingItemOf host asOf k dsp maxd) layers)
    /\ Forall (fun i => isCents (ai_value i))
              (items ++ map (agingItemOf host asOf k dsp maxd) layers)
    /\ map fst d' = map fst d.
Proof.
  induction layers as [|l layers IH]; intros d items Hd Hcents; cbn [fold_left map].
  - exists d. rewrite app_nil_r. auto.
  - destruct (agingItemOf_ok host asOf k dsp maxd l) as (Hb & _ & Hv & _).
    destruct (addToBucket_ok d items _ Hd Hcents Hb Hv) as (d1 & Hadd & Hd1 & Hk1).
    unfold agingLayer at 2. rewrite Hadd.
    destruct (IH d1 (items ++ [agingItemOf host asOf k dsp maxd l])%list Hd1)
      as (d' & Hrun & Hd' & Hc' & Hk').
    { apply Forall_app. split; [exact Hcents|]. now constructor. }
    rewrite <- app_assoc in Hrun, Hd', Hc'. cbn [app] in Hrun, Hd', Hc'.
    exists d'. repeat split; try assumption. now rewrite Hk'.
Qed.

Lemma agingVariants_run host asOf skus pricing layers_ sold vids : forall d items,
  bucketsOf d items ->
  Forall (fun i => isCents (ai_value i)) items ->
  exists d',
    fold_left (agingVariant host asOf skus pricing layers_ sold) vids (Some (d, items))
    = Some (d', (items ++ flat_map (variantItems host asOf skus pricing layers_ sold)
                                   vids)%list)
    /\ bucketsOf d' (items ++ flat_map (variantItems host asOf skus pricing layers_ sold)
                                       vids)
    /\ map fst d' = map fst d.
Proof.
  induction vids as [|vid vids IH]; intros d items Hd Hcents; cbn [fold_left flat_map].
  - exists d. rewrite app_nil_r. auto.
  - unfold agingVariant at 2. cbv zeta.
    destruct (agingLayers_run host asOf
                (match dictGet skus vid with Some k => k | None => NO_SKU end)
                (fst (match dictGet pricing vid with Some p => p | None => (NonFin, NonFin) end))
                (snd (match dictGet pricing vid with Some p => p | None => (NonFin, NonFin) end))
                (applyFifo (match dictGet layers_ vid with Some ls => ls | None => [] end)
                           (match dictGet sold vid with Some n => n | None => 0 end))
                d items Hd Hcents) as (d1 & Hrun & Hd1 & Hc1 & Hk1).
    rewrite Hrun.
    destruct (IH d1 _ Hd1 Hc1) as (d' & Hrun' & Hd' & Hk').
    unfold variantItems at 1 3. cbv zeta. unfold layersAt, soldUnitsAt.
    rewrite <- app_assoc in Hrun', Hd'.
    exists d'. repeat split; try assumption. now rewrite Hk'.
Qed.

Lemma roundBuckets_run items ks : forall d,
  incl ks AGING_BUCKETS ->
  bucketsOf d items ->
  Forall (fun i => isCents (ai_value i)) items ->
  exists d',
    fold_left roundBucket ks (Some d) = Some d'
    /\ bucketsOf d' items
    /\ map fst d' = map fst d.
Proof.
  induction ks as [|k ks IH]; intros d Hks Hd Hcents; cbn [fold_left].
  - exists d. auto.
  - unfold roundBucket at 2.
    destruct (Hd k (Hks k (or_introl eq_refl))) as (t & Ht & Hq & Hv). rewrite Ht.
    destruct (IH (dictSet d k (mkBucketTotal (bt_quantity t) (round2 (bt_value t)))))
      as (d' & Hrun & Hd' & Hk').
    + intros x Hx. apply Hks. now right.
    + intros b Hb. rewrite dictGet_dictSet.
      destruct (String.eqb k b) eqn:E; [|now apply Hd].
      apply String.eqb_eq in E. subst b.
      eexists. split; [reflexivity|]. cbn [bt_quantity bt_value]. split; [exact Hq|].
      rewrite <- Hv. apply round2_cents.
      apply (isCents_proper (valIn k items)); [now symmetry|now apply valIn_isCents].
    + exact Hcents.
    + exists d'. repeat split; try assumption.
      rewrite Hk'. eapply dictSet_keys; eassumption.
Qed.

Lemma emptyBuckets_ok : bucketsOf emptyBuckets [] /\ map fst emptyBuckets = AGING_BUCKETS.
Proof.
  split; [|reflexivity].
  intros b [<-|[<-|[<-|[<-|[]]]]]; eexists; (split; [reflexivity|split; reflexivity]).
Qed.

End AgingLoops.

Section AgingRun.
Import Js JsString Db Reports ReportsController ReportExamples.
Local Open Scope string_scope.

(** What an aging report that is answered holds. *)
Lemma getInventoryAging_Json host categoryOf asOfStr categoryId s r :
  getInventoryAging host categoryOf asOfStr categoryId s = Json r ->
  bucketsOf (ar_buckets r) (ar_items r)
  /\ map fst (ar_buckets r) = AGING_BUCKETS
  /\ ar_asOfDate r = asOfDateOnlyOf host asOfStr
  /\ ((map variant_id (variantsIn categoryOf categoryId s) = []
       /\ ar_items r = [] /\ ar_buckets r = emptyBuckets)
      \/ exists skus pricing grouped,
           map variant_id (variantsIn categoryOf categoryId s) <> []
           /\ fold_left (addLayer s)
                (purchaseItemsOf (map variant_id (variantsIn categoryOf categoryId s)) s)
                (Some []) = Some grouped
           /\ ar_items r
              = flat_map
                  (variantItems host (asOfDateOf host asOfStr) skus pricing
                     (map (fun kv => (fst kv, sortLayers (snd kv))) grouped)
                     (fold_left addSold
                        (saleItemsOf (map variant_id (variantsIn categoryOf categoryId s)) s)
                        []))
                  (map variant_id (variantsIn categoryOf categoryId s))).
Proof.
  unfold getInventoryAging, variantsIn. cbv zeta.
  match goal with
  | |- context [map variant_id ?v] => set (vs := v)
  end.
  match goal with
  | |- context [mkAgingReport ?d emptyBuckets] =>
      replace d with (asOfDateOnlyOf host asOfStr)
        by (unfold asOfDateOnlyOf; now destruct asOfStr)
  end.
  match goal with
  | |- context [agingVariant host ?a] =>
      replace a with (asOfDateOf host asOfStr)
        by (unfold asOfDateOf; now destruct asOfStr)
  end.
  destruct (map variant_id vs) as [|vid vids] eqn:Evs.
  - intros H. injection H as <-. cbn [ar_buckets ar_items ar_asOfDate].
    destruct emptyBuckets_ok as [Hb Hk]. split; [exact Hb|]. split; [exact Hk|].
    split; [reflexivity|]. left. now repeat split.
  - assert (Hne : map variant_id vs <> []) by (rewrite Evs; discriminate).
    rewrite <- Evs. clear Evs vid vids.
    destruct (fold_left (addLayer s) _ (Some [])) as [grouped|] eqn:Eg; [|discriminate].
    destruct emptyBuckets_ok as [Hb Hk].
    match goal with
    | |- context [fold_left (agingVariant host ?a ?k ?p ?l ?o) _ _] =>
        destruct (agingVariants_run host a k p l o (map variant_id vs)
                    emptyBuckets [] Hb (Forall_nil _)) as (d1 & Hrun & Hd1 & Hk1);
        set (asOf := a) in *; set (skus := k) in *; set (pricing := p) in *
    end.
    rewrite Hrun. cbn [app] in *.
    assert (Hcents : Forall (fun i => isCents (ai_value i))
                       (flat_map (variantItems host asOf skus pricing
                                    (map (fun kv => (fst kv, sortLayers (snd kv))) grouped)
                                    (fold_left addSold (saleItemsOf (map variant_id vs) s) []))
                                 (map variant_id vs))).
    { apply Forall_forall. intros i Hi. apply in_flat_map in Hi.
      destruct Hi as (vid & _ & Hi). unfold variantItems in Hi. cbv zeta in Hi.
      apply in_map_iff in Hi. destruct Hi as (l & <- & _).
      now destruct (agingItemOf_ok host asOf
                      (match dictGet skus vid with Some k => k | None => NO_SKU end)
                      (fst (match dictGet pricing vid with
                            | Some p => p | None => (NonFin, NonFin) end))
                      (snd (match dictGet pricing vid with
                            | Some p => p | None => (NonFin, NonFin) end)) l)
        as (_ & _ & Hc & _). }
    destruct (roundBuckets_run _ AGING_BUCKETS d1 (incl_refl _) Hd1 Hcents)
      as (d2 & Hround & Hd2 & Hk2).
    rewrite Hround. intros H. injection H as <-. cbn [ar_buckets ar_items ar_asOfDate].
    split; [exact Hd2|]. split; [now rewrite Hk2, Hk1|]. split; [reflexivity|].
    right. exists skus, pricing, grouped. split; [exact Hne|]. split; reflexivity.
Qed.

End AgingRun.

Section AgingClaimsOfTheReport.
Import Js JsString Db Reports ReportsController ReportExamples.
Local Open Scope string_scope.

Lemma applyFifo_body_positive layers : forall c acc,
  Forall (fun l => 0 < quantity l) acc ->
  Forall (fun l => 0 < quantity l) (snd (fold_left applyFifo_body layers (c, acc))).
Proof.
  induction layers as [|l layers IH]; intros c acc Hacc; cbn [fold_left]; [exact Hacc|].
  unfold applyFifo_body at 2. cbv zeta.
  destruct (Z.ltb_spec 0 (quantity l - Z.min (quantity l) c)); apply IH; [|exact Hacc].
  apply Forall_app. split; [exact Hacc|]. constructor; [|constructor]. exact H.
Qed.

(** Whatever the layers and the units sold, the layers that remain have
    positive quantities. *)
Lemma applyFifo_positive layers c :
  Forall (fun l => 0 < quantity l) (applyFifo layers c).
Proof. apply applyFifo_body_positive. constructor. Qed.

Lemma store1_aging_returns :
  exists r, getInventoryAging host0 (fun _ => "") (Some "2026-02-05") None store1 = Json r.
Proof. vm_compute. eexists; reflexivity. Qed.

Lemma agedUnits_by_bucket items :
  Forall (fun i => In (ai_bucket i) AGING_BUCKETS) items ->
  agedUnits items
  = qtyIn "0-30" items + qtyIn "31-60" items + qtyIn "61-90" items + qtyIn "90+" items.
Proof.
  induction 1 as [|x items Hx _ IH]; [reflexivity|].
  change (agedUnits (x :: items)) with (ai_quantity x + agedUnits items).
  assert (Hcons : forall b, qtyIn b (x :: items)
                            = if String.eqb (ai_bucket x) b
                              then ai_quantity x + qtyIn b items else qtyIn b items)
    by reflexivity.
  rewrite !Hcons, IH.
  destruct Hx as [Hb|[Hb|[Hb|[Hb|[]]]]]; rewrite <- Hb; cbn; lia.
Qed.

(** X20. The buckets of an aging report total its items.  The report
    has the four buckets 0-30, 31-60, 61-90 and 90+, in this order; the
    quantity of a bucket is the sum of the quantities of the items in
    that bucket, and its value is the sum of their values (no cent is
    lost to the rounding of the running total).  Every item is in one of
    the four buckets, has a positive quantity and a value in cents, so
    that the quantities of the four buckets add up to the units on the
    items. *)
Theorem aging_buckets_total_the_items host categoryOf asOfStr categoryId s r :
  getInventoryAging host categoryOf asOfStr categoryId s = Json r ->
  map fst (ar_buckets r) = AGING_BUCKETS
  /\ (forall b, In b AGING_BUCKETS ->
        exists t, dictGet (ar_buckets r) b = Some t
                  /\ bt_quantity t = qtyIn b (ar_items r)
                  /\ (bt_value t == valIn b (ar_items r))%Q)
  /\ Forall (fun i => In (ai_bucket i) AGING_BUCKETS
                      /\ 0 < ai_quantity i
                      /\ isCents (ai_value i)
                      /\ ai_productName i = ai_sku i) (ar_items r)
  /\ agedUnits (ar_items r)
     = qtyIn "0-30" (ar_items r) + qtyIn "31-60" (ar_items r)
       + qtyIn "61-90" (ar_items r) + qtyIn "90+" (ar_items r).
Proof.
  intros H. apply getInventoryAging_Json in H. destruct H as (Hb & Hk & _ & Hitems).
  assert (Hall : Forall (fun i => In (ai_bucket i) AGING_BUCKETS
                                  /\ 0 < ai_quantity i
                                  /\ isCents (ai_value i)
                                  /\ ai_productName i = ai_sku i) (ar_items r)).
  { destruct Hitems as [(_ & -> & _)|(skus & pricing & grouped & _ & _ & ->)]; [constructor|].
    apply Forall_forall. intros i Hi. apply in_flat_map in Hi.
    destruct Hi as (vid & _ & Hi). unfold variantItems in Hi. cbv zeta in Hi.
    apply in_map_iff in Hi. destruct Hi as (l & <- & Hl).
    assert (Hpos : 0 < quantity l).
    { match type of Hl with
      | In l (applyFifo ?ls ?c) =>
          pose proof (applyFifo_positive ls c) as Hall
      end.
      rewrite Forall_forall in Hall. exact (Hall l Hl). }
    match goal with
    | |- context [agingItemOf ?h ?a ?k ?p ?m l] =>
        destruct (agingItemOf_ok h a k p m l) as (Hin & Hq & Hc & _)
    end.
    cbv zeta in Hin, Hq, Hc. rewrite Hq. repeat split; assumption. }
  split; [exact Hk|]. split; [exact Hb|]. split; [exact Hall|].
  apply agedUnits_by_bucket. eapply Forall_impl; [|exact Hall]. now intros i (Hi & _).
Qed.

Lemma aging_buckets_total_the_items_witness :
  exists r t,
    getInventoryAging host0 (fun _ => "") (Some "2026-02-05") None store1 = Json r
    /\ dictGet (ar_buckets r) "31-60" = Some t
    /\ bt_quantity t = qtyIn "31-60" (ar_items r).
Proof.
  destruct store1_aging_returns as [r E].
  destruct (aging_buckets_total_the_items _ _ _ _ _ _ E) as (_ & Hb & _).
  destruct (Hb "31-60") as (t & Ht & Hq & _); [right; now left|].
  exists r, t. repeat split; assumption.
Defined.

End AgingClaimsOfTheReport.

Section AgingLedgerFacts.
Import Js JsString Db Reports ReportsController ReportExamples.
Local Open Scope string_scope.

Lemma totalQuantity_app ls ms :
  totalQuantity (ls ++ ms) = totalQuantity ls + totalQuantity ms.
Proof.
  induction ls as [|l ls IH]; cbn [app totalQuantity fold_right]; [reflexivity|].
  fold (totalQuantity (ls ++ ms)). fold (totalQuantity ls). lia.
Qed.

(** The remaining layers hold the units purchased less the units sold. *)
Lemma applyFifo_total ls : forall c,
  positiveLayers ls -> 0 <= c ->
  totalQuantity (applyFifo ls c) = Z.max 0 (totalQuantity ls - c).
Proof.
  induction ls as [|l ls IH]; intros c Hpos Hc; [cbn; lia|].
  inversion Hpos as [|? ? Hl Hls]; subst.
  assert (Htot : 0 <= totalQuantity ls).
  { clear -Hls. induction Hls as [|x xs Hx _ IHx]; cbn [totalQuantity fold_right]; [lia|].
    fold (totalQuantity xs). lia. }
  cbn [totalQuantity fold_right]. fold (totalQuantity ls).
  destruct (Z_le_gt_dec (quantity l) c) as [Hle|Hgt].
  - rewrite applyFifo_dropped by assumption. rewrite IH by (assumption || lia). lia.
  - rewrite applyFifo_partial by lia. rewrite applyFifo_exhausted by assumption.
    cbn [totalQuantity fold_right quantity]. fold (totalQuantity ls). lia.
Qed.

Lemma insertLayer_total l ls :
  totalQuantity (insertLayer l ls) = quantity l + totalQuantity ls
  /\ (0 < quantity l -> positiveLayers ls -> positiveLayers (insertLayer l ls)).
Proof.
  induction ls as [|x ls [IHt IHp]]; cbn [insertLayer].
  - split; [reflexivity|]. intros Hl _. now constructor.
  - destruct (Z.leb (purchasedAt l) (purchasedAt x)).
    + split; [reflexivity|]. intros Hl Hp. now constructor.
    + split.
      * cbn [totalQuantity fold_right]. fold (totalQuantity (insertLayer l ls)).
        fold (totalQuantity ls). lia.
      * intros Hl Hp. inversion Hp as [|? ? Hx Hrest]; subst.
        constructor; [exact Hx|]. now apply IHp.
Qed.

(** Sorting moves layers, and keeps them. *)
Lemma sortLayers_total ls :
  totalQuantity (sortLayers ls) = totalQuantity ls
  /\ (positiveLayers ls -> positiveLayers (sortLayers ls)).
Proof.
  induction ls as [|l ls [IHt IHp]]; cbn [sortLayers fold_right]; [split; auto|].
  fold (sortLayers ls).
  destruct (insertLayer_total l (sortLayers ls)) as [Ht Hp]. split.
  - rewrite Ht, IHt. reflexivity.
  - intros Hpos. inversion Hpos as [|? ? Hl Hrest]; subst.
    apply Hp; [exact Hl|]. now apply IHp.
Qed.

(** The layers listed under a variant after the loop over the purchase
    items: its units are those of the purchase items of the variant. *)
Lemma addLayer_fold s vid pis : forall d0 d,
  fold_left (addLayer s) pis (Some d0) = Some d ->
  totalQuantity (layersAt d vid) = totalQuantity (layersAt d0 vid) + purchasedQty vid pis
  /\ (Forall (fun pi => 0 < purchaseItem_quantity pi) pis ->
      positiveLayers (layersAt d0 vid) -> positiveLayers (layersAt d vid)).
Proof.
  induction pis as [|pi pis IH]; intros d0 d H; cbn [fold_left] in H.
  - injection H as <-. cbn [purchasedQty fold_right]. split; [lia|auto].
  - unfold addLayer at 2 in H.
    destruct (purchaseOf s pi) as [pu|].
    + cbv zeta in H. apply IH in H. destruct H as [Ht Hp].
      unfold layersAt at 2 in Ht. unfold layersAt at 1 in Hp.
      rewrite dictGet_dictSet in Ht, Hp.
      cbn [purchasedQty fold_right]. fold (purchasedQty vid pis).
      destruct (String.eqb (purchaseItem_productVariantId pi) vid) eqn:E.
      * apply String.eqb_eq in E. subst vid. fold (layersAt d0 (purchaseItem_productVariantId pi)) in Ht, Hp.
        rewrite totalQuantity_app in Ht. cbn [totalQuantity fold_right quantity] in Ht.
        split; [lia|]. intros Hall Hpos. inversion Hall; subst.
        apply Hp; [assumption|]. apply Forall_app. split; [exact Hpos|].
        constructor; [assumption|constructor].
      * fold (layersAt d0 vid) in Ht, Hp. split; [lia|].
        intros Hall Hpos. inversion Hall; subst. now apply Hp.
    + exfalso. clear -H. induction pis as [|x pis IHp]; cbn [fold_left] in H;
        [discriminate|]. now apply IHp.
Qed.

Lemma layersAt_sorted grouped vid :
  layersAt (map (fun kv => (fst kv, sortLayers (snd kv))) grouped) vid
  = sortLayers (layersAt grouped vid).
Proof.
  unfold layersAt. rewrite dictGet_map_values.
  now destruct (dictGet grouped vid).
Qed.

End AgingLedgerFacts.

Section AgingSoldFacts.
Import Js JsString Db Reports ReportsController ReportExamples.
Local Open Scope string_scope.

Lemma addSold_fold vid sps : forall d0,
  vid <> "" ->
  soldUnitsAt (fold_left addSold sps d0) vid
  = soldUnitsAt d0 vid
    + fold_right (fun sp acc =>
                    if String.eqb (productVariantId (snd sp)) vid
                    then saleItem_quantity (fst sp) + acc else acc)
                 0 sps.
Proof.
  induction sps as [|sp sps IH]; intros d0 Hvid; cbn [fold_left fold_right]; [lia|].
  rewrite IH by assumption. clear IH. unfold addSold. cbv zeta.
  destruct (String.eqb (productVariantId (snd sp)) "") eqn:E0.
  - apply String.eqb_eq in E0. rewrite E0.
    assert (Hne : String.eqb "" vid = false) by (apply String.eqb_neq; congruence).
    rewrite Hne. reflexivity.
  - unfold soldUnitsAt at 1. rewrite dictGet_dictSet.
    destruct (String.eqb (productVariantId (snd sp)) vid) eqn:E.
    + apply String.eqb_eq in E. subst vid. unfold soldUnitsAt. lia.
    + reflexivity.
Qed.

Lemma saleItemsOf_sum s vids vid l :
  In vid vids ->
  fold_right (fun sp acc =>
                if String.eqb (productVariantId (snd sp)) vid
                then saleItem_quantity (fst sp) + acc else acc)
             0
             (flat_map (fun si =>
                          match productOf s si with
                          | Some p => if includes vids (productVariantId p)
                                      then [(si, p)] else []
                          | None => []
                          end) l)
  = fold_right (fun si acc =>
                  match productOf s si with
                  | Some p => if String.eqb (productVariantId p) vid
                              then saleItem_quantity si + acc else acc
                  | None => acc
                  end)
               0 l.
Proof.
  intros Hvid. induction l as [|si l IH]; cbn [flat_map fold_right]; [reflexivity|].
  destruct (productOf s si) as [p|]; [|exact IH].
  destruct (includes vids (productVariantId p)) eqn:Ei; cbn [app fold_right fst snd].
  - now rewrite IH.
  - destruct (String.eqb (productVariantId p) vid) eqn:E; [|exact IH].
    apply String.eqb_eq in E. rewrite E in Ei.
    apply includes_In in Hvid. congruence.
Qed.

Lemma soldQty_nonneg s vid :
  Forall (fun si => 0 <= saleItem_quantity si) (saleItems s) -> 0 <= soldQty vid s.
Proof.
  unfold soldQty. induction 1 as [|si l Hsi _ IH]; cbn [fold_right]; [lia|].
  destruct (productOf s si) as [p|]; [|exact IH].
  destruct (String.eqb (productVariantId p) vid); lia.
Qed.

Lemma agedUnits_app xs ys : agedUnits (xs ++ ys) = agedUnits xs + agedUnits ys.
Proof.
  induction xs as [|x xs IH]; cbn [app agedUnits fold_right]; [reflexivity|].
  fold (agedUnits (xs ++ ys)). fold (agedUnits xs). lia.
Qed.

Lemma agedUnits_layers host asOf k dsp maxd layers :
  agedUnits (map (agingItemOf host asOf k dsp maxd) layers) = totalQuantity layers.
Proof.
  induction layers as [|l layers IH]; [reflexivity|].
  cbn [map agedUnits totalQuantity fold_right].
  fold (agedUnits (map (agingItemOf host asOf k dsp maxd) layers)).
  fold (totalQuantity layers). now rewrite IH.
Qed.

(** The units on the items of one variant. *)
Lemma variantItems_units host asOf skus pricing s vids grouped vid :
  fold_left (addLayer s) (purchaseItemsOf vids s) (Some []) = Some grouped ->
  In vid vids -> vid <> "" ->
  Forall (fun pi => 0 < purchaseItem_quantity pi) (purchaseItems s) ->
  Forall (fun si => 0 <= saleItem_quantity si) (saleItems s) ->
  agedUnits (variantItems host asOf skus pricing
               (map (fun kv => (fst kv, sortLayers (snd kv))) grouped)
               (fold_left addSold (saleItemsOf vids s) []) vid)
  = remainingOf s vid.
Proof.
  intros Hg Hin Hne Hpis Hsis. unfold variantItems. cbv zeta.
  rewrite agedUnits_layers, layersAt_sorted.
  destruct (addLayer_fold s vid _ _ _ Hg) as [Htotal Hpos].
  destruct (sortLayers_total (layersAt grouped vid)) as [Hst Hsp].
  assert (Hsold : soldUnitsAt (fold_left addSold (saleItemsOf vids s) []) vid
                  = soldQty vid s).
  { rewrite addSold_fold by assumption. unfold saleItemsOf.
    rewrite saleItemsOf_sum by assumption. reflexivity. }
  rewrite Hsold.
  rewrite applyFifo_total.
  - rewrite Hst, Htotal. unfold remainingOf, purchaseItemsOf.
    destruct (purchasedQty_filter
                (fun pi => includes vids (purchaseItem_productVariantId pi))
                vid (purchaseItems s)) as [Hq _].
    { intros pi E. apply String.eqb_eq in E. rewrite E. now apply includes_In. }
    rewrite Hq. reflexivity.
  - apply Hsp, Hpos; [|constructor].
    unfold purchaseItemsOf. apply Forall_forall. intros pi Hpi.
    apply filter_In in Hpi. destruct Hpi as [Hpi _].
    rewrite Forall_forall in Hpis. now apply Hpis.
  - now apply soldQty_nonneg.
Qed.

End AgingSoldFacts.

Section AgingLedgerClaims.
Import Js JsString Db Reports ReportsController ReportExamples.
Local Open Scope string_scope.

Lemma variantsIn_incl categoryOf categoryId s v :
  In v (variantsIn categoryOf categoryId s) -> In v (productVariants s).
Proof.
  unfold variantsIn.
  destruct (match categoryId with
            | Some c => if String.eqb (trim c) "" then None else Some (trim c)
            | None => None
            end); [|trivial].
  intros H. apply filter_In in H. now destruct H.
Qed.

(** X21. The aging report reconciles with the ledger.  In a store whose
    variants have ids, whose purchase items have positive quantities and
    whose sale items have no negative quantity, the items of a report
    that is answered fall into one group per selected variant, in the
    order of the variants, and the units on the items of a variant are
    the units purchased of that variant less the units sold of its
    products, or none when more were sold than purchased; the units on
    all the items are the sum of these remainders. *)
Theorem aging_report_reconciles_with_the_ledger
    host categoryOf asOfStr categoryId s r :
  getInventoryAging host categoryOf asOfStr categoryId s = Json r ->
  Forall (fun v => variant_id v <> "") (productVariants s) ->
  Forall (fun pi => 0 < purchaseItem_quantity pi) (purchaseItems s) ->
  Forall (fun si => 0 <= saleItem_quantity si) (saleItems s) ->
  (exists groups,
     ar_items r = List.concat groups
     /\ Forall2 (fun v items => agedUnits items = remainingOf s (variant_id v))
                (variantsIn categoryOf categoryId s) groups)
  /\ agedUnits (ar_items r)
     = fold_right (fun v acc => remainingOf s (variant_id v) + acc) 0
                  (variantsIn categoryOf categoryId s).
Proof.
  intros H Hids Hpis Hsis. apply getInventoryAging_Json in H.
  destruct H as (_ & _ & _ & [(Hnone & Hitems & _)|(skus & pricing & grouped & _ & Hg & Hitems)]).
  - apply map_eq_nil in Hnone. rewrite Hnone, Hitems.
    split; [|reflexivity]. exists []. split; [reflexivity|constructor].
  - rewrite Hitems. clear Hitems.
    set (vs := variantsIn categoryOf categoryId s) in *.
    assert (Hvs : forall v, In v vs ->
                    In (variant_id v) (map variant_id vs) /\ variant_id v <> "").
    { intros v Hv. split; [now apply in_map|].
      rewrite Forall_forall in Hids. apply Hids.
      now apply (variantsIn_incl categoryOf categoryId). }
    set (F := variantItems host (asOfDateOf host asOfStr) skus pricing
                (map (fun kv => (fst kv, sortLayers (snd kv))) grouped)
                (fold_left addSold (saleItemsOf (map variant_id vs) s) [])).
    assert (Hunits : forall v, In v vs -> agedUnits (F (variant_id v))
                                         = remainingOf s (variant_id v)).
    { intros v Hv. destruct (Hvs v Hv) as [Hin Hne].
      subst F. now apply variantItems_units. }
    clearbody F. clear Hg Hvs. revert Hunits. generalize vs. clear vs.
    intros vs Hunits. split.
    + exists (map (fun v => F (variant_id v)) vs). split.
      * rewrite flat_map_concat_map, map_map. reflexivity.
      * induction vs as [|v vs IH]; cbn [map]; constructor.
        -- apply Hunits. now left.
        -- apply IH. intros x Hx. apply Hunits. now right.
    + induction vs as [|v vs IH]; cbn [map flat_map fold_right]; [reflexivity|].
      rewrite agedUnits_app, IH by (intros x Hx; apply Hunits; now right).
      rewrite Hunits by now left. reflexivity.
Qed.

Lemma aging_report_reconciles_with_the_ledger_witness :
  exists r,
    getInventoryAging host0 (fun _ => "") (Some "2026-02-05") None store1 = Json r
    /\ agedUnits (ar_items r)
       = remainingOf store1 "V1" + (remainingOf store1 "V2" + (remainingOf store1 "V3" + 0)).
Proof.
  destruct store1_aging_returns as [r E]. exists r. split; [exact E|].
  assert (Hv : productVariants store1 = productVariants Examples.store0)
    by (vm_compute; reflexivity).
  assert (Hp : map purchaseItem_quantity (purchaseItems store1) = [3; 2])
    by (vm_compute; reflexivity).
  assert (Hs : map saleItem_quantity (saleItems store1) = [1]) by (vm_compute; reflexivity).
  destruct (aging_report_reconciles_with_the_ledger _ _ _ _ _ _ E) as [_ Hsum].
  - rewrite Hv. cbn. repeat (apply Forall_cons; [discriminate|]). apply Forall_nil.
  - apply Forall_forall. intros pi Hpi.
    apply (in_map purchaseItem_quantity) in Hpi. rewrite Hp in Hpi.
    destruct Hpi as [<-|[<-|[]]]; lia.
  - apply Forall_forall. intros si Hsi.
    apply (in_map saleItem_quantity) in Hsi. rewrite Hs in Hsi.
    destruct Hsi as [<-|[]]; lia.
  - rewrite Hsum. unfold variantsIn. rewrite Hv. reflexivity.
Defined.

End AgingLedgerClaims.

Section AgingEdges.
Import Js JsString Db Reports ReportsController ReportExamples.
Local Open Scope string_scope.




End AgingEdges.

Section AgingInvalidDate.
Import Js JsString Db Reports ReportsController ReportExamples.
Local Open Scope string_scope.

Lemma qtyIn_other b items :
  Forall (fun i => ai_bucket i <> b) items ->
  qtyIn b items = 0 /\ valIn b items = 0%Q.
Proof.
  induction 1 as [|x items Hx _ [IHq IHv]]; [split; reflexivity|].
  apply String.eqb_neq in Hx.
  change (qtyIn b (x :: items))
    with (if String.eqb (ai_bucket x) b then ai_quantity x + qtyIn b items
          else qtyIn b items).
  change (valIn b (x :: items))
    with (if String.eqb (ai_bucket x) b then (ai_value x + valIn b items)%Q
          else valIn b items).
  rewrite Hx. now split.
Qed.

(** X23. A date of the right form that is no date ages everything.
    When [asOfDate] has the form YYYY-MM-DD but the engine reads no date
    from it, the report is still answered under that date: every item
    has no age and falls in bucket 90+, and the three younger buckets are
    empty. *)
Theorem aging_as_of_an_invalid_date host categoryOf a categoryId s r :
  a <> "" ->
  DATE_REGEX_test a = true ->
  utcMidnight host a = None ->
  getInventoryAging host categoryOf (Some a) categoryId s = Json r ->
  ar_asOfDate r = a
  /\ Forall (fun i => ai_ageDays i = None /\ ai_bucket i = "90+") (ar_items r)
  /\ (forall b, In b ["0-30"; "31-60"; "61-90"] ->
        exists t, dictGet (ar_buckets r) b = Some t
                  /\ bt_quantity t = 0 /\ (bt_value t == 0)%Q).
Proof.
  intros Hne Hform Hdate H. apply getInventoryAging_Json in H.
  destruct H as (Hb & _ & Hshown & Hitems).
  apply String.eqb_neq in Hne.
  assert (HasOf : asOfDateOf host (Some a) = None)
    by (unfold asOfDateOf; now rewrite Hne, Hform).
  assert (Hall : Forall (fun i => ai_ageDays i = None /\ ai_bucket i = "90+") (ar_items r)).
  { destruct Hitems as [(_ & -> & _)|(skus & pricing & grouped & _ & _ & ->)]; [constructor|].
    rewrite HasOf. apply Forall_forall. intros i Hi. apply in_flat_map in Hi.
    destruct Hi as (vid & _ & Hi). unfold variantItems in Hi. cbv zeta in Hi.
    apply in_map_iff in Hi. destruct Hi as (l & <- & _). split; reflexivity. }
  split; [|split; [exact Hall|]].
  - rewrite Hshown. unfold asOfDateOnlyOf. now rewrite Hne, Hform.
  - intros b Hin.
    destruct (Hb b) as (t & Ht & Hq & Hv).
    { destruct Hin as [<-|[<-|[<-|[]]]]; cbn; auto. }
    destruct (qtyIn_other b (ar_items r)) as [Hq0 Hv0].
    { eapply Forall_impl; [|exact Hall]. intros i [_ Hi]. rewrite Hi.
      destruct Hin as [<-|[<-|[<-|[]]]]; discriminate. }
    exists t. split; [exact Ht|]. split; [now rewrite Hq|]. now rewrite Hv, Hv0.
Qed.

Lemma aging_as_of_an_invalid_date_witness :
  exists r,
    getInventoryAging host0 (fun _ => "") (Some "2026-13-45") None store1 = Json r
    /\ ar_asOfDate r = "2026-13-45"
    /\ Forall (fun i => ai_ageDays i = None /\ ai_bucket i = "90+") (ar_items r).
Proof.
  assert (E : exists r, getInventoryAging host0 (fun _ => "") (Some "2026-13-45") None store1
                        = Json r)
    by (vm_compute; eexists; reflexivity).
  destruct E as [r E]. exists r. split; [exact E|].
  destruct (aging_as_of_an_invalid_date host0 (fun _ => "") "2026-13-45" None store1 r)
    as (Hd & Hall & _); try reflexivity; [discriminate|exact E|].
  split; assumption.
Defined.

End AgingInvalidDate.

(** ** The controllers of sales and purchases *)

Section ThrowsOnlyFacts.
Import Js JsString Db Controllers.
Context (P : Error -> Prop).

Lemma throwsOnly_bind {A B} (m : Tx A) (k : A -> Tx B) :
  throwsOnly P m -> (forall a, throwsOnly P (k a)) -> throwsOnly P (bind m k).
Proof.
  intros Hm Hk s e s'. unfold bind. destruct (m s) as [[a|e0] s1] eqn:E.
  - apply Hk.
  - intros H. injection H as <- _. exact (Hm _ _ _ E).
Qed.

Lemma throwsOnly_ret {A} (a : A) : throwsOnly P (ret a).
Proof. intros s e s' H. discriminate. Qed.

Lemma throwsOnly_gets {A} (f : Store -> A) : throwsOnly P (gets f).
Proof. intros s e s' H. discriminate. Qed.

Lemma throwsOnly_modify f : throwsOnly P (modify f).
Proof. intros s e s' H. discriminate. Qed.

Lemma throwsOnly_freshId : throwsOnly P freshId.
Proof. intros s e s' H. discriminate. Qed.

Lemma throwsOnly_throw {A} e : P e -> throwsOnly P (@throw A e).
Proof. intros He s e0 s' H. injection H as <- _. exact He. Qed.

Lemma throwsOnly_throwIf c e : P e -> throwsOnly P (throwIf c e).
Proof.
  intros He s e0 s'. destruct c; cbn; intros H; [|discriminate].
  injection H as <- _. exact He.
Qed.

Lemma throwsOnly_validNumber n bad e : P e -> throwsOnly P (validNumber n bad e).
Proof.
  intros He s e0 s'. destruct n as [q|]; cbn; [destruct (bad q)|]; intros H;
    try discriminate; injection H as <- _; exact He.
Qed.

Lemma throwsOnly_lift {A} (o : Outcome A) :
  (forall e, o = Throw e -> P e) -> throwsOnly P (lift o).
Proof.
  intros Ho s e s' H. unfold lift in H. injection H as -> _. now apply Ho.
Qed.

Lemma throwsOnly_forEach {A} (f : A -> Tx unit) xs :
  (forall x, throwsOnly P (f x)) -> throwsOnly P (forEach f xs).
Proof.
  intros Hf. induction xs as [|x xs IH]; cbn [forEach].
  - apply throwsOnly_ret.
  - apply throwsOnly_bind; auto.
Qed.

Lemma throwsOnly_foldM {A S} (f : S -> A -> Tx S) xs :
  (forall acc x, throwsOnly P (f acc x)) -> forall acc, throwsOnly P (foldM f xs acc).
Proof.
  intros Hf. induction xs as [|x xs IH]; intros acc; cbn [foldM].
  - apply throwsOnly_ret.
  - apply throwsOnly_bind; auto.
Qed.

Lemma throwsOnly_transaction {A} (m : Tx A) :
  throwsOnly P m -> throwsOnly P (transaction m).
Proof.
  intros Hm s e s'. unfold transaction. destruct (m s) as [[a|e0] s1] eqn:E;
    intros H; [discriminate|]. injection H as <- _. exact (Hm _ _ _ E).
Qed.

End ThrowsOnlyFacts.

(** Settle [throwsOnly notA404 m] for a straight-line [m]. *)
Ltac throws_solve :=
  repeat first
    [ apply throwsOnly_bind; [|intros ?]
    | apply throwsOnly_ret
    | apply throwsOnly_gets
    | apply throwsOnly_modify
    | apply throwsOnly_freshId
    | apply throwsOnly_throw; discriminate
    | apply throwsOnly_throwIf; discriminate
    | apply throwsOnly_validNumber; discriminate ].

Section SaleErrors.
Import Js JsString Db SaleService Controllers.
Local Open Scope string_scope.

Lemma checkDiscountRules_throws k p v e :
  checkDiscountRules k p v = Throw e -> notA404 e.
Proof.
  unfold checkDiscountRules.
  destruct (option_map mrp v) as [[m|]|]; try discriminate.
  destruct (Qltb m p); [intros H; injection H as <-; discriminate|].
  destruct (Qltb 0 m && isFinite _); [|discriminate].
  destruct (match option_map max_discount_percent v with
            | Some m0 => m0
            | None => Fin 0
            end) as [d|]; [|discriminate].
  destruct (Binary64.ltb _ _); [intros H; injection H as <-; discriminate|discriminate].
Qed.

(** The sale service throws its own errors, of status 400, and the
    errors of the store. *)
Lemma createSale_throws now payload : throwsOnly notA404 (createSale now payload).
Proof.
  unfold createSale. apply throwsOnly_transaction. unfold createSale_body.
  apply throwsOnly_bind; [|intros v].
  { unfold validateAndCompute.
    destruct (items payload) as [[|it its]|]; try (apply throwsOnly_throw; discriminate);
      destruct (payments payload) as [[|p ps]|]; try (apply throwsOnly_throw; discriminate).
    apply throwsOnly_bind; [apply throwsOnly_gets|intros rows].
    apply throwsOnly_bind; [|intros _].
    { apply throwsOnly_forEach. intros x.
      apply throwsOnly_bind; [apply throwsOnly_throwIf; discriminate|intros _].
      destruct (fromEntries rows (it_sku x));
        [apply throwsOnly_ret|apply throwsOnly_throw; discriminate]. }
    apply throwsOnly_bind; [|intros r].
    { apply throwsOnly_foldM. intros [lts total] x. unfold itemBody.
      destruct (fromEntries rows (it_sku x)); [|apply throwsOnly_throw; discriminate].
      apply throwsOnly_bind; [apply throwsOnly_validNumber; discriminate|intros q].
      apply throwsOnly_bind; [apply throwsOnly_validNumber; discriminate|intros pr].
      apply throwsOnly_bind; [apply throwsOnly_throwIf; discriminate|intros _].
      apply throwsOnly_bind; [|intros _; apply throwsOnly_ret].
      apply throwsOnly_lift. apply checkDiscountRules_throws. }
    apply throwsOnly_bind; [|intros q].
    { apply throwsOnly_foldM. intros [total nps] x. unfold paymentBody.
      destruct (p_mode x); [|apply throwsOnly_throw; discriminate].
      throws_solve. }
    throws_solve. }
  apply throwsOnly_bind; [apply throwsOnly_gets|intros last].
  apply throwsOnly_bind; [unfold sale_create; throws_solve|intros sale].
  apply throwsOnly_bind;
    [apply throwsOnly_forEach; intros x; unfold saleItem_create; throws_solve|intros _].
  apply throwsOnly_bind;
    [apply throwsOnly_forEach; intros x; unfold product_decrement; throws_solve|intros _].
  apply throwsOnly_bind;
    [apply throwsOnly_forEach; intros x; unfold payment_create; throws_solve|intros _].
  apply throwsOnly_ret.
Qed.

End SaleErrors.

(** ** Rejected requests: what is validated before the first write *)

Section ThrowFacts.
Import Db.

Lemma bind_Throw {A B} (m : Tx A) (k : A -> Tx B) s e s' :
  bind m k s = (Throw e, s') ->
  m s = (Throw e, s') \/ exists a s1, m s = (Ok a, s1) /\ k a s1 = (Throw e, s').
Proof.
  unfold bind. destruct (m s) as [[a|e0] s1]; intros H.
  - right. eauto.
  - left. injection H as <- <-. reflexivity.
Qed.

Lemma throwIf_Throw c e0 s e s' :
  throwIf c e0 s = (Throw e, s') -> e = e0 /\ s' = s.
Proof.
  destruct c; cbn; intros H; [|discriminate]. injection H as <- <-. auto.
Qed.

Lemma forEach_throwIf_Throw {A} (c : A -> bool) (err : A -> Error) xs s e s' :
  forEach (fun x => throwIf (c x) (err x)) xs s = (Throw e, s') ->
  exists x, e = err x.
Proof.
  revert s. induction xs as [|x r IH]; intros s H; cbn [forEach] in H; [discriminate|].
  apply bind_Throw in H. destruct H as [H|(u & s1 & _ & H)].
  - apply throwIf_Throw in H. destruct H as [-> _]. eauto.
  - eauto.
Qed.

End ThrowFacts.

Section RejectedRequests.
Import Js JsString Db SaleService PurchaseService Controllers Examples.
Local Open Scope string_scope.

(** Once a sale is validated, its callback throws errors of the store
    only. *)
Lemma sale_writes_throw_store_errors now payload s e s' :
  createSale_body now payload s = (Throw e, s') ->
  validateAndCompute (SaleService.items payload) (SaleService.payments payload) s
  = (Throw e, s')
  \/ statusCode e = None.
Proof.
  unfold createSale_body. intros H.
  apply bind_Throw in H. destruct H as [H|(v & s1 & _ & H)]; [now left|right].
  cbv beta in H. revert H. generalize s1 e s'.
  match goal with
  | |- forall s e s', ?m s = _ -> _ =>
      change (throwsOnly (fun e => statusCode e = None) m)
  end.
  apply throwsOnly_bind; [apply throwsOnly_gets|intros last].
  apply throwsOnly_bind; [|intros sale].
  { unfold sale_create.
    apply throwsOnly_bind; [apply throwsOnly_gets|intros taken].
    apply throwsOnly_bind; [apply throwsOnly_throwIf; reflexivity|intros _].
    apply throwsOnly_bind; [apply throwsOnly_freshId|intros id].
    apply throwsOnly_bind; [apply throwsOnly_modify|intros _]. apply throwsOnly_ret. }
  apply throwsOnly_bind; [|intros _].
  { apply throwsOnly_forEach. intros x. unfold saleItem_create.
    apply throwsOnly_bind; [apply throwsOnly_freshId|intros id]. apply throwsOnly_modify. }
  apply throwsOnly_bind; [|intros _].
  { apply throwsOnly_forEach. intros x. unfold product_decrement.
    apply throwsOnly_bind; [apply throwsOnly_gets|intros found].
    apply throwsOnly_bind; [apply throwsOnly_throwIf; reflexivity|intros _].
    apply throwsOnly_modify. }
  apply throwsOnly_bind; [|intros _; apply throwsOnly_ret].
  apply throwsOnly_forEach. intros x. unfold payment_create.
  apply throwsOnly_bind; [apply throwsOnly_freshId|intros id]. apply throwsOnly_modify.
Qed.

(** What one turn of the item loop of a purchase has done when it
    throws. *)
Lemma purchaseItemBody_Throw pu su tq ev it s e s' :
  purchaseItemBody pu su tq ev it s = (Throw e, s') ->
  statusCode e = None
  \/ exists row,
       e = NoMatchingProduct (trim (in_productVariantId it)) (supplier_id su)
       /\ purchaseItems s' = (purchaseItems s ++ [row])%list
       /\ purchases s' = purchases s.
Proof.
  unfold purchaseItemBody. cbv zeta. intros H.
  apply bind_Throw in H. destruct H as [H|(u & s1 & Hcreate & H)].
  - left. unfold purchaseItem_create in H.
    apply bind_Throw in H. destruct H as [H|(known & s1 & Hk & H)]; [discriminate|].
    apply bind_Throw in H. destruct H as [H|(u & s2 & _ & H)].
    + apply throwIf_Throw in H. destruct H as [-> _]. reflexivity.
    + apply bind_Throw in H. destruct H as [H|(id & s3 & _ & H)]; discriminate.
  - right. apply purchaseItem_create_Ok in Hcreate.
    destruct Hcreate as (id & Hrows & _ & Hpurchases).
    apply bind_Throw in H. destruct H as [H|(count & s2 & Hcount & H)].
    + unfold product_incrementMany in H.
      apply bind_Throw in H. destruct H as [H|(c & s2 & _ & H)]; [discriminate|].
      apply bind_Throw in H. destruct H as [H|(c' & s3 & _ & H)]; discriminate.
    + apply throwIf_Throw in H. destruct H as [-> ->].
      apply product_incrementMany_Ok in Hcount.
      destruct Hcount as (_ & _ & Hp & Hi).
      eexists. split; [reflexivity|].
      split; [rewrite Hi; exact Hrows|congruence].
Qed.

Lemma purchaseItemBody_rows pu su tq ev it s u s' :
  purchaseItemBody pu su tq ev it s = (Ok u, s') ->
  exists row, purchaseItems s' = (purchaseItems s ++ [row])%list
              /\ purchases s' = purchases s.
Proof.
  unfold purchaseItemBody. cbv zeta. intros H.
  apply bind_Ok in H. destruct H as (a & s1 & Hcreate & H).
  apply purchaseItem_create_Ok in Hcreate.
  destruct Hcreate as (id & Hrows & _ & Hpurchases).
  apply bind_Ok in H. destruct H as (count & s2 & Hcount & H).
  apply product_incrementMany_Ok in Hcount.
  destruct Hcount as (_ & _ & Hp & Hi).
  apply throwIf_Ok in H. destruct H as [_ ->].
  eexists. split; [rewrite Hi; exact Hrows|congruence].
Qed.

Lemma forEach_purchaseItemBody_Throw pu su tq ev items : forall s e s',
  forEach (purchaseItemBody pu su tq ev) items s = (Throw e, s') ->
  statusCode e = None
  \/ exists v rows,
       e = NoMatchingProduct v (supplier_id su)
       /\ rows <> []
       /\ purchaseItems s' = (purchaseItems s ++ rows)%list
       /\ purchases s' = purchases s.
Proof.
  induction items as [|it r IH]; intros s e s' H; cbn [forEach] in H; [discriminate|].
  apply bind_Throw in H. destruct H as [H|(u & s1 & Hone & H)].
  - apply purchaseItemBody_Throw in H. destruct H as [H|(row & -> & Hrows & Hp)]; [now left|].
    right. exists (trim (in_productVariantId it)), [row].
    split; [reflexivity|]. split; [discriminate|]. split; assumption.
  - apply purchaseItemBody_rows in Hone. destruct Hone as (row & Hrows & Hp).
    apply IH in H. destruct H as [H|(v & rows & -> & _ & Hrows' & Hp')]; [now left|].
    right. exists v, (row :: rows). split; [reflexivity|]. split; [discriminate|].
    split; [|congruence].
    rewrite Hrows', Hrows, <- app_assoc. reflexivity.
Qed.

(** The callback of a purchase: its checks of the supplier, of the
    variants and of the date come before the first write, the check that
    the supplier stocks the variant after the purchase row and an item
    row at least. *)
Lemma purchase_writes_before_its_last_check now payload sid items extra tq s e s' :
  createPurchase_body now payload sid items extra tq s = (Throw e, s') ->
  statusCode e = None
  \/ (s' = s
      /\ (e = SupplierNotFound \/ (exists id, e = VariantNotFound id)
          \/ e = PurchasedAtInvalid))
  \/ exists v sup pu rows,
       e = NoMatchingProduct v sup
       /\ purchases s' = (purchases s ++ [pu])%list
       /\ rows <> []
       /\ purchaseItems s' = (purchaseItems s ++ rows)%list.
Proof.
  unfold createPurchase_body. intros H.
  apply bind_Throw in H. destruct H as [H|(found & s1 & Hfound & H)]; [discriminate|].
  apply gets_Ok in Hfound. destruct Hfound as [-> ->].
  match type of H with
  | context [match ?f with Some _ => _ | None => _ end] => destruct f as [supplier|]
  end.
  2:{ right. left. injection H as <- <-. auto. }
  apply bind_Throw in H. destruct H as [H|(variants & s1 & Hv & H)]; [discriminate|].
  apply gets_Ok in Hv. destruct Hv as [_ ->].
  apply bind_Throw in H. destruct H as [H|(u & s1 & Hids & H)].
  { right. left. split.
    - eapply readOnly_run; [|exact H].
      apply readOnly_forEach; intros; apply readOnly_throwIf.
    - right. left. exact (forEach_throwIf_Throw _ _ _ _ _ _ H). }
  assert (s1 = s).
  { eapply readOnly_run; [|exact Hids].
    apply readOnly_forEach; intros; apply readOnly_throwIf. }
  subst s1.
  apply bind_Throw in H. destruct H as [H|(t & s1 & Hdate & H)].
  { right. left. destruct (in_purchasedAt payload) as [[t|]|]; try discriminate.
    injection H as <- <-. auto. }
  assert (s1 = s).
  { destruct (in_purchasedAt payload) as [[t0|]|]; try discriminate;
      apply ret_Ok in Hdate; now destruct Hdate. }
  subst s1.
  apply bind_Throw in H. destruct H as [H|(pu & s1 & Hpu & H)].
  { unfold purchase_create in H.
    apply bind_Throw in H. destruct H as [H|(id & s1 & _ & H)]; [discriminate|].
    apply bind_Throw in H. destruct H as [H|(u0 & s2 & _ & H)]; discriminate. }
  pose proof (purchase_create_Ok _ _ _ _ _ _ _ _ Hpu) as [Hitems _].
  apply purchase_create_row in Hpu. destruct Hpu as (Hpurchases & _).
  apply bind_Throw in H. destruct H as [H|(u0 & s2 & _ & H)]; [|discriminate].
  apply forEach_purchaseItemBody_Throw in H.
  destruct H as [H|(v & rows & -> & Hne & Hrows & Hp)]; [now left|].
  right. right. exists v, (supplier_id supplier), pu, rows.
  split; [reflexivity|]. split; [congruence|]. split; [exact Hne|congruence].
Qed.

(** C9.  A sale or a purchase that is rejected leaves the store exactly
    as it was: whatever the callback of a transaction has written is
    dropped when it throws.  A sale is validated before its first write:
    when its callback throws an error of the service, it has written
    nothing.  A purchase checks its supplier, its variants and its date
    before its first write, but the check that the supplier stocks each
    variant comes in the item loop, after the purchase row and at least
    one item row have been written. *)
Theorem rejected_requests_leave_store_unchanged :
  (forall now payload s e s',
      createSale now payload s = (Throw e, s') -> s' = s)
  /\ (forall now payload s e s',
      createPurchase now payload s = (Throw e, s') -> s' = s)
  /\ (forall now payload s e s',
      createSale_body now payload s = (Throw e, s') ->
      statusCode e <> None -> s' = s)
  /\ (forall now payload sid items extra tq s e s',
      createPurchase_body now payload sid items extra tq s = (Throw e, s') ->
      statusCode e <> None ->
      (s' = s
       /\ (e = SupplierNotFound \/ (exists id, e = VariantNotFound id)
           \/ e = PurchasedAtInvalid))
      \/ exists v sup pu rows,
           e = NoMatchingProduct v sup
           /\ purchases s' = (purchases s ++ [pu])%list
           /\ rows <> []
           /\ purchaseItems s' = (purchaseItems s ++ rows)%list).
Proof.
  split; [|split; [|split]].
  - intros now payload. apply allOrNothing_transaction.
  - intros now payload. apply allOrNothing_createPurchase.
  - intros now payload s e s' H Hstatus.
    destruct (sale_writes_throw_store_errors _ _ _ _ _ H) as [Hv|Hnone]; [|contradiction].
    exact (readOnly_run _ _ _ _ (readOnly_validateAndCompute _ _) Hv).
  - intros now payload sid items extra tq s e s' H Hstatus.
    destruct (purchase_writes_before_its_last_check _ _ _ _ _ _ _ _ _ H)
      as [Hnone|[Hearly|Hlate]]; [contradiction|now left|now right].
Qed.

Lemma rejected_requests_leave_store_unchanged_witness :
  (fst (createSale today oversizedSale store0) = Throw (InsufficientStock "A" 6 5)
   /\ snd (createSale today oversizedSale store0) = store0)
  /\ (fst (createPurchase 0 unstockedPurchase store0) = Throw (NoMatchingProduct "V3" "S1")
      /\ snd (createPurchase 0 unstockedPurchase store0) = store0)
  /\ snd (createSale_body today oversizedSale store0) = store0.
Proof.
  destruct rejected_requests_leave_store_unchanged as (Hsale & Hpurchase & Hfirst & _).
  split; [|split].
  - assert (E : createSale today oversizedSale store0
                = (Throw (InsufficientStock "A" 6 5),
                   snd (createSale today oversizedSale store0)))
      by (vm_compute; reflexivity).
    split; [now rewrite E|]. exact (Hsale _ _ _ _ _ E).
  - assert (E : createPurchase 0 unstockedPurchase store0
                = (Throw (NoMatchingProduct "V3" "S1"),
                   snd (createPurchase 0 unstockedPurchase store0)))
      by (vm_compute; reflexivity).
    split; [now rewrite E|]. exact (Hpurchase _ _ _ _ _ E).
  - assert (E : createSale_body today oversizedSale store0
                = (Throw (InsufficientStock "A" 6 5),
                   snd (createSale_body today oversizedSale store0)))
      by (vm_compute; reflexivity).
    apply (Hfirst _ _ _ _ _ E). discriminate.
Defined.

(** Validation does not run before every mutation.  The purchase of a
    variant that the supplier does not stock is rejected with an error of
    status 400 by a check of its callback that finds a purchase row, two
    item rows and an increment of stock already written; only the
    transaction takes them back. *)
Lemma purchase_is_rejected_after_writes :
  let body := createPurchase_body 0 unstockedPurchase "S1"
                [mkPurchaseItemInput "V1" (Fin 3) (Fin 10);
                 mkPurchaseItemInput "V3" (Fin 2) (Fin 20)] 100 5 in
  let run := body store0 in
  createPurchase 0 unstockedPurchase store0 = transaction body store0
  /\ fst run = Throw (NoMatchingProduct "V3" "S1")
  /\ statusCode (NoMatchingProduct "V3" "S1") = Some 400
  /\ purchases store0 = [] /\ List.length (purchases (snd run)) = 1%nat
  /\ purchaseItems store0 = [] /\ List.length (purchaseItems (snd run)) = 2%nat
  /\ map quantityInStock (products store0) = [5; 0]
  /\ map quantityInStock (products (snd run)) = [8; 0]
  /\ snd run <> store0
  /\ createPurchase 0 unstockedPurchase store0
     = (Throw (NoMatchingProduct "V3" "S1"), store0).
Proof.
  vm_compute. repeat split. discriminate.
Qed.

End RejectedRequests.

Section ControllerClaims.
Import Js JsString Db SaleService PurchaseService Controllers Examples.
Local Open Scope string_scope.

(** X24. What the controllers answer.  [postSale] answers 201, 400 or
    500 and [postPurchase] answers 201, 400, 404 or 500.  With 201 the
    body carries the id (for a sale, also the bill number and the total)
    of the row that the request appended; with any other status the
    store is left as it was.  A request is refused with 500 exactly for
    an error of the store or the runtime, never for an error that the
    service raises itself; a purchase is refused with 404 exactly when
    the supplier or a variant is not found. *)
Theorem controllers_answer_and_roll_back :
  (forall now body s,
      match postSale now body s with
      | (Replied status b, s') =>
          status = 201
          /\ exists sale, sales s' = (sales s ++ [sale])%list
                          /\ sale_id sale = sb_saleId b
                          /\ billNumber sale = sb_billNumber b
                          /\ totalAmount sale = sb_totalAmount b
      | (Refused status e, s') =>
          s' = s
          /\ (status = 400 \/ status = 500)
          /\ (status = 500 <-> exists what, e = InternalError what)
      end)
  /\ (forall now body s,
      match postPurchase now body s with
      | (Replied status b, s') =>
          status = 201
          /\ exists pu, purchases s' = (purchases s ++ [pu])%list
                        /\ purchase_id pu = pb_purchaseId b
      | (Refused status e, s') =>
          s' = s
          /\ (status = 400 \/ status = 404 \/ status = 500)
          /\ (status = 404 <-> e = SupplierNotFound \/ exists id, e = VariantNotFound id)
          /\ (status = 500 <-> exists what, e = InternalError what)
      end).
Proof.
  split.
  - intros now body s. unfold postSale.
    destruct (createSale now body s) as [[r|e] s'] eqn:E.
    + split; [reflexivity|].
      apply createSale_steps in E.
      destruct E as (v & bill & sale & s1 & s2 & s3 & _ & Hsale & H1 & H2 & H3 & ->).
      pose proof (keeps_forEach sales _ _ (keeps_sales_saleItem_create _) _ _ _ H1) as K1.
      pose proof (keeps_forEach sales _ _
                    (fun row => keeps_sales_product_decrement _ _) _ _ _ H2) as K2.
      pose proof (keeps_forEach sales _ _ (keeps_sales_payment_create _) _ _ _ H3) as K3.
      apply sale_create_row in Hsale. destruct Hsale as (_ & Ht & _ & Hsales & _).
      exists sale. cbn [sb_saleId sb_billNumber sb_totalAmount r_saleId r_billNumber
                        r_totalAmount].
      split; [now rewrite K3, K2, K1|]. now repeat split.
    + pose proof (createSale_throws now body _ _ _ E) as H404.
      apply allOrNothing_transaction in E. split; [exact E|].
      unfold notA404 in H404.
      destruct e; cbn [statusCode Z.eqb Pos.eqb] in *;
        try (now elim H404);
        (split; [auto|]);
        (split; [intros; try discriminate; eauto|]);
        try (intros [w Hw]; discriminate); try reflexivity.
  - intros now body s. unfold postPurchase.
    destruct (createPurchase now body s) as [[r|e] s'] eqn:E.
    + split; [reflexivity|].
      apply createPurchase_steps in E.
      destruct E as (sid & its & extra & supplier & date & pu & s1
                     & _ & _ & _ & _ & _ & _ & _ & _ & Hpu & Hloop & ->).
      apply purchase_create_row in Hpu. destruct Hpu as (Hrows & _).
      apply forEach_purchaseItemBody_products in Hloop. destruct Hloop as (_ & _ & Hsame).
      exists pu. cbn [pb_purchaseId r_purchaseId]. split; [now rewrite Hsame|reflexivity].
    + apply allOrNothing_createPurchase in E. split; [exact E|].
      destruct e; cbn [statusCode]; (split; [auto|]);
        (split; (split; [intros; try discriminate; eauto|]));
        try (intros [Hw|[w Hw]]; discriminate);
        try (intros [w Hw]; discriminate); try reflexivity.
Qed.

End ControllerClaims.

(** ** Reports: sales list and sales profit *)

Section SalesListFacts.
Import Js JsString Db Reports ReportsController ReportExamples.
Local Open Scope string_scope.

Lemma insertSale_perm x l : Permutation (insertSale x l) (x :: l).
Proof.
  induction l as [|y l IH]; cbn [insertSale]; [reflexivity|].
  destruct (Z.leb (soldAt y) (soldAt x)); [reflexivity|].
  rewrite IH. apply perm_swap.
Qed.

Lemma newestFirst_perm l : Permutation (newestFirst l) l.
Proof.
  induction l as [|x l IH]; cbn [newestFirst fold_right]; [reflexivity|].
  fold (newestFirst l). rewrite insertSale_perm. now constructor.
Qed.

Lemma insertSale_sorted x l :
  StronglySorted (fun a b => soldAt b <= soldAt a) l ->
  StronglySorted (fun a b => soldAt b <= soldAt a) (insertSale x l).
Proof.
  induction 1 as [|y l Hl IH Hy]; cbn [insertSale].
  - constructor; constructor.
  - destruct (Z.leb_spec (soldAt y) (soldAt x)) as [Hle|Hgt].
    + constructor; [now constructor|]. constructor; [exact Hle|].
      eapply Forall_impl; [|exact Hy]. cbn. intros z Hz. lia.
    + constructor; [exact IH|].
      eapply Permutation_Forall; [symmetry; apply insertSale_perm|].
      constructor; [lia|exact Hy].
Qed.

Lemma newestFirst_sorted l :
  StronglySorted (fun a b => soldAt b <= soldAt a) (newestFirst l).
Proof.
  induction l as [|x l IH]; cbn [newestFirst fold_right]; [constructor|].
  now apply insertSale_sorted.
Qed.

(** The answers of the two handlers that validate their dates. *)
Lemma validated_period host from to s :
  salesInPeriod host (validateDateParam host from) (validateDateParam host to) s
  = newestFirst (salesBetween (periodStart host from) (periodEnd host to) s).
Proof. reflexivity. Qed.

Lemma getSalesList_cases host from to s :
  (invalidDate host from /\ getSalesList host from to s = Failure 400 INVALID_FROM)
  \/ (~ invalidDate host from /\ invalidDate host to
      /\ getSalesList host from to s = Failure 400 INVALID_TO)
  \/ (~ invalidDate host from /\ ~ invalidDate host to
      /\ getSalesList host from to s
         = Json (map (saleListRow s)
                     (newestFirst (salesBetween (periodStart host from)
                                                (periodEnd host to) s)))).
Proof.
  unfold getSalesList, invalidDate. cbv zeta. rewrite <- validated_period.
  destruct (validateDateParam host from) as [|v|d] eqn:Ef;
    destruct (validateDateParam host to) as [|w|e] eqn:Et;
    try (left; split; [eauto|reflexivity]);
    try (right; left; split; [intros [x Hx]; discriminate|];
         split; [eauto|reflexivity]);
    right; right; (split; [intros [x Hx]; discriminate|]);
    (split; [intros [x Hx]; discriminate|reflexivity]).
Qed.

End SalesListFacts.

Section SalesListClaims.
Import Js JsString Db Reports ReportsController ReportExamples.
Local Open Scope string_scope.

(** X25. The sales list shows the sales of the period, newest first.
    It is refused with status 400 when [from], or else [to], is there and
    is not a date of the form YYYY-MM-DD, naming the first of the two
    that is not.  Otherwise its rows are the sales of the store sold
    within the period, each once, no row older than the row before it;
    a row carries the id, bill number, time and total of its sale, one
    item per sale item with its quantity, and the units of these items
    as [totalItems]. *)
Theorem sales_list_is_newest_first host from to s :
  match getSalesList host from to s with
  | Json rows =>
      ~ invalidDate host from /\ ~ invalidDate host to
      /\ exists sales_,
           Permutation sales_
                       (salesBetween (periodStart host from) (periodEnd host to) s)
           /\ StronglySorted (fun a b => soldAt b <= soldAt a) sales_
           /\ Forall2 (fun row sale =>
                lr_saleId row = sale_id sale
                /\ lr_billNumber row = billNumber sale
                /\ lr_soldAt row = soldAt sale
                /\ lr_totalAmount row = totalAmount sale
                /\ map li_quantity (lr_items row)
                   = map saleItem_quantity (itemsOf s sale)
                /\ lr_totalItems row = fold_right Z.add 0 (map li_quantity (lr_items row)))
              rows sales_
  | Failure status error =>
      status = 400
      /\ ((invalidDate host from /\ error = INVALID_FROM)
          \/ (~ invalidDate host from /\ invalidDate host to /\ error = INVALID_TO))
  end.
Proof.
  destruct (getSalesList_cases host from to s)
    as [[Hf ->]|[(Hf & Ht & ->)|(Hf & Ht & ->)]].
  - split; [reflexivity|]. left. now split.
  - split; [reflexivity|]. right. now repeat split.
  - split; [exact Hf|]. split; [exact Ht|].
    exists (newestFirst (salesBetween (periodStart host from) (periodEnd host to) s)).
    split; [apply newestFirst_perm|]. split; [apply newestFirst_sorted|].
    induction (newestFirst _) as [|sale l IH]; cbn [map]; constructor; [|exact IH].
    unfold saleListRow. cbv zeta.
    cbn [lr_saleId lr_billNumber lr_soldAt lr_totalAmount lr_items lr_totalItems
         lr_payments].
    repeat split.
    + rewrite map_map. reflexivity.
    + rewrite (sum_fold_left_Z saleItem_quantity), Z.add_0_l, map_map.
      cbn [li_quantity]. induction (itemsOf s sale) as [|i its IHi]; [reflexivity|].
      cbn [fold_right map]. now rewrite IHi.
Qed.

End SalesListClaims.

Section SalesProfitClaims.
Import Js JsString Db Reports ReportsController ReportExamples.
Local Open Scope string_scope.

Lemma getSalesProfit_cases host from to s :
  (invalidDate host from /\ getSalesProfit host from to s = Failure 400 INVALID_FROM)
  \/ (~ invalidDate host from /\ invalidDate host to
      /\ getSalesProfit host from to s = Failure 400 INVALID_TO)
  \/ (~ invalidDate host from /\ ~ invalidDate host to
      /\ exists avgCost_ total,
           getSalesProfit host from to s
           = Json (mkProfitReport from to
                     (map (profitRow s avgCost_)
                          (newestFirst (salesBetween (periodStart host from)
                                                     (periodEnd host to) s)))
                     total)).
Proof.
  unfold getSalesProfit, invalidDate. cbv zeta. rewrite <- validated_period.
  destruct (validateDateParam host from) as [|v|d] eqn:Ef;
    destruct (validateDateParam host to) as [|w|e] eqn:Et;
    try (left; split; [eauto|reflexivity]);
    try (right; left; split; [intros [x Hx]; discriminate|];
         split; [eauto|reflexivity]);
    right; right; (split; [intros [x Hx]; discriminate|]);
    (split; [intros [x Hx]; discriminate|]);
    do 2 eexists; reflexivity.
Qed.

(** X26. The sales profit lists the sales of the period, newest first.
    It is refused with status 400 when [from], or else [to], is there and
    is not a date of the form YYYY-MM-DD, naming the first of the two
    that is not.  Otherwise it answers with [from] and [to] as they were
    asked and one row per sale of the store sold within the period, no
    row older than the row before it; a row carries the id, bill number,
    time and total of its sale. *)
Theorem sales_profit_lists_the_sales_of_the_period host from to s :
  match getSalesProfit host from to s with
  | Json r =>
      ~ invalidDate host from /\ ~ invalidDate host to
      /\ pf_from r = from /\ pf_to r = to
      /\ exists sales_,
           Permutation sales_
                       (salesBetween (periodStart host from) (periodEnd host to) s)
           /\ StronglySorted (fun a b => soldAt b <= soldAt a) sales_
           /\ Forall2 (fun row sale =>
                pr_saleId row = sale_id sale
                /\ pr_billNumber row = billNumber sale
                /\ pr_soldAt row = soldAt sale
                /\ pr_totalAmount row = totalAmount sale)
              (pf_sales r) sales_
  | Failure status error =>
      status = 400
      /\ ((invalidDate host from /\ error = INVALID_FROM)
          \/ (~ invalidDate host from /\ invalidDate host to /\ error = INVALID_TO))
  end.
Proof.
  destruct (getSalesProfit_cases host from to s)
    as [[Hf ->]|[(Hf & Ht & ->)|(Hf & Ht & avg & total & ->)]].
  - split; [reflexivity|]. left. now split.
  - split; [reflexivity|]. right. now repeat split.
  - cbn [pf_from pf_to pf_sales].
    split; [exact Hf|]. split; [exact Ht|]. split; [reflexivity|]. split; [reflexivity|].
    exists (newestFirst (salesBetween (periodStart host from) (periodEnd host to) s)).
    split; [apply newestFirst_perm|]. split; [apply newestFirst_sorted|].
    induction (newestFirst _) as [|sale l IH]; cbn [map]; constructor; [|exact IH].
    unfold profitRow. cbv zeta.
    cbn [pr_saleId pr_billNumber pr_soldAt pr_totalAmount]. now repeat split.
Qed.

End SalesProfitClaims.
